(* ===== verification/_CoqProject ===== *)
-Q . S2P
Prelude.v
PyStr.v
PyDict.v
Json.v
JsonPattern.v
IpAddr.v
IpAddrText.v
Url.v
Sys.v
Sample.v
Config.v
Redaction.v
RedactionFacts.v
RedactionSpec.v
Request.v
IpExtraction.v
PathMatching.v
TTL.v
Redis.v
SecurityHeaders.v
Cors.v
IpBan.v
RateLimit.v
Cloud.v
AccessControl.v
DetectionConfig.v
BodyReader.v
Scan.v
ScanFacts.v
ScanSpec.v
SampleScan.v
LiveConfig.v
Preprocessor.v
Suspatterns.v
SuspatternsDetect.v
SuspatternsFacts.v
SusVerdict.v
SusRegistry.v
SampleDetection.v
Middleware.v
DynamicRules.v
Helpers.v
RateLimiter.v
SampleEngine.v
Checks.v
Pipeline.v
Behavior.v
Decorators.v
Validator.v
Responses.v
CheckFacts.v
Enforcement.v
Clearance.v
Screening.v
BehaviorFacts.v
Dispatch.v
DecoratorFacts.v
Honeypot.v
Telemetry.v
