(* ===== verification/Prelude.v ===== *)
(** * guard-core: a verification development

    guard-core is the engine behind a family of web-framework middlewares.  A
    request is resolved to a client address and a route, and is then shown to a
    pipeline of checks (bans, address lists, countries, clouds, credentials,
    headers, rate limits, attack detection, ...); the first check that objects
    answers the request.  The checks read and write shared services: a ban
    manager, a rate limiter, the ranges of the cloud providers, a pattern handler,
    all with an optional Redis behind them.  Around the pipeline are the bypass of
    excluded paths, rules on behaviour over time, rules pushed by an agent, CORS and
    security headers.  This library models that engine, the asynchronous sources
    under [src/guard_core], and proves what it promises.

    ** Files

    Foundations:
    - [Prelude]: results and exceptions, the state monad [M] of the operations,
      its proof frameworks ([keeps R m]: every run of [m] relates its first and
      last states by [R]; [wp m Q s]: what holds when [m] ends; [returns Q m]: what
      holds of its value; [settles m f]: from every state [m] returns the value that
      [f] says; [ends P Q m]: a value in [P] or an exception in [Q]), tactics, and the generic list and arithmetic lemmas.
    - [PyStr], [PyDict], [Json], [TTL]: what the sources use of Python's [str] and
      [int], of insertion-ordered dictionaries ([_utils/lru_store.py] included), of
      [json], and of [cachetools.TTLCache].
    - [IpAddr], [IpAddrText]: [ipaddress]: addresses and networks, parsing,
      printing, containment, and that printing and parsing are inverse.
    - [Sys]: the world the operations act on: clocks, log, agent, Redis server.
      [Env] is the class of everything outside the sources.
    - [Url]: what the sources use of [urllib.parse]; [TextServices] is the class of
      what they use of Unicode and of the interpreter's limits.
    - [Config], [Request]: the configuration, the routes, the request.
    - [Sample], [SampleEngine], [SampleScan], [SampleDetection]: concrete worlds,
      handlers and requests for the witnesses.

    - [Redaction] ([_utils/request_logging.py], [logging_utils.py],
      [pair_redaction.py], [pair_value_scan.py], [pair_hidden_assign.py]): what is
      shown of URLs, headers, texts and JSON values in logs, events, reports and
      previews; [RedactionFacts], [RedactionSpec]: that it ends, what it raises and
      what it hides.

    Services:
    - [IpExtraction] ([_utils/ip_extraction.py]), [PathMatching]
      ([core/validation/path_matching.py]), [Redis] ([handlers/redis_handler.py]),
      [IpBan] ([handlers/ipban_handler.py] and [_ipban_*.py]), [RateLimit] and
      [RateLimiter] ([handlers/ratelimit_handler.py], [scripts/rate_lua.py]),
      [Cloud] ([handlers/cloud_handler.py], [cloud_ip_stores.py]), [AccessControl]
      ([_utils/access_control.py]), [Cors] ([handlers/cors_handler.py]),
      [SecurityHeaders] ([handlers/security_headers_handler.py] and
      [_security_headers_*.py]), [Validator] ([core/validation/validator.py]).
    - [LiveConfig]: assignment to the configuration in use ([models.py] and the
      validators); [DynamicRules]: the rules the agent pushes
      ([handlers/dynamic_rule_handler.py] and [_dynamic_rule_*.py]).
    - [Decorators], [DecoratorFacts] ([decorators/]): the rules that decorators give to
      functions, under which identifiers, and the counter by which the pipeline
      notices; [Honeypot]: the validator of trap fields ([decorators/advanced.py]).
    - [JsonPattern] ([_behavior_json_pattern.py]; also [str], [repr] and [bool] of JSON
      data), [Behavior], [BehaviorFacts]: rules on behaviour over time
      ([handlers/behavior_handler.py], [_behavior_*.py], [core/behavioral]).

    Attack detection:
    - [DetectionConfig], [BodyReader], [Scan]: the scan of a request
      ([_utils/penetration_detection.py], [body_reader.py], [body_*_scan.py], ...);
      [ScanFacts], [ScanSpec]: its budgets and errors, and what it is a scan of.
    - [Preprocessor] ([detection_engine/preprocessor.py], [truncation.py],
      [encoding_decoders.py]), [Suspatterns], [SuspatternsDetect]
      ([handlers/suspatterns_handler.py] and [_suspatterns_*.py]): the pattern
      handler; [SuspatternsFacts], [SusVerdict], [SusRegistry]: that it answers,
      which function its answer is, and that its registry is consistent.

    The engine:
    - [Middleware]: the services the checks share ([core/events], [core/responses],
      [core/routing], [_utils/block_events.py], [_utils/request_logging.py]), the
      [World] they act on, and the class [Engine] of what they take as given.
    - [Helpers] ([core/checks/helpers.py]), [Checks] ([core/checks/implementations]),
      [Pipeline] ([core/checks/pipeline.py], [factory.py]).
    - [Responses] ([core/responses/factory.py], [core/events/metrics.py]): the way of
      a response out; [Dispatch]: a request from end to end ([core/bypass]).
    - [Telemetry] ([core/events/composite_handler.py], [enricher.py]): the fan-out of
      events and metrics to several handlers, and what is added to them.
    - [CheckFacts], [Enforcement], [Clearance], [Screening]: theorems about the
      pipeline of the default checks as a whole: what holds of a request, of its
      client, and of its contents, when it is admitted.

    ** How the model corresponds to the code

    An operation is a function from its state to a result and a new state:
    [M St A = St -> res A * St], where [res] is a value or a raised exception and
    the state is kept when one is raised, as an object's attributes are.  [async]
    operations are modelled as they run between suspension points, that is, as
    one step; interleavings of calls appear in the theorems as sequences of
    operations ([IpBan.run_ops], [RateLimit.run_hits], [SusRegistry.registered]).  A
    singleton's attributes are the fields of a record ([BanManager],
    [RateLimitManager], [CloudManager], [Pipeline], [SusPatternsManager], ...).  Definitions
    carry the names of the functions they model, with a prefix where two modules
    share a name.

    Time is in microseconds, an integer; the [n]-th reading of a clock is
    [clock n] or [monotonic n], and a theorem that needs the clock to go forward
    says so.  Floating-point subtleties of the timestamps are not modelled; scores
    and weights are counted in millionths.  Text is limited to the characters below
    U+0100; [PathMatching] works on code points because percent-decoding does.  Where
    the sources make other characters of such a text, the model says so instead of
    going on: a JSON text with an escape of one makes [Json.loads] raise the marker
    [BeyondLatin1], which is no exception of Python, which the handlers of its errors pass on
    and which the theorems about errors name, and a match of the pattern engine says
    whether what it has matched can be encoded ([Suspatterns.rm_encodable]).  Settings
    the configuration does not check, and those found in Redis, are JSON data of any
    shape ([SecurityHeaders]).
    Callables of the configuration (verifiers, hooks, validators) are named by
    strings and behave as the class [Engine] says.

    What is not under [src/] is a parameter: the Redis server and its commands,
    the clocks, SHA-256, uuid4, the agent ([Sys.Env]); the decoding of bytes that are
    not ASCII, [unicodedata.lookup], the recursion limit of [json.loads], and the text and
    the order of floating-point numbers ([Url.TextServices]); the feeds of the cloud
    providers ([Cloud.CloudFeeds]); the body of a request as its adapter delivers it
    ([BodyReader.RequestBody]); the [email] parser ([Scan.ScanServices]); the [re]
    engine and the table of patterns ([Suspatterns.PatternEngine]); decoders beyond
    Latin-1 ([Preprocessor.Decoders]); framework adapters and user callables
    ([Middleware.Engine], the ReDoS validator ([Decorators.PatternSafety]),
    [LiveConfig.ConfigServices], [DynamicRules.RuleServices],
    [Behavior.BehaviorServices], [Telemetry.TelemetryHandlers]).  A component that calls another through an
    interface has a class for it, which the other component implements: the scan
    asks a [BodyReader.Detector], and [SuspatternsDetect.sus_detector] is one; the
    checks ask [Engine.run_detection], and [Screening.scan_detection] is the scan.  A
    theorem that relies on more than types has a hypothesis for it (for instance
    [RateLimit.ZSetLaws] and [Redis.StringLaws], the documented meaning of Redis'
    commands, [RedactionFacts.TextLaws], that bytes which are not
    ASCII decode to characters which are not, or [SusVerdict.Prompt], that searches end in time), and the samples
    instantiate them.  Redaction can raise, and the sources call it unguarded in many
    places, so theorems about responses, bans and verdicts say for which requests they
    speak: those whose texts can be shown ([Middleware.request_shown]); what happens to
    the others is in the examples ([Pipeline.unshown_paths_pass] is one).

    ** What the theorems show

    - The engine.  A ban is enforced: from the ban manager ([IpBan.ban_is_enforced])
      to the answer of the pipeline ([Enforcement.banned_clients_are_refused]).  An
      admitted request meets the rules of its route
      ([Enforcement.admitted_requests_meet_route_rules]), comes from a client that
      the rules on addresses allow ([Clearance.admitted_clients_are_cleared]), and
      holds nothing dangerous ([Screening.admitted_requests_are_clean]).  The
      application has a say only when a request was admitted
      ([Dispatch.application_needs_admission]).  Rules that come after the pipeline was built are
      enforced as well, rules stay with their functions, and decorators that exclude
      each other are refused ([DecoratorFacts]); a filled honeypot is refused
      ([Honeypot]).  What the pipeline admits is described by the relation [Pipeline.admits].
    - The scan of a request reports a threat exactly when one of the pieces of the
      request is dangerous ([ScanSpec.scan_verdict]); it ends, within its budget, and
      raises only what is listed ([ScanFacts]).
    - Redaction hides every value of a single word under a sensitive name of a query, and what is shown
      of JSON values and headers does not depend on their secrets; it ends, and raises
      one of three known errors, on texts within Latin-1 ([RedactionSpec]).
    - The detection ends for every text, with an answer or one of three errors; its
      answer is a function of the text when
      searches end in time and what is found can be shown; no pattern is left out by the views of the text, by
      duplicates or by the truncation of long texts ([SuspatternsFacts],
      [SusVerdict], [Preprocessor]).  The registry of patterns stays in step, and
      custom patterns survive a restart ([SusRegistry]).
    - Rate limiting is a sliding window, in memory and in Redis, and the two agree;
      no window admits more than the limit.
    - The client's address cannot be forged from the left of the forwarded chain.
    - The access decision, the excluded paths, the preflight answers and the finished
      response each equal a declarative description.
    - Rules of the agent leave no trace when they have expired; assignment to the
      configuration keeps it valid; security headers hold no line break, but for two values the code does not check, and
      survive a restart; behaviour rules count exactly and ban violators.
    - Every telemetry handler gets every event that is not muted, whatever the others
      raise, and a handler that fails to start shows ([Telemetry]).

    ** Fuel and bounds

    Most recursions are structural.  Where the source loops on a condition, the fuel
    is a bound the source itself implies, and a theorem says it is enough: [Json.loads]
    has twice the length of its text; the redaction of texts in texts has twice the
    length of the text and two ([Redaction.nesting]), and its loop over pairs the length
    of the text ([RedactionSpec.redaction_errors_are_known]: running out is none of the
    errors); the search for a free route identifier has the
    number of routes and one ([DecoratorFacts.free_id_free]), and the chain of wrapped
    functions the number of functions and two ([DecoratorFacts.chain_of_fuel]); [Scan._check_value_enhanced] has what is left
    of the budget of values ([ScanFacts.check_enhanced_safe]); [Scan.scan_stack] the
    size of the JSON value ([ScanFacts.stack_safe]); the rounds of decoding have the
    source's own limits ([Preprocessor.decoding_reaches_the_bottom]: when the sixteen
    rounds are used up a flag says so).  The fuel of [ScanSpec.request_items] is the
    depth to which texts are nested in texts; the specification holds for every fuel
    for which it is defined.

    ** Not modelled, and why

    - The table of built-in patterns and the hand-written matchers and validators
      that bound [re] ([_suspatterns_pattern_table.py], [_suspatterns_matchers.py] and
      the like): regular expressions of the [re] module; the pattern handler is
      modelled over any table and engine.  The ReDoS analysis of [detection_engine]
      walks the parse trees of [re]; the cache of compiled patterns
      ([detection_engine/compiler.py]) goes with it.
    - The statistics of the performance monitor and the scores of the semantic
      analyser: floating-point heuristics; parameters.
    - [ipinfo_handler.py], the telemetry exporters and the agent: input and output
      through third-party packages.
    - The wiring of the handlers at start-up ([core/initialization]).
    - [src/guard_core/sync] is generated from the sources modelled here
      ([src/scripts/unasync.py]).
*)
From Stdlib Require Export ZArith Lia Ascii.
From stdpp Require Export base tactics option numbers strings gmap list.
From coqutil Require Export Datatypes.RecordSetters.
Export DoubleBraceUpdate.

#[global] Arguments constant {E} newValue _ /.

#[export] Set Default Proof Using "Type".

(** * Results and exceptions *)

(** The exceptions the modelled code raises or catches, by class. *)
Inductive exn : Type :=
| ValueError (msg : string)
| KeyError (msg : string)
| IndexError (msg : string)
| TypeError (msg : string)
| RedisError (msg : string)
| NoScriptError (msg : string)
| GuardRedisError (status_code : Z) (detail : string)
| OtherError (cls msg : string).

#[export] Instance exn_eq_dec : EqDecision exn.
Proof. solve_decision. Defined.

(** [str(error)]: the message of an exception. *)
Definition exn_message (e : exn) : string :=
  match e with
  | ValueError m | KeyError m | IndexError m | TypeError m
  | RedisError m | NoScriptError m | GuardRedisError _ m | OtherError _ m => m
  end.

(** [isinstance(e, ValueError)] and the like. *)
Definition is_value_error (e : exn) : bool :=
  match e with ValueError _ => true | _ => false end.

Definition is_index_error (e : exn) : bool :=
  match e with IndexError _ => true | _ => false end.

Definition is_guard_redis_error (e : exn) : bool :=
  match e with GuardRedisError _ _ => true | _ => false end.

(** [redis.exceptions.NoScriptError] is a subclass of [RedisError]. *)
Definition is_redis_error (e : exn) : bool :=
  match e with RedisError _ | NoScriptError _ => true | _ => false end.

Inductive res (A : Type) : Type :=
| Ok (a : A)
| Raise (e : exn).
Arguments Ok {_} _.
Arguments Raise {_} _.

#[export] Instance res_eq_dec {A} `{EqDecision A} : EqDecision (res A).
Proof. solve_decision. Defined.

(** * The state-and-exception monad *)

(** A Python call: it reads and changes a state and returns or raises; the
    state reached when it raises is kept, as in Python. *)
Definition M (S A : Type) : Type := S -> res A * S.

Definition ret {S A} (a : A) : M S A := fun s => (Ok a, s).

Definition raise {S A} (e : exn) : M S A := fun s => (Raise e, s).

Definition bind {S A B} (m : M S A) (k : A -> M S B) : M S B :=
  fun s =>
    match m s with
    | (Ok a, s') => k a s'
    | (Raise e, s') => (Raise e, s')
    end.

(** [try: m except <the classes p selects> as e: h e] *)
Definition catch {S A} (p : exn -> bool) (m : M S A) (h : exn -> M S A) : M S A :=
  fun s =>
    match m s with
    | (Raise e, s') => if p e then h e s' else (Raise e, s')
    | r => r
    end.

(** [except Exception] *)
Definition any_exn (e : exn) : bool := true.

Definition get {S} : M S S := fun s => (Ok s, s).
Definition put {S} (s : S) : M S unit := fun _ => (Ok tt, s).
Definition modify {S} (f : S -> S) : M S unit := fun s => (Ok tt, f s).
Definition gets {S A} (f : S -> A) : M S A := fun s => (Ok (f s), s).

(** A pure computation that may raise, run without touching the state. *)
Definition lift_res {S A} (r : res A) : M S A := fun s => (r, s).

(** A call on a part of the state: [view] reads the part, [upd] writes it
    back. *)
Definition zoom {W S A} (view : W -> S) (upd : S -> W -> W) (m : M S A) : M W A :=
  fun w => let '(r, s) := m (view w) in (r, upd s w).

(** [if b: m] *)
Definition when {S} (b : bool) (m : M S unit) : M S unit :=
  if b then m else ret tt.

(** [for x in l: body x], left to right. *)
Fixpoint for_each {S A} (l : list A) (body : A -> M S unit) : M S unit :=
  match l with
  | [] => ret tt
  | x :: l' => bind (body x) (fun _ => for_each l' body)
  end.

Declare Scope guard_scope.
Delimit Scope guard_scope with guard.

Notation "'let*' x ':=' m 'in' k" := (bind m (fun x => k))
  (at level 10, x pattern at level 60, m at level 100, k at level 200,
   format "'let*'  x  ':='  m  'in' '//' k") : guard_scope.
Notation "m ;;; k" := (bind m (fun _ => k))
  (at level 199, right associativity, format "m  ;;; '//' k") : guard_scope.

#[export] Set Warnings "-notation-overridden".
Open Scope guard_scope.

(** [for x in l: if (r := f x) is not None: return r], then [None]. *)
Fixpoint first_some {S A B} (l : list A) (f : A -> M S (option B)) : M S (option B) :=
  match l with
  | [] => ret None
  | x :: l' =>
      let* r := f x in
      match r with
      | Some b => ret (Some b)
      | None => first_some l' f
      end
  end.

(** * Weakest preconditions *)

(** [wp m Q s]: running [m] from [s] ends in a result and a state in [Q]. *)
Definition wp {S A} (m : M S A) (Q : res A -> S -> Prop) (s : S) : Prop :=
  Q (fst (m s)) (snd (m s)).

Section wp.
Context {S : Type}.

Lemma wp_run {A} (m : M S A) Q s r s' : m s = (r, s') -> wp m Q s <-> Q r s'.
Proof. unfold wp. by intros ->. Qed.

Lemma wp_mono {A} (m : M S A) (P Q : res A -> S -> Prop) s :
  wp m P s -> (forall r s', P r s' -> Q r s') -> wp m Q s.
Proof. unfold wp. auto. Qed.

Lemma wp_ret {A} (a : A) (Q : res A -> S -> Prop) s : Q (Ok a) s -> wp (ret a) Q s.
Proof. done. Qed.

Lemma wp_raise {A} e (Q : res A -> S -> Prop) s : Q (Raise e) s -> wp (raise e) Q s.
Proof. done. Qed.

Lemma wp_gets {A} (f : S -> A) (Q : res A -> S -> Prop) s :
  Q (Ok (f s)) s -> wp (gets f) Q s.
Proof. done. Qed.

Lemma wp_modify (f : S -> S) (Q : res unit -> S -> Prop) s :
  Q (Ok tt) (f s) -> wp (modify f) Q s.
Proof. done. Qed.

Lemma wp_lift_res {A} (x : res A) (Q : res A -> S -> Prop) s : Q x s -> wp (lift_res x) Q s.
Proof. done. Qed.

Lemma wp_bind {A B} (m : M S A) (k : A -> M S B) (Q : res B -> S -> Prop) s :
  wp m (fun r s' => match r with Ok a => wp (k a) Q s' | Raise e => Q (Raise e) s' end) s ->
  wp (bind m k) Q s.
Proof. unfold wp, bind. destruct (m s) as [[a|e] s']; done. Qed.

Lemma wp_catch {A} (p : exn -> bool) (m : M S A) h (Q : res A -> S -> Prop) s :
  wp m (fun r s' => match r with
                    | Ok a => Q (Ok a) s'
                    | Raise e => if p e then wp (h e) Q s' else Q (Raise e) s'
                    end) s ->
  wp (catch p m h) Q s.
Proof. unfold wp, catch. destruct (m s) as [[a|e] s']; simpl; [done|]. by destruct (p e). Qed.

Lemma wp_when b (m : M S unit) (Q : res unit -> S -> Prop) s :
  (b = true -> wp m Q s) -> (b = false -> Q (Ok tt) s) -> wp (when b m) Q s.
Proof. destruct b; intros H1 H2; [by apply H1 | by apply wp_ret, H2]. Qed.

(** A loop keeps an invariant that every iteration keeps. *)
Lemma wp_for_each {A} (l : list A) (body : A -> M S unit) (I : S -> Prop) s :
  I s ->
  (forall x s, x ∈ l -> I s -> wp (body x) (fun _ s' => I s') s) ->
  wp (for_each l body) (fun _ s' => I s') s.
Proof.
  revert s; induction l as [|x l IH]; intros s Hs Hb; [by apply wp_ret|].
  simpl. apply wp_bind. eapply wp_mono; [apply Hb; [left|done]|].
  intros [[]|e] s' Hs'; [|done]. apply IH; [done|].
  intros y t Hy. apply Hb. by right.
Qed.
End wp.

Lemma wp_zoom {W S A} view upd (m : M S A) (Q : res A -> W -> Prop) w :
  wp m (fun r s => Q r (upd s w)) (view w) -> wp (zoom view upd m) Q w.
Proof. unfold wp, zoom. destruct (m (view w)); done. Qed.

Lemma bind_ret_l {S A B} (a : A) (k : A -> M S B) : bind (ret a) k = k a.
Proof. done. Qed.

Lemma bind_ok {S A B} (m : M S A) (k : A -> M S B) s a s' :
  m s = (Ok a, s') -> bind m k s = k a s'.
Proof. unfold bind. by intros ->. Qed.

Lemma bind_raise {S A B} (m : M S A) (k : A -> M S B) s e s' :
  m s = (Raise e, s') -> bind m k s = (Raise e, s').
Proof. unfold bind. by intros ->. Qed.

(** Inversion of a run that returned. *)
Lemma bind_ok_inv {S A B} (m : M S A) (k : A -> M S B) s b s2 :
  bind m k s = (Ok b, s2) -> exists a s1, m s = (Ok a, s1) /\ k a s1 = (Ok b, s2).
Proof. unfold bind. destruct (m s) as [[a|e] s1]; [eauto|done]. Qed.

(** Inversion of a run that raised. *)
Lemma bind_raise_inv {S A B} (m : M S A) (k : A -> M S B) s e :
  fst (bind m k s) = Raise e -> fst (m s) = Raise e \/ exists a s1, m s = (Ok a, s1) /\ fst (k a s1) = Raise e.
Proof. unfold bind. destruct (m s) as [[a|x] s1]; cbn; [eauto|]. intros [= <-]. by left. Qed.

Lemma run_pair {S A} (m : res A * S) (r : res A) : fst m = r -> m = (r, snd m).
Proof. destruct m. by intros <-. Qed.

(** * Relations a computation keeps *)

(** [m] leads from any state to a related one, whether it returns or raises. *)
Definition keeps {S A} (R : S -> S -> Prop) (m : M S A) : Prop := forall s, R s (snd (m s)).

Section keeps.
Context {S : Type} (R : S -> S -> Prop) `{!PreOrder R}.

Lemma keeps_ret {A} (a : A) : keeps R (ret a).
Proof using All. intros s. simpl. reflexivity. Qed.

Lemma keeps_raise {A} e : keeps R (@raise S A e).
Proof using All. intros s. simpl. reflexivity. Qed.

Lemma keeps_gets {A} (f : S -> A) : keeps R (gets f).
Proof using All. intros s. simpl. reflexivity. Qed.

Lemma keeps_lift_res {A} (x : res A) : keeps R (lift_res x).
Proof using All. intros s. simpl. reflexivity. Qed.

Lemma keeps_modify f : (forall s, R s (f s)) -> keeps R (modify f).
Proof. intros H s. apply H. Qed.

Lemma keeps_bind {A B} (m : M S A) (k : A -> M S B) : keeps R m -> (forall a, keeps R (k a)) -> keeps R (bind m k).
Proof using All.
  intros Hm Hk s. unfold bind. specialize (Hm s). destruct (m s) as [[a|e] s1]; simpl in *; [|done].
  etransitivity; [exact Hm|apply Hk].
Qed.

Lemma keeps_catch {A} p (m : M S A) h : keeps R m -> (forall e, keeps R (h e)) -> keeps R (catch p m h).
Proof using All.
  intros Hm Hh s. unfold catch. specialize (Hm s). destruct (m s) as [[a|e] s1]; simpl in *; [done|].
  destruct (p e); [|done]. etransitivity; [exact Hm|apply Hh].
Qed.

Lemma keeps_when b m : keeps R m -> keeps R (when b m).
Proof using All. intros Hm. destruct b; [exact Hm|apply keeps_ret]. Qed.

Lemma keeps_for_each {A} (l : list A) body : (forall x, keeps R (body x)) -> keeps R (for_each l body).
Proof using All.
  intros Hb. induction l as [|x l IH]; [apply keeps_ret|]. apply keeps_bind; [apply Hb|intros _; exact IH].
Qed.

Lemma keeps_first_some {A B} (l : list A) (f : A -> M S (option B)) :
  (forall x, keeps R (f x)) -> keeps R (first_some l f).
Proof using All.
  intros Hf. induction l as [|x l IH]; [apply keeps_ret|]. apply keeps_bind; [apply Hf|].
  intros [b|]; [apply keeps_ret|exact IH].
Qed.
End keeps.

Lemma keeps_zoom {W S A} (R : S -> S -> Prop) (R' : W -> W -> Prop) view upd (m : M S A) :
  (forall w s, R (view w) s -> R' w (upd s w)) -> keeps R m -> keeps R' (zoom view upd m).
Proof. intros H Hm w. unfold zoom. specialize (Hm (view w)). destruct (m (view w)) as [r s]. by apply H. Qed.

Lemma wp_keeps {S A} (R : S -> S -> Prop) (m : M S A) s : keeps R m -> wp m (fun _ s' => R s s') s.
Proof. intros H. apply H. Qed.

Lemma keeps_weaken {S A} (R R' : S -> S -> Prop) (m : M S A) :
  (forall s s', R s s' -> R' s s') -> keeps R m -> keeps R' m.
Proof. intros H Hm s. apply H, Hm. Qed.

(** * Results *)

(** Whatever [m] returns is in [P]. *)
Definition returns {S A} (P : A -> Prop) (m : M S A) : Prop := forall s a, fst (m s) = Ok a -> P a.

Definition option_list {A} (o : option A) : list A := match o with Some a => [a] | None => [] end.

Section returns.
Context {S : Type}.

Lemma returns_ret {A} (P : A -> Prop) (a : A) : P a -> returns P (@ret S A a).
Proof. intros Ha s b [= <-]. exact Ha. Qed.

Lemma returns_raise {A} (P : A -> Prop) e : returns P (@raise S A e).
Proof. by intros s b [=]. Qed.

Lemma returns_bind {A B} (Q : A -> Prop) (P : B -> Prop) (m : M S A) (k : A -> M S B) :
  returns Q m -> (forall a, Q a -> returns P (k a)) -> returns P (bind m k).
Proof.
  intros Hm Hk s b. unfold bind. specialize (Hm s). destruct (m s) as [[a|e] s']; cbn [fst] in *; [|done].
  intros Hb. by eapply Hk; [apply Hm|].
Qed.

Lemma returns_then {A B} (P : B -> Prop) (m : M S A) (k : A -> M S B) :
  (forall a, returns P (k a)) -> returns P (bind m k).
Proof. intros Hk. by apply (returns_bind (fun _ => True)). Qed.

Lemma returns_catch {A} (P : A -> Prop) p (m : M S A) h :
  returns P m -> (forall e, returns P (h e)) -> returns P (catch p m h).
Proof.
  intros Hm Hh s b. unfold catch. specialize (Hm s). destruct (m s) as [[a|e] s']; cbn [fst] in *; [apply Hm|].
  destruct (p e); [apply Hh|done].
Qed.
End returns.

(** [m] returns, whatever the state, and a result in [P]. *)
Definition settles {S A} (P : A -> Prop) (m : M S A) : Prop := forall s, exists a s', m s = (Ok a, s') /\ P a.

Section settles.
Context {S : Type}.

Lemma settles_ret {A} (P : A -> Prop) (a : A) : P a -> settles P (@ret S A a).
Proof. intros Ha s. by exists a, s. Qed.

Lemma settles_gets {A} (P : A -> Prop) (f : S -> A) : (forall s, P (f s)) -> settles P (gets f).
Proof. intros Hf s. by exists (f s), s. Qed.

Lemma settles_modify (P : unit -> Prop) (f : S -> S) : P tt -> settles P (modify f).
Proof. intros Hf s. by exists tt, (f s). Qed.

Lemma settles_bind {A B} (Q : A -> Prop) (P : B -> Prop) (m : M S A) (k : A -> M S B) :
  settles Q m -> (forall a, Q a -> settles P (k a)) -> settles P (bind m k).
Proof.
  intros Hm Hk s. destruct (Hm s) as (a & s1 & Hrun & Ha). destruct (Hk a Ha s1) as (b & s2 & Hrun' & Hb).
  exists b, s2. unfold bind. by rewrite Hrun.
Qed.

Lemma settles_weaken {A} (P Q : A -> Prop) (m : M S A) : (forall a, P a -> Q a) -> settles P m -> settles Q m.
Proof. intros H Hm s. destruct (Hm s) as (a & s' & Hrun & Ha). exists a, s'. auto. Qed.

Lemma settles_then {A B} (P : B -> Prop) (m : M S A) (k : A -> M S B) :
  settles (fun _ => True) m -> (forall a, settles P (k a)) -> settles P (bind m k).
Proof. intros Hm Hk. eapply settles_bind; [exact Hm|]. intros a _. apply Hk. Qed.

Lemma settles_when (P : unit -> Prop) b (m : M S unit) : P tt -> settles P m -> settles P (when b m).
Proof. intros Hp Hm. destruct b; [done|]. by apply settles_ret. Qed.

(** [try: m except Exception as e: h e] *)
Lemma settles_catch {A} (P : A -> Prop) (m : M S A) h :
  returns P m -> (forall e, settles P (h e)) -> settles P (catch any_exn m h).
Proof.
  intros Hm Hh s. specialize (Hm s). unfold catch, any_exn. destruct (m s) as [[a|e] s']; cbn [fst] in *; [|apply Hh].
  exists a, s'. auto.
Qed.

Lemma settles_returns {A} (P : A -> Prop) (m : M S A) : settles P m -> returns P m.
Proof. intros Hm s a Ha. destruct (Hm s) as (a' & s' & Hrun & Hp). rewrite Hrun in Ha. by injection Ha as <-. Qed.

Lemma settles_first_some {A B} (l : list A) (f : A -> M S (option B)) (g : A -> option B) :
  (forall x, settles (fun r => r = g x) (f x)) -> settles (fun r => r = hd_error (flat_map (fun x => option_list (g x)) l)) (first_some l f).
Proof.
  intros Hf. induction l as [|x l IH]; [by apply settles_ret|]. cbn [first_some flat_map].
  eapply settles_bind; [apply Hf|]. intros r ->. destruct (g x) as [b|]; [by apply settles_ret|exact IH].
Qed.
End settles.

(** [m] returns a value in [P], or raises an exception in [Q]. *)
Definition ends {S A} (P : A -> Prop) (Q : exn -> Prop) (m : M S A) : Prop :=
  forall s, match fst (m s) with Ok a => P a | Raise e => Q e end.

Section ends.
Context {S : Type} (Q : exn -> Prop).

Lemma ends_ret {A} (P : A -> Prop) (a : A) : P a -> ends P Q (@ret S A a).
Proof. by intros Ha s. Qed.

Lemma ends_lift {A} (P : A -> Prop) (r : res A) : match r with Ok a => P a | Raise e => Q e end -> ends P Q (@lift_res S A r).
Proof. by intros Hr s. Qed.

Lemma ends_bind {A B} (P : A -> Prop) (P' : B -> Prop) (m : M S A) (k : A -> M S B) :
  ends P Q m -> (forall a, P a -> ends P' Q (k a)) -> ends P' Q (bind m k).
Proof.
  intros Hm Hk s. unfold bind. specialize (Hm s). destruct (m s) as [[a|e] s']; cbn [fst] in *; [by apply Hk|exact Hm].
Qed.

Lemma ends_then {A B} (P : B -> Prop) (m : M S A) (k : A -> M S B) :
  ends (fun _ => True) Q m -> (forall a, ends P Q (k a)) -> ends P Q (bind m k).
Proof. intros Hm Hk. eapply ends_bind; [exact Hm|]. intros a _. apply Hk. Qed.

Lemma ends_when (P : unit -> Prop) b (m : M S unit) : P tt -> (b = true -> ends P Q m) -> ends P Q (when b m).
Proof. intros Hp Hm. destruct b; [by apply Hm|by apply ends_ret]. Qed.

Lemma ends_settles {A} (P : A -> Prop) (m : M S A) : settles P m -> ends P Q m.
Proof. intros Hm s. destruct (Hm s) as (a & s' & Hrun & Ha). by rewrite Hrun. Qed.

Lemma ends_weaken {A} (P P' : A -> Prop) (m : M S A) : (forall a, P a -> P' a) -> ends P Q m -> ends P' Q m.
Proof. intros H Hm s. specialize (Hm s). destruct (fst (m s)); auto. Qed.
End ends.

(** What raises nothing settles. *)
Lemma settles_ends {S A} (P : A -> Prop) (m : M S A) : ends P (fun _ => False) m -> settles P m.
Proof. intros Hm s. specialize (Hm s). destruct (m s) as [[a|e] s']; [by exists a, s'|done]. Qed.

(** * Automation *)

(** One step of the weakest-precondition calculus. *)
Ltac wp_step :=
  lazymatch goal with
  | |- wp (bind _ _) _ _ => apply wp_bind
  | |- wp (ret _) _ _ => apply wp_ret
  | |- wp (raise _) _ _ => apply wp_raise
  | |- wp (gets _) _ _ => apply wp_gets
  | |- wp (modify _) _ _ => apply wp_modify
  | |- wp (lift_res _) _ _ => apply wp_lift_res
  | |- wp (catch _ _ _) _ _ => apply wp_catch
  | |- wp (when _ _) _ _ => apply wp_when; intros ?
  | |- wp (if ?b then _ else _) _ _ => let H := fresh "Hif" in destruct b eqn:H
  | |- wp (match ?x with _ => _ end) _ _ => let H := fresh "Hm" in destruct x eqn:H
  end.

Ltac wp_steps := repeat (wp_step; simpl).

(** One step of a [keeps] proof; what is left are the primitive steps. *)
Ltac keeps_step :=
  lazymatch goal with
  | |- keeps _ (bind _ _) => apply keeps_bind; [try exact _| |intros ?]
  | |- keeps _ (ret _) => apply keeps_ret; try exact _
  | |- keeps _ (raise _) => apply keeps_raise; try exact _
  | |- keeps _ (gets _) => apply keeps_gets; try exact _
  | |- keeps _ (lift_res _) => apply keeps_lift_res; try exact _
  | |- keeps _ (catch _ _ _) => apply keeps_catch; [try exact _| |intros ?]
  | |- keeps _ (when _ _) => apply keeps_when; try exact _
  | |- keeps _ (for_each _ _) => apply keeps_for_each; [try exact _|intros ?]
  | |- keeps _ (first_some _ _) => apply keeps_first_some; [try exact _|intros ?]
  | |- keeps _ (let '(_, _) := ?x in _) => destruct x
  | |- keeps _ (if ?b then _ else _) => destruct b
  | |- keeps _ (match ?x with _ => _ end) => destruct x
  end.

Ltac keeps_steps := repeat (cbv zeta; keeps_step).

(** One step of a [returns] proof; the result of an inner call is forgotten. *)
Ltac returns_step :=
  lazymatch goal with
  | |- returns _ (bind _ _) => apply returns_then; intros ?
  | |- returns _ (ret _) => apply returns_ret
  | |- returns _ (raise _) => apply returns_raise
  | |- returns _ (catch _ _ _) => apply returns_catch; [|intros ?]
  | |- returns _ (let '(_, _) := ?x in _) => destruct x
  | |- returns _ (if ?b then _ else _) => let H := fresh "Hif" in destruct b eqn:H
  | |- returns _ (match ?x with _ => _ end) => destruct x
  end.

Ltac returns_steps := repeat (cbv zeta; returns_step).

(** Split boolean conjunctions and turn comparisons into propositions. *)
Ltac bool_prop :=
  repeat match goal with
  | H : _ && _ = true |- _ => apply andb_true_iff in H; destruct H
  | H : _ || _ = false |- _ => apply orb_false_iff in H; destruct H
  | H : negb _ = true |- _ => apply negb_true_iff in H
  | H : negb _ = false |- _ => apply negb_false_iff in H
  | H : bool_decide _ = true |- _ => apply bool_decide_eq_true in H
  | H : bool_decide _ = false |- _ => apply bool_decide_eq_false in H
  | H : (_ <=? _)%Z = true |- _ => apply Z.leb_le in H
  | H : (_ <=? _)%Z = false |- _ => apply Z.leb_gt in H
  | H : (_ <? _)%Z = true |- _ => apply Z.ltb_lt in H
  | H : (_ <? _)%Z = false |- _ => apply Z.ltb_ge in H
  | H : (_ =? _)%Z = true |- _ => apply Z.eqb_eq in H
  | H : (_ =? _)%Z = false |- _ => apply Z.eqb_neq in H
  | H : (_ =? _)%string = true |- _ => apply String.eqb_eq in H
  | H : (_ =? _)%string = false |- _ => apply String.eqb_neq in H
  end.

Create HintDb guard.
Create HintDb ticks.

(** * Lists *)

(** [o is not None] *)
Definition is_some {A} (o : option A) : bool := match o with Some _ => true | None => false end.

(** Truthiness of a container: [bool(l)]. *)
Definition nonempty {A} (l : list A) : bool :=
  match l with [] => false | _ => true end.

Lemma nonempty_false {A} (l : list A) : nonempty l = false <-> l = [].
Proof. by destruct l. Qed.

Lemma nonempty_true {A} (l : list A) : nonempty l = true <-> l <> [].
Proof. by destruct l. Qed.

(** [while l and p(l[0]): l.popleft()] *)
Fixpoint drop_while {A} (p : A -> bool) (l : list A) : list A :=
  match l with
  | x :: l' => if p x then drop_while p l' else l
  | [] => []
  end.

Lemma drop_while_suffix {A} (p : A -> bool) l : exists d, l = d ++ drop_while p l.
Proof.
  induction l as [|x l [d IH]]; simpl; [by exists []|].
  destruct (p x); [exists (x :: d); simpl; congruence | by exists []].
Qed.

(** On a list sorted for the test, dropping the leading elements is filtering. *)
Lemma drop_while_filter {A} (p : A -> bool) (l : list A) :
  (forall i j x y, i <= j -> l !! i = Some x -> l !! j = Some y -> p y = true -> p x = true) ->
  drop_while p l = List.filter (fun x => negb (p x)) l.
Proof.
  induction l as [|x l IH]; intros Hs; [done|]. simpl. destruct (p x) eqn:Hx; simpl.
  - apply IH. intros i j a b Hij Ha Hb. apply (Hs (S i) (S j)); [lia|done|done].
  - f_equal. symmetry. apply List.forallb_filter_id, List.forallb_forall.
    intros y Hy%list_elem_of_In%list_elem_of_lookup. destruct Hy as [j Hj].
    destruct (p y) eqn:Hpy; [|done]. simpl.
    rewrite (Hs 0 (S j) x y) in Hx; [done|lia|done|done|done].
Qed.

Lemma filter_perm {A} (f : A -> bool) (l k : list A) : l ≡ₚ k -> List.filter f l ≡ₚ List.filter f k.
Proof.
  induction 1 as [|x l k _ IH|x y l|l k m _ IH1 _ IH2]; simpl; [done| | |by etransitivity].
  - destruct (f x); [by constructor|done].
  - destruct (f x), (f y); try done. apply perm_swap.
Qed.

#[export] Instance filter_perm_proper {A} (f : A -> bool) : Proper ((≡ₚ) ==> (≡ₚ)) (List.filter f).
Proof. intros l k. apply filter_perm. Qed.

Lemma filter_map {A B} (f : B -> bool) (g : A -> B) (l : list A) :
  List.filter f (map g l) = map g (List.filter (fun x => f (g x)) l).
Proof. induction l as [|x l IH]; [done|]. simpl. destruct (f (g x)); simpl; by rewrite IH. Qed.
