(* ===== verification/PyStr.v ===== *)
(** Python [str] operations the program uses.

    A [str] is modelled as a [string] whose characters are the code points 0 to
    255 (header values, addresses and paths reach the engine in that range); on
    these code points [lower], [strip], [isdigit] and [int] below are those of
    CPython.  [upper] keeps the two characters whose upper case lies outside the
    range. *)
From Stdlib Require Import DecimalString DecimalFacts DecimalZ.
From S2P Require Import Prelude.
Open Scope string_scope.
Open Scope list_scope.
Open Scope Z_scope.

(** * Characters *)

Definition code (c : ascii) : Z := Z.of_N (N_of_ascii c).

Definition chr (n : Z) : ascii := ascii_of_N (Z.to_N n).

Definition in_range (lo hi : Z) (c : ascii) : bool := (lo <=? code c) && (code c <=? hi).

(** [str.lower] on one code point: A-Z and the accented capitals except the
    multiplication sign. *)
Definition lower_char (c : ascii) : ascii :=
  if in_range 65 90 c || (in_range 192 222 c && negb (code c =? 215))
  then chr (code c + 32) else c.

Definition upper_char (c : ascii) : ascii :=
  if in_range 97 122 c || (in_range 224 254 c && negb (code c =? 247))
  then chr (code c - 32) else c.

(** [str.isspace] *)
Definition is_space (c : ascii) : bool :=
  in_range 9 13 c || in_range 28 32 c || (code c =? 133) || (code c =? 160).

(** [0-9] *)
Definition is_decimal (c : ascii) : bool := in_range 48 57 c.

(** [str.isdigit] on one code point: the decimal digits and the superscripts. *)
Definition is_digit_char (c : ascii) : bool :=
  is_decimal c || (code c =? 178) || (code c =? 179) || (code c =? 185).

Definition hex_value (c : ascii) : option Z :=
  if in_range 48 57 c then Some (code c - 48)
  else if in_range 97 102 c then Some (code c - 87)
  else if in_range 65 70 c then Some (code c - 55)
  else None.

Definition is_hex (c : ascii) : bool := match hex_value c with Some _ => true | None => false end.

(** * Whole strings *)

Fixpoint smap (f : ascii -> ascii) (s : string) : string :=
  match s with EmptyString => "" | String c s' => String (f c) (smap f s') end.

Fixpoint sforall (p : ascii -> bool) (s : string) : bool :=
  match s with EmptyString => true | String c s' => p c && sforall p s' end.

Definition lower (s : string) : string := smap lower_char s.
Definition upper (s : string) : string := smap upper_char s.

(** [len(s)] *)
Definition slen (s : string) : nat := String.length s.

(** [bool(s)] *)
Definition truthy (s : string) : bool := match s with EmptyString => false | _ => true end.

(** [s[n:]] *)
Fixpoint sdrop (n : nat) (s : string) : string :=
  match n, s with
  | 0%nat, _ => s
  | S n', String _ s' => sdrop n' s'
  | S _, EmptyString => ""
  end.

(** [s[:n]] *)
Fixpoint stake (n : nat) (s : string) : string :=
  match n, s with
  | 0%nat, _ => ""
  | S n', String c s' => String c (stake n' s')
  | S _, EmptyString => ""
  end.

(** [s.startswith(p)] *)
Definition startswith (s p : string) : bool := String.prefix p s.

(** [s.endswith(p)] *)
Definition endswith (s p : string) : bool :=
  (slen p <=? slen s)%nat && (sdrop (slen s - slen p) s =? p)%string.

(** [sub in s] *)
Fixpoint contains (sub s : string) : bool :=
  String.prefix sub s ||
  match s with EmptyString => false | String _ s' => contains sub s' end.

(** [c in s], for a one-character [c] *)
Fixpoint has_char (c : ascii) (s : string) : bool :=
  match s with EmptyString => false | String a s' => Ascii.eqb a c || has_char c s' end.

(** [s.count(c)], for a one-character [c] *)
Fixpoint count_char (c : ascii) (s : string) : nat :=
  match s with
  | EmptyString => 0%nat
  | String a s' => if Ascii.eqb a c then S (count_char c s') else count_char c s'
  end.

(** [s.find(c)], [None] for -1 *)
Fixpoint find_char (c : ascii) (s : string) : option nat :=
  match s with
  | EmptyString => None
  | String a s' => if Ascii.eqb a c then Some 0%nat
                   else match find_char c s' with Some i => Some (S i) | None => None end
  end.

(** [s.split(c)], for a one-character [c]; never empty *)
Fixpoint split_on (c : ascii) (s : string) : list string :=
  match s with
  | EmptyString => [""]
  | String a s' =>
      if Ascii.eqb a c then "" :: split_on c s'
      else match split_on c s' with
           | x :: xs => String a x :: xs
           | [] => [String a ""]
           end
  end.

(** [sep.join(l)] *)
Fixpoint join (sep : string) (l : list string) : string :=
  match l with
  | [] => ""
  | [x] => x
  | x :: l' => x +:+ sep +:+ join sep l'
  end.

(** [s.partition(c)]: head and tail; [None] when [c] does not occur *)
Fixpoint partition_char (c : ascii) (s : string) : option (string * string) :=
  match s with
  | EmptyString => None
  | String a s' =>
      if Ascii.eqb a c then Some ("", s')
      else match partition_char c s' with
           | Some (h, t) => Some (String a h, t)
           | None => None
           end
  end.

(** [s.replace(a, b)], for one-character [a] and [b] *)
Definition replace_char (a b : ascii) (s : string) : string :=
  smap (fun c => if Ascii.eqb c a then b else c) s.

(** [s.isdigit()] *)
Definition isdigit (s : string) : bool := truthy s && sforall is_digit_char s.

Fixpoint lstrip (s : string) : string :=
  match s with
  | String c s' => if is_space c then lstrip s' else s
  | EmptyString => ""
  end.

Fixpoint rstrip (s : string) : string :=
  match s with
  | EmptyString => ""
  | String c s' =>
      let t := rstrip s' in
      match t with
      | EmptyString => if is_space c then "" else String c ""
      | _ => String c t
      end
  end.

(** [s.strip()] *)
Definition strip (s : string) : string := rstrip (lstrip s).

(** * Integers *)

(** [str(n)] *)
Definition string_of_Z (n : Z) : string := NilZero.string_of_int (Z.to_int n).

(** [str(b)] *)
Definition py_bool (b : bool) : string := if b then "True" else "False".

(** [str(l)] of a list of strings, without the quotes; for log texts *)
Definition show_list (l : list string) : string := "[" +:+ join ", " l +:+ "]".

Fixpoint decimal_value (acc : Z) (s : string) : Z :=
  match s with
  | EmptyString => acc
  | String c s' => decimal_value (10 * acc + (code c - 48)) s'
  end.

(** The digits of an integer literal: digits, with single underscores allowed
    between them. *)
Fixpoint int_digits (prev_digit : bool) (acc : Z) (s : string) : option Z :=
  match s with
  | EmptyString => if prev_digit then Some acc else None
  | String c s' =>
      if is_decimal c then int_digits true (10 * acc + (code c - 48)) s'
      else if Ascii.eqb c "_" then if prev_digit then int_digits_sep acc s' else None
      else None
  end
with int_digits_sep (acc : Z) (s : string) : option Z :=
  match s with
  | String c s' =>
      if is_decimal c then int_digits true (10 * acc + (code c - 48)) s' else None
  | EmptyString => None
  end.

(** [sys.get_int_max_str_digits()], by default *)
Definition int_max_str_digits : Z := 4300.

Fixpoint digit_count (s : string) : Z :=
  match s with String c s' => (if is_decimal c then 1 else 0) + digit_count s' | EmptyString => 0 end.

(** [int(s)]; [None] is [ValueError], also for a text of too many digits *)
Definition py_int (s : string) : option Z :=
  if int_max_str_digits <? digit_count s then None
  else match strip s with
       | String "-" s' => option_map Z.opp (int_digits false 0 s')
       | String "+" s' => int_digits false 0 s'
       | s' => int_digits false 0 s'
       end.

Definition short_int (n : Z) : bool := digit_count (string_of_Z n) <=? int_max_str_digits.

(** * Lemmas *)

Lemma split_on_nonnil c s : split_on c s <> [].
Proof. destruct s as [|a s]; simpl; [done|]. case_match; [done|]. by destruct (split_on c s). Qed.

Lemma string_cons_app a s t : String a (s +:+ t) = String a s +:+ t.
Proof. done. Qed.

Lemma join_cons_char c a x xs :
  join (String c "") (String a x :: xs) = String a (join (String c "") (x :: xs)).
Proof. by destruct xs. Qed.

(** [c.join(s.split(c)) == s] *)
Lemma join_split_on c s : join (String c "") (split_on c s) = s.
Proof.
  induction s as [|a s IH]; [done|]. simpl split_on. destruct (Ascii.eqb a c) eqn:E.
  - apply Ascii.eqb_eq in E as ->. pose proof (split_on_nonnil c s).
    destruct (split_on c s) as [|x xs]; [done|].
    change (join (String c "") ("" :: x :: xs)) with (String c "" +:+ join (String c "") (x :: xs)).
    by rewrite IH.
  - pose proof (split_on_nonnil c s). destruct (split_on c s) as [|x xs]; [done|].
    by rewrite join_cons_char, IH.
Qed.

(** No piece of a split holds the separator. *)
Lemma split_on_no_sep c s x : x ∈ split_on c s -> has_char c x = false.
Proof.
  revert x; induction s as [|a s IH]; intros x Hx; simpl in Hx.
  - by apply list_elem_of_singleton in Hx as ->.
  - destruct (Ascii.eqb a c) eqn:E.
    + apply elem_of_cons in Hx as [->|Hx]; [done|]. by apply IH.
    + pose proof (split_on_nonnil c s). destruct (split_on c s) as [|y ys]; [done|].
      apply elem_of_cons in Hx as [->|Hx].
      * simpl. rewrite E. simpl. apply IH. left.
      * apply IH. by right.
Qed.

Lemma has_char_app c s t : has_char c (s +:+ t) = has_char c s || has_char c t.
Proof. induction s as [|a s IH]; simpl; [done|]. by rewrite IH, orb_assoc. Qed.

(** Splitting a string without the separator gives it back. *)
Lemma split_on_single c s : has_char c s = false -> split_on c s = [s].
Proof.
  induction s as [|a s IH]; simpl; [done|]. intros [-> H]%orb_false_iff. by rewrite (IH H).
Qed.

Lemma split_on_app c s t : has_char c s = false -> split_on c (s +:+ String c t) = s :: split_on c t.
Proof.
  induction s as [|a s IH]; simpl; intros H; [by rewrite Ascii.eqb_refl|].
  apply orb_false_iff in H as [-> H]. by rewrite (IH H).
Qed.

(** [s.split(c) == l] after [s = c.join(l)], for pieces without [c]. *)
Lemma split_on_app_gen c s t : split_on c (s +:+ String c t) = split_on c s ++ split_on c t.
Proof.
  induction s as [|a s IH].
  - change ("" +:+ String c t) with (String c t). cbn [split_on app]. by rewrite Ascii.eqb_refl.
  - change (String a s +:+ String c t) with (String a (s +:+ String c t)). cbn [split_on]. rewrite IH.
    destruct (Ascii.eqb a c); [done|]. pose proof (split_on_nonnil c s).
    by destruct (split_on c s).
Qed.

Lemma split_on_join c l :
  l <> [] -> Forall (fun x => has_char c x = false) l ->
  split_on c (join (String c "") l) = l.
Proof.
  intros Hne Hl. induction Hl as [|x l Hx Hl IH]; [done|]. destruct l as [|y l].
  - by apply split_on_single.
  - change (join (String c "") (x :: y :: l)) with
      (x +:+ String c (join (String c "") (y :: l))).
    rewrite split_on_app by done. by rewrite IH.
Qed.

Lemma sforall_app p s t : sforall p (s +:+ t) = sforall p s && sforall p t.
Proof. induction s as [|a s IH]; simpl; [done|]. by rewrite IH, andb_assoc. Qed.

Lemma app_nil_r_string s : s +:+ "" = s.
Proof. induction s as [|a s IH]; [done|]. by rewrite <- string_cons_app, IH. Qed.

Lemma app_assoc_string s t u : s +:+ (t +:+ u) = (s +:+ t) +:+ u.
Proof. induction s as [|a s IH]; [done|]. by rewrite <- !string_cons_app, IH. Qed.

Lemma prefix_app s t : String.prefix s (s +:+ t) = true.
Proof. induction s as [|a s IH]; [by destruct t|]. simpl. by destruct (ascii_dec a a). Qed.

Lemma prefix_spec p s : String.prefix p s = true <-> exists t, s = p +:+ t.
Proof.
  split; [|intros [t ->]; apply prefix_app]. revert s; induction p as [|a p IH]; intros s H.
  - by exists s.
  - destruct s as [|b s]; [done|]. simpl in H. destruct (ascii_dec a b) as [->|]; [|done].
    destruct (IH _ H) as [t ->]. by exists t.
Qed.

Lemma startswith_spec s p : startswith s p = true <-> exists t, s = p +:+ t.
Proof. apply prefix_spec. Qed.

Lemma slen_app s t : slen (s +:+ t) = (slen s + slen t)%nat.
Proof. unfold slen. induction s as [|a s IH]; simpl; [done|]. by rewrite IH. Qed.

Lemma sdrop_app s t : sdrop (slen s) (s +:+ t) = t.
Proof. by induction s. Qed.

Lemma stake_app s t : stake (slen s) (s +:+ t) = s.
Proof. induction s as [|a s IH]; simpl; [by destruct t|]. by rewrite IH. Qed.

Lemma stake_sdrop n s : stake n s +:+ sdrop n s = s.
Proof. revert s; induction n as [|n IH]; intros [|a s]; simpl; [done..|]. by rewrite <- string_cons_app, IH. Qed.

Lemma slen_sdrop n s : slen (sdrop n s) = (slen s - n)%nat.
Proof. revert n. induction s as [|c s IH]; intros [|n]; simpl; try done. Qed.

Lemma endswith_spec s p : endswith s p = true <-> exists t, s = t +:+ p.
Proof.
  unfold endswith. split.
  - intros [Hl Hd]%andb_true_iff. apply String.eqb_eq in Hd.
    exists (stake (slen s - slen p) s). rewrite <- Hd at 2. by rewrite stake_sdrop.
  - intros [t ->]. rewrite slen_app. apply andb_true_iff. split; [apply Nat.leb_le; lia|].
    apply String.eqb_eq. replace (slen t + slen p - slen p)%nat with (slen t) by lia.
    apply sdrop_app.
Qed.

Lemma string_of_Z_inj n m : string_of_Z n = string_of_Z m -> n = m.
Proof.
  intros H. unfold string_of_Z in H.
  assert (Hz : forall z, NilZero.int_of_string (NilZero.string_of_int (Z.to_int z)) = Some (Z.to_int z)).
  { intros z. apply NilZero.isi; destruct z; simpl; try done;
      intros [=Hp]; by apply (DecimalPos.Unsigned.to_uint_nonnil p). }
  pose proof (Hz n) as Hn. rewrite H, Hz in Hn. injection Hn as Hn.
  rewrite <- (DecimalZ.of_to n), <- (DecimalZ.of_to m). by rewrite Hn.
Qed.

(** ** [int(str(n)) == n] *)

Fixpoint dval (acc : Z) (d : Decimal.uint) : Z :=
  match d with
  | Decimal.Nil => acc
  | Decimal.D0 d => dval (10 * acc) d | Decimal.D1 d => dval (10 * acc + 1) d
  | Decimal.D2 d => dval (10 * acc + 2) d | Decimal.D3 d => dval (10 * acc + 3) d
  | Decimal.D4 d => dval (10 * acc + 4) d | Decimal.D5 d => dval (10 * acc + 5) d
  | Decimal.D6 d => dval (10 * acc + 6) d | Decimal.D7 d => dval (10 * acc + 7) d
  | Decimal.D8 d => dval (10 * acc + 8) d | Decimal.D9 d => dval (10 * acc + 9) d
  end.

Lemma dval_acc d p : dval (Z.pos p) d = Z.pos (Pos.of_uint_acc d p).
Proof. revert p. induction d; intros p; simpl; try done; rewrite <- IHd; f_equal; lia. Qed.

Lemma dval_of_uint d : dval 0 d = Z.of_uint d.
Proof.
  unfold Z.of_uint. induction d; simpl; try done; change (10 * 0 + ?x) with x; by rewrite dval_acc.
Qed.

Lemma int_digits_uint d b acc :
  b = true \/ d <> Decimal.Nil -> int_digits b acc (NilEmpty.string_of_uint d) = Some (dval acc d).
Proof.
  revert b acc. induction d; intros b acc Hb; simpl; [by destruct Hb as [->|]|..];
    rewrite IHd by (by left); by rewrite ?Z.add_0_r.
Qed.

Lemma strip_no_space s : sforall (fun c => negb (is_space c)) s = true -> strip s = s.
Proof.
  intros H. unfold strip.
  assert (lstrip s = s) as ->.
  { destruct s as [|c s]; [done|]. cbn [sforall] in H. bool_prop. cbn [lstrip]. by rewrite H. }
  induction s as [|c s IH]; [done|]. cbn [sforall] in H. bool_prop. cbn [rstrip]. rewrite IH by done.
  rewrite H. by destruct s.
Qed.

Lemma uint_no_space d : sforall (fun c => negb (is_space c)) (NilEmpty.string_of_uint d) = true.
Proof. by induction d. Qed.

Lemma py_int_string_of_Z n : short_int n = true -> py_int (string_of_Z n) = Some n.
Proof.
  unfold short_int, py_int. rewrite Z.leb_antisym, negb_true_iff. intros ->.
  assert (forall d, d <> Decimal.Nil -> NilZero.string_of_uint d = NilEmpty.string_of_uint d) as Hz
    by (by intros []).
  assert (forall d, d <> Decimal.Nil -> match strip (NilEmpty.string_of_uint d) with
       | String "-" s' => option_map Z.opp (int_digits false 0 s')
       | String "+" s' => int_digits false 0 s'
       | s' => int_digits false 0 s'
       end = Some (dval 0 d)) as Hp.
  { intros d Hd. rewrite strip_no_space by apply uint_no_space.
    rewrite <- (int_digits_uint d false 0) by (by right). by destruct d. }
  unfold string_of_Z. destruct n as [|p|p]; [done|..]; cbn [Z.to_int NilZero.string_of_int].
  - rewrite Hz, Hp by apply DecimalPos.Unsigned.to_uint_nonnil. rewrite dval_of_uint. f_equal.
    apply (DecimalZ.of_to (Z.pos p)).
  - rewrite Hz by apply DecimalPos.Unsigned.to_uint_nonnil.
    rewrite strip_no_space by (cbn [sforall]; apply uint_no_space).
    rewrite int_digits_uint by (right; apply DecimalPos.Unsigned.to_uint_nonnil).
    cbn [option_map]. rewrite dval_of_uint. f_equal. apply (DecimalZ.of_to (Z.neg p)).
Qed.

(** [s.upper().upper() == s.upper()] *)
Lemma upper_upper s : upper (upper s) = upper s.
Proof.
  unfold upper. induction s as [|c s IH]; [done|]. cbn [smap]. rewrite IH. f_equal.
  destruct c as [[] [] [] [] [] [] [] []]; vm_compute; reflexivity.
Qed.
