(* ===== verification/PyDict.v ===== *)
(** Insertion-ordered dictionaries (Python [dict]) and the least-recently-used
    store helper of [guard_core/_utils/lru_store.py].

    A dictionary is the list of its items in insertion order; the operations are
    those the program uses, and [dict_wf] (no key twice) is kept by all of them. *)
From S2P Require Import Prelude.

Section dict.
Context {K V : Type} `{EqDecision K}.

#[local] Abbreviation dict := (list (K * V)).

Definition dkeys (d : dict) : list K := map fst d.

Definition dict_wf (d : dict) : Prop := NoDup (dkeys d).

(** [d.get(k)] *)
Fixpoint dget (k : K) (d : dict) : option V :=
  match d with
  | [] => None
  | (k', v) :: d' => if decide (k = k') then Some v else dget k d'
  end.

(** [k in d] *)
Definition dmem (k : K) (d : dict) : bool :=
  match dget k d with Some _ => true | None => false end.

(** [d[k] = v]: in place when [k] is there, at the end otherwise *)
Fixpoint dset (k : K) (v : V) (d : dict) : dict :=
  match d with
  | [] => [(k, v)]
  | (k', v') :: d' => if decide (k = k') then (k', v) :: d' else (k', v') :: dset k v d'
  end.

(** [d.pop(k, None)], the dictionary left *)
Fixpoint ddel (k : K) (d : dict) : dict :=
  match d with
  | [] => []
  | (k', v) :: d' => if decide (k = k') then d' else (k', v) :: ddel k d'
  end.

Lemma dget_Some_elem k v d : dget k d = Some v -> (k, v) ∈ d.
Proof.
  induction d as [|[k' v'] d IH]; simpl; [done|]. case_decide; [|right; auto].
  intros [= ->]. subst. left.
Qed.

Lemma dget_None d k : dget k d = None <-> k ∉ dkeys d.
Proof.
  induction d as [|[k' v'] d IH]; simpl; [set_solver|].
  case_decide as Hk; [set_solver|]. rewrite IH. set_solver.
Qed.

Lemma dget_elem d k v : dict_wf d -> (k, v) ∈ d -> dget k d = Some v.
Proof.
  unfold dict_wf. induction d as [|[k' v'] d IH]; simpl; [set_solver|].
  intros [Hk Hd]%NoDup_cons [[= -> ->]|Hin]%elem_of_cons; [by rewrite decide_True|].
  rewrite decide_False; [auto|]. intros ->. apply Hk.
  apply list_elem_of_fmap. by exists (k', v).
Qed.

Lemma ddel_absent k d : dget k d = None -> ddel k d = d.
Proof.
  induction d as [|[k' v'] d IH]; simpl; [done|]. case_decide; [done|]. intros Hk. by rewrite IH.
Qed.

Lemma dkeys_ddel_subset k d k' : k' ∈ dkeys (ddel k d) -> k' ∈ dkeys d.
Proof.
  induction d as [|[k1 v1] d IH]; simpl; [done|]. case_decide; simpl; [by right|].
  intros [->|Hin]%elem_of_cons; [left|right; auto].
Qed.

Lemma ddel_wf k d : dict_wf d -> dict_wf (ddel k d).
Proof.
  unfold dict_wf. induction d as [|[k' v'] d IH]; simpl; [done|].
  intros [Hk Hd]%NoDup_cons. case_decide; [done|]. simpl. apply NoDup_cons.
  split; [|auto]. intros Hin. by apply Hk, (dkeys_ddel_subset k).
Qed.

Lemma dget_ddel_eq k d : dict_wf d -> dget k (ddel k d) = None.
Proof.
  unfold dict_wf. induction d as [|[k' v'] d IH]; simpl; [done|].
  intros [Hk Hd]%NoDup_cons. case_decide as E; [subst; by apply dget_None|].
  simpl. rewrite decide_False by done. auto.
Qed.

Lemma dget_ddel_ne k k' d : k <> k' -> dget k (ddel k' d) = dget k d.
Proof.
  intros Hne. induction d as [|[k1 v1] d IH]; simpl; [done|].
  repeat case_decide; simplify_eq; simpl; rewrite ?decide_True, ?decide_False by congruence; auto.
Qed.

Lemma length_ddel k v d : dget k d = Some v -> S (length (ddel k d)) = length d.
Proof.
  induction d as [|[k' v'] d IH]; simpl; [done|]. case_decide; [done|].
  intros Hk. simpl. by rewrite IH.
Qed.

Lemma length_ddel_le k d : length (ddel k d) <= length d.
Proof. induction d as [|[k' v'] d IH]; simpl; [lia|]. case_decide; simpl; lia. Qed.

Lemma dset_absent k v d : dget k d = None -> dset k v d = d ++ [(k, v)].
Proof.
  induction d as [|[k' v'] d IH]; simpl; [done|]. case_decide; [done|]. intros Hk. by rewrite IH.
Qed.

Lemma dget_dset_eq k v d : dget k (dset k v d) = Some v.
Proof.
  induction d as [|[k' v'] d IH]; simpl; [by rewrite decide_True|].
  case_decide; simpl; [by rewrite decide_True|]. by rewrite decide_False.
Qed.

Lemma dget_dset_ne k k' v d : k <> k' -> dget k (dset k' v d) = dget k d.
Proof.
  intros Hne. induction d as [|[k1 v1] d IH]; simpl; [by rewrite decide_False|].
  repeat case_decide; simplify_eq; simpl; rewrite ?decide_True, ?decide_False by congruence; auto.
Qed.

Lemma dkeys_dset k v d : dkeys (dset k v d) = if decide (k ∈ dkeys d) then dkeys d else dkeys d ++ [k].
Proof.
  induction d as [|[k' v'] d IH]; [done|]. cbn [dset].
  destruct (decide (k = k')) as [->|Hne]; cbn [dkeys map fst].
  - rewrite decide_True by set_solver. done.
  - change (map fst (dset k v d)) with (dkeys (dset k v d)). rewrite IH.
    change (map fst d) with (dkeys d). destruct (decide (k ∈ dkeys d)) as [Hi|Hi].
    + by rewrite decide_True by set_solver.
    + by rewrite decide_False by set_solver.
Qed.

Lemma dset_wf k v d : dict_wf d -> dict_wf (dset k v d).
Proof.
  unfold dict_wf. rewrite dkeys_dset. case_decide as Hin; [done|]. intros Hd.
  apply NoDup_app. split_and!; [done| |apply NoDup_singleton]. set_solver.
Qed.

Lemma length_dset k v d : length (dset k v d) = if decide (k ∈ dkeys d) then length d else S (length d).
Proof.
  rewrite <- (length_map fst (dset k v d)), <- (length_map fst d).
  change (map fst (dset k v d)) with (dkeys (dset k v d)). rewrite dkeys_dset.
  case_decide; [done|]. rewrite length_app. simpl. unfold dkeys. lia.
Qed.

Lemma dict_wf_tail d : dict_wf d -> dict_wf (tail d).
Proof. unfold dict_wf. destruct d as [|[k v] d]; [done|]. simpl. by intros [_ ?]%NoDup_cons. Qed.

Lemma dget_tail k d : dict_wf d -> head (dkeys d) <> Some k -> dget k (tail d) = dget k d.
Proof. destruct d as [|[k' v'] d]; simpl; [done|]. intros _ Hk. rewrite decide_False; congruence. Qed.

(** * The LRU store ([guard_core/_utils/lru_store.py]) *)

(** [_lru_pop_or_create]: the value for the key, taken out of the store, or a
    fresh one after the oldest key has been evicted from a full store. *)
Definition _lru_pop_or_create (store : dict) (key : K) (max_size : nat) (default : V)
  : res (V * dict) :=
  match dget key store with
  | Some value => Ok (value, ddel key store)
  | None =>
      if (max_size <=? length store)%nat
      then match store with
           | [] => Raise (OtherError "StopIteration" "")
           | _ :: store' => Ok (default, store')
           end
      else Ok (default, store)
  end.

(** What the callers do with it: take the value out, change it, and store it
    again under the same key, so that the key becomes the newest. *)
Definition lru_touch (store : dict) (key : K) (max_size : nat) (default : V) (f : V -> V)
  : res dict :=
  match _lru_pop_or_create store key max_size default with
  | Ok (v, store') => Ok (dset key (f v) store')
  | Raise e => Raise e
  end.

Section lru.
Context (store : dict) (key : K) (max_size : nat) (default : V).

Lemma lru_pop_or_create_ok :
  (0 < max_size)%nat -> exists v store', _lru_pop_or_create store key max_size default = Ok (v, store').
Proof.
  intros Hm. unfold _lru_pop_or_create. destruct (dget key store); [eauto|].
  destruct (Nat.leb_spec max_size (length store)); [|eauto].
  destruct store; simpl in *; [lia|eauto].
Qed.

(** The value handed out is the stored one, or the default. *)
Lemma lru_pop_value v store' :
  _lru_pop_or_create store key max_size default = Ok (v, store') ->
  v = match dget key store with Some v0 => v0 | None => default end.
Proof.
  unfold _lru_pop_or_create. destruct (dget key store); [by intros [= <- _]|].
  case_match; [|by intros [= <- _]]. case_match; [done|]. by intros [= <- _].
Qed.

(** The store left: without the key, well formed, and with room for it. *)
Lemma lru_pop_store v store' :
  dict_wf store -> (length store <= max_size)%nat ->
  _lru_pop_or_create store key max_size default = Ok (v, store') ->
  dict_wf store' /\ dget key store' = None /\ (length store' < max_size)%nat.
Proof.
  intros Hwf Hlen. unfold _lru_pop_or_create. destruct (dget key store) eqn:Hk.
  - intros [= _ <-]. split_and!; [by apply ddel_wf|by apply dget_ddel_eq|].
    apply length_ddel in Hk. lia.
  - destruct (Nat.leb_spec max_size (length store)) as [Hle|Hgt].
    + destruct store as [|[k0 v0] d] eqn:E; [done|]. intros [= _ <-]. split_and!.
      * by apply dict_wf_tail in Hwf.
      * simpl in Hk. by case_decide.
      * simpl in *. lia.
    + by intros [= _ <-].
Qed.

(** Every other key keeps its value, the oldest one of a full store apart. *)
Lemma lru_pop_other v store' k :
  dict_wf store -> k <> key ->
  _lru_pop_or_create store key max_size default = Ok (v, store') ->
  dget k store' = dget k store \/
  (dget key store = None /\ (max_size <= length store)%nat /\ head (dkeys store) = Some k).
Proof.
  intros Hwf Hne. unfold _lru_pop_or_create. destruct (dget key store) eqn:Hk.
  - intros [= _ <-]. left. by apply dget_ddel_ne.
  - destruct (Nat.leb_spec max_size (length store)) as [Hle|Hgt].
    + destruct store as [|[k0 v0] d] eqn:E; [done|]. intros [= _ <-].
      destruct (decide (k = k0)) as [->|Hne0]; [right; split_and!; done|].
      left. simpl. by rewrite decide_False.
    + intros [= _ <-]. by left.
Qed.
End lru.

(** A store whose keys come from a list that fits has room for each of them. *)
Lemma dict_room (K' : list K) d key :
  dict_wf d -> dkeys d ⊆ K' -> key ∈ K' -> dget key d = None -> (length d < length K')%nat.
Proof.
  intros Hw Hs Hk Hn. apply dget_None in Hn. rewrite <- (length_map fst d). change (map fst d) with (dkeys d).
  assert (NoDup (key :: dkeys d)) as Hnd by (by apply NoDup_cons).
  assert (key :: dkeys d ⊆+ K') as Hsub by (apply NoDup_submseteq; [done|]; intros x [->|Hx]%elem_of_cons; auto).
  apply submseteq_length in Hsub. simpl in Hsub. lia.
Qed.

Lemma lru_pop_room (K' : list K) d key max_size default' :
  dict_wf d -> dkeys d ⊆ K' -> key ∈ K' -> (length K' <= max_size)%nat ->
  _lru_pop_or_create d key max_size default' = Ok (default default' (dget key d), ddel key d).
Proof.
  intros Hw Hs Hk Hl. unfold _lru_pop_or_create. destruct (dget key d) as [v|] eqn:Hg; [done|].
  pose proof (dict_room K' d key Hw Hs Hk Hg). rewrite (proj2 (Nat.leb_gt _ _)) by lia. by rewrite ddel_absent.
Qed.

Lemma dkeys_store_subset (K' : list K) d key v :
  dkeys d ⊆ K' -> key ∈ K' -> dkeys (dset key v (ddel key d)) ⊆ K'.
Proof.
  intros Hs Hk k. rewrite dkeys_dset. destruct (decide _).
  - intros Hi. by apply Hs, (dkeys_ddel_subset key).
  - intros [Hi| ->%list_elem_of_singleton]%elem_of_app; [by apply Hs, (dkeys_ddel_subset key)|done].
Qed.

(** ** Touching a key *)

Lemma lru_touch_ok store key max_size default f :
  (0 < max_size)%nat -> exists store', lru_touch store key max_size default f = Ok store'.
Proof.
  intros Hm. unfold lru_touch.
  destruct (lru_pop_or_create_ok store key max_size default Hm) as (v & s' & ->). eauto.
Qed.

Lemma lru_touch_inv store key max_size default f store' :
  dict_wf store -> (length store <= max_size)%nat ->
  lru_touch store key max_size default f = Ok store' ->
  dict_wf store' /\ (length store' <= max_size)%nat /\
  dget key store' = Some (f (match dget key store with Some v => v | None => default end)) /\
  last (dkeys store') = Some key.
Proof.
  intros Hwf Hlen. unfold lru_touch.
  destruct (_lru_pop_or_create store key max_size default) as [[v s0]|] eqn:E; [|done].
  intros [= <-]. destruct (lru_pop_store _ _ _ _ _ _ Hwf Hlen E) as (Hw & Hn & Hl).
  rewrite (lru_pop_value _ _ _ _ _ _ E), dget_dset_eq, dkeys_dset.
  rewrite length_dset. apply dget_None in Hn. rewrite !decide_False by done.
  split_and!; [by apply dset_wf|lia|done|]. by rewrite last_snoc.
Qed.

Lemma lru_touch_other store key max_size default f store' k :
  dict_wf store -> k <> key -> lru_touch store key max_size default f = Ok store' ->
  dget k store' = dget k store \/
  (dget key store = None /\ (max_size <= length store)%nat /\ head (dkeys store) = Some k).
Proof.
  intros Hwf Hne. unfold lru_touch.
  destruct (_lru_pop_or_create store key max_size default) as [[v s0]|] eqn:E; [|done].
  intros [= <-]. rewrite dget_dset_ne by done. by eapply lru_pop_other.
Qed.
End dict.

#[export] Hint Resolve dset_wf ddel_wf dict_wf_tail : guard.
