(* ===== verification/Json.v ===== *)
(** JSON texts as the standard library writes and reads them: [json.dumps] with
    its default separators, and [json.loads].

    Text is limited to characters below U+0100, as everywhere in the development.  A
    text that [json.loads] accepts and that has an escape of a character beyond
    them - half of a surrogate pair is one - has no value here: reading it ends in
    [BeyondLatin1], which is no exception of the program but says that the run leaves
    the model; what the program makes of such a text is not claimed.  A number with a
    fraction or an exponent keeps its literal, and an integer of too many digits
    raises, as [int] does. *)
From Stdlib Require Import DecimalFacts DecimalString DecimalPos DecimalZ.
From S2P Require Import Prelude PyStr PyDict.

#[local] Open Scope Z_scope.

Inductive json : Type :=
| JNull
| JBool (b : bool)
| JInt (n : Z)
| JFloat (literal : string)
| JStr (s : string)
| JArr (items : list json)
| JObj (members : list (string * json)).

(** Induction through the lists. *)
Section json_ind.
Context (P : json -> Prop).
Context (Hnull : P JNull) (Hbool : forall b, P (JBool b)) (Hint : forall n, P (JInt n))
  (Hfloat : forall l, P (JFloat l)) (Hstr : forall s, P (JStr s))
  (Harr : forall items, Forall P items -> P (JArr items))
  (Hobj : forall members, Forall (fun m => P (snd m)) members -> P (JObj members)).

Fixpoint json_nested_ind (j : json) : P j :=
  match j with
  | JNull => Hnull
  | JBool b => Hbool b
  | JInt n => Hint n
  | JFloat l => Hfloat l
  | JStr s => Hstr s
  | JArr items =>
      Harr items ((fix go (l : list json) : Forall P l :=
        match l with [] => Forall_nil_2 P | x :: l' => Forall_cons_2 P x l' (json_nested_ind x) (go l') end) items)
  | JObj members =>
      Hobj members ((fix go (l : list (string * json)) : Forall (fun m => P (snd m)) l :=
        match l with
        | [] => Forall_nil_2 _
        | m :: l' => Forall_cons_2 (fun m => P (snd m)) m l' (json_nested_ind (snd m)) (go l')
        end) members)
  end.
End json_ind.

(** [a == b], of values with the same floats *)
Fixpoint json_eqb (a b : json) : bool :=
  match a, b with
  | JNull, JNull => true
  | JBool x, JBool y => Bool.eqb x y
  | JInt x, JInt y => Z.eqb x y
  | JFloat x, JFloat y | JStr x, JStr y => String.eqb x y
  | JArr l, JArr k =>
      (fix go (l k : list json) : bool :=
         match l, k with [], [] => true | x :: l', y :: k' => json_eqb x y && go l' k' | _, _ => false end) l k
  | JObj l, JObj k =>
      (fix go (l k : list (string * json)) : bool :=
         match l, k with
         | [], [] => true
         | x :: l', y :: k' => String.eqb (fst x) (fst y) && json_eqb (snd x) (snd y) && go l' k'
         | _, _ => false
         end) l k
  | _, _ => false
  end.

Lemma json_eqb_eq a b : json_eqb a b = true <-> a = b.
Proof.
  revert b. induction a as [|x|x|x|x|l IH|l IH] using json_nested_ind; intros b; destruct b as [|y|y|y|y|k|k];
    cbn [json_eqb]; try done.
  - rewrite Bool.eqb_true_iff. split; congruence.
  - rewrite Z.eqb_eq. split; congruence.
  - rewrite String.eqb_eq. split; congruence.
  - rewrite String.eqb_eq. split; congruence.
  - transitivity (l = k); [|split; congruence]. revert k. induction IH as [|x l Hx Hl IHl]; intros [|y k]; try done.
    rewrite andb_true_iff, Hx, IHl. split; [intros [-> ->]; done|intros [= -> ->]; done].
  - transitivity (l = k); [|split; congruence]. revert k. induction IH as [|[n x] l Hx Hl IHl]; intros [|[m y] k]; try done.
    cbn [fst snd] in *. rewrite !andb_true_iff, String.eqb_eq, Hx, IHl. split; [intros [[-> ->] ->]; done|intros [= -> -> ->]; done].
Qed.

(** * Writing *)

Definition quote : ascii := chr 34.
Definition backslash : ascii := chr 92.

Definition hex_char (n : Z) : ascii := if n <? 10 then chr (48 + n) else chr (87 + n).

(** [ESCAPE_ASCII]: what is not printable ASCII, a quote or a backslash. *)
Definition escape (c : ascii) : string :=
  if Ascii.eqb c quote then String backslash (String quote "")
  else if Ascii.eqb c backslash then String backslash (String backslash "")
  else if in_range 32 126 c then String c ""
  else if code c =? 10 then String backslash "n"
  else if code c =? 13 then String backslash "r"
  else if code c =? 9 then String backslash "t"
  else if code c =? 12 then String backslash "f"
  else if code c =? 8 then String backslash "b"
  else String backslash ("u00" +:+ String (hex_char (code c / 16)) (String (hex_char (code c mod 16)) "")).

Fixpoint escapes (s : string) : string :=
  match s with EmptyString => "" | String c s' => escape c +:+ escapes s' end.

Definition dump_string (s : string) : string := String quote (escapes s +:+ String quote "").

Fixpoint dumps (j : json) : string :=
  match j with
  | JNull => "null"
  | JBool true => "true"
  | JBool false => "false"
  | JInt n => string_of_Z n
  | JFloat l => l
  | JStr s => dump_string s
  | JArr items => "[" +:+ join ", " (map dumps items) +:+ "]"
  | JObj members => "{" +:+ join ", " (map (fun m => dump_string (fst m) +:+ ": " +:+ dumps (snd m)) members) +:+ "}"
  end.

(** ** In compact form *)

(** [json.dumps(value, separators=(",", ":"), ensure_ascii=False)] *)
Definition escape_compact (c : ascii) : string := if (127 <=? code c) then String c "" else escape c.

Fixpoint escapes_compact (s : string) : string :=
  match s with EmptyString => "" | String c s' => escape_compact c +:+ escapes_compact s' end.

Definition dump_string_compact (s : string) : string := String quote (escapes_compact s +:+ String quote "").

Fixpoint dumps_compact (j : json) : string :=
  match j with
  | JStr s => dump_string_compact s
  | JArr items => "[" +:+ join "," (map dumps_compact items) +:+ "]"
  | JObj members => "{" +:+ join "," (map (fun m => dump_string_compact (fst m) +:+ ":" +:+ dumps_compact (snd m)) members) +:+ "}"
  | _ => dumps j
  end.

(** * Reading *)

Definition is_json_space (c : ascii) : bool :=
  Ascii.eqb c " " || (code c =? 9) || (code c =? 10) || (code c =? 13).

Fixpoint skip_space (s : string) : string :=
  match s with String c s' => if is_json_space c then skip_space s' else s | EmptyString => s end.

(** The character of a one-letter escape. *)
Definition short_escape (c : ascii) : option ascii :=
  if Ascii.eqb c quote then Some quote
  else if Ascii.eqb c backslash then Some backslash
  else if Ascii.eqb c "/" then Some "/"%char
  else if Ascii.eqb c "n" then Some (chr 10)
  else if Ascii.eqb c "r" then Some (chr 13)
  else if Ascii.eqb c "t" then Some (chr 9)
  else if Ascii.eqb c "f" then Some (chr 12)
  else if Ascii.eqb c "b" then Some (chr 8)
  else None.

(** [py_scanstring], strict, after the opening quote.  An escape of a character from
    U+0100 on is read, but stands for a character of the model; see [wide_escapes]. *)
Fixpoint scan_string (s : string) : option (string * string) :=
  match s with
  | EmptyString => None
  | String c s' =>
      if Ascii.eqb c quote then Some ("", s')
      else if Ascii.eqb c backslash then
        match s' with
        | String e s'' =>
            if Ascii.eqb e "u" then
              match s'' with
              | String a (String b (String h (String l s3))) =>
                  match hex_value a, hex_value b, hex_value h, hex_value l with
                  | Some _, Some _, Some x, Some y =>
                      match scan_string s3 with
                      | Some (t, rest) => Some (String (chr (16 * x + y)) t, rest)
                      | None => None
                      end
                  | _, _, _, _ => None
                  end
              | _ => None
              end
            else match short_escape e, scan_string s'' with
                 | Some x, Some (t, rest) => Some (String x t, rest)
                 | _, _ => None
                 end
        | EmptyString => None
        end
      else if code c <? 32 then None
      else match scan_string s' with Some (t, rest) => Some (String c t, rest) | None => None end
  end.

(** Whether a text that can be read has an escape of a character from U+0100 on. *)
Fixpoint wide_escapes (s : string) : bool :=
  match s with
  | String c s' =>
      if Ascii.eqb c backslash then
        match s' with
        | String e s'' =>
            (if Ascii.eqb e "u" then match s'' with String a (String b _) => negb (Ascii.eqb a "0" && Ascii.eqb b "0") | _ => true end
             else false) || wide_escapes s''
        | EmptyString => false
        end
      else wide_escapes s'
  | EmptyString => false
  end.

(** The digits at the front of a text. *)
Fixpoint take_digits (s : string) : string * string :=
  match s with
  | String c s' => if is_decimal c then let '(d, r) := take_digits s' in (String c d, r) else ("", s)
  | EmptyString => ("", "")
  end.

(** The integer of [NUMBER_RE]: a sign, then a zero or digits that do not begin with one. *)
Definition scan_int (s : string) : option (string * string) :=
  let '(sign, body) := match s with String "-" s' => ("-", s') | _ => ("", s) end in
  match body with
  | String c body' =>
      if Ascii.eqb c "0" then Some (sign +:+ "0", body')
      else if is_decimal c then let '(d, r) := take_digits body in Some (sign +:+ d, r)
      else None
  | EmptyString => None
  end.

(** Its fraction, *)
Definition scan_fraction (s : string) : string * string :=
  match s with
  | String "." s' => match take_digits s' with (EmptyString, _) => ("", s) | (d, r) => ("." +:+ d, r) end
  | _ => ("", s)
  end.

(** and its exponent. *)
Definition scan_exponent (s : string) : string * string :=
  match s with
  | String e s' =>
      if Ascii.eqb e "e" || Ascii.eqb e "E" then
        let '(sign, body) := match s' with
                             | String c b => if Ascii.eqb c "-" || Ascii.eqb c "+" then (String c "", b) else ("", s')
                             | EmptyString => ("", s')
                             end in
        match take_digits body with (EmptyString, _) => ("", s) | (d, r) => (String e (sign +:+ d), r) end
      else ("", s)
  | EmptyString => ("", s)
  end.

(** [json.JSONDecodeError], and the [ValueError] of [int], which it is a subclass of *)
Definition JSONDecodeError : exn := OtherError "JSONDecodeError" "Expecting value".
Definition TooManyDigits : exn := ValueError "Exceeds the limit (4300 digits) for integer string conversion".

(** No exception of the program: the run has left the model. *)
Definition BeyondLatin1 : exn := OtherError "BeyondLatin1" "a character beyond U+00FF".

(** The handlers of [Exception] around a reading of JSON, as far as the model goes. *)
Definition within_latin1 (e : exn) : bool :=
  match e with OtherError cls _ => negb (cls =? "BeyondLatin1")%string | _ => true end.

Definition is_json_decode_error (e : exn) : bool :=
  match e with OtherError cls _ => (cls =? "JSONDecodeError")%string | _ => false end.

Definition scan_number (s : string) : res (json * string) :=
  match scan_int s with
  | None => Raise JSONDecodeError
  | Some (i, r) =>
      let '(frac, r) := scan_fraction r in
      let '(exp, r) := scan_exponent r in
      match frac +:+ exp with
      | EmptyString => match py_int i with Some n => Ok (JInt n, r) | None => Raise TooManyDigits end
      | fe => Ok (JFloat (i +:+ fe), r)
      end
  end.

(** A text that begins with a literal: what follows it. *)
Fixpoint after (literal s : string) : option string :=
  match literal, s with
  | EmptyString, _ => Some s
  | String a l', String b s' => if Ascii.eqb a b then after l' s' else None
  | String _ _, EmptyString => None
  end.

Definition scan_constant (s : string) : option (json * string) :=
  match after "null" s, after "true" s, after "false" s, after "NaN" s, after "Infinity" s, after "-Infinity" s with
  | Some r, _, _, _, _, _ => Some (JNull, r)
  | _, Some r, _, _, _, _ => Some (JBool true, r)
  | _, _, Some r, _, _, _ => Some (JBool false, r)
  | _, _, _, Some r, _, _ => Some (JFloat "NaN", r)
  | _, _, _, _, Some r, _ => Some (JFloat "Infinity", r)
  | _, _, _, _, _, Some r => Some (JFloat "-Infinity", r)
  | _, _, _, _, _, _ => None
  end.

(** [scan_once], [JSONArray] and [JSONObject]; the scanners of the rest of a list
    stand at an element, and at the quote of a name. *)
Fixpoint scan_once (fuel : nat) (s : string) {struct fuel} : res (json * string) :=
  match fuel with
  | O => Raise JSONDecodeError
  | S fuel =>
      match s with
      | EmptyString => Raise JSONDecodeError
      | String c s' =>
          if Ascii.eqb c quote then
            match scan_string s' with Some (t, r) => Ok (JStr t, r) | None => Raise JSONDecodeError end
          else if Ascii.eqb c "[" then
            match skip_space s' with
            | String "]" r => Ok (JArr [], r)
            | s'' => match scan_items fuel s'' with Ok (l, r) => Ok (JArr l, r) | Raise e => Raise e end
            end
          else if Ascii.eqb c "{" then
            match skip_space s' with
            | String "}" r => Ok (JObj [], r)
            | s'' => match scan_members fuel s'' with
                     | Ok (l, r) => Ok (JObj (fold_left (fun d m => dset (fst m) (snd m) d) l []), r)
                     | Raise e => Raise e
                     end
            end
          else match scan_constant s with
               | Some r => Ok r
               | None => scan_number s
               end
      end
  end
with scan_items (fuel : nat) (s : string) {struct fuel} : res (list json * string) :=
  match fuel with
  | O => Raise JSONDecodeError
  | S fuel =>
      match scan_once fuel s with
      | Raise e => Raise e
      | Ok (x, r) =>
          match skip_space r with
          | String "]" r => Ok ([x], r)
          | String "," r => match scan_items fuel (skip_space r) with
                            | Ok (l, r) => Ok (x :: l, r)
                            | Raise e => Raise e
                            end
          | _ => Raise JSONDecodeError
          end
      end
  end
with scan_members (fuel : nat) (s : string) {struct fuel} : res (list (string * json) * string) :=
  match fuel with
  | O => Raise JSONDecodeError
  | S fuel =>
      match s with
      | String q s' =>
          if negb (Ascii.eqb q quote) then Raise JSONDecodeError
          else match scan_string s' with
               | None => Raise JSONDecodeError
               | Some (k, r) =>
                   match skip_space r with
                   | String ":" r =>
                       match scan_once fuel (skip_space r) with
                       | Raise e => Raise e
                       | Ok (v, r) =>
                           match skip_space r with
                           | String "}" r => Ok ([(k, v)], r)
                           | String "," r => match scan_members fuel (skip_space r) with
                                             | Ok (l, r) => Ok ((k, v) :: l, r)
                                             | Raise e => Raise e
                                             end
                           | _ => Raise JSONDecodeError
                           end
                       end
                   | _ => Raise JSONDecodeError
                   end
               end
      | EmptyString => Raise JSONDecodeError
      end
  end.

(** [json.loads].  Every scanner consumes a character before it calls another twice,
    so twice the length is enough. *)
Definition loads (s : string) : res json :=
  match scan_once (S (2 * slen s)) (skip_space s) with
  | Ok (j, r) =>
      match skip_space r with
      | EmptyString => if wide_escapes s then Raise BeyondLatin1 else Ok j
      | _ => Raise JSONDecodeError
      end
  | Raise e => Raise e
  end.

#[local] Close Scope Z_scope.

Example loads_example :
  loads " [1, -20,true , null,{}, [ ],3.5e1] " =
    Ok (JArr [JInt 1; JInt (-20); JBool true; JNull; JObj []; JArr []; JFloat "3.5e1"]).
Proof. vm_compute. reflexivity. Qed.

Example wide_escapes_example :
  let quoted s := String quote (s +:+ String quote "") in
  loads (quoted "\u0041\u00e9") = Ok (JStr (String "A" (String (chr 233) ""))) /\
  loads (quoted "\ud800") = Raise BeyondLatin1 /\ loads (quoted "\\ud800") = Ok (JStr "\ud800") /\
  loads (quoted "\ud80x") = Raise JSONDecodeError /\ loads (quoted "\ud800" +:+ "]") = Raise JSONDecodeError.
Proof. vm_compute. split_and!; reflexivity. Qed.

(** * [json.loads(json.dumps(j)) == j] *)

(** Values without floats, repeated names and integers that [int] refuses. *)
Fixpoint plain (j : json) : bool :=
  match j with
  | JFloat _ => false
  | JInt n => short_int n
  | JArr items => forallb plain items
  | JObj members => bool_decide (NoDup (map fst members)) && forallb (fun m => plain (snd m)) members
  | _ => true
  end.

(** How deep the scanners go. *)
Fixpoint jsize (j : json) : nat :=
  match j with
  | JArr items => S (list_sum (map (fun x => S (jsize x)) items))
  | JObj members => S (list_sum (map (fun m => S (jsize (snd m))) members))
  | _ => 1
  end.

Lemma app_cons_string c s t : String c s +:+ t = String c (s +:+ t).
Proof. done. Qed.

(** ** No escapes of characters beyond *)

Lemma wide_escape c s : wide_escapes (escape c +:+ s) = wide_escapes s.
Proof. destruct c as [[] [] [] [] [] [] [] []]; reflexivity. Qed.

Lemma wide_app_escapes s t : wide_escapes (escapes s +:+ t) = wide_escapes t.
Proof. induction s as [|c s IH]; [done|]. cbn [escapes]. by rewrite <- app_assoc_string, wide_escape, IH. Qed.

Lemma wide_dump_string s t : wide_escapes (dump_string s +:+ t) = wide_escapes t.
Proof.
  unfold dump_string. rewrite app_cons_string, <- app_assoc_string.
  change (wide_escapes (String quote ?t)) with (wide_escapes t). by rewrite wide_app_escapes.
Qed.

Lemma wide_uint d t : wide_escapes (NilEmpty.string_of_uint d +:+ t) = wide_escapes t.
Proof. induction d; cbn [NilEmpty.string_of_uint]; rewrite ?app_cons_string; [done|..]; exact IHd. Qed.

Lemma wide_number n t : wide_escapes (string_of_Z n +:+ t) = wide_escapes t.
Proof.
  assert (forall p, wide_escapes (NilZero.string_of_uint (Pos.to_uint p) +:+ t) = wide_escapes t) as H.
  { intros p. pose proof (wide_uint (Pos.to_uint p) t) as Hw. destruct (Pos.to_uint p); [|exact Hw..]. done. }
  destruct n as [|p|p]; [done|exact (H p)|exact (H p)].
Qed.

Lemma wide_join {A} (f : A -> string) l t :
  Forall (fun x => forall t, wide_escapes (f x +:+ t) = wide_escapes t) l ->
  wide_escapes (join ", " (map f l) +:+ t) = wide_escapes t.
Proof.
  intros Hl. induction Hl as [|x l Hx Hl IH]; [done|]. destruct l as [|y l]; [exact (Hx t)|].
  change (join ", " (map f (x :: y :: l))) with (f x +:+ ", " +:+ join ", " (map f (y :: l))).
  rewrite <- !app_assoc_string, Hx. exact IH.
Qed.

Lemma wide_dumps j t : plain j = true -> wide_escapes (dumps j +:+ t) = wide_escapes t.
Proof.
  revert t. induction j as [|b|n|l|s|items IH|members IH] using json_nested_ind; intros t Hp; cbn [dumps plain] in *; try done.
  - by destruct b.
  - apply wide_number.
  - apply wide_dump_string.
  - rewrite <- !app_assoc_string. change (wide_escapes ("[" +:+ ?t)) with (wide_escapes t). rewrite wide_join; [done|].
    rewrite List.forallb_forall in Hp. rewrite Forall_forall in *. intros x Hx t'. apply IH; [done|]. apply Hp, list_elem_of_In, Hx.
  - apply andb_true_iff in Hp as [_ Hp]. rewrite <- !app_assoc_string.
    change (wide_escapes ("{" +:+ ?t)) with (wide_escapes t). rewrite wide_join; [done|].
    rewrite List.forallb_forall in Hp. rewrite Forall_forall in *. intros m Hm t'.
    rewrite <- !app_assoc_string, wide_dump_string. change (wide_escapes (": " +:+ ?t)) with (wide_escapes t).
    apply IH; [done|]. apply Hp, list_elem_of_In, Hm.
Qed.

Lemma scan_escape c s :
  scan_string (escape c +:+ s) = match scan_string s with Some (t, rest) => Some (String c t, rest) | None => None end.
Proof. destruct c as [[] [] [] [] [] [] [] []]; reflexivity. Qed.

Lemma scan_escapes s rest : scan_string (escapes s +:+ String quote rest) = Some (s, rest).
Proof.
  induction s as [|c s IH]; [reflexivity|]. cbn [escapes]. by rewrite <- app_assoc_string, scan_escape, IH.
Qed.

(** ** Numbers *)

(** What can follow a number. *)
Definition ends_number (s : string) : Prop :=
  match s with
  | EmptyString => True
  | String c _ => is_decimal c = false /\ c <> "."%char /\ c <> "e"%char /\ c <> "E"%char
  end.

Lemma take_digits_uint d s : ends_number s -> take_digits (NilEmpty.string_of_uint d +:+ s) = (NilEmpty.string_of_uint d, s).
Proof.
  intros Hs. induction d; cbn [NilEmpty.string_of_uint]; rewrite ?app_cons_string; cbn [take_digits];
    try (change (is_decimal _) with true; cbv iota; by rewrite IHd).
  destruct s as [|c s]; [done|]. destruct Hs as [Hc _]. change ("" +:+ String c s) with (String c s).
  cbn [take_digits]. by rewrite Hc.
Qed.

Lemma scan_fraction_none s : ends_number s -> scan_fraction s = ("", s).
Proof. destruct s as [|c s]; [done|]. intros (_ & Hd & _). by destruct c as [[] [] [] [] [] [] [] []]. Qed.

Lemma scan_exponent_none s : ends_number s -> scan_exponent s = ("", s).
Proof.
  destruct s as [|c s]; [done|]. intros (_ & _ & He & HE). unfold scan_exponent.
  destruct (Ascii.eqb_spec c "e"), (Ascii.eqb_spec c "E"); done.
Qed.

(** The digits of a positive number do not begin with a zero. *)
Lemma to_uint_head p : exists c s, NilZero.string_of_uint (Pos.to_uint p) = String c s /\
  NilEmpty.string_of_uint (Pos.to_uint p) = String c s /\ is_decimal c = true /\ c <> "0"%char.
Proof.
  pose proof (DecimalZ.to_of (Z.to_int (Z.pos p))) as Hn. rewrite DecimalZ.of_to in Hn.
  cbn [Z.to_int Decimal.norm] in Hn. injection Hn as Hn.
  pose proof (DecimalPos.Unsigned.to_uint_nonnil p) as Hnil. pose proof (DecimalPos.Unsigned.to_uint_nonzero p) as Hz.
  destruct (Pos.to_uint p) as [|d|d|d|d|d|d|d|d|d|d]; try done; try (by eexists _, _).
  exfalso. unfold Decimal.unorm in Hn. cbn [Decimal.nzhead] in Hn.
  destruct (Decimal.nzhead d) eqn:He; try discriminate; [by rewrite Hn in Hz|].
  by apply (DecimalFacts.nzhead_nonzero d u).
Qed.

Lemma scan_int_unsigned c s : c <> "-"%char ->
  scan_int (String c s) =
    if Ascii.eqb c "0" then Some ("0", s)
    else if is_decimal c then let '(d, r) := take_digits (String c s) in Some (d, r) else None.
Proof. intros Hc. destruct c as [[] [] [] [] [] [] [] []]; done. Qed.

Lemma scan_int_string_of_Z n s : ends_number s -> scan_int (string_of_Z n +:+ s) = Some (string_of_Z n, s).
Proof.
  intros Hs. unfold string_of_Z. destruct n as [|p|p]; [done|..]; cbn [Z.to_int NilZero.string_of_int];
    destruct (to_uint_head p) as (c & t & H0 & H1 & Hc & Hne); pose proof (take_digits_uint (Pos.to_uint p) s Hs) as Ht;
    rewrite H1 in Ht; rewrite H0, ?app_cons_string in *.
  - rewrite scan_int_unsigned by (by intros ->). destruct (Ascii.eqb_spec c "0"); [done|]. by rewrite Hc, Ht.
  - unfold scan_int. destruct (Ascii.eqb_spec c "0"); [done|]. by rewrite Hc, Ht.
Qed.

Lemma scan_number_int n s : short_int n = true -> ends_number s -> scan_number (string_of_Z n +:+ s) = Ok (JInt n, s).
Proof.
  intros Hn Hs. unfold scan_number. rewrite scan_int_string_of_Z by done.
  by rewrite scan_fraction_none, scan_exponent_none, py_int_string_of_Z by done.
Qed.

(** ** Values *)

Lemma scan_constant_digit c s : is_decimal c = true -> scan_constant (String c s) = None.
Proof. intros Hc. destruct c as [[] [] [] [] [] [] [] []]; done. Qed.

Lemma scan_constant_minus c s : is_decimal c = true -> scan_constant (String "-" (String c s)) = None.
Proof. intros Hc. destruct c as [[] [] [] [] [] [] [] []]; done. Qed.

(** A number begins with a digit, or with a sign and a digit. *)
Lemma string_of_Z_head n : exists c s, is_decimal c = true /\
  (string_of_Z n = String c s \/ string_of_Z n = String "-" (String c s)).
Proof.
  unfold string_of_Z. destruct n as [|p|p]; [by exists "0"%char, ""; auto|..];
    destruct (to_uint_head p) as (c & t & H0 & _ & Hc & _); exists c, t; (split; [done|]);
    cbn [Z.to_int NilZero.string_of_int]; rewrite H0; auto.
Qed.

(** Scanning a number. *)
Lemma scan_once_number fuel n s : short_int n = true -> ends_number s ->
  scan_once (S fuel) (string_of_Z n +:+ s) = Ok (JInt n, s).
Proof.
  intros Hshort Hs. pose proof (scan_number_int n s Hshort Hs) as Hn. destruct (string_of_Z_head n) as (c & t & Hc & [H|H]);
    rewrite H, ?app_cons_string in *.
  - assert (Ascii.eqb c quote = false /\ Ascii.eqb c "[" = false /\ Ascii.eqb c "{" = false) as (H1 & H2 & H3)
      by (destruct c as [[] [] [] [] [] [] [] []]; done).
    cbn [scan_once]. by rewrite H1, H2, H3, scan_constant_digit, Hn.
  - change (scan_once (S fuel) (String "-" (String c (t +:+ s)))) with
      (match scan_constant (String "-" (String c (t +:+ s))) with
       | Some r => Ok r
       | None => scan_number (String "-" (String c (t +:+ s)))
       end).
    by rewrite scan_constant_minus, Hn.
Qed.

(** No value begins with a space or with the end of a list. *)
Lemma dumps_head j s : plain j = true ->
  skip_space (dumps j +:+ s) = dumps j +:+ s /\ exists c t, dumps j +:+ s = String c t /\ c <> "]"%char.
Proof.
  intros Hp. assert (exists c t, dumps j = String c t /\ is_json_space c = false /\ c <> "]"%char) as (c & t & Hd & Hc & He).
  { destruct j as [|[]|n|l|t|l|l]; try done; try (by eexists _, _).
    destruct (string_of_Z_head n) as (c & t & Hc & [H|H]); cbn [dumps]; rewrite H; eexists _, _; (split; [done|]); [|done].
    by destruct c as [[] [] [] [] [] [] [] []]. }
  rewrite Hd, app_cons_string. split; [|by eexists _, _]. cbn [skip_space]. by rewrite Hc.
Qed.

Definition scans (j : json) : Prop :=
  forall fuel s, jsize j <= fuel -> ends_number s -> scan_once fuel (dumps j +:+ s) = Ok (j, s).

Lemma list_sum_map_cons {A} (f : A -> nat) x l : list_sum (map f (x :: l)) = f x + list_sum (map f l).
Proof. done. Qed.

Lemma ends_comma s : ends_number (String "," s).
Proof. done. Qed.

Lemma scan_items_dumps items fuel s :
  Forall (fun j => plain j = true /\ scans j) items -> items <> [] ->
  list_sum (map (fun x => S (jsize x)) items) <= fuel ->
  scan_items fuel (join ", " (map dumps items) +:+ String "]" s) = Ok (items, s).
Proof.
  intros Hall. revert fuel. induction Hall as [|x l [Hp Hx] Hl IH]; intros fuel Hne Hf; [done|].
  rewrite list_sum_map_cons in Hf. destruct fuel as [|fuel]; [lia|].
  destruct l as [|y l].
  - cbn [map join scan_items]. rewrite Hx by (done || lia). done.
  - change (join ", " (map dumps (x :: y :: l))) with (dumps x +:+ ", " +:+ join ", " (map dumps (y :: l))).
    rewrite <- !app_assoc_string. cbn [scan_items]. rewrite Hx by (done || lia).
    inversion Hl as [|? ? [Hpy _] _]; subst.
    assert (skip_space (String " " (join ", " (map dumps (y :: l)) +:+ String "]" s)) =
            join ", " (map dumps (y :: l)) +:+ String "]" s) as Hskip.
    { destruct l as [|z l]; [exact (proj1 (dumps_head y _ Hpy))|].
      change (join ", " (map dumps (y :: z :: l))) with (dumps y +:+ ", " +:+ join ", " (map dumps (z :: l))).
      rewrite <- !app_assoc_string. exact (proj1 (dumps_head y _ Hpy)). }
    change (skip_space (", " +:+ ?t)) with (String "," (String " " t)). cbv iota beta. rewrite Hskip.
    by rewrite IH by (done || lia).
Qed.

(** The text of a member of an object. *)
Definition dump_member (m : string * json) : string := dump_string (fst m) +:+ ": " +:+ dumps (snd m).

Lemma scan_member_dumps m fuel s :
  plain (snd m) = true -> scans (snd m) -> jsize (snd m) <= fuel -> ends_number s ->
  scan_members (S fuel) (dump_member m +:+ s) =
    match skip_space s with
    | String "}" r => Ok ([m], r)
    | String "," r => match scan_members fuel (skip_space r) with Ok (l, r) => Ok (m :: l, r) | Raise e => Raise e end
    | _ => Raise JSONDecodeError
    end.
Proof.
  intros Hp Hx Hf Hs. unfold dump_member, dump_string. rewrite <- !app_assoc_string, app_cons_string, <- app_assoc_string.
  cbn [scan_members]. change (Ascii.eqb quote quote) with true. cbn [negb].
  rewrite (app_cons_string quote ""). rewrite scan_escapes. cbv iota.
  change ("" +:+ ?t) with t. change (skip_space (": " +:+ ?t)) with (String ":" (String " " t)). cbv iota beta.
  change (skip_space (String " " ?t)) with (skip_space t). rewrite (proj1 (dumps_head (snd m) _ Hp)).
  rewrite Hx by done. by destruct m.
Qed.

Lemma scan_members_dumps members fuel s :
  Forall (fun m => plain (snd m) = true /\ scans (snd m)) members -> members <> [] ->
  list_sum (map (fun m => S (jsize (snd m))) members) <= fuel ->
  scan_members fuel (join ", " (map dump_member members) +:+ String "}" s) = Ok (members, s).
Proof.
  intros Hall. revert fuel. induction Hall as [|x l [Hp Hx] Hl IH]; intros fuel Hne Hf; [done|].
  rewrite list_sum_map_cons in Hf. destruct fuel as [|fuel]; [lia|]. destruct l as [|y l].
  - cbn [map join]. rewrite scan_member_dumps by (done || lia). done.
  - change (join ", " (map dump_member (x :: y :: l))) with
      (dump_member x +:+ ", " +:+ join ", " (map dump_member (y :: l))).
    rewrite <- !app_assoc_string, scan_member_dumps by (done || lia).
    change (skip_space (", " +:+ ?t)) with (String "," (String " " t)). cbv iota beta.
    assert (skip_space (String " " (join ", " (map dump_member (y :: l)) +:+ String "}" s)) =
            join ", " (map dump_member (y :: l)) +:+ String "}" s) as -> by (by destruct l).
    by rewrite IH by (done || lia).
Qed.

(** Storing distinct keys in turn rebuilds the dictionary. *)
Lemma dset_fold (l : list (string * json)) d :
  NoDup (map fst l) -> (forall k, k ∈ map fst l -> k ∉ dkeys d) ->
  fold_left (fun d m => dset (fst m) (snd m) d) l d = d ++ l.
Proof.
  revert d. induction l as [|[k v] l IH]; intros d Hn Hd; [by rewrite app_nil_r|].
  cbn [fold_left fst snd]. apply NoDup_cons in Hn as [Hk Hn]. rewrite dset_absent by (apply dget_None, Hd; left).
  rewrite IH; [by rewrite <- app_assoc|done|]. intros k' Hk'. unfold dkeys. rewrite map_app, not_elem_of_app.
  split; [apply Hd; by right|]. cbn [map fst]. rewrite list_elem_of_singleton. intros ->. by apply Hk.
Qed.

Lemma scan_dumps j : plain j = true -> scans j.
Proof.
  induction j as [|b|n|l|t|items IH|members IH] using json_nested_ind; intros Hp fuel s Hf Hs; cbn [jsize] in Hf;
    (destruct fuel as [|fuel]; [lia|]); try done.
  - by destruct b.
  - by apply scan_once_number.
  - cbn [dumps]. unfold dump_string. rewrite app_cons_string. cbn [scan_once].
    change (Ascii.eqb quote quote) with true. cbv iota. by rewrite <- app_assoc_string, app_cons_string, scan_escapes.
  - cbn [plain] in Hp. rewrite List.forallb_forall in Hp.
    assert (Forall (fun j => plain j = true /\ scans j) items) as Hall.
    { rewrite Forall_forall in *. intros j Hj. assert (plain j = true) by (apply Hp, list_elem_of_In, Hj). auto. }
    destruct items as [|x l]; [done|]. cbn [dumps]. rewrite <- !app_assoc_string. set (l' := x :: l) in *.
    change ("[" +:+ ?t) with (String "[" t). change ("]" +:+ s) with (String "]" s). cbn [scan_once].
    change (Ascii.eqb "[" quote) with false. change (Ascii.eqb "[" "[") with true. cbv iota.
    pose proof (scan_items_dumps l' fuel s Hall ltac:(done) ltac:(lia)) as Hscan.
    assert (skip_space (join ", " (map dumps l') +:+ String "]" s) = join ", " (map dumps l') +:+ String "]" s /\
      exists c t, join ", " (map dumps l') +:+ String "]" s = String c t /\ c <> "]"%char) as (Hskip & c & t & Hc & Hne).
    { inversion Hall as [|? ? [Hx _] _]; subst. destruct l as [|y l]; [by apply dumps_head|].
      change (join ", " (map dumps l')) with (dumps x +:+ ", " +:+ join ", " (map dumps (y :: l))).
      rewrite <- !app_assoc_string. by apply dumps_head. }
    rewrite Hskip, Hc in *. destruct c as [[] [] [] [] [] [] [] []]; cbv iota beta; by rewrite ?Hscan.
  - cbn [plain] in Hp. apply andb_true_iff in Hp as [Hn%bool_decide_eq_true Hp]. rewrite List.forallb_forall in Hp.
    assert (Forall (fun m => plain (snd m) = true /\ scans (snd m)) members) as Hall.
    { rewrite Forall_forall in *. intros m Hm. assert (plain (snd m) = true) by (apply Hp, list_elem_of_In, Hm). auto. }
    destruct members as [|x l]; [done|]. cbn [dumps]. rewrite <- !app_assoc_string. set (l' := x :: l) in *.
    change ("{" +:+ ?t) with (String "{" t). change ("}" +:+ s) with (String "}" s). cbn [scan_once].
    change (Ascii.eqb "{" quote) with false. change (Ascii.eqb "{" "[") with false. change (Ascii.eqb "{" "{") with true.
    cbv iota. change (map (fun m => dump_string (fst m) +:+ ": " +:+ dumps (snd m)) l') with (map dump_member l').
    pose proof (scan_members_dumps l' fuel s Hall ltac:(done) ltac:(lia)) as Hscan.
    assert (exists t, join ", " (map dump_member l') +:+ String "}" s = String quote t) as [t Hq].
    { unfold l'. destruct l as [|y l]; by eexists. }
    rewrite Hq in *. change (skip_space (String quote t)) with (String quote t).
    change quote with (Ascii.Ascii false true false false false true false false) in *. cbv iota beta.
    rewrite Hscan, dset_fold; [done|done|]. intros k _. apply not_elem_of_nil.
Qed.

Lemma slen_join_le (l : list string) (sep : string) : (list_sum (map slen l) <= slen (join sep l))%nat.
Proof.
  induction l as [|x [|y l] IH]; [cbn; lia| |]; rewrite list_sum_map_cons.
  { change (list_sum (map slen [])) with 0%nat. change (join sep [x]) with x. lia. }
  change (join sep (x :: y :: l)) with (x +:+ sep +:+ join sep (y :: l)). rewrite !slen_app. lia.
Qed.

Lemma list_sum_le {A} (f g : A -> nat) l : (forall x, x ∈ l -> f x <= g x) -> list_sum (map f l) <= list_sum (map g l).
Proof.
  induction l as [|x l IH]; intros H; [done|]. rewrite !list_sum_map_cons.
  pose proof (H x (list_elem_of_here _ _)). assert (list_sum (map f l) <= list_sum (map g l)); [|lia].
  apply IH. intros y Hy. apply H. by right.
Qed.

Lemma list_sum_double (l : list nat) : list_sum (map (fun n => 2 * n) l) = 2 * list_sum l.
Proof. induction l as [|n l IH]; [done|]. rewrite list_sum_map_cons, IH. change (list_sum (n :: l)) with (n + list_sum l). lia. Qed.

(** The texts are long enough for the fuel of [loads]. *)
Lemma jsize_dumps j : plain j = true -> S (jsize j) <= 2 * slen (dumps j).
Proof.
  induction j as [|b|n|l|t|items IH|members IH] using json_nested_ind; intros Hp; cbn [jsize]; try (cbn; lia); try done.
  - destruct b; cbn; lia.
  - destruct (string_of_Z_head n) as (c & s & _ & [H|H]); cbn [dumps]; rewrite H; cbn; lia.
  - cbn [plain] in Hp. rewrite List.forallb_forall in Hp. rewrite Forall_forall in IH. cbn [dumps]. rewrite !slen_app.
    pose proof (slen_join_le (map dumps items) ", ") as Hj. rewrite map_map in Hj.
    assert (list_sum (map (fun x => S (jsize x)) items) <= list_sum (map (fun n => 2 * n) (map (fun x => slen (dumps x)) items)))
      as Hle by (rewrite map_map; apply list_sum_le; intros x Hx; apply IH, Hp, list_elem_of_In; done).
    rewrite list_sum_double in Hle. change (slen "[") with 1. change (slen "]") with 1. lia.
  - cbn [plain] in Hp. apply andb_true_iff in Hp as [_ Hp]. rewrite List.forallb_forall in Hp.
    rewrite Forall_forall in IH. cbn [dumps]. rewrite !slen_app.
    change (map (fun m => dump_string (fst m) +:+ ": " +:+ dumps (snd m)) members) with (map dump_member members).
    pose proof (slen_join_le (map dump_member members) ", ") as Hj. rewrite map_map in Hj.
    assert (list_sum (map (fun m => S (jsize (snd m))) members) <=
            list_sum (map (fun n => 2 * n) (map (fun m => slen (dump_member m)) members))) as Hle.
    { rewrite map_map. apply list_sum_le. intros m Hm. unfold dump_member. rewrite !slen_app.
      assert (S (jsize (snd m)) <= 2 * slen (dumps (snd m))) by (apply IH; [done|apply Hp, list_elem_of_In; done]). lia. }
    rewrite list_sum_double in Hle. change (slen "{") with 1. change (slen "}") with 1. lia.
Qed.

(** Reading a text gives back the value it was written from. *)
Lemma loads_dumps j : plain j = true -> loads (dumps j) = Ok j.
Proof.
  intros Hp. unfold loads. pose proof (dumps_head j "" Hp) as [Hskip _]. rewrite app_nil_r_string in Hskip.
  rewrite Hskip. pose proof (scan_dumps j Hp (S (2 * slen (dumps j))) "") as Hs. rewrite app_nil_r_string in Hs.
  pose proof (jsize_dumps j Hp). rewrite Hs by (done || lia). cbn [skip_space].
  pose proof (wide_dumps j "" Hp) as Hw. rewrite app_nil_r_string in Hw. by rewrite Hw.
Qed.

(** ** Errors *)

(** What scanning may raise, *)
Definition json_error (e : exn) : Prop := e = JSONDecodeError \/ e = TooManyDigits.

Lemma scan_number_raises s e : scan_number s = Raise e -> json_error e.
Proof.
  unfold scan_number, json_error. destruct (scan_int s) as [[i r]|]; [|intros [= <-]; auto].
  destruct (scan_fraction r) as [frac r1], (scan_exponent r1) as [ex r2]. destruct (frac +:+ ex); [|done].
  destruct (py_int i); [done|]. intros [= <-]. auto.
Qed.

Lemma scan_raises fuel :
  (forall s e, scan_once fuel s = Raise e -> json_error e) /\ (forall s e, scan_items fuel s = Raise e -> json_error e) /\
  (forall s e, scan_members fuel s = Raise e -> json_error e).
Proof.
  induction fuel as [|fuel (IHo & IHi & IHm)]; [split_and!; intros s e; cbn; intros [= <-]; by left|].
  assert (json_error JSONDecodeError) as Hd by (by left).
  split_and!; intros s e.
  - cbn [scan_once]. destruct s as [|c s']; [intros [= <-]; auto|].
    destruct (Ascii.eqb c quote); [destruct (scan_string s') as [[]|]; [done|intros [= <-]; auto]|].
    destruct (Ascii.eqb c "["); [|destruct (Ascii.eqb c "{")].
    + assert (match scan_items fuel (skip_space s') with Ok (l, r) => Ok (JArr l, r) | Raise e => Raise e end = Raise e -> json_error e) as Hi.
      { destruct (scan_items fuel (skip_space s')) as [[]|x] eqn:Hx; [done|]. intros [= <-]. eauto. }
      destruct (skip_space s') as [|x t]; [exact Hi|]. destruct x as [[] [] [] [] [] [] [] []]; try exact Hi. done.
    + assert (match scan_members fuel (skip_space s') with Ok (l, r) => Ok (JObj (fold_left (fun d m => dset (fst m) (snd m) d) l []), r)
        | Raise e => Raise e end = Raise e -> json_error e) as Hi.
      { destruct (scan_members fuel (skip_space s')) as [[]|x] eqn:Hx; [done|]. intros [= <-]. eauto. }
      destruct (skip_space s') as [|x t]; [exact Hi|]. destruct x as [[] [] [] [] [] [] [] []]; try exact Hi. done.
    + destruct (scan_constant (String c s')); [done|]. apply scan_number_raises.
  - cbn [scan_items]. destruct (scan_once fuel s) as [[x r]|y] eqn:Ho; [|intros [= <-]; eauto].
    destruct (skip_space r) as [|c t]; [intros [= <-]; auto|].
    destruct c as [[] [] [] [] [] [] [] []]; try (intros [= <-]; by auto); try done.
    destruct (scan_items fuel (skip_space t)) as [[]|y] eqn:Hi; [done|]. intros [= <-]. eauto.
  - cbn [scan_members]. destruct s as [|q s']; [intros [= <-]; auto|]. destruct (negb _); [intros [= <-]; auto|].
    destruct (scan_string s') as [[k r]|]; [|intros [= <-]; auto]. destruct (skip_space r) as [|c t]; [intros [= <-]; auto|].
    destruct c as [[] [] [] [] [] [] [] []]; try (intros [= <-]; by auto).
    destruct (scan_once fuel (skip_space t)) as [[v r']|y] eqn:Ho; [|intros [= <-]; eauto].
    destruct (skip_space r') as [|c t']; [intros [= <-]; auto|].
    destruct c as [[] [] [] [] [] [] [] []]; try (intros [= <-]; by auto); try done.
    destruct (scan_members fuel (skip_space t')) as [[]|y] eqn:Hi; [done|]. intros [= <-]. eauto.
Qed.

(** and reading. *)
Lemma loads_raises s e : loads s = Raise e -> json_error e \/ e = BeyondLatin1.
Proof.
  unfold loads. destruct (scan_once _ (skip_space s)) as [[j r]|x] eqn:Hs.
  - destruct (skip_space r).
    + destruct (wide_escapes s); [|done]. intros [= <-]. by right.
    + intros [= <-]. by left; left.
  - intros [= <-]. left. exact (proj1 (scan_raises _) _ _ Hs).
Qed.

Example too_many_digits :
  loads ("[" +:+ String.concat "" (repeat "9" 4301)) = Raise TooManyDigits /\
  loads (String.concat "" (repeat "9" 4300) +:+ "]") = Raise JSONDecodeError.
Proof. vm_compute. split; reflexivity. Qed.
