(* ===== verification/JsonPattern.v ===== *)
(** Patterns on JSON bodies ([guard_core/handlers/_behavior_json_pattern.py]): a
    dotted path, [==] and a value, which is compared with the text of what the path
    leads to, whatever the case. *)
From S2P Require Import Prelude PyStr PyDict Json.

(** * [str] and [repr] of JSON data *)

(** [s.split(sep, 1)] for a separator that occurs. *)
Fixpoint split_once (sep s : string) : option (string * string) :=
  if String.prefix sep s then Some ("", sdrop (slen sep) s)
  else match s with
       | EmptyString => None
       | String c s' => match split_once sep s' with Some (a, b) => Some (String c a, b) | None => None end
       end.

(** [s.strip(chars)] *)
Fixpoint lstrip_chars (p : ascii -> bool) (s : string) : string :=
  match s with String c s' => if p c then lstrip_chars p s' else s | EmptyString => "" end.
Fixpoint rstrip_chars (p : ascii -> bool) (s : string) : string :=
  match s with
  | EmptyString => ""
  | String c s' => match rstrip_chars p s' with
                   | EmptyString => if p c then "" else String c ""
                   | t => String c t
                   end
  end.
Definition strip_chars (p : ascii -> bool) (s : string) : string := rstrip_chars p (lstrip_chars p s).

Definition apostrophe : ascii := chr 39.

(** The characters of [repr] of a string with the quote [q]. *)
Fixpoint repr_chars (q : ascii) (s : string) : string :=
  match s with
  | EmptyString => ""
  | String c s' =>
      (if Ascii.eqb c q || Ascii.eqb c backslash then String backslash (String c "")
       else if (code c =? 9)%Z then String backslash "t"
       else if (code c =? 10)%Z then String backslash "n"
       else if (code c =? 13)%Z then String backslash "r"
       else if (code c <? 32)%Z || (code c =? 127)%Z then
         String backslash ("x" +:+ String (hex_char (code c / 16)) (String (hex_char (code c mod 16)) ""))
       else String c "") +:+ repr_chars q s'
  end.

Definition repr_string (s : string) : string :=
  let q := if has_char apostrophe s && negb (has_char quote s) then quote else apostrophe in
  String q (repr_chars q s +:+ String q "").

Section text.
(** [repr(float(literal))] *)
Variable float_repr : string -> string.

Fixpoint py_repr (j : json) : string :=
  match j with
  | JNull => "None"
  | JBool b => py_bool b
  | JInt n => string_of_Z n
  | JFloat l => float_repr l
  | JStr s => repr_string s
  | JArr items => "[" +:+ join ", " (map py_repr items) +:+ "]"
  | JObj members => "{" +:+ join ", " (map (fun m => repr_string (fst m) +:+ ": " +:+ py_repr (snd m)) members) +:+ "}"
  end.

Definition py_str (j : json) : string := match j with JStr s => s | _ => py_repr j end.

(** [bool(value)] of JSON data *)
Definition json_truth (j : json) : bool :=
  match j with
  | JNull => false
  | JBool b => b
  | JInt n => negb (n =? 0)%Z
  | JFloat literal => negb (bool_decide (float_repr literal ∈ ["0.0"; "-0.0"]))
  | JStr s => truthy s
  | JArr items => nonempty items
  | JObj members => nonempty members
  end.

(** * Matching *)

Definition is_quote (c : ascii) : bool := Ascii.eqb c quote || Ascii.eqb c apostrophe.

Definition _parse_pattern (pattern : string) : option (string * string) :=
  match split_once "==" pattern with
  | None => None
  | Some (path, expected) => Some (strip path, strip_chars is_quote (strip expected))
  end.

(** [str(x).lower() == expected.lower()] *)
Definition same_text (x : json) (expected : string) : bool := (lower (py_str x) =? lower expected)%string.

Definition member (current : json) (part : string) : option json :=
  match current with JObj members => dget part members | _ => None end.

Definition _handle_array_match (current : json) (part expected : string) : bool :=
  match member current (stake (slen part - 2)%nat part) with
  | Some (JArr items) => existsb (fun item => same_text item expected) items
  | _ => false
  end.

Definition traverse (current : option json) (part : string) : option json :=
  match current with Some current => member current part | None => None end.

Definition _traverse_json_path (data : json) (path : string) : option json :=
  fold_left traverse (split_on "." path) (Some data).

Fixpoint match_parts (current : json) (parts : list string) (expected : string) : bool :=
  match parts with
  | [] => same_text current expected
  | part :: parts' =>
      if endswith part "[]" then _handle_array_match current part expected
      else match member current part with
           | Some current => match_parts current parts' expected
           | None => false
           end
  end.

Definition _match_json_pattern (data : json) (pattern : string) : bool :=
  match _parse_pattern pattern with
  | None => false
  | Some (path, expected) => match_parts data (split_on "." path) expected
  end.

(** * What a pattern matches *)

(** The texts a path leads to: of the value at the path, or of the items of the list
    at the first part that ends in [[]]. *)
Inductive leads_to : json -> list string -> json -> Prop :=
| leads_here x : leads_to x [] x
| leads_member x part parts y z :
    endswith part "[]" = false -> member x part = Some y -> leads_to y parts z -> leads_to x (part :: parts) z
| leads_item x name parts items y :
    member x name = Some (JArr items) -> y ∈ items -> leads_to x ((name +:+ "[]") :: parts) y.

Lemma stake_array name : stake (slen (name +:+ "[]") - 2)%nat (name +:+ "[]") = name.
Proof. rewrite slen_app. change (slen "[]") with 2%nat. rewrite Nat.add_sub. apply stake_app. Qed.

Lemma match_parts_spec x parts expected :
  match_parts x parts expected = true <-> exists y, leads_to x parts y /\ same_text y expected = true.
Proof.
  revert x. induction parts as [|part parts IH]; intros x; cbn [match_parts].
  { split; [intros H; exists x; split; [constructor|done]|]. intros (y & Hl & H). by inversion Hl; subst. }
  destruct (endswith part "[]") eqn:He.
  - pose proof He as [name ->]%endswith_spec. unfold _handle_array_match. rewrite stake_array. split.
    + destruct (member x name) as [[]|] eqn:Hm; try done. intros (y & Hy & H)%List.existsb_exists.
      exists y. split; [|done]. eapply leads_item; [exact Hm|]. by apply list_elem_of_In.
    + intros (y & Hl & H). inversion Hl as [|? ? ? ? ? Hf|? name' ? items ? Hm Hy Hx Hn]; subst; [congruence|].
      match goal with H : name' +:+ _ = name +:+ _ |- _ =>
        assert (name' = name) as -> by (rewrite <- (stake_array name'), H; apply stake_array) end.
      rewrite Hm. apply List.existsb_exists. exists y. split; [by apply list_elem_of_In|done].
  - split.
    + destruct (member x part) as [y|] eqn:Hm; [|done]. intros (z & Hl & H)%IH. exists z. split; [|done].
      by eapply leads_member.
    + intros (z & Hl & H). inversion Hl as [|? ? ? y ? Hf Hm Hl'|? name ? items ? Hm Hy Hx Hn]; subst.
      * rewrite Hm. apply IH. by exists z.
      * exfalso. apply not_true_iff_false in He. apply He, endswith_spec. by exists name.
Qed.
End text.

Example pattern_reaches_a_member :
  _match_json_pattern (fun l => l) (JObj [("error", JObj [("code", JStr "auth_fail")])]) "error.code == 'AUTH_FAIL'" = true.
Proof. vm_compute. reflexivity. Qed.

Example pattern_searches_a_list :
  _match_json_pattern (fun l => l) (JObj [("tags", JArr [JInt 1; JBool true; JNull])]) "tags[]==TRUE" = true.
Proof. vm_compute. reflexivity. Qed.

(** What follows a list in a path is not looked at: the items are compared whole. *)
Example pattern_stops_at_a_list :
  _match_json_pattern (fun l => l) (JObj [("users", JArr [JObj [("role", JStr "admin")]])]) "users[].role==admin" = false /\
  _match_json_pattern (fun l => l) (JObj [("users", JArr [JStr "admin"])]) "users[].role==admin" = true.
Proof. vm_compute. split; reflexivity. Qed.
