(* ===== verification/IpAddr.v ===== *)
(** The part of Python's [ipaddress] module the program uses: parsing and
    printing of addresses, networks, containment and overlap (CPython 3.13).

    An address is its integer with its version; an IPv6 address may carry a
    scope.  A network is a network address and a prefix length.  [None] stands
    for the [ValueError] that the constructors raise. *)
From S2P Require Import Prelude PyStr.

(** * Addresses *)

Inductive ip : Type :=
| V4 (n : Z)
| V6 (n : Z) (scope_id : option string).

#[export] Instance ip_eq_dec : EqDecision ip.
Proof. solve_decision. Defined.

Definition ip_int (a : ip) : Z := match a with V4 n => n | V6 n _ => n end.

(** [addr.version == 6], as the width of the address *)
Definition ip_width (a : ip) : Z := match a with V4 _ => 32 | V6 _ _ => 128 end.

Definition ip_wf (a : ip) : Prop := (0 <= ip_int a < 2 ^ ip_width a)%Z.

(** ** IPv4 *)

(** [_parse_octet] *)
Definition parse_octet (s : string) : option Z :=
  if negb (truthy s) then None
  else if negb (sforall is_decimal s) then None
  else if (3 <? slen s)%nat then None
  else if negb (s =? "0")%string && startswith s "0" then None
  else let n := decimal_value 0 s in if (255 <? n)%Z then None else Some n.

(** [IPv4Address._ip_int_from_string] *)
Definition parse_ipv4_int (s : string) : option Z :=
  match split_on "." s with
  | [a; b; c; d] =>
      match parse_octet a, parse_octet b, parse_octet c, parse_octet d with
      | Some x, Some y, Some z, Some w => Some (((x * 256 + y) * 256 + z) * 256 + w)%Z
      | _, _, _, _ => None
      end
  | _ => None
  end.

(** [IPv4Address(s)] *)
Definition parse_ipv4 (s : string) : option ip :=
  if has_char "/" s then None else option_map V4 (parse_ipv4_int s).

(** [str(IPv4Address(n))] *)
Definition string_of_ipv4 (n : Z) : string :=
  join "." [string_of_Z (n / 256 ^ 3 mod 256); string_of_Z (n / 256 ^ 2 mod 256);
            string_of_Z (n / 256 mod 256); string_of_Z (n mod 256)].

(** ** IPv6 *)

(** [int(s, 16)] of hexadecimal digits *)
Fixpoint hex_value_of (acc : Z) (s : string) : option Z :=
  match s with
  | EmptyString => Some acc
  | String c s' => match hex_value c with
                   | Some d => hex_value_of (16 * acc + d) s'
                   | None => None
                   end
  end.

(** [_parse_hextet] *)
Definition parse_hextet (s : string) : option Z :=
  if negb (truthy s) then None
  else if (4 <? slen s)%nat then None
  else hex_value_of 0 s.

Definition hex_digit (d : Z) : ascii := if (d <? 10)%Z then chr (48 + d) else chr (87 + d).

(** ['%x' % n], for a 16-bit [n] *)
Definition string_of_hextet (n : Z) : string :=
  if (n <? 16)%Z then String (hex_digit n) ""
  else if (n <? 256)%Z then String (hex_digit (n / 16)) (String (hex_digit (n mod 16)) "")
  else if (n <? 4096)%Z then
    String (hex_digit (n / 256)) (String (hex_digit (n / 16 mod 16)) (String (hex_digit (n mod 16)) ""))
  else String (hex_digit (n / 4096)) (String (hex_digit (n / 256 mod 16))
         (String (hex_digit (n / 16 mod 16)) (String (hex_digit (n mod 16)) ""))).

(** The index of the only empty part strictly between the end parts: [Some None]
    when there is none, [None] (an error) when there are two. *)
Fixpoint find_skip (i : nat) (parts : list string) (found : option nat) : option (option nat) :=
  match parts with
  | [] | [_] => Some found
  | p :: parts' =>
      if truthy p then find_skip (S i) parts' found
      else match found with
           | Some _ => None
           | None => find_skip (S i) parts' (Some i)
           end
  end.

(** The hextets of a list of parts, most significant first, as one integer. *)
Fixpoint parse_hextets (acc : Z) (parts : list string) : option Z :=
  match parts with
  | [] => Some acc
  | p :: parts' => match parse_hextet p with
                   | Some h => parse_hextets (Z.shiftl acc 16 + h) parts'
                   | None => None
                   end
  end.

(** The end of [_ip_int_from_string]: [hi] parts, [skipped] zero hextets, [lo]
    parts from the end. *)
Definition assemble (parts : list string) (hi lo skipped : nat) : option Z :=
  match parse_hextets 0 (take hi parts) with
  | None => None
  | Some n => parse_hextets (Z.shiftl n (16 * Z.of_nat skipped)) (drop (length parts - lo) parts)
  end.

(** The parts after the dotted-quad suffix has been rewritten to two hextets. *)
Definition expand_ipv4_suffix (parts : list string) : option (list string) :=
  let last_part := default "" (last parts) in
  if has_char "." last_part then
    match parse_ipv4 last_part with
    | Some a => Some (removelast parts ++
                      [string_of_hextet (Z.land (Z.shiftr (ip_int a) 16) 65535);
                       string_of_hextet (Z.land (ip_int a) 65535)])
    | None => None
    end
  else Some parts.

(** The case split of [_ip_int_from_string] on the position of ["::"]. *)
Definition parse_parts (parts : list string) : option Z :=
  let n := length parts in
  if (9 <? n)%nat then None else
  match find_skip 1 (tail parts) None with
  | None => None
  | Some (Some skip) =>
      let hi := if truthy (default "" (head parts)) then skip else (skip - 1)%nat in
      let lo := if truthy (default "" (last parts)) then (n - skip - 1)%nat else (n - skip - 2)%nat in
      if negb (truthy (default "" (head parts))) && negb (hi =? 0)%nat then None
      else if negb (truthy (default "" (last parts))) && negb (lo =? 0)%nat then None
      else if (8 <=? hi + lo)%nat then None
      else assemble parts hi lo (8 - (hi + lo))
  | Some None =>
      if negb (n =? 8)%nat then None
      else if negb (truthy (default "" (head parts))) then None
      else if negb (truthy (default "" (last parts))) then None
      else assemble parts 8 0 0
  end.

(** [IPv6Address._ip_int_from_string] *)
Definition parse_ipv6_int (s : string) : option Z :=
  let parts := split_on ":" s in
  if (length parts <? 3)%nat then None
  else match expand_ipv4_suffix parts with
       | None => None
       | Some parts => parse_parts parts
       end.

(** [IPv6Address(s)] *)
Definition parse_ipv6 (s : string) : option ip :=
  if has_char "/" s then None
  else match partition_char "%" s with
       | None => match parse_ipv6_int s with Some n => Some (V6 n None) | None => None end
       | Some (addr, scope) =>
           if negb (truthy scope) || has_char "%" scope then None
           else match parse_ipv6_int addr with Some n => Some (V6 n (Some scope)) | None => None end
       end.

Definition hextets (n : Z) : list Z :=
  map (fun i => Z.land (Z.shiftr n (16 * i)) 65535) [7; 6; 5; 4; 3; 2; 1; 0]%Z.

(** The longest run of zeros, the first among equals: start and length
    ([_compress_hextets], first loop). *)
Fixpoint zero_run (i : nat) (l : list Z) (best_start best_len start len : nat) : nat * nat :=
  match l with
  | [] => (best_start, best_len)
  | h :: l' =>
      if (h =? 0)%Z then
        let len' := S len in
        let start' := if (len =? 0)%nat then i else start in
        if (best_len <? len')%nat then zero_run (S i) l' start' len' start' len'
        else zero_run (S i) l' best_start best_len start' len'
      else zero_run (S i) l' best_start best_len 0 0
  end.

(** [_compress_hextets] *)
Definition compress_hextets (l : list Z) : list string :=
  let '(start, len) := zero_run 0 l 0 0 0 0 in
  let strs := map string_of_hextet l in
  if (1 <? len)%nat then
    let stop := (start + len)%nat in
    let strs := if (stop =? length l)%nat then strs ++ [""] else strs in
    let strs := take start strs ++ [""] ++ drop stop strs in
    if (start =? 0)%nat then "" :: strs else strs
  else strs.

(** [_string_from_ip_int] *)
Definition string_of_ipv6_int (n : Z) : string := join ":" (compress_hextets (hextets n)).

(** [addr.ipv4_mapped] *)
Definition ipv4_mapped (n : Z) : option Z :=
  if (Z.shiftr n 32 =? 65535)%Z then Some (Z.land n (Z.ones 32)) else None.

(** [str(addr)] *)
Definition string_of_ip (a : ip) : string :=
  match a with
  | V4 n => string_of_ipv4 n
  | V6 n scope =>
      let s := match ipv4_mapped n with
               | Some m => string_of_ipv6_int (Z.shiftr n 32) +:+ ":" +:+ string_of_ipv4 m
               | None => string_of_ipv6_int n
               end in
      match scope with
      | Some sc => s +:+ "%" +:+ sc
      | None => s
      end
  end.

(** [ip_address(s)] *)
Definition ip_address (s : string) : option ip :=
  match parse_ipv4 s with
  | Some a => Some a
  | None => parse_ipv6 s
  end.

(** * Networks *)

Inductive net : Type :=
| Net4 (network_address prefixlen : Z)
| Net6 (network_address prefixlen : Z) (scope_id : option string).

#[export] Instance net_eq_dec : EqDecision net.
Proof. solve_decision. Defined.

Definition net_int (n : net) : Z := match n with Net4 a _ => a | Net6 a _ _ => a end.
Definition net_plen (n : net) : Z := match n with Net4 _ p => p | Net6 _ p _ => p end.
Definition net_width (n : net) : Z := match n with Net4 _ _ => 32 | Net6 _ _ _ => 128 end.

(** The netmask of a prefix length, in a [w]-bit address. *)
Definition netmask (w plen : Z) : Z := Z.shiftl (Z.ones plen) (w - plen).

(** [network.broadcast_address] *)
Definition broadcast_int (n : net) : Z := Z.lor (net_int n) (Z.ones (net_width n - net_plen n)).

Definition net_wf (n : net) : Prop :=
  (0 <= net_plen n <= net_width n /\ 0 <= net_int n < 2 ^ net_width n /\
   Z.land (net_int n) (netmask (net_width n) (net_plen n)) = net_int n)%Z.

(** [_prefix_from_prefix_string] *)
Definition prefix_from_prefix_string (w : Z) (s : string) : option Z :=
  if truthy s && sforall is_decimal s then
    let n := decimal_value 0 s in if (n <=? w)%Z then Some n else None
  else None.

(** The prefix length [p] whose netmask is [m] ([_prefix_from_ip_int]). *)
Definition prefix_from_ip_int (m : Z) : option Z :=
  List.find (fun p => (netmask 32 p =? m)%Z) (seqZ 0 33).

(** [_prefix_from_ip_string]: a netmask or a hostmask in dotted-quad form *)
Definition prefix_from_ip_string (s : string) : option Z :=
  match parse_ipv4_int s with
  | None => None
  | Some m => match prefix_from_ip_int m with
              | Some p => Some p
              | None => prefix_from_ip_int (Z.lxor m (Z.ones 32))
              end
  end.

(** [IPv4Network(s, strict=False)] *)
Definition parse_net4 (s : string) : option net :=
  let make addr mask :=
    match parse_ipv4_int addr, mask with
    | Some n, Some p => Some (Net4 (Z.land n (netmask 32 p)) p)
    | _, _ => None
    end in
  match split_on "/" s with
  | [addr] => make addr (Some 32%Z)
  | [addr; m] =>
      make addr (match prefix_from_prefix_string 32 m with
                 | Some p => Some p
                 | None => prefix_from_ip_string m
                 end)
  | _ => None
  end.

(** [IPv6Network(s, strict=False)] *)
Definition parse_net6 (s : string) : option net :=
  let make addr mask :=
    match parse_ipv6 addr, mask with
    | Some (V6 n sc), Some p =>
        let masked := Z.land n (netmask 128 p) in
        Some (Net6 masked p (if (masked =? n)%Z then sc else None))
    | _, _ => None
    end in
  match split_on "/" s with
  | [addr] => make addr (Some 128%Z)
  | [addr; m] => make addr (prefix_from_prefix_string 128 m)
  | _ => None
  end.

(** [ip_network(s, strict=False)] *)
Definition ip_network (s : string) : option net :=
  match parse_net4 s with
  | Some n => Some n
  | None => parse_net6 s
  end.

(** [ip_network(addr)] for an address object: the network of that one address *)
Definition host_network (a : ip) : net :=
  match a with V4 n => Net4 n 32 | V6 n sc => Net6 n 128 sc end.

(** [addr in network] *)
Definition ip_in_net (a : ip) (n : net) : bool :=
  (ip_width a =? net_width n)%Z &&
  (Z.land (ip_int a) (netmask (net_width n) (net_plen n)) =? net_int n)%Z.

(** [addr.version == network.version] *)
Definition same_version (a b : net) : bool := (net_width a =? net_width b)%Z.

Definition int_in_net (w x : Z) (n : net) : bool :=
  (w =? net_width n)%Z && (Z.land x (netmask (net_width n) (net_plen n)) =? net_int n)%Z.

(** [a.overlaps(b)] *)
Definition overlaps (a b : net) : bool :=
  int_in_net (net_width a) (net_int a) b || int_in_net (net_width a) (broadcast_int a) b ||
  int_in_net (net_width b) (net_int b) a || int_in_net (net_width b) (broadcast_int b) a.

(** [str(network)] *)
Definition string_of_net (n : net) : string :=
  match n with
  | Net4 a p => string_of_ip (V4 a) +:+ "/" +:+ string_of_Z p
  | Net6 a p sc => string_of_ip (V6 a sc) +:+ "/" +:+ string_of_Z p
  end.

(** ** Classification *)

Definition net4 (a b c d p : Z) : net := Net4 (((a * 256 + b) * 256 + c) * 256 + d)%Z p.
Definition net6 (hi : Z) (hi_bits p : Z) : net := Net6 (Z.shiftl hi (128 - hi_bits)) p None.

(** [addr.is_loopback] *)
Definition is_loopback (a : ip) : bool :=
  let v4 n := ip_in_net (V4 n) (net4 127 0 0 0 8) in
  match a with
  | V4 n => v4 n
  | V6 n _ => match ipv4_mapped n with Some m => v4 m | None => (n =? 1)%Z end
  end.

(** [addr.is_link_local] *)
Definition is_link_local (a : ip) : bool :=
  let v4 n := ip_in_net (V4 n) (net4 169 254 0 0 16) in
  match a with
  | V4 n => v4 n
  | V6 n _ => match ipv4_mapped n with
              | Some m => v4 m
              | None => ip_in_net a (net6 65152 16 10)
              end
  end.

Definition private_networks4 : list net :=
  [net4 0 0 0 0 8; net4 10 0 0 0 8; net4 127 0 0 0 8; net4 169 254 0 0 16; net4 172 16 0 0 12;
   net4 192 0 0 0 24; net4 192 0 0 170 31; net4 192 0 2 0 24; net4 192 168 0 0 16;
   net4 198 18 0 0 15; net4 198 51 100 0 24; net4 203 0 113 0 24; net4 240 0 0 0 4;
   net4 255 255 255 255 32]%Z.

Definition private_exceptions4 : list net := [net4 192 0 0 9 32; net4 192 0 0 10 32]%Z.

Definition private_networks6 : list net :=
  [Net6 1 128 None; Net6 0 128 None; Net6 (Z.shiftl 65535 32) 96 None;
   net6 433785077761 48 48; net6 256 16 64; net6 8193 16 23; net6 536939960 32 32;
   net6 8194 16 16; net6 64512 16 7; net6 65152 16 10]%Z.

Definition private_exceptions6 : list net :=
  [Net6 (Z.shiftl 536936449 96 + 1) 128 None; Net6 (Z.shiftl 536936449 96 + 2) 128 None;
   net6 536936451 32 32; net6 35188667318546 48 48; net6 536936480 32 28; net6 536936496 32 28]%Z.

Definition privates (w : Z) : list net * list net :=
  if (w =? 32)%Z then (private_networks4, private_exceptions4)
  else (private_networks6, private_exceptions6).

(** [addr.is_private] *)
Definition is_private (a : ip) : bool :=
  let of_int a := let '(nets, exc) := privates (ip_width a) in
    existsb (ip_in_net a) nets && negb (existsb (ip_in_net a) exc) in
  match a with
  | V4 _ => of_int a
  | V6 n _ => match ipv4_mapped n with Some m => of_int (V4 m) | None => of_int a end
  end.

(** [network.is_private] *)
Definition net_is_private (n : net) : bool :=
  let both p := int_in_net (net_width n) (net_int n) p && int_in_net (net_width n) (broadcast_int n) p in
  let '(nets, exc) := privates (net_width n) in
  existsb both nets &&
  negb (existsb (fun p => int_in_net (net_width n) (net_int n) p ||
                          int_in_net (net_width n) (broadcast_int n) p) exc).

(** * Lemmas: containment and overlap *)

Lemma testbit_above w x i : (0 <= x < 2 ^ w)%Z -> (0 <= w <= i)%Z -> Z.testbit x i = false.
Proof. intros Hx Hi. rewrite <- (Z.mod_small x (2 ^ w)) by done. by apply Z.mod_pow2_bits_high. Qed.

Lemma netmask_land w p x :
  (0 <= p <= w)%Z -> (0 <= x < 2 ^ w)%Z ->
  Z.land x (netmask w p) = (x / 2 ^ (w - p) * 2 ^ (w - p))%Z.
Proof.
  intros Hp Hx. unfold netmask. rewrite <- (Z.shiftr_div_pow2 x), <- Z.shiftl_mul_pow2 by lia.
  apply Z.bits_inj'. intros i Hi. rewrite Z.land_spec, !Z.shiftl_spec by lia.
  destruct (Z.lt_ge_cases i (w - p)) as [Hl|Hl].
  - rewrite !(Z.testbit_neg_r _ (i - (w - p))) by lia. by rewrite andb_false_r.
  - rewrite Z.shiftr_spec by lia. replace (i - (w - p) + (w - p))%Z with i by lia.
    rewrite Z.testbit_ones by lia. destruct (Z.lt_ge_cases i w) as [Hw|Hw].
    + replace ((0 <=? i - (w - p)) && (i - (w - p) <? p))%Z with true; [by rewrite andb_true_r|].
      symmetry. apply andb_true_iff. split; [apply Z.leb_le|apply Z.ltb_lt]; lia.
    + by rewrite (testbit_above w) by lia.
Qed.

(** Membership is equality of the leading [plen] bits. *)
Lemma int_in_net_spec w x n :
  net_wf n -> (0 <= x < 2 ^ w)%Z ->
  int_in_net w x n = true <->
  w = net_width n /\ (x / 2 ^ (w - net_plen n) = net_int n / 2 ^ (w - net_plen n))%Z.
Proof.
  intros (Hp & Hn & Hm) Hx. unfold int_in_net. rewrite andb_true_iff, !Z.eqb_eq.
  split; intros [-> H]; (split; [done|]).
  - rewrite <- H. rewrite netmask_land by done. rewrite Z.div_mul; [done|].
    apply Z.pow_nonzero; lia.
  - rewrite netmask_land by done. rewrite <- Hm at 1. rewrite netmask_land by done.
    by rewrite H.
Qed.

Lemma ip_in_net_int a n : ip_in_net a n = int_in_net (ip_width a) (ip_int a) n.
Proof. done. Qed.

Lemma ip_in_net_spec a n :
  net_wf n -> ip_wf a ->
  ip_in_net a n = true <->
  ip_width a = net_width n /\
  (ip_int a / 2 ^ (net_width n - net_plen n) = net_int n / 2 ^ (net_width n - net_plen n))%Z.
Proof.
  intros Hn Ha. rewrite ip_in_net_int, int_in_net_spec by done.
  split; intros [H1 H2]; (split; [done|]); by rewrite H1 in *.
Qed.

Lemma net_aligned n : net_wf n -> (net_int n mod 2 ^ (net_width n - net_plen n) = 0)%Z.
Proof.
  intros (Hp & Hn & Hm). rewrite <- Hm, netmask_land by done.
  apply Z.mod_mul, Z.pow_nonzero; lia.
Qed.

Lemma broadcast_int_value n :
  net_wf n -> broadcast_int n = (net_int n + 2 ^ (net_width n - net_plen n) - 1)%Z.
Proof.
  intros Hwf. pose proof (net_aligned n Hwf) as Ha. destruct Hwf as (Hp & Hn & Hm).
  unfold broadcast_int.
  assert (Z.land (net_int n) (Z.ones (net_width n - net_plen n)) = 0)%Z as Hl
    by (rewrite Z.land_ones by lia; done).
  rewrite <- Z.lxor_lor, <- Z.add_nocarry_lxor by done. rewrite Z.ones_equiv. lia.
Qed.

(** A network is the range from its network address to its broadcast address. *)
Lemma int_in_net_range w x n :
  net_wf n -> (0 <= x < 2 ^ w)%Z ->
  int_in_net w x n = true <-> w = net_width n /\ (net_int n <= x <= broadcast_int n)%Z.
Proof.
  intros Hn Hx. rewrite int_in_net_spec, broadcast_int_value by done.
  pose proof (net_aligned n Hn) as Ha. destruct Hn as (Hp & Hr & _).
  split; intros [-> H]; (split; [done|]);
    set (k := (2 ^ (net_width n - net_plen n))%Z) in *;
    assert (0 < k)%Z by (apply Z.pow_pos_nonneg; lia);
    pose proof (Z.div_mod (net_int n) k ltac:(lia)) as E1;
    pose proof (Z.div_mod x k ltac:(lia)) as E2;
    pose proof (Z.mod_pos_bound x k ltac:(lia)).
  - rewrite H in E2. lia.
  - rewrite Ha in E1. set (q := (net_int n / k)%Z) in *.
    symmetry. apply (Z.div_unique_pos x k q (x - k * q)); lia.
Qed.

Lemma net_bounds n :
  net_wf n -> (0 <= net_int n <= broadcast_int n /\ broadcast_int n < 2 ^ net_width n)%Z.
Proof.
  intros Hn. pose proof (net_aligned n Hn) as Ha. rewrite broadcast_int_value by done.
  destruct Hn as (Hp & Hr & _). set (k := (2 ^ (net_width n - net_plen n))%Z) in *.
  assert (0 < k)%Z by (apply Z.pow_pos_nonneg; lia).
  assert (2 ^ net_width n = k * 2 ^ net_plen n)%Z as E
    by (unfold k; rewrite <- Z.pow_add_r by lia; f_equal; lia).
  assert (net_int n = k * (net_int n / k))%Z as E1
    by (pose proof (Z.div_mod (net_int n) k ltac:(lia)); lia).
  set (q := (net_int n / k)%Z) in *. set (t := (2 ^ net_plen n)%Z) in *.
  assert (q < t)%Z by nia. assert (k * (q + 1) <= k * t)%Z by nia. lia.
Qed.

(** Two networks overlap exactly when some address lies in both. *)
Lemma overlaps_spec a b :
  net_wf a -> net_wf b ->
  overlaps a b = true <->
  net_width a = net_width b /\
  exists x, (0 <= x < 2 ^ net_width a)%Z /\
            int_in_net (net_width a) x a = true /\ int_in_net (net_width a) x b = true.
Proof.
  intros Ha Hb. pose proof (net_bounds a Ha). pose proof (net_bounds b Hb).
  unfold overlaps. rewrite !orb_true_iff. split.
  - rewrite !int_in_net_range by (done || lia).
    intros [[[[E ?]|[E ?]]|[E ?]]|[E ?]];
      (split; [congruence|]); rewrite E in *;
      [exists (net_int a)|exists (broadcast_int a)|exists (net_int b)|exists (broadcast_int b)];
      (split; [lia|]); rewrite !int_in_net_range by (done || lia); rewrite E; lia.
  - intros (E & x & Hx & Hin & Hin'). rewrite !int_in_net_range in * by (done || lia).
    rewrite <- E in *. lia.
Qed.

Lemma netmask_idemp w p x :
  (0 <= p <= w)%Z -> (0 <= x < 2 ^ w)%Z ->
  Z.land (Z.land x (netmask w p)) (netmask w p) = Z.land x (netmask w p).
Proof. intros. by rewrite <- Z.land_assoc, Z.land_diag. Qed.

Lemma land_range x m w : (0 <= x < 2 ^ w)%Z -> (0 <= w)%Z -> (0 <= Z.land x m < 2 ^ w)%Z.
Proof.
  intros Hx Hw. assert (0 <= Z.land x m)%Z by (apply Z.land_nonneg; lia). split; [done|].
  destruct (decide (Z.land x m = 0)%Z) as [->|]; [lia|].
  apply Z.log2_lt_pow2; [lia|]. destruct (decide (x = 0)%Z) as [->|]; [done|].
  destruct (Z.lt_ge_cases (Z.log2 (Z.land x m)) w) as [|Hge]; [done|].
  assert (Z.testbit (Z.land x m) (Z.log2 (Z.land x m)) = true) as Ht by (apply Z.bit_log2; lia).
  rewrite Z.land_spec, (testbit_above w) in Ht by lia. done.
Qed.

(** ** What the parsers return is well formed *)

Lemma decimal_value_bound s acc n :
  (0 <= acc)%Z -> sforall is_decimal s = true -> decimal_value acc s = n -> (0 <= n)%Z.
Proof.
  revert acc. induction s as [|c s IH]; intros acc Hacc; simpl; [by intros _ <-|].
  intros [Hc Hs]%andb_true_iff. apply IH; [|done].
  unfold is_decimal, in_range in Hc. bool_prop. lia.
Qed.

Lemma parse_octet_range s n : parse_octet s = Some n -> (0 <= n < 256)%Z.
Proof.
  unfold parse_octet. destruct (truthy s); [|done]. simpl.
  destruct (sforall is_decimal s) eqn:Hd; [|done]. simpl. repeat case_match; try done.
  intros [= <-]. bool_prop. split; [|lia]. by apply (decimal_value_bound s 0); [lia|..].
Qed.

Lemma parse_ipv4_int_range s n : parse_ipv4_int s = Some n -> (0 <= n < 2 ^ 32)%Z.
Proof.
  unfold parse_ipv4_int. repeat (case_match; try done). intros [= <-].
  repeat match goal with H : parse_octet _ = Some _ |- _ => apply parse_octet_range in H end. lia.
Qed.

Lemma hex_value_range c d : hex_value c = Some d -> (0 <= d < 16)%Z.
Proof.
  unfold hex_value, in_range. repeat case_match; intros; simplify_eq; bool_prop; lia.
Qed.

Lemma hex_value_of_range s acc n :
  (0 <= acc)%Z -> hex_value_of acc s = Some n ->
  (0 <= n < (acc + 1) * 16 ^ Z.of_nat (slen s))%Z.
Proof.
  revert acc. induction s as [|c s IH]; intros acc Hacc; simpl; [intros [= <-]; lia|].
  case_match eqn:E; [|done]. intros Hh. apply hex_value_range in E.
  apply IH in Hh; [|lia]. change (slen (String c s)) with (S (slen s)).
  rewrite Nat2Z.inj_succ, Z.pow_succ_r by lia.
  assert (0 < 16 ^ Z.of_nat (slen s))%Z by (apply Z.pow_pos_nonneg; lia). nia.
Qed.

Lemma parse_hextet_range s n : parse_hextet s = Some n -> (0 <= n < 65536)%Z.
Proof.
  unfold parse_hextet. destruct (truthy s); [|done]. simpl. case_match eqn:E; [done|].
  intros H. apply hex_value_of_range in H; [|lia]. apply Nat.ltb_ge in E.
  assert (16 ^ Z.of_nat (slen s) <= 16 ^ 4)%Z by (apply Z.pow_le_mono_r; lia). lia.
Qed.

Lemma parse_hextets_range parts acc n :
  (0 <= acc)%Z -> parse_hextets acc parts = Some n ->
  (0 <= n < (acc + 1) * 65536 ^ Z.of_nat (length parts))%Z.
Proof.
  revert acc. induction parts as [|p parts IH]; intros acc Hacc; simpl; [intros [= <-]; lia|].
  case_match eqn:E; [|done]. intros Hh. apply parse_hextet_range in E.
  rewrite Z.shiftl_mul_pow2 in Hh by lia. apply IH in Hh; [|lia].
  rewrite Nat2Z.inj_succ, Z.pow_succ_r by lia.
  assert (0 < 65536 ^ Z.of_nat (length parts))%Z by (apply Z.pow_pos_nonneg; lia). nia.
Qed.

Lemma assemble_range parts hi lo skipped n :
  (hi + lo + skipped = 8)%nat -> (lo <= length parts)%nat ->
  assemble parts hi lo skipped = Some n -> (0 <= n < 2 ^ 128)%Z.
Proof.
  intros Hs Hlo. unfold assemble. case_match eqn:E; [|done]. intros H.
  apply parse_hextets_range in E; [|lia]. rewrite Z.shiftl_mul_pow2 in H by lia.
  apply parse_hextets_range in H; [|nia]. rewrite length_drop in H. rewrite length_take in E.
  replace (length parts - (length parts - lo))%nat with lo in H by lia.
  replace (2 ^ (16 * Z.of_nat skipped))%Z with (65536 ^ Z.of_nat skipped)%Z in H
    by (rewrite (Z.pow_mul_r 2 16) by lia; done).
  assert (65536 ^ Z.of_nat (hi `min` length parts) <= 65536 ^ Z.of_nat hi)%Z
    by (apply Z.pow_le_mono_r; lia).
  assert (2 ^ 128 = 65536 ^ Z.of_nat hi * 65536 ^ Z.of_nat skipped * 65536 ^ Z.of_nat lo)%Z as ->.
  { rewrite <- !Z.pow_add_r by lia.
    replace (Z.of_nat hi + Z.of_nat skipped + Z.of_nat lo)%Z with 8%Z by lia. done. }
  assert (0 < 65536 ^ Z.of_nat skipped)%Z by (apply Z.pow_pos_nonneg; lia).
  assert (0 < 65536 ^ Z.of_nat lo)%Z by (apply Z.pow_pos_nonneg; lia).
  set (h := (65536 ^ Z.of_nat hi)%Z) in *. set (k := (65536 ^ Z.of_nat skipped)%Z) in *.
  set (l := (65536 ^ Z.of_nat lo)%Z) in *.
  assert (z * k + 1 <= h * k)%Z by nia. assert ((z * k + 1) * l <= h * k * l)%Z by nia. lia.
Qed.

Lemma parse_parts_range parts n : parse_parts parts = Some n -> (0 <= n < 2 ^ 128)%Z.
Proof.
  unfold parse_parts. case_match; [done|]. destruct (find_skip 1 (tail parts) None) as [[skip|]|]; [| |done].
  - set (hi := if truthy (default "" (head parts)) then skip else (skip - 1)%nat).
    set (lo := if truthy (default "" (last parts)) then _ else _).
    repeat (case_match; [done|]). intros Ha. apply assemble_range in Ha; [done| |].
    + match goal with H : (8 <=? _)%nat = false |- _ => apply Nat.leb_gt in H end. lia.
    + unfold lo. case_match; lia.
  - repeat (case_match; [done|]). intros Ha. apply assemble_range in Ha; [done|lia|lia].
Qed.

Lemma ip_address_wf s a : ip_address s = Some a -> ip_wf a.
Proof.
  unfold ip_address, parse_ipv4, parse_ipv6, parse_ipv6_int. unfold ip_wf. intros H.
  repeat case_match; simplify_eq/=;
    repeat match goal with
    | H : option_map _ ?x = Some _ |- _ => destruct x eqn:?; simplify_eq/=
    | H : parse_ipv4_int _ = Some _ |- _ => apply parse_ipv4_int_range in H
    | H : parse_parts _ = Some _ |- _ => apply parse_parts_range in H
    end; simpl in *; lia.
Qed.

Lemma net4_wf n p : (0 <= n < 2 ^ 32)%Z -> (0 <= p <= 32)%Z -> net_wf (Net4 (Z.land n (netmask 32 p)) p).
Proof.
  intros. unfold net_wf. simpl. pose proof (land_range n (netmask 32 p) 32 ltac:(lia) ltac:(lia)).
  split_and!; [lia..|by apply netmask_idemp].
Qed.

Lemma net6_wf n p sc : (0 <= n < 2 ^ 128)%Z -> (0 <= p <= 128)%Z -> net_wf (Net6 (Z.land n (netmask 128 p)) p sc).
Proof.
  intros. unfold net_wf. simpl. pose proof (land_range n (netmask 128 p) 128 ltac:(lia) ltac:(lia)).
  split_and!; [lia..|by apply netmask_idemp].
Qed.

Lemma prefix_string_range w s p : prefix_from_prefix_string w s = Some p -> (0 <= p <= w)%Z.
Proof.
  unfold prefix_from_prefix_string. case_match eqn:E; [|done]. case_match eqn:E2; [|done].
  intros [= <-]. bool_prop. split; [|done]. by apply (decimal_value_bound s 0); [lia|..].
Qed.

Lemma prefix_ip_int_range m p : prefix_from_ip_int m = Some p -> (0 <= p <= 32)%Z.
Proof.
  unfold prefix_from_ip_int. intros H%List.find_some. destruct H as [H _].
  apply list_elem_of_In, elem_of_seqZ in H. lia.
Qed.

Lemma prefix_ip_string_range s p : prefix_from_ip_string s = Some p -> (0 <= p <= 32)%Z.
Proof.
  unfold prefix_from_ip_string. repeat case_match; intros; simplify_eq; by eapply prefix_ip_int_range.
Qed.

Lemma parse_ipv6_wf s a : parse_ipv6 s = Some a -> ip_wf a /\ ip_width a = 128%Z.
Proof.
  unfold parse_ipv6, parse_ipv6_int, ip_wf. intros H.
  repeat case_match; simplify_eq/=; (split; [|done]); by eapply parse_parts_range.
Qed.

Lemma ip_network_wf s n : ip_network s = Some n -> net_wf n.
Proof.
  unfold ip_network, parse_net4, parse_net6. intros H.
  repeat case_match; simplify_eq;
    repeat match goal with
    | H : parse_ipv4_int _ = Some _ |- _ => apply parse_ipv4_int_range in H
    | H : parse_ipv6 _ = Some _ |- _ => apply parse_ipv6_wf in H as [? _]
    | H : prefix_from_prefix_string _ _ = Some _ |- _ => apply prefix_string_range in H
    | H : prefix_from_ip_string _ = Some _ |- _ => apply prefix_ip_string_range in H
    end; (apply net4_wf || apply net6_wf); unfold ip_wf in *; simpl in *; lia.
Qed.

Lemma host_network_wf a : ip_wf a -> net_wf (host_network a).
Proof.
  intros Ha. unfold net_wf. destruct a as [n|n sc]; unfold ip_wf in Ha; simpl in *;
    (split_and!; [lia..|]); rewrite netmask_land by lia; simpl; rewrite Z.div_1_r; lia.
Qed.

#[export] Hint Resolve ip_address_wf ip_network_wf host_network_wf : guard.
