(* ===== verification/IpAddrText.v ===== *)
(** Round trip of [str] and [ip_address]: the text of an address parses back to
    the address, so that canonical texts are fixed points of canonicalisation. *)
From S2P Require Import Prelude PyStr IpAddr.

(** * Digits *)

Definition octet_ok (n : Z) : bool :=
  bool_decide (parse_octet (string_of_Z n) = Some n) &&
  sforall is_decimal (string_of_Z n) && truthy (string_of_Z n).

Lemma octets_ok : forallb octet_ok (seqZ 0 256) = true.
Proof. vm_compute. reflexivity. Qed.

Lemma octet_text n :
  (0 <= n < 256)%Z ->
  parse_octet (string_of_Z n) = Some n /\ sforall is_decimal (string_of_Z n) = true /\
  truthy (string_of_Z n) = true.
Proof.
  intros Hn. pose proof octets_ok as H. rewrite List.forallb_forall in H.
  specialize (H n). unfold octet_ok in H. rewrite !andb_true_iff, bool_decide_eq_true in H.
  destruct H as [[? ?] ?]; [|done]. apply list_elem_of_In, elem_of_seqZ. lia.
Qed.

Lemma hex_digits_ok : forallb (fun d => bool_decide (hex_value (hex_digit d) = Some d)) (seqZ 0 16) = true.
Proof. vm_compute. reflexivity. Qed.

Lemma hex_digit_value d : (0 <= d < 16)%Z -> hex_value (hex_digit d) = Some d.
Proof.
  intros Hd. pose proof hex_digits_ok as H. rewrite List.forallb_forall in H.
  specialize (H d). rewrite bool_decide_eq_true in H. apply H.
  apply list_elem_of_In, elem_of_seqZ. lia.
Qed.

Lemma is_hex_digit d : (0 <= d < 16)%Z -> is_hex (hex_digit d) = true.
Proof. intros Hd. unfold is_hex. by rewrite hex_digit_value. Qed.

Lemma hextet_text n :
  (0 <= n < 65536)%Z ->
  parse_hextet (string_of_hextet n) = Some n /\ sforall is_hex (string_of_hextet n) = true /\
  truthy (string_of_hextet n) = true.
Proof.
  intros Hn.
  assert (forall x, 0 <= x mod 16 < 16)%Z as Hm by (intros; apply Z.mod_pos_bound; lia).
  assert (n / 256 = n / 16 / 16)%Z as E1 by (rewrite Z.div_div by lia; done).
  assert (n / 4096 = n / 16 / 16 / 16)%Z as E2 by (rewrite !Z.div_div by lia; done).
  pose proof (Z.div_mod n 16 ltac:(lia)). pose proof (Z.div_mod (n / 16) 16 ltac:(lia)).
  pose proof (Z.div_mod (n / 16 / 16) 16 ltac:(lia)).
  pose proof (Hm n). pose proof (Hm (n / 16)%Z). pose proof (Hm (n / 16 / 16)%Z).
  unfold string_of_hextet, parse_hextet. rewrite E1, E2.
  destruct (n <? 16)%Z eqn:?; [|destruct (n <? 256)%Z eqn:?; [|destruct (n <? 4096)%Z eqn:?]];
    bool_prop; cbn [truthy slen String.length negb Nat.ltb Nat.leb hex_value_of sforall];
    rewrite !hex_digit_value, !is_hex_digit by lia; (split_and!; [f_equal; lia|done|done]).
Qed.

(** A character that fails the test does not occur in a string that passes it. *)
Lemma sforall_no_char p c s : sforall p s = true -> p c = false -> has_char c s = false.
Proof.
  induction s as [|a s IH]; simpl; [done|]. intros [Ha Hs]%andb_true_iff Hc.
  rewrite (IH Hs Hc), orb_false_r. destruct (Ascii.eqb a c) eqn:E; [|done].
  apply Ascii.eqb_eq in E as ->. congruence.
Qed.

Lemma has_char_join c sep l :
  has_char c sep = false -> Forall (fun x => has_char c x = false) l -> has_char c (join sep l) = false.
Proof.
  intros Hs Hl. induction Hl as [|x l Hx Hl IH]; [done|]. destruct l as [|y l]; [done|].
  change (join sep (x :: y :: l)) with (x +:+ sep +:+ join sep (y :: l)).
  by rewrite !has_char_app, Hx, Hs, IH.
Qed.

(** * IPv4 *)

Lemma ipv4_digits n :
  (0 <= n < 2 ^ 32)%Z ->
  ((((n / 256 ^ 3 mod 256) * 256 + n / 256 ^ 2 mod 256) * 256 + n / 256 mod 256) * 256 + n mod 256)%Z = n.
Proof.
  intros Hn.
  replace (n / 256 ^ 3)%Z with (n / 256 / 256 / 256)%Z by (rewrite !Z.div_div by lia; done).
  replace (n / 256 ^ 2)%Z with (n / 256 / 256)%Z by (rewrite !Z.div_div by lia; done).
  pose proof (Z.div_mod n 256 ltac:(lia)). pose proof (Z.div_mod (n / 256) 256 ltac:(lia)).
  pose proof (Z.div_mod (n / 256 / 256) 256 ltac:(lia)).
  pose proof (Z.div_mod (n / 256 / 256 / 256) 256 ltac:(lia)).
  assert (n / 256 / 256 / 256 / 256 = 0)%Z; [|lia].
  rewrite !Z.div_div by lia. apply Z.div_small. lia.
Qed.

Lemma ipv4_text_chars n c :
  (0 <= n < 2 ^ 32)%Z -> is_decimal c = false -> c <> "."%char -> has_char c (string_of_ipv4 n) = false.
Proof.
  intros Hn Hc Hd. unfold string_of_ipv4. apply has_char_join.
  - cbn [has_char]. rewrite orb_false_r. apply Ascii.eqb_neq. congruence.
  - assert (forall x, (0 <= x < 256)%Z -> has_char c (string_of_Z x) = false) as Hx.
    { intros x Hx. by apply (sforall_no_char is_decimal); [apply octet_text, Hx|]. }
    repeat constructor; apply Hx, Z.mod_pos_bound; lia.
Qed.

Lemma parse_string_of_ipv4 n : (0 <= n < 2 ^ 32)%Z -> parse_ipv4 (string_of_ipv4 n) = Some (V4 n).
Proof.
  intros Hn. unfold parse_ipv4. rewrite ipv4_text_chars by done. unfold string_of_ipv4, parse_ipv4_int.
  assert (forall x, (0 <= x mod 256 < 256)%Z) as Hb by (intros; apply Z.mod_pos_bound; lia).
  rewrite split_on_join; [|done|].
  - rewrite !(proj1 (octet_text _ (Hb _))). simpl. by rewrite (ipv4_digits n).
  - repeat constructor; (apply (sforall_no_char is_decimal); [apply octet_text, Hb|done]).
Qed.

(** * IPv6 *)

(** A text with a colon is not an IPv4 address. *)
Lemma parse_ipv4_colon s : has_char ":" s = true -> parse_ipv4 s = None.
Proof.
  intros Hc. unfold parse_ipv4. case_match; [done|]. unfold parse_ipv4_int.
  pose proof (join_split_on "." s) as Hj.
  destruct (split_on "." s) as [|a [|b [|c [|d [|]]]]]; try done.
  destruct (parse_octet a) eqn:Ea, (parse_octet b) eqn:Eb, (parse_octet c) eqn:Ec,
    (parse_octet d) eqn:Ed; try done. exfalso.
  assert (forall x n, parse_octet x = Some n -> has_char ":" x = false) as Hx.
  { intros x n. unfold parse_octet. case_match; [done|]. case_match eqn:E; [done|].
    intros _. apply negb_false_iff in E. by apply (sforall_no_char is_decimal). }
  rewrite <- Hj, has_char_join in Hc; [done|done|]. repeat constructor; by eapply Hx.
Qed.

Lemma hextets_range n h : h ∈ hextets n -> (0 <= h < 65536)%Z.
Proof.
  unfold hextets. intros (i & -> & _)%list_elem_of_fmap.
  change 65535%Z with (Z.ones 16). rewrite Z.land_ones by lia. apply Z.mod_pos_bound. lia.
Qed.

(** Eight base-65536 digits make up their number. *)
Lemma eight_digits (q : Z -> Z) :
  (forall k, (0 <= k)%Z -> q k = 65536 * q (k + 1) + q k mod 65536)%Z -> (q 8 = 0)%Z ->
  ((((((((q 7 mod 65536 * 65536 + q 6 mod 65536) * 65536 + q 5 mod 65536) * 65536 +
    q 4 mod 65536) * 65536 + q 3 mod 65536) * 65536 + q 2 mod 65536) * 65536 +
    q 1 mod 65536) * 65536 + q 0 mod 65536) = q 0)%Z.
Proof.
  intros H H8.
  pose proof (H 0 ltac:(lia))%Z as H0. pose proof (H 1 ltac:(lia))%Z as H1.
  pose proof (H 2 ltac:(lia))%Z as H2. pose proof (H 3 ltac:(lia))%Z as H3.
  pose proof (H 4 ltac:(lia))%Z as H4. pose proof (H 5 ltac:(lia))%Z as H5.
  pose proof (H 6 ltac:(lia))%Z as H6. pose proof (H 7 ltac:(lia))%Z as H7.
  clear H. change (0 + 1)%Z with 1%Z in *. change (1 + 1)%Z with 2%Z in *.
  change (2 + 1)%Z with 3%Z in *. change (3 + 1)%Z with 4%Z in *. change (4 + 1)%Z with 5%Z in *.
  change (5 + 1)%Z with 6%Z in *. change (6 + 1)%Z with 7%Z in *. change (7 + 1)%Z with 8%Z in *.
  lia.
Qed.

(** The eight hextets make up the address. *)
Lemma hextets_value n :
  (0 <= n < 2 ^ 128)%Z ->
  exists a b c d e f g h, hextets n = [a; b; c; d; e; f; g; h] /\
    ((((((((a * 65536 + b) * 65536 + c) * 65536 + d) * 65536 + e) * 65536 + f) * 65536 + g) * 65536 + h) = n)%Z.
Proof.
  intros Hn. pose (q := fun k => (n / 2 ^ (16 * k))%Z).
  assert (q 0%Z = n) as H0 by apply Z.div_1_r.
  assert (q 8%Z = 0%Z) as H8 by (apply Z.div_small; lia).
  exists (q 7 mod 65536)%Z, (q 6 mod 65536)%Z, (q 5 mod 65536)%Z, (q 4 mod 65536)%Z,
    (q 3 mod 65536)%Z, (q 2 mod 65536)%Z, (q 1 mod 65536)%Z, (q 0 mod 65536)%Z. split.
  - unfold hextets, q. cbn [map]. change 65535%Z with (Z.ones 16).
    by rewrite !Z.land_ones, !Z.shiftr_div_pow2 by lia.
  - transitivity (q 0%Z); [|done]. apply eight_digits; [|done]. intros k Hk. unfold q.
    replace (n / 2 ^ (16 * (k + 1)))%Z with (n / 2 ^ (16 * k) / 65536)%Z.
    + pose proof (Z.div_mod (n / 2 ^ (16 * k)) 65536 ltac:(lia)). lia.
    + rewrite Z.div_div by (try apply Z.pow_nonzero; try apply Z.pow_pos_nonneg; lia).
      f_equal. replace (16 * (k + 1))%Z with (16 * k + 16)%Z by lia. by rewrite Z.pow_add_r by lia.
Qed.

(** ** Compression of zeros *)

(** The run found by [zero_run] holds zeros only and lies inside the list. *)
Lemma zero_run_spec pre l best_start best_len start len s k :
  zero_run (length pre) l best_start best_len start len = (s, k) ->
  (best_start + best_len <= length pre)%nat ->
  (forall i, (best_start <= i < best_start + best_len)%nat -> pre !! i = Some 0%Z) ->
  ((0 < len)%nat -> (start + len = length pre)%nat) -> (len <= length pre)%nat ->
  (forall i, (length pre - len <= i < length pre)%nat -> pre !! i = Some 0%Z) ->
  (s + k <= length (pre ++ l))%nat /\
  (forall i, (s <= i < s + k)%nat -> (pre ++ l) !! i = Some 0%Z).
Proof.
  revert pre best_start best_len start len.
  induction l as [|h l IH]; intros pre bs bl st ln; cbn [zero_run].
  { intros [= <- <-] Hb Hbz _ _ _. rewrite app_nil_r. done. }
  intros Hrun Hb Hbz Hst Hln Hz.
  replace (S (length pre)) with (length (pre ++ [h])) in Hrun by (rewrite length_app; simpl; lia).
  replace (pre ++ h :: l) with ((pre ++ [h]) ++ l) by (rewrite <- app_assoc; done).
  assert (forall i, (bs <= i < bs + bl)%nat -> (pre ++ [h]) !! i = Some 0%Z) as Hbz'
    by (intros i Hi; rewrite lookup_app_l by lia; by apply Hbz).
  destruct (h =? 0)%Z eqn:Eh.
  - apply Z.eqb_eq in Eh as ->.
    set (st' := if (ln =? 0)%nat then length pre else st) in *.
    assert (st' + S ln = length (pre ++ [0%Z]))%nat as Hst'.
    { rewrite length_app. unfold st'. simpl. destruct (ln =? 0)%nat eqn:E0;
        [apply Nat.eqb_eq in E0|apply Nat.eqb_neq in E0]; lia. }
    assert (forall i, (length (pre ++ [0%Z]) - S ln <= i < length (pre ++ [0%Z]))%nat ->
              (pre ++ [0%Z]) !! i = Some 0%Z) as Hz'.
    { intros i Hi. rewrite length_app in Hi. simpl in Hi. destruct (decide (i < length pre)%nat).
      - rewrite lookup_app_l by lia. apply Hz. lia.
      - rewrite lookup_app_r by lia. by replace (i - length pre)%nat with 0%nat by lia. }
    assert (S ln <= length (pre ++ [0%Z]))%nat by (rewrite length_app; simpl; lia).
    destruct (bl <? S ln)%nat.
    + apply IH in Hrun; try done; try lia. intros i Hi. apply Hz'. lia.
    + apply IH in Hrun; try done; try lia. rewrite length_app. lia.
  - apply IH in Hrun; try done; try lia; rewrite ?length_app; simpl; lia.
Qed.

(** The value of a list of hextets. *)
Definition hextets_num (l : list Z) : Z := fold_left (fun acc h => Z.shiftl acc 16 + h)%Z l 0%Z.

(** Parsing the compressed form of eight hextets gives their value. *)
Lemma parse_parts_compress a b c d e f g h :
  let l := [a; b; c; d; e; f; g; h] in
  Forall (fun x => 0 <= x < 65536)%Z l ->
  (3 <= length (compress_hextets l))%nat /\ parse_parts (compress_hextets l) = Some (hextets_num l).
Proof.
  intros l Hl. unfold compress_hextets.
  destruct (zero_run 0 l 0 0 0 0) as [s k] eqn:E.
  destruct (zero_run_spec [] l 0 0 0 0 s k E) as [Hsk Hz]; simpl; try (lia || (intros; lia)).
  simpl in Hsk. clear E. subst l.
  assert (forall x, (0 <= x < 65536)%Z -> exists t, string_of_hextet x = t /\
            parse_hextet t = Some x /\ truthy t = true) as Ht
    by (intros x Hx; destruct (hextet_text x Hx) as (? & ? & ?); eauto).
  rewrite Forall_forall in Hl.
  destruct (Nat.ltb_spec 1 k) as [Hk|Hk].
  - assert (exists j, k = S (S j)) as [j ->] by (exists (k - 2)%nat; lia).
    pose proof (Hz s ltac:(lia)) as Hz0. pose proof (Hz (S s) ltac:(lia)) as Hz1.
    destruct j as [|[|[|[|[|[|[|]]]]]]]; [..|lia];
    destruct s as [|[|[|[|[|[|[|]]]]]]]; try lia;
    try pose proof (Hz 2%nat ltac:(lia)); try pose proof (Hz 3%nat ltac:(lia));
    try pose proof (Hz 4%nat ltac:(lia)); try pose proof (Hz 5%nat ltac:(lia));
    try pose proof (Hz 6%nat ltac:(lia)); try pose proof (Hz 7%nat ltac:(lia));
    clear Hz; simpl in *; simplify_eq;
    (split; [lia|]);
    repeat match goal with
    | |- context [string_of_hextet ?x] =>
        destruct (Ht x ltac:(first [lia | apply Hl; set_solver])) as (? & -> & ? & ?)
    end;
    unfold parse_parts; simpl;
    repeat (match goal with H : truthy _ = true |- _ => rewrite H end; simpl);
    unfold assemble; simpl;
    repeat (match goal with H : parse_hextet _ = Some _ |- _ => rewrite H end; simpl);
    unfold hextets_num; cbn [fold_left]; rewrite ?Z.shiftl_mul_pow2 by lia;
    repeat match goal with
    | |- context [(2 ^ ?x)%Z] => let v := eval vm_compute in (2 ^ x)%Z in change (2 ^ x)%Z with v
    end; f_equal; lia.
  - split; [simpl; lia|].
    repeat match goal with
    | |- context [string_of_hextet ?x] =>
        destruct (Ht x ltac:(apply Hl; set_solver)) as (? & -> & ? & ?)
    end. clear Ht.
    unfold parse_parts; simpl.
    repeat (match goal with H : truthy _ = true |- _ => rewrite H end; simpl).
    unfold assemble; simpl.
    repeat (match goal with H : parse_hextet _ = Some _ |- _ => rewrite H end; simpl).
    done.
Qed.

Lemma zero_run_bound l : forall s k, zero_run 0 l 0 0 0 0 = (s, k) -> (s + k <= length l)%nat.
Proof.
  intros s k E. destruct (zero_run_spec [] l 0 0 0 0 s k E) as [H _]; simpl in *; try lia;
    intros; lia.
Qed.

(** The parts of a compressed address hold hexadecimal digits only. *)
Lemma compress_hextets_chars l :
  Forall (fun x => 0 <= x < 65536)%Z l ->
  Forall (fun p => sforall is_hex p = true) (compress_hextets l).
Proof.
  intros Hl. unfold compress_hextets. destruct (zero_run 0 l 0 0 0 0) as [s k].
  assert (Forall (fun p => sforall is_hex p = true) (map string_of_hextet l)) as Hm.
  { apply Forall_fmap. eapply Forall_impl; [exact Hl|]. intros x Hx. by apply hextet_text. }
  set (m := map string_of_hextet l) in *.
  assert (Forall (fun p => sforall is_hex p = true) (m ++ [""])) by (apply Forall_app; auto).
  repeat case_match; repeat first [constructor; [done|] | apply Forall_app; split | done
    | apply Forall_take | apply Forall_drop].
Qed.

Lemma hex_no_char p c : sforall is_hex p = true -> is_hex c = false -> has_char c p = false.
Proof. apply sforall_no_char. Qed.

Lemma hextets_fit n : Forall (fun x => 0 <= x < 65536)%Z (hextets n).
Proof. apply Forall_forall. intros x. apply hextets_range. Qed.

Lemma hextets_num_value n : (0 <= n < 2 ^ 128)%Z -> hextets_num (hextets n) = n.
Proof.
  intros Hn. destruct (hextets_value n Hn) as (a & b & c & d & e & f & g & h & -> & Hv).
  unfold hextets_num. cbn [fold_left]. rewrite !Z.shiftl_mul_pow2 by lia. lia.
Qed.

Lemma string_of_ipv6_chars n c : is_hex c = false -> c <> ":"%char -> has_char c (string_of_ipv6_int n) = false.
Proof.
  intros Hc Hd. unfold string_of_ipv6_int. apply has_char_join.
  - cbn [has_char]. rewrite orb_false_r. apply Ascii.eqb_neq. congruence.
  - eapply Forall_impl; [apply compress_hextets_chars, hextets_fit|].
    intros x Hx. by apply hex_no_char.
Qed.

Lemma split_compress n :
  (0 <= n < 2 ^ 128)%Z ->
  (3 <= length (compress_hextets (hextets n)))%nat /\
  parse_parts (compress_hextets (hextets n)) = Some n.
Proof.
  intros Hn. pose proof (hextets_num_value n Hn) as Hv. pose proof (hextets_fit n) as Hf.
  destruct (hextets_value n Hn) as (a & b & c & d & e & f & g & h & E & _). rewrite E in *.
  destruct (parse_parts_compress a b c d e f g h Hf) as [H1 H2]. by rewrite H2, Hv.
Qed.

Lemma split_string_of_ipv6 n :
  (0 <= n < 2 ^ 128)%Z -> split_on ":" (string_of_ipv6_int n) = compress_hextets (hextets n).
Proof.
  intros Hn. apply split_on_join.
  - destruct (split_compress n Hn) as [Hl _]. intros E. rewrite E in Hl. simpl in Hl. lia.
  - eapply Forall_impl; [apply compress_hextets_chars, hextets_fit|].
    intros x Hx. by apply hex_no_char.
Qed.

Lemma parse_string_of_ipv6_int n :
  (0 <= n < 2 ^ 128)%Z -> parse_ipv6_int (string_of_ipv6_int n) = Some n.
Proof.
  intros Hn. destruct (split_compress n Hn) as [Hlen Hp]. unfold parse_ipv6_int.
  rewrite split_string_of_ipv6 by done. destruct (Nat.ltb_spec (length (compress_hextets (hextets n))) 3); [lia|].
  unfold expand_ipv4_suffix. replace (has_char "." _) with false; [done|]. symmetry.
  destruct (last (compress_hextets (hextets n))) as [p|] eqn:El; [|done]. simpl.
  apply last_Some_elem_of in El. pose proof (compress_hextets_chars _ (hextets_fit n)) as Hc.
  rewrite Forall_forall in Hc. by apply hex_no_char; [apply Hc|].
Qed.

(** ** Mapped addresses *)

Lemma parse_mapped m :
  (0 <= m < 2 ^ 32)%Z ->
  parse_ipv6_int ("::ffff:" +:+ string_of_ipv4 m) = Some (65535 * 2 ^ 32 + m)%Z.
Proof.
  intros Hm. unfold parse_ipv6_int.
  replace (split_on ":" ("::ffff:" +:+ string_of_ipv4 m)) with [""; ""; "ffff"; string_of_ipv4 m].
  2:{ change ("::ffff:" +:+ string_of_ipv4 m) with
        ("" +:+ String ":" ("" +:+ String ":" ("ffff" +:+ String ":" (string_of_ipv4 m)))).
      rewrite !split_on_app by done. by rewrite split_on_single by (by apply ipv4_text_chars). }
  simpl (length _ <? 3)%nat. cbv iota. unfold expand_ipv4_suffix. simpl last. simpl default.
  assert (has_char "." (string_of_ipv4 m) = true) as ->.
  { unfold string_of_ipv4. change (join "." [?a; ?b; ?c; ?d]) with (a +:+ "." +:+ join "." [b; c; d]).
    rewrite !has_char_app. simpl. by rewrite orb_true_r. }
  rewrite parse_string_of_ipv4 by done. simpl removelast. simpl app. simpl ip_int.
  change 65535%Z with (Z.ones 16) at 1 2. rewrite !Z.land_ones, Z.shiftr_div_pow2 by lia.
  pose proof (Z.mod_pos_bound (m / 2 ^ 16) (2 ^ 16) ltac:(lia)).
  pose proof (Z.mod_pos_bound m (2 ^ 16) ltac:(lia)).
  destruct (hextet_text (m / 2 ^ 16 mod 2 ^ 16)) as (P1 & _ & T1); [lia|].
  destruct (hextet_text (m mod 2 ^ 16)) as (P2 & _ & T2); [lia|].
  set (t1 := string_of_hextet _) in *. set (t2 := string_of_hextet (m mod 2 ^ 16)) in *.
  unfold parse_parts. cbn -[Z.pow Z.mul Z.add Z.shiftl parse_hextet truthy]. rewrite T1, T2.
  cbn -[Z.pow Z.mul Z.add Z.shiftl parse_hextet]. rewrite ?T2. unfold assemble.
  cbn -[Z.pow Z.mul Z.add Z.shiftl parse_hextet]. rewrite P1, P2. simpl (parse_hextet "ffff").
  cbv iota. f_equal. rewrite !Z.shiftl_mul_pow2 by lia.
  pose proof (Z.div_mod m (2 ^ 16) ltac:(lia)).
  rewrite (Z.mod_small (m / 2 ^ 16)) by (split; [apply Z.div_pos; lia|apply Z.div_lt_upper_bound; lia]).
  change (code "f") with 102%Z. lia.
Qed.

(** * Whole addresses *)

(** A scope that the parser can have read. *)
Definition scope_wf (a : ip) : Prop :=
  match a with
  | V6 _ (Some sc) => truthy sc = true /\ has_char "%" sc = false /\ has_char "/" sc = false
  | _ => True
  end.

Lemma partition_char_None c s : has_char c s = false -> partition_char c s = None.
Proof.
  induction s as [|a s IH]; simpl; [done|]. intros [-> H]%orb_false_iff. by rewrite IH.
Qed.

Lemma partition_char_app c s t :
  has_char c s = false -> partition_char c (s +:+ String c t) = Some (s, t).
Proof.
  induction s as [|a s IH]; simpl; [by rewrite Ascii.eqb_refl|].
  intros [-> H]%orb_false_iff. by rewrite IH.
Qed.

Lemma split_no_char c s : has_char c s = false -> length (split_on c s) = 1%nat.
Proof. intros H. by rewrite split_on_single. Qed.

(** The text of an IPv6 number: no scope or prefix separator, at least two
    colons, and it parses back. *)
Lemma ipv6_text n :
  (0 <= n < 2 ^ 128)%Z ->
  exists t, string_of_ip (V6 n None) = t /\ parse_ipv6_int t = Some n /\
    has_char "%" t = false /\ has_char "/" t = false /\ has_char ":" t = true /\
    forall sc, string_of_ip (V6 n (Some sc)) = t +:+ "%" +:+ sc.
Proof.
  intros Hn. unfold string_of_ip, ipv4_mapped. destruct (Z.shiftr n 32 =? 65535)%Z eqn:E.
  - apply Z.eqb_eq in E. rewrite E. rewrite Z.land_ones by lia.
    rewrite Z.shiftr_div_pow2 in E by lia.
    pose proof (Z.mod_pos_bound n (2 ^ 32) ltac:(lia)) as Hm.
    assert (n = 65535 * 2 ^ 32 + n mod 2 ^ 32)%Z as En by (pose proof (Z.div_mod n (2 ^ 32)); lia).
    eexists. split; [reflexivity|]. change (string_of_ipv6_int 65535) with "::ffff".
    change ("::ffff" +:+ ":" +:+ ?x) with ("::ffff:" +:+ x).
    rewrite parse_mapped by done. rewrite !has_char_app.
    rewrite !(ipv4_text_chars (n mod 2 ^ 32)) by done.
    split_and!; [congruence|done|done|done|]. intros sc. by rewrite app_assoc_string.
  - eexists. split; [reflexivity|]. rewrite parse_string_of_ipv6_int by done.
    rewrite !(string_of_ipv6_chars n) by done. split_and!; try done.
    destruct (has_char ":" (string_of_ipv6_int n)) eqn:Ec; [done|]. apply split_no_char in Ec.
    rewrite split_string_of_ipv6 in Ec by done. destruct (split_compress n Hn). lia.
Qed.

(** [ip_address(str(a)) == a] *)
Lemma ip_address_text a : ip_wf a -> scope_wf a -> ip_address (string_of_ip a) = Some a.
Proof.
  intros Hwf Hsc. unfold ip_address. destruct a as [n|n sc]; unfold ip_wf in Hwf; simpl in Hwf.
  - simpl. by rewrite parse_string_of_ipv4.
  - destruct (ipv6_text n Hwf) as (t & Et & Hp & H1 & H2 & H3 & Hs).
    destruct sc as [sc|].
    + destruct Hsc as (Ht & Hpc & Hsl). rewrite Hs.
      rewrite parse_ipv4_colon by (by rewrite has_char_app, H3).
      unfold parse_ipv6. change ("%" +:+ sc) with (String "%" sc).
      rewrite has_char_app, H2. cbn [has_char orb]. rewrite Hsl. cbn [Ascii.eqb Bool.eqb orb].
      rewrite partition_char_app by done. by rewrite Ht, Hpc, Hp.
    + rewrite Et. rewrite parse_ipv4_colon by done. unfold parse_ipv6.
      rewrite H2. by rewrite partition_char_None, Hp.
Qed.

Lemma has_char_partition c d s h t :
  partition_char d s = Some (h, t) -> has_char c s = false -> has_char c t = false.
Proof.
  revert h. induction s as [|a s IH]; intros h; simpl; [done|]. case_match.
  - intros [= <- <-] [_ ?]%orb_false_iff. done.
  - case_match; [|done]. case_match. intros [= <- <-] [_ ?]%orb_false_iff. by eapply IH.
Qed.

Lemma parse_ipv6_scope_wf s a : parse_ipv6 s = Some a -> scope_wf a.
Proof.
  unfold parse_ipv6. destruct (has_char "/" s) eqn:Hs; [done|].
  destruct (partition_char "%" s) as [[addr scope]|] eqn:E; [|by case_match; intros [= <-]].
  destruct (negb (truthy scope) || has_char "%" scope) eqn:E2; [done|].
  case_match; [|done]. intros [= <-]. simpl. bool_prop.
  split_and!; [done|done|]. by eapply has_char_partition.
Qed.

Lemma ip_address_scope_wf s a : ip_address s = Some a -> scope_wf a.
Proof.
  unfold ip_address. destruct (parse_ipv4 s) eqn:E; [|apply parse_ipv6_scope_wf].
  intros [= <-]. unfold parse_ipv4 in E. destruct (has_char "/" s); [done|].
  by destruct (parse_ipv4_int s); simplify_eq/=.
Qed.

#[export] Hint Resolve ip_address_scope_wf : guard.

(** * Networks *)

Lemma plen_text_ok :
  forallb (fun p => bool_decide (prefix_from_prefix_string 128 (string_of_Z p) = Some p) &&
                    negb (has_char "/" (string_of_Z p)) && negb (has_char "|" (string_of_Z p)))
    (seqZ 0 129) = true.
Proof. vm_compute. reflexivity. Qed.

Lemma plen_text w p :
  (0 <= p <= w)%Z -> (w <= 128)%Z ->
  prefix_from_prefix_string w (string_of_Z p) = Some p /\
  has_char "/" (string_of_Z p) = false /\ has_char "|" (string_of_Z p) = false.
Proof.
  intros Hp Hw. pose proof plen_text_ok as H. rewrite List.forallb_forall in H.
  specialize (H p). rewrite !andb_true_iff, bool_decide_eq_true, !negb_true_iff in H.
  destruct H as [[H H1] H2]; [apply list_elem_of_In, elem_of_seqZ; lia|]. split; [|done].
  unfold prefix_from_prefix_string in *. destruct (truthy _ && _); [|done]. cbv zeta in *.
  destruct (_ <=? 128)%Z; [|done]. injection H as H. rewrite H. by destruct (Z.leb_spec p w); [|lia].
Qed.

Definition net_unscoped (n : net) : Prop := match n with Net6 _ _ (Some _) => False | _ => True end.

Lemma ipv6_no_bar n : (0 <= n < 2 ^ 128)%Z -> has_char "|" (string_of_ip (V6 n None)) = false.
Proof.
  intros Hn. unfold string_of_ip, ipv4_mapped. destruct (Z.shiftr n 32 =? 65535)%Z.
  - rewrite !has_char_app, string_of_ipv6_chars by done. rewrite ipv4_text_chars; [done| |done|discriminate].
    rewrite Z.land_ones by lia. apply Z.mod_pos_bound. lia.
  - by apply string_of_ipv6_chars.
Qed.

(** The text of a network: the address, a slash and the prefix length. *)
Lemma net_text n :
  net_wf n -> net_unscoped n ->
  exists t p, string_of_net n = t +:+ String "/" p /\ has_char "/" t = false /\ has_char "/" p = false /\
    has_char "|" (string_of_net n) = false /\ ip_network (string_of_net n) = Some n /\
    exists a, ip_address t = Some a /\ ip_int a = net_int n.
Proof.
  intros (Hp & Hr & Hland) Hu. destruct n as [a p|a p [sc|]]; cbn [net_int net_plen net_width] in *; [|done|].
  - destruct (plen_text 32 p Hp ltac:(lia)) as (H1 & H2 & H3).
    exists (string_of_ipv4 a), (string_of_Z p). cbn [string_of_net string_of_ip].
    pose proof (parse_string_of_ipv4 a Hr) as Ha. unfold parse_ipv4 in Ha.
    assert (has_char "/" (string_of_ipv4 a) = false) as Hs by (apply ipv4_text_chars; [done|done|discriminate]).
    rewrite Hs in Ha. destruct (parse_ipv4_int (string_of_ipv4 a)) as [a'|] eqn:Ea; [|discriminate].
    cbn [option_map] in Ha. injection Ha as ->.
    split; [done|]. split; [done|]. split; [done|]. split; [|split].
    + rewrite !has_char_app, H3, ipv4_text_chars; [done|done|done|discriminate].
    + unfold ip_network, parse_net4.
      change (string_of_ipv4 a +:+ "/" +:+ string_of_Z p) with (string_of_ipv4 a +:+ String "/" (string_of_Z p)).
      rewrite split_on_app, split_on_single by done. by rewrite Ea, H1, Hland.
    + exists (V4 a). split; [|done]. unfold ip_address. by rewrite parse_string_of_ipv4.
  - destruct (plen_text 128 p Hp ltac:(lia)) as (H1 & H2 & H3).
    destruct (ipv6_text a Hr) as (t & Et & Hpar & Hpc & Hsl & Hco & _).
    exists t, (string_of_Z p). cbn [string_of_net]. rewrite Et.
    assert (parse_ipv6 t = Some (V6 a None)) as H6.
    { unfold parse_ipv6. rewrite Hsl. by rewrite partition_char_None, Hpar. }
    split; [done|]. split; [done|]. split; [done|]. split; [|split].
    + rewrite !has_char_app, H3, <- Et, ipv6_no_bar; done.
    + unfold ip_network, parse_net4, parse_net6.
      change (t +:+ "/" +:+ string_of_Z p) with (t +:+ String "/" (string_of_Z p)).
      rewrite split_on_app, split_on_single by done.
      assert (parse_ipv4_int t = None) as ->.
      { pose proof (parse_ipv4_colon t Hco) as H4. unfold parse_ipv4 in H4. rewrite Hsl in H4.
        by destruct (parse_ipv4_int t). }
      rewrite H6, H1, Hland. by rewrite Z.eqb_refl.
    + exists (V6 a None). split; [|done]. unfold ip_address. by rewrite parse_ipv4_colon.
Qed.

(** * Entries of address lists *)

(** A network whose scope the parser can have read. *)
Definition net_scope_wf (n : net) : Prop := match n with Net6 a _ sc => scope_wf (V6 a sc) | Net4 _ _ => True end.

Lemma ip_network_scope_wf s n : ip_network s = Some n -> net_scope_wf n.
Proof.
  unfold ip_network, parse_net4, parse_net6. intros H. repeat case_match; simplify_eq; try done;
    match goal with H : parse_ipv6 _ = Some _ |- _ => apply parse_ipv6_scope_wf in H end; done.
Qed.

Lemma string_of_ip_no_slash a : ip_wf a -> scope_wf a -> has_char "/" (string_of_ip a) = false.
Proof.
  intros Hwf Hsc. destruct a as [n|n sc]; unfold ip_wf in Hwf; cbn [ip_int ip_width] in Hwf.
  - apply ipv4_text_chars; [done|done|discriminate].
  - destruct (ipv6_text n Hwf) as (t & Et & _ & _ & Hs & _ & Hsc'). destruct sc as [sc|].
    + rewrite Hsc', !has_char_app, Hs. destruct Hsc as (_ & _ & ->). done.
    + by rewrite Et.
Qed.

Lemma string_of_ip_no_bar_split n sc p : (0 <= n < 2 ^ 128)%Z -> scope_wf (V6 n sc) -> (0 <= p <= 128)%Z ->
  split_on "/" (string_of_net (Net6 n p sc)) = [string_of_ip (V6 n sc); string_of_Z p].
Proof.
  intros Hn Hs Hp. cbn [string_of_net]. destruct (plen_text 128 p Hp ltac:(lia)) as (_ & H2 & _).
  change (string_of_ip (V6 n sc) +:+ "/" +:+ string_of_Z p) with (string_of_ip (V6 n sc) +:+ String "/" (string_of_Z p)).
  rewrite split_on_app, split_on_single; [done|done|]. by apply string_of_ip_no_slash.
Qed.

(** [ip_network(str(n)) == n], for every network that can be parsed. *)
Lemma ip_network_text n : net_wf n -> net_scope_wf n -> ip_network (string_of_net n) = Some n.
Proof.
  intros Hw Hs. destruct n as [a p|a p [sc|]]; [by edestruct (net_text (Net4 a p)) as (? & ? & _ & _ & _ & _ & ? & _)| |
    by edestruct (net_text (Net6 a p None)) as (? & ? & _ & _ & _ & _ & ? & _)].
  destruct Hw as (Hp & Hr & Hland). cbn [net_int net_plen net_width net_scope_wf] in *.
  destruct (ipv6_text a Hr) as (t & _ & _ & _ & _ & Hco & Hsc).
  pose proof (ip_address_text (V6 a (Some sc)) Hr Hs) as Ha. unfold ip_address in Ha.
  assert (has_char ":" (string_of_ip (V6 a (Some sc))) = true) as Hcol by (by rewrite Hsc, has_char_app, Hco).
  rewrite parse_ipv4_colon in Ha by done. unfold ip_network, parse_net4, parse_net6.
  rewrite string_of_ip_no_bar_split by done. rewrite Ha.
  destruct (plen_text 128 p Hp ltac:(lia)) as (-> & _ & _).
  assert (parse_ipv4_int (string_of_ip (V6 a (Some sc))) = None) as ->.
  { pose proof (parse_ipv4_colon _ Hcol) as H4. unfold parse_ipv4 in H4.
    rewrite string_of_ip_no_slash in H4 by done. by destruct (parse_ipv4_int _). }
  by rewrite Hland, Z.eqb_refl.
Qed.

Lemma string_of_net_slash n : has_char "/" (string_of_net n) = true.
Proof. destruct n; cbn [string_of_net]; rewrite !has_char_app; cbn [has_char]; by rewrite !orb_true_r. Qed.
