(* ===== verification/Url.v ===== *)
(** What the sources use of [urllib.parse] (CPython 3.13): percent encoding and the
    splitting of addresses.

    Percent-encoded bytes that are not ASCII are decoded by the [utf8_replace] of
    [TextServices].  On characters below U+0100 the check that a host name stays one
    under NFKC ([_checknetloc]) never fails, and it is left out. *)
From S2P Require Import Prelude PyStr IpAddr.

#[local] Open Scope Z_scope.

(** What texts are read with besides the sources. *)
Class TextServices : Type := {
  (** [bytes.decode("utf-8", errors="replace")], of bytes that are not ASCII *)
  utf8_replace : string -> string;
  (** whether [json.loads] hits the recursion limit of the interpreter on a text *)
  nested_too_deep : string -> bool;
  (** [unicodedata.lookup], as code points; [None] for [KeyError] *)
  unicode_lookup : string -> option (list Z);
  (** [repr(float(literal))], and whether [float(literal)] is below an integer *)
  float_repr : string -> string;
  float_below : string -> Z -> bool
}.

(** * Percent encoding *)

(** [unquote_to_bytes] *)
Fixpoint unquote_to_bytes (s : string) : string :=
  match s with
  | String c s' =>
      if Ascii.eqb c "%" then
        match s' with
        | String a (String b s'') =>
            match hex_value a, hex_value b with
            | Some x, Some y => String (chr (16 * x + y)) (unquote_to_bytes s'')
            | _, _ => String c (unquote_to_bytes s')
            end
        | _ => String c (unquote_to_bytes s')
        end
      else String c (unquote_to_bytes s')
  | EmptyString => ""
  end.

Definition is_ascii_char (c : ascii) : bool := code c <? 128.

(** The runs of ASCII characters of a text, in order, with the text between them. *)
Fixpoint ascii_runs (s : string) : list (bool * string) :=
  match s with
  | EmptyString => []
  | String c s' =>
      match ascii_runs s' with
      | (b, run) :: rest =>
          if Bool.eqb b (is_ascii_char c) then (b, String c run) :: rest else (is_ascii_char c, String c "") :: (b, run) :: rest
      | [] => [(is_ascii_char c, String c "")]
      end
  end.

(** [unquote], with the way bytes are decoded *)
Definition unquote_with (decode : string -> string) (s : string) : string :=
  if has_char "%" s
  then String.concat "" (map (fun r => if fst r : bool then decode (unquote_to_bytes (snd r)) else snd r) (ascii_runs s))
  else s.

(** What [quote] leaves as it is. *)
Definition is_unreserved (c : ascii) : bool :=
  in_range 48 57 c || in_range 65 90 c || in_range 97 122 c || Ascii.eqb c "_" || Ascii.eqb c "." || Ascii.eqb c "-" || Ascii.eqb c "~".

Definition hex_upper (n : Z) : ascii := if n <? 10 then chr (48 + n) else chr (55 + n).

Definition percent (byte : Z) : string := String "%" (String (hex_upper (byte / 16)) (String (hex_upper (byte mod 16)) "")).

(** The bytes of a character in UTF-8, percent-encoded. *)
Definition quote_char (c : ascii) : string :=
  if is_unreserved c then String c ""
  else if is_ascii_char c then percent (code c)
  else percent (192 + code c / 64) +:+ percent (128 + code c mod 64).

(** [quote(s, safe="")] *)
Fixpoint quote_text (s : string) : string :=
  match s with EmptyString => "" | String c s' => quote_char c +:+ quote_text s' end.

(** [quote_plus] *)
Fixpoint quote_plus (s : string) : string :=
  match s with EmptyString => "" | String c s' => (if Ascii.eqb c " " then "+" else quote_char c) +:+ quote_plus s' end.

Section decoding.
Context `{TS : TextServices}.

(** [bytes.decode("utf-8", errors="replace")] *)
Definition decode_replace (bytes : string) : string :=
  String.concat "" (map (fun r => if fst r : bool then snd r else utf8_replace (snd r)) (ascii_runs bytes)).

Definition unquote (s : string) : string := unquote_with decode_replace s.

Definition unquote_plus (s : string) : string := unquote (replace_char "+" " " s).
End decoding.

(** * Splitting *)

(** [SplitResult] *)
Record SplitResult : Type := mkSplit {
  sr_scheme : string;
  sr_netloc : string;
  sr_path : string;
  sr_query : string;
  sr_fragment : string
}.

Fixpoint drop_leading (p : ascii -> bool) (s : string) : string :=
  match s with String c s' => if p c then drop_leading p s' else s | EmptyString => "" end.

Fixpoint drop_chars (p : ascii -> bool) (s : string) : string :=
  match s with String c s' => if p c then drop_chars p s' else String c (drop_chars p s') | EmptyString => "" end.

(** [_UNSAFE_URL_BYTES_TO_REMOVE] *)
Definition is_url_break (c : ascii) : bool := (code c =? 9) || (code c =? 13) || (code c =? 10).

Definition is_ascii_alpha (c : ascii) : bool := in_range 65 90 c || in_range 97 122 c.

Definition is_scheme_char (c : ascii) : bool :=
  is_ascii_alpha c || is_decimal c || Ascii.eqb c "+" || Ascii.eqb c "-" || Ascii.eqb c ".".

(** The scheme of a URL and what follows it. *)
Definition split_scheme (url : string) : string * string :=
  match partition_char ":" url with
  | Some (String c rest as scheme, tail) =>
      if is_ascii_alpha c && sforall is_scheme_char scheme then (lower scheme, tail) else ("", url)
  | _ => ("", url)
  end.

(** [_splitnetloc], after the two slashes *)
Fixpoint split_netloc (s : string) : string * string :=
  match s with
  | EmptyString => ("", "")
  | String c s' =>
      if Ascii.eqb c "/" || Ascii.eqb c "?" || Ascii.eqb c "#" then ("", s)
      else let (h, t) := split_netloc s' in (String c h, t)
  end.

(** [s.rpartition(c)]: [None] when [c] does not occur *)
Definition rpartition_char (c : ascii) (s : string) : option (string * string) :=
  match rev (split_on c s) with
  | last :: (_ :: _) as before => Some (join (String c "") (rev before), last)
  | _ => None
  end.

Definition InvalidURL : exn := ValueError "Invalid IPv6 URL".

(** [_check_bracketed_host] *)
Definition is_ipv_future (host : string) : bool :=
  match host with
  | String "v" s =>
      match partition_char "." s with
      | Some (version, rest) => truthy version && sforall is_hex version && truthy rest
      | None => false
      end
  | _ => false
  end.

Definition _check_bracketed_host (hostname : string) : res unit :=
  if startswith hostname "v" then
    if is_ipv_future hostname then Ok tt else Raise (ValueError "IPvFuture address is invalid")
  else match ip_address hostname with
       | None => Raise (ValueError "not an address")
       | Some (V4 _) => Raise (ValueError "An IPv4 address cannot be in brackets")
       | Some (V6 _ _) => Ok tt
       end.

(** [_check_bracketed_netloc] *)
Definition _check_bracketed_netloc (netloc : string) : res unit :=
  let host_and_port := match rpartition_char "@" netloc with Some (_, h) => h | None => netloc end in
  match partition_char "[" host_and_port with
  | Some (String _ _, _) => Raise InvalidURL
  | Some (EmptyString, bracketed) =>
      let (hostname, port) := default (bracketed, "") (partition_char "]" bracketed) in
      if truthy port && negb (startswith port ":") then Raise InvalidURL else _check_bracketed_host hostname
  | None => _check_bracketed_host (match partition_char ":" host_and_port with Some (h, _) => h | None => host_and_port end)
  end.

Definition check_netloc (netloc : string) : res unit :=
  let opened := has_char "[" netloc in
  let closed := has_char "]" netloc in
  if xorb opened closed then Raise InvalidURL
  else if opened && closed then _check_bracketed_netloc netloc else Ok tt.

(** [urlsplit] *)
Definition urlsplit (url : string) : res SplitResult :=
  let url := drop_chars is_url_break (drop_leading (fun c => code c <=? 32) url) in
  let (scheme, url) := split_scheme url in
  let (netloc, url) := if startswith url "//" then split_netloc (sdrop 2 url) else ("", url) in
  match check_netloc netloc with
  | Raise e => Raise e
  | Ok _ =>
      let (url, fragment) := default (url, "") (partition_char "#" url) in
      let (path, query) := default (url, "") (partition_char "?" url) in
      Ok (mkSplit scheme netloc path query fragment)
  end.

(** [uses_netloc] *)
Definition uses_netloc : list string :=
  [""; "ftp"; "http"; "gopher"; "nntp"; "telnet"; "imap"; "wais"; "file"; "mms"; "https"; "shttp"; "snews"; "prospero";
   "rtsp"; "rtsps"; "rtspu"; "rsync"; "svn"; "svn+ssh"; "sftp"; "nfs"; "git"; "git+ssh"; "ws"; "wss"; "itms-services"].

(** [urlunsplit] *)
Definition urlunsplit (parts : SplitResult) : string :=
  let path := sr_path parts in
  let scheme := sr_scheme parts in
  let url :=
    if truthy (sr_netloc parts)
    then "//" +:+ sr_netloc parts +:+ (if truthy path && negb (startswith path "/") then "/" +:+ path else path)
    else if startswith path "//" then "//" +:+ path
    else if truthy scheme && bool_decide (scheme ∈ uses_netloc) && (negb (truthy path) || startswith path "/") then "//" +:+ path
    else path in
  let url := if truthy scheme then scheme +:+ ":" +:+ url else url in
  let url := if truthy (sr_query parts) then url +:+ "?" +:+ sr_query parts else url in
  if truthy (sr_fragment parts) then url +:+ "#" +:+ sr_fragment parts else url.

Example urlsplit_examples :
  urlsplit "HTTPS://u:p@host:80/a/b?x=1#f" = Ok (mkSplit "https" "u:p@host:80" "/a/b" "x=1" "f") /\
  urlsplit "/a?b#c" = Ok (mkSplit "" "" "/a" "b" "c") /\
  urlsplit "http://[::1]:8080/" = Ok (mkSplit "http" "[::1]:8080" "/" "" "") /\
  urlsplit "//[" = Raise InvalidURL.
Proof. vm_compute. repeat split; reflexivity. Qed.
