(* ===== verification/Sys.v ===== *)
(** What the engine shares with its surroundings: the clocks, the log, the
    telemetry agent, the Redis server, and the module-level "warn once" flags.

    [Env] collects the code outside the repository as parameters; [Sys] is the
    state all components share.  Every component runs on [Sys], or on a pair of
    [Sys] and its own state. *)
From S2P Require Import Prelude PyStr.

(** Logging levels ([logging.DEBUG] and the others). *)
Inductive level : Type := DEBUG | INFO | WARNING | ERROR | CRITICAL.

#[export] Instance level_eq_dec : EqDecision level.
Proof. solve_decision. Defined.

(** The fields of a [SecurityEvent] that the engine computes; [ev_meta] holds
    the keyword arguments, in order.  Timestamps, response times, methods
    and what is shown of the user agent and the endpoint are left out. *)
Record agent_event : Type := AgentEvent {
  ev_type : string;
  ev_ip : string;
  ev_action : string;
  ev_reason : string;
  ev_handler : string;
  ev_country : option string;
  ev_meta : list (string * string)
}.

(** The fields of a [SecurityMetric]; values are counted in millionths. *)
Record agent_metric : Type := AgentMetric {
  met_type : string;
  met_value : Z;
  met_tags : list (string * string)
}.

(** Time is counted in microseconds; the text of a timestamp is that of the
    count ([str(t)], [float(s)]). *)
Definition seconds (n : Z) : Z := (n * 1000000)%Z.

Definition str_time (t : Z) : string := string_of_Z t.

Definition float_time (s : string) : res Z :=
  match py_int s with
  | Some t => Ok t
  | None => Raise (ValueError "could not convert string to float")
  end.

(** A bound of [ZREMRANGEBYSCORE]: ["-inf"], [x], or ["(x"]. *)
Inductive score_bound : Type := MinusInf | Incl (x : Z) | Excl (x : Z).

Definition above (b : score_bound) (score : Z) : bool :=
  match b with MinusInf => true | Incl x => (x <=? score)%Z | Excl x => (x <? score)%Z end.

Definition below (b : score_bound) (score : Z) : bool :=
  match b with MinusInf => false | Incl x => (score <=? x)%Z | Excl x => (score <? x)%Z end.

(** The code the engine calls and does not contain. *)
Class Env : Type := {
  (** [time.time()], at its [n]-th reading *)
  clock : nat -> Z;
  (** [time.monotonic()], which times the caches *)
  monotonic : nat -> Z;
  (** [agent_handler.send_event], at its [n]-th call: what it raises, if it does *)
  agent_outcome : nat -> agent_event -> option exn;
  (** [agent_handler.send_metric], likewise *)
  metric_outcome : nat -> agent_metric -> option exn;
  (** [hashlib.sha256(s.encode()).hexdigest()] *)
  sha256_hex : string -> string;
  (** [uuid.uuid4().hex], at its [n]-th call *)
  uuid4_hex : nat -> string;
  (** the Redis server: its commands, and the [n]-th call of the client raising
      an exception instead of delivering the reply, the command having been
      carried out or not *)
  redis_state : Type;
  redis_outcome : nat -> option (exn * bool);
  srv_get : string -> redis_state -> option string * redis_state;
  srv_set : string -> string -> option Z -> redis_state -> unit * redis_state;
  srv_delete : list string -> redis_state -> Z * redis_state;
  srv_exists : string -> redis_state -> Z * redis_state;
  srv_keys : string -> redis_state -> list string * redis_state;
  srv_incr : string -> redis_state -> Z * redis_state;
  srv_expire : string -> Z -> redis_state -> unit * redis_state;
  srv_pttl : string -> redis_state -> Z * redis_state;
  srv_pset : string -> string -> Z -> redis_state -> unit * redis_state;
  srv_zadd : string -> string -> Z -> redis_state -> unit * redis_state;
  srv_zremrangebyscore : string -> score_bound -> score_bound -> redis_state -> unit * redis_state;
  srv_zcard : string -> redis_state -> Z * redis_state;
  srv_script_load : string -> redis_state -> string * redis_state;
  srv_script_cached : string -> redis_state -> bool
}.

Section sys.
Context `{E : Env}.

Record Sys : Type := mkSys {
  ticks : nat;                         (** clock readings so far *)
  logs : list (level * string);        (** log records, oldest first *)
  agent_log : list agent_event;        (** events handed to the agent *)
  metric_log : list agent_metric;      (** metrics handed to the agent *)
  warned : list string;                (** the "warn once" flags that are set *)
  redis : redis_state;
  redis_calls : nat;                   (** calls of the Redis client so far *)
  redis_client : bool;                 (** [RedisManager._redis is not None] *)
  redis_closed : bool;                 (** [RedisManager._closed] *)
  uuids : nat                          (** [uuid4] values drawn so far *)
}.

(** [time.time()] *)
Definition time_time : M Sys Z := fun s => (Ok (clock (ticks s)), s {{ ticks ::= S }}).

(** [time.monotonic()] *)
Definition time_monotonic : M Sys Z := fun s => (Ok (monotonic (ticks s)), s {{ ticks ::= S }}).

(** [uuid.uuid4().hex] *)
Definition draw_uuid : M Sys string := fun s => (Ok (uuid4_hex (uuids s)), s {{ uuids ::= S }}).

(** [logger.warning(msg)] and the like *)
Definition log (l : level) (msg : string) : M Sys unit :=
  modify (fun s => s {{ logs := logs s ++ [(l, msg)] }}).

(** [agent_handler.send_event(event)] *)
Definition agent_send (e : agent_event) : M Sys unit := fun s =>
  (match agent_outcome (length (agent_log s)) e with
   | Some x => Raise x
   | None => Ok tt
   end,
   s {{ agent_log := agent_log s ++ [e] }}).

(** [agent_handler.send_metric(metric)] *)
Definition agent_metric_send (m : agent_metric) : M Sys unit := fun s =>
  (match metric_outcome (length (metric_log s)) m with
   | Some x => Raise x
   | None => Ok tt
   end,
   s {{ metric_log := metric_log s ++ [m] }}).

(** [try: agent_handler.send_event(event) except Exception: logger.error] *)
Definition agent_send_logged (e : agent_event) (failure : string) : M Sys unit :=
  catch any_exn (agent_send e) (fun _ => log ERROR failure).

(** [global flag; if flag: return; flag = True; <warn>] *)
Definition warn_once (flag : string) (warn : M Sys unit) : M Sys unit :=
  let* w := gets warned in
  if bool_decide (flag ∈ w) then ret tt
  else modify (fun s => s {{ warned := flag :: warned s }}) ;;; warn.

(** A command, or a pipeline executed as one transaction, sent by the client. *)
Definition redis_call {A} (command : redis_state -> A * redis_state) : M Sys A := fun s =>
  let s' := s {{ redis_calls ::= S }} in
  let '(reply, r) := command (redis s) in
  match redis_outcome (redis_calls s) with
  | None => (Ok reply, s' {{ redis := r }})
  | Some (e, true) => (Raise e, s' {{ redis := r }})
  | Some (e, false) => (Raise e, s')
  end.

(** Nothing but log records, flags and telemetry differs. *)
Definition same_clock (s s' : Sys) : Prop :=
  ticks s = ticks s' /\ redis s = redis s' /\ redis_calls s = redis_calls s' /\
  redis_client s = redis_client s' /\ redis_closed s = redis_closed s' /\ uuids s = uuids s'.

#[export] Instance same_clock_equiv : Equivalence same_clock.
Proof.
  split; [done|..]; unfold same_clock; [intros s s'|intros s1 s2 s3]; intuition congruence.
Qed.

Lemma wp_log l msg (Q : res unit -> Sys -> Prop) s :
  (forall s', same_clock s s' -> agent_log s' = agent_log s -> Q (Ok tt) s') -> wp (log l msg) Q s.
Proof. intros H. apply wp_modify, H; by destruct s. Qed.

Lemma wp_warn_once flag l msg (Q : res unit -> Sys -> Prop) s :
  (forall s', same_clock s s' -> agent_log s' = agent_log s -> Q (Ok tt) s') ->
  wp (warn_once flag (log l msg)) Q s.
Proof.
  intros H. unfold warn_once. apply wp_bind, wp_gets.
  destruct (bool_decide (flag ∈ warned s)); [by apply wp_ret, H|].
  apply wp_bind, wp_modify. apply wp_log. intros s' Hs Ha. apply H; [|rewrite Ha; by destruct s].
  by destruct s.
Qed.

(** Sending an event never raises past the handler's [except Exception]. *)
Lemma wp_agent_send_logged e failure (Q : res unit -> Sys -> Prop) s :
  (forall s', same_clock s s' -> agent_log s' = agent_log s ++ [e] -> Q (Ok tt) s') ->
  wp (agent_send_logged e failure) Q s.
Proof.
  intros H. unfold agent_send_logged, agent_send, catch, wp.
  destruct (agent_outcome _ _); simpl; apply H; by destruct s.
Qed.

(** A Redis command either replies, or raises what the client raised. *)
Lemma wp_redis_call {A} (command : redis_state -> A * redis_state) (Q : res A -> Sys -> Prop) s :
  (forall r s', ticks s' = ticks s -> agent_log s' = agent_log s ->
     (r = Ok (fst (command (redis s))) /\ redis s' = snd (command (redis s)) \/
      exists e b, redis_outcome (redis_calls s) = Some (e, b) /\ r = Raise e) -> Q r s') ->
  wp (redis_call command) Q s.
Proof.
  intros H. unfold redis_call, wp. destruct (command (redis s)) as [reply r] eqn:Ec.
  destruct (redis_outcome (redis_calls s)) as [[e []]|] eqn:Ho; apply H; destruct s; simpl in *;
    try done; rewrite ?Ec, ?Ho; eauto 6.
Qed.
(** The clocks only move forward. *)
Definition ticks_le (s s' : Sys) : Prop := (ticks s <= ticks s')%nat.

#[export] Instance ticks_le_preorder : PreOrder ticks_le.
Proof. split; unfold ticks_le; [intros s; lia|intros s1 s2 s3; lia]. Qed.

Definition same_ticks (s s' : Sys) : Prop := ticks s = ticks s'.

#[export] Instance same_ticks_preorder : PreOrder same_ticks.
Proof. split; unfold same_ticks; [intros s; lia|intros s1 s2 s3; lia]. Qed.

Lemma same_ticks_le s s' : same_ticks s s' -> ticks_le s s'.
Proof. unfold same_ticks, ticks_le. lia. Qed.

Lemma log_ticks l msg : keeps same_ticks (log l msg).
Proof. intros s. by destruct s. Qed.

Lemma agent_send_ticks e : keeps same_ticks (agent_send e).
Proof. intros s. by destruct s. Qed.

Lemma agent_send_logged_ticks e f : keeps same_ticks (agent_send_logged e f).
Proof. unfold agent_send_logged. keeps_steps; auto using agent_send_ticks, log_ticks. Qed.

Lemma redis_call_ticks {A} (command : redis_state -> A * redis_state) : keeps same_ticks (redis_call command).
Proof.
  intros s. unfold redis_call. destruct (command (redis s)). by destruct s, (redis_outcome _) as [[? []]|].
Qed.

Lemma draw_uuid_ticks : keeps same_ticks draw_uuid.
Proof. intros s. by destruct s. Qed.
End sys.

(** A component's state next to [Sys]; [sys m] runs a call of the surroundings. *)
Definition sys `{E : Env} {St A} (m : M Sys A) : M (Sys * St) A :=
  zoom fst (fun s w => (s, snd w)) m.

Lemma wp_sys `{E : Env} {St A} (m : M Sys A) (Q : res A -> Sys * St -> Prop) w :
  wp m (fun r s => Q r (s, snd w)) (fst w) -> wp (sys m) Q w.
Proof. exact (wp_zoom fst (fun s w => (s, snd w)) m Q w). Qed.

(** [redis_handler]: the configuration of the manager, and whether it has an
    agent. *)
Record RedisHandle (Config : Type) : Type := mkRedisHandle { rh_config : Config; rh_agent : bool }.
Arguments mkRedisHandle {_} _ _.
Arguments rh_config {_} _.
Arguments rh_agent {_} _.

#[export] Hint Resolve log_ticks agent_send_ticks agent_send_logged_ticks redis_call_ticks draw_uuid_ticks : ticks.
