(* ===== verification/Sample.v ===== *)
(** A concrete environment for the witnesses: a given clock, an agent that
    accepts every event, and a small in-memory Redis whose keys do not expire.

    The hash is a tagged copy of its input, so it is injective, as the theorems
    that mention hashing assume of SHA-256 on the keys in use. *)
From S2P Require Import Prelude PyStr PyDict IpAddr Url Sys.

(** Keys with their values, sorted sets, and the cached scripts. *)
Record sample_redis : Type := mkSampleRedis {
  sr_keys : list (string * string);
  sr_sets : list (string * list (string * Z));
  sr_scripts : list string
}.

Definition sr_zset (key : string) (r : sample_redis) : list (string * Z) :=
  match dget key (sr_sets r) with Some z => z | None => [] end.

Definition sample_redis_empty : sample_redis := mkSampleRedis [] [] [].

(** [outcome] decides which client calls fail. *)
Definition sample_env (clk : nat -> Z) (outcome : nat -> option (exn * bool)) : Env := {|
  clock := clk;
  monotonic := clk;
  agent_outcome := fun _ _ => None;
  metric_outcome := fun _ _ => None;
  sha256_hex := fun s => "#" +:+ s;
  uuid4_hex := fun n => string_of_Z (Z.of_nat n);
  redis_state := sample_redis;
  redis_outcome := outcome;
  srv_get := fun key r => (dget key (sr_keys r), r);
  srv_set := fun key v _ r => (tt, r {{ sr_keys := dset key v (sr_keys r) }});
  srv_delete := fun keys r =>
    (Z.of_nat (length (List.filter (fun k => dmem k (sr_keys r)) keys)),
     r {{ sr_keys := fold_right ddel (sr_keys r) keys }});
  srv_exists := fun key r => (if dmem key (sr_keys r) then 1%Z else 0%Z, r);
  srv_keys := fun _ r => (dkeys (sr_keys r), r);
  srv_incr := fun key r =>
    let n := (1 + match dget key (sr_keys r) with Some v => default 0 (py_int v) | None => 0 end)%Z in
    (n, r {{ sr_keys := dset key (string_of_Z n) (sr_keys r) }});
  srv_expire := fun _ _ r => (tt, r);
  srv_pttl := fun key r => (if dmem key (sr_keys r) then (-1)%Z else (-2)%Z, r);
  srv_pset := fun key v _ r => (tt, r {{ sr_keys := dset key v (sr_keys r) }});
  srv_zadd := fun key member score r =>
    (tt, r {{ sr_sets := dset key (dset member score (sr_zset key r)) (sr_sets r) }});
  srv_zremrangebyscore := fun key lo hi r =>
    (tt, r {{ sr_sets := dset key (List.filter (fun p => negb (above lo (snd p) && below hi (snd p)))
                                     (sr_zset key r)) (sr_sets r) }});
  srv_zcard := fun key r => (Z.of_nat (length (sr_zset key r)), r);
  srv_script_load := fun script r => ("sha", r {{ sr_scripts := script :: sr_scripts r }});
  srv_script_cached := fun sha r => (sha =? "sha")%string && nonempty (sr_scripts r)
|}.

(** No client call fails. *)
Definition redis_up (n : nat) : option (exn * bool) := None.

(** Every client call fails, nothing being carried out. *)
Definition redis_down (n : nat) : option (exn * bool) := Some (RedisError "connection refused", false).

(** A clock that advances one second at every reading. *)
Definition ticking (start : Z) : nat -> Z := fun n => (start + seconds (Z.of_nat n))%Z.

Definition sample_sys (clk : nat -> Z) (outcome : nat -> option (exn * bool)) : @Sys (sample_env clk outcome) :=
  @mkSys (sample_env clk outcome) 0 [] [] [] [] sample_redis_empty 0 true false 0.

Lemma ticking_mono start i j : (i <= j)%nat -> (ticking start i <= ticking start j)%Z.
Proof. unfold ticking, seconds. lia. Qed.

(** Texts whose bytes beyond ASCII are characters, where a few brackets are too deep and
    one name stands for several characters. *)
Definition sample_texts : TextServices := {|
  utf8_replace := smap (fun c => if is_ascii_char c then chr 191 else c);
  nested_too_deep := fun text => startswith text (String.concat "" (repeat "[" 1000));
  unicode_lookup := fun name => if (name =? "KEYCAP DIGIT ONE")%string then Some [49; 65039; 8419]%Z else None;
  float_repr := id;
  float_below := fun _ _ => false
|}.
