(* ===== verification/Config.v ===== *)
(** Configuration records: the fields of [SecurityConfig] and [RouteConfig] that
    the modelled code reads, and the objects that carry them.

    Callables in the configuration (verifiers, validators, hooks) are named by a
    string; the component that calls them takes their behaviour as a parameter.
    Sets and frozen sets are lists used through membership, size and truthiness. *)
From S2P Require Import Prelude PyStr PyDict Json Sys.

(** [bool(x)] of an optional container, and of an optional string. *)
Definition truthy_list {A} (o : option (list A)) : bool :=
  match o with Some l => nonempty l | None => false end.

Definition truthy_str (o : option string) : bool :=
  match o with Some s => truthy s | None => false end.

Definition in_list (x : string) (l : list string) : bool := bool_decide (x ∈ l).

(** [ThreatBanConfig] *)
Record ThreatBanConfig : Type := mkThreatBan { tb_threshold : Z; tb_duration : Z }.

(** What a behaviour rule counts, and what it does ([BehaviorRule] of
    [handlers/behavior_handler.py], [BehaviorRuleConfig] of the configuration,
    which has no callable). *)
Inductive rule_kind : Type := Usage | ReturnPattern | Frequency.
Inductive behavior_action : Type := ActBan | ActLog | ActThrottle | ActAlert.

Record BehaviorRule : Type := mkRule {
  br_kind : rule_kind;
  br_threshold : Z;
  br_window : Z;
  br_pattern : option string;
  br_action : behavior_action;
  br_custom_action : option string;
  br_ban_duration : option Z;
  br_correlate_with_detection : bool
}.

Record BehaviorRuleConfig : Type := mkRuleConfig {
  cfg_kind : rule_kind;
  cfg_threshold : Z;
  cfg_window : Z;
  cfg_pattern : option string;
  cfg_action : behavior_action;
  cfg_ban_duration : option Z;
  cfg_correlate_with_detection : bool
}.

#[export] Instance rule_kind_eq_dec : EqDecision rule_kind.
Proof. solve_decision. Defined.
#[export] Instance behavior_action_eq_dec : EqDecision behavior_action.
Proof. solve_decision. Defined.
#[export] Instance BehaviorRule_eq_dec : EqDecision BehaviorRule.
Proof. solve_decision. Defined.

(** The categories of the attack patterns ([handlers/_suspatterns_sources.py]) *)
Definition ALL_DETECTION_CATEGORIES : list string :=
  ["xss"; "sqli"; "dir_traversal"; "path_traversal"; "cmd_injection"; "file_inclusion"; "ldap"; "xml"; "ssrf"; "nosql"; "file_upload"; "template"; "http_split"; "sensitive_file"; "cms_probing"; "recon"; "proto_pollution"; "code_injection"; "deserialization"].

(** [SecurityConfig] ([guard_core/_security_config_fields.py]) *)
Record SecurityConfig : Type := mkConfig {
  trusted_proxies : list string;
  trusted_proxy_depth : Z;
  trust_x_forwarded_proto : bool;
  passive_mode : bool;
  enable_redis : bool;
  redis_url : option string;
  redis_prefix : string;
  whitelist : option (list string);
  blacklist : list string;
  exempt_ips : list string;
  whitelist_countries : list string;
  blocked_countries : list string;
  blocked_user_agents : list string;
  auto_ban_threshold : Z;
  auto_ban_duration : Z;
  threat_ban_config : list (string * ThreatBanConfig);
  enable_rate_limit_auto_ban : bool;
  log_suspicious_level : option level;
  log_request_level : option level;
  log_country_check_level : option level;
  custom_error_responses : list (Z * string);
  rate_limit : Z;
  rate_limit_window : Z;
  enforce_https : bool;
  custom_request_check : option string;
  auth_verifier : option string;
  custom_response_modifier : option string;
  block_cloud_providers : option (list string);
  cloud_ip_refresh_interval : Z;
  exclude_paths : list string;
  enable_ip_banning : bool;
  enable_rate_limiting : bool;
  enable_penetration_detection : bool;
  fail_secure : bool;
  redis_fail_open : bool;
  route_resolution_strict : bool;
  on_block : option string;
  on_error : option string;
  agent_enable_events : bool;
  enable_dynamic_rules : bool;
  emergency_mode : bool;
  emergency_whitelist : list string;
  endpoint_rate_limits : list (string * (Z * Z));
  muted_event_types : list string;
  muted_check_logs : list string;
  muted_metric_types : list string;
  agent_enable_metrics : bool;
  (** a dictionary of anything, as data of JSON *)
  security_headers : option (list (string * json));
  enable_cors : bool;
  cors_allow_origins : list string;
  cors_allow_methods : list string;
  cors_allow_headers : list string;
  cors_allow_credentials : bool;
  cors_expose_headers : list string;
  cors_max_age : Z;
  global_behavior_rules : list BehaviorRuleConfig;
  behavior_scan_response_body : bool;
  behavior_max_response_body_inspect_bytes : Z;
  detection_max_body_inspect_bytes : Z;
  detection_max_scan_values : Z;
  detection_max_scan_chars : Z;
  detection_max_json_depth : Z;
  detection_max_content_length : Z;
  detection_preserve_attack_patterns : bool;
  detection_semantic_threshold : Z;         (** in millionths *)
  detection_threat_score_threshold : Z;
  detection_binary_min_run_length : Z;
  detection_scan_body : bool;
  excluded_detection_headers : list string;
  excluded_detection_params : list string;
  excluded_detection_body_fields : list string;
  enabled_detection_categories : list string;
  log_sensitive_headers : list string;
  log_sensitive_params : list string;
  log_sensitive_body_fields : list string
}.

(** [RouteConfig] ([guard_core/decorators/route_config.py]), the per-route rules
    the decorators write. *)
Record RouteConfig : Type := mkRoute {
  rc_rate_limit : option Z;
  rc_rate_limit_window : option Z;
  rc_ip_whitelist : option (list string);
  rc_ip_blacklist : option (list string);
  rc_blocked_countries : option (list string);
  rc_whitelist_countries : option (list string);
  rc_bypassed_checks : list string;
  rc_require_https : bool;
  rc_auth_required : option string;
  rc_custom_validators : list string;
  rc_blocked_user_agents : list string;
  rc_required_headers : list (string * string);
  rc_block_cloud_providers : list string;
  rc_max_request_size : option Z;
  rc_allowed_content_types : option (list string);
  rc_time_restrictions : option (list (string * string));
  rc_enable_suspicious_detection : bool;
  rc_require_referrer : option (list string);
  rc_api_key_required : bool;
  rc_auth_verifier : option string;
  rc_api_key_verifier : option string;
  rc_api_key_header : option string;
  rc_authorization_header_required : option string;
  rc_geo_rate_limits : option (list (string * (Z * Z)));
  rc_behavior_rules : list BehaviorRule;
  rc_enabled_detection_categories : option (list string);
  rc_excluded_detection_headers : option (list string);
  rc_excluded_detection_params : option (list string);
  rc_excluded_detection_body_fields : option (list string);
  rc_detection_scan_body : option bool
}.

#[export] Instance RouteConfig_eq_dec : EqDecision RouteConfig.
Proof. solve_decision. Defined.

(** [RouteConfig()] *)
Definition RouteConfig_init : RouteConfig :=
  {| rc_rate_limit := None; rc_rate_limit_window := None;
     rc_ip_whitelist := None; rc_ip_blacklist := None;
     rc_blocked_countries := None; rc_whitelist_countries := None;
     rc_bypassed_checks := []; rc_require_https := false; rc_auth_required := None;
     rc_custom_validators := []; rc_blocked_user_agents := []; rc_required_headers := [];
     rc_block_cloud_providers := []; rc_max_request_size := None;
     rc_allowed_content_types := None; rc_time_restrictions := None;
     rc_enable_suspicious_detection := true; rc_require_referrer := None;
     rc_api_key_required := false; rc_auth_verifier := None; rc_api_key_verifier := None;
     rc_api_key_header := None; rc_authorization_header_required := None;
     rc_geo_rate_limits := None; rc_behavior_rules := [];
     rc_enabled_detection_categories := None; rc_excluded_detection_headers := None;
     rc_excluded_detection_params := None; rc_excluded_detection_body_fields := None;
     rc_detection_scan_body := None |}.

(** [GeoIPHandler] ([guard_core/protocols/geo_ip_protocol.py]): the database it
    reads is not replaced while a request is handled. *)
Record GeoHandler : Type := mkGeo {
  geo_is_initialized : bool;
  geo_initialize : res unit;
  geo_get_country : string -> res (option string)
}.

(** The decorator object that keeps the per-route rules, under the identifiers of
    the routes ([BaseSecurityDecorator]). *)
Record Decorator : Type := mkDecorator {
  dec_config : SecurityConfig;
  _route_configs : list (string * RouteConfig);
  dec_agent : bool;
  dec_geo : option GeoHandler
}.

(** A configuration with the defaults of the source, for examples. *)
Definition default_config : SecurityConfig :=
  {| trusted_proxies := []; trusted_proxy_depth := 1; trust_x_forwarded_proto := false;
     passive_mode := false; enable_redis := true; redis_url := Some "redis://localhost:6379"; redis_prefix := "guard_core:";
     whitelist := None; blacklist := []; exempt_ips := [];
     whitelist_countries := []; blocked_countries := []; blocked_user_agents := [];
     auto_ban_threshold := 10; auto_ban_duration := 3600; threat_ban_config := [];
     enable_rate_limit_auto_ban := false;
     log_suspicious_level := Some WARNING; log_request_level := None;
     log_country_check_level := Some INFO;
     custom_error_responses := []; rate_limit := 10; rate_limit_window := 60;
     enforce_https := false; custom_request_check := None; auth_verifier := None;
     custom_response_modifier := None; block_cloud_providers := None;
     cloud_ip_refresh_interval := 3600;
     exclude_paths := ["/docs"; "/redoc"; "/openapi.json"; "/openapi.yaml"; "/favicon.ico"; "/static"];
     enable_ip_banning := true; enable_rate_limiting := true;
     enable_penetration_detection := true; fail_secure := true; redis_fail_open := false;
     route_resolution_strict := false; on_block := None; on_error := None; agent_enable_events := true;
     enable_dynamic_rules := false; emergency_mode := false; emergency_whitelist := [];
     endpoint_rate_limits := []; muted_event_types := []; muted_check_logs := [];
     muted_metric_types := []; agent_enable_metrics := true;
     security_headers := Some [
       ("enabled", JBool true);
       ("hsts", JObj [("max_age", JInt 31536000); ("include_subdomains", JBool true); ("preload", JBool false)]);
       ("csp", JNull); ("frame_options", JStr "SAMEORIGIN"); ("content_type_options", JStr "nosniff");
       ("xss_protection", JStr "1; mode=block"); ("referrer_policy", JStr "strict-origin-when-cross-origin");
       ("permissions_policy", JStr "geolocation=(), microphone=(), camera=()"); ("custom", JNull)];
     enable_cors := false; cors_allow_origins := ["*"]; cors_allow_methods := ["GET"; "POST"; "PUT"; "PATCH"; "DELETE"; "OPTIONS"];
     cors_allow_headers := ["*"]; cors_allow_credentials := false; cors_expose_headers := []; cors_max_age := 600;
     global_behavior_rules := []; behavior_scan_response_body := false;
     behavior_max_response_body_inspect_bytes := 262144;
     detection_max_body_inspect_bytes := 262144; detection_max_scan_values := 512; detection_max_scan_chars := 65536;
     detection_max_json_depth := 32; detection_max_content_length := 10000; detection_preserve_attack_patterns := true;
     detection_semantic_threshold := 700000; detection_threat_score_threshold := 1000000; detection_binary_min_run_length := 16; detection_scan_body := true;
     excluded_detection_headers := []; excluded_detection_params := []; excluded_detection_body_fields := [];
     enabled_detection_categories := ALL_DETECTION_CATEGORIES;
     log_sensitive_headers := []; log_sensitive_params := []; log_sensitive_body_fields := [] |}.

(** [cloud_blocking_enabled] *)
Definition cloud_blocking_enabled (config : SecurityConfig) : bool :=
  truthy_list (block_cloud_providers config) || enable_dynamic_rules config.
