(* ===== verification/Redaction.v ===== *)
(** What is shown of a text with secrets in it ([guard_core/_utils/request_logging.py],
    [logging_utils.py], [pair_redaction.py], [pair_value_scan.py],
    [pair_hidden_assign.py]): the values of sensitive names are replaced in JSON texts,
    XML elements, name-value pairs however they are encoded, paths and addresses.

    A position in a text is represented by the text that follows it, and an extent by
    its length; the cache of [_skip_hidden_assign_gap], which remembers a function of
    the position, is left out.  Sets of names are lists. *)
From S2P Require Import Prelude PyStr PyDict Json Url Config.

#[local] Open Scope nat_scope.

Definition RecursionError : exn := OtherError "RecursionError" "maximum recursion depth exceeded".

Definition is_recursion_error (e : exn) : bool :=
  match e with OtherError cls _ => (cls =? "RecursionError")%string | _ => false end.

Definition OutOfFuel : exn := OtherError "OutOfFuel" "".

(** [except ValueError], which a [JSONDecodeError] is *)
Definition is_json_value_error (e : exn) : bool := is_json_decode_error e || is_value_error e.

(** [_DEFAULT_MAX_JSON_DEPTH] of [detection_scan.py] *)
Definition _DEFAULT_MAX_JSON_DEPTH : Z := 32.

(** * Sensitive names *)

(** Set difference and union, on the lists that stand for sets. *)
Definition set_minus (l k : list string) : list string := List.filter (fun x => negb (in_list x k)) l.

Definition lowered (l : list string) : list string := map lower l.

Definition _DEFAULT_SENSITIVE_LOG_HEADERS : list string := ["authorization"; "proxy-authorization"; "cookie"; "x-api-key"].

Definition _DEFAULT_SENSITIVE_LOG_FIELDS : list string :=
  ["access_token"; "refresh_token"; "api_key"; "apikey"; "token"; "password"; "secret"; "client_secret"; "signature"].

Definition _merge_sensitive_names (defaults : list string) (extra : option (list string)) : list string :=
  match extra with None => defaults | Some names => defaults ++ lowered names end.

Definition _merge_sensitive_log_headers (extra : option (list string)) : list string :=
  _merge_sensitive_names _DEFAULT_SENSITIVE_LOG_HEADERS extra.

Definition _merge_sensitive_log_body_fields (extra : option (list string)) : list string :=
  _merge_sensitive_names _DEFAULT_SENSITIVE_LOG_FIELDS extra.

Definition _merged_sensitive_names (sensitive_params : option (list string)) (sensitive_body_fields : list string)
  (sensitive_headers : option (list string)) : list string :=
  _merge_sensitive_names _DEFAULT_SENSITIVE_LOG_FIELDS sensitive_params ++ sensitive_body_fields ++
  _merge_sensitive_log_headers sensitive_headers.

(** * Characters and runs *)

Definition one_of (cs : string) (c : ascii) : bool := has_char c cs.

(** The length of the longest run of characters at the start of a text. *)
Fixpoint span (p : ascii -> bool) (s : string) : nat :=
  match s with String c s' => if p c then S (span p s') else 0 | EmptyString => 0 end.

Definition quotes : string := String (chr 34) (String (chr 39) "").

Definition is_quote (c : ascii) : bool := one_of quotes c.
Definition is_hard_sep (c : ascii) : bool := one_of "&;,?|/[]{}()<>" c || (code c =? 13)%Z || (code c =? 10)%Z.
Definition is_json_start (c : ascii) : bool := one_of "{[" c.
Definition is_assign (c : ascii) : bool := one_of "=:" c.

Definition head_is (p : ascii -> bool) (s : string) : bool := match s with String c _ => p c | EmptyString => false end.

(** [A-Za-z0-9_.-] *)
Definition is_name_char (c : ascii) : bool :=
  in_range 48 57 c || in_range 65 90 c || in_range 97 122 c || one_of "_.-" c.

Definition _is_soft_ws (c : ascii) : bool := is_space c && negb ((code c =? 13)%Z || (code c =? 10)%Z).

(** [_EXTENDED_NAME_RUN_RE], [_NAME_CORE]: the length of the name at the start of a text. *)
Fixpoint name_run (s : string) : nat :=
  match s with
  | String c s' =>
      if is_name_char c || Ascii.eqb c "+" then S (name_run s')
      else if Ascii.eqb c "%" then
        match s' with
        | String a (String b s'') => if is_hex a && is_hex b then 3 + name_run s'' else 0
        | _ => 0
        end
      else 0
  | EmptyString => 0
  end.

(** [_PERCENT_ESCAPE_RE.search] *)
Fixpoint has_percent_escape (s : string) : bool :=
  match s with
  | String c s' =>
      (Ascii.eqb c "%" && match s' with String a (String b _) => is_hex a && is_hex b | _ => false end) || has_percent_escape s'
  | EmptyString => false
  end.

Definition _has_undecoded_percent_escape (text : string) : bool := has_char "%" text && has_percent_escape text.

Definition _pair_starts_at (s : string) : bool :=
  let n := name_run s in
  (0 <? n) && (let after := sdrop n s in head_is is_assign (sdrop (span _is_soft_ws after) after)).

(** * Values ([pair_value_scan.py]) *)

(** [_unquoted_value_extent], where [room] is what the limit leaves; [blank] when the
    character before is a blank of a run that no pair follows. *)
Fixpoint value_length (separator quote : ascii -> bool) (blank : bool) (room : nat) (s : string) : nat :=
  match s with
  | EmptyString => 0
  | String c s' =>
      if _is_soft_ws c && blank then S (value_length separator quote true (room - 1) s')
      else match room with
           | 0 => 0
           | S room' =>
               if separator c || quote c then 0
               else if _is_soft_ws c then
                 if _pair_starts_at (sdrop (span _is_soft_ws s) s) then 0
                 else S (value_length separator quote true room' s')
               else S (value_length separator quote false room' s')
           end
  end.

Definition _unquoted_value_extent (s : string) : nat := value_length is_hard_sep is_quote false (slen s) s.

Definition _angle_value_extent (s : string) : nat :=
  value_length (fun c => is_hard_sep c && negb (one_of "<>" c)) (fun _ => false) false (slen s) s.

Definition _JSON_CANDIDATE_MAX_LEN : nat := Z.to_nat 16384.

Definition _sensitive_value_extent (s : string) (quote_char : option ascii) : nat :=
  match quote_char with
  | Some q => default (slen s) (find_char q s)
  | None => _unquoted_value_extent s
  end.

(** The quote and the length of the value, when its text stops at a quote after
    [body_end] characters; [tail] is the text from there. *)
Definition _restart_value_extent_at_quote (tail : string) (body_end : nat) (blank_before : bool) : option ascii * nat :=
  match tail with
  | String candidate rest =>
      match find_char candidate rest with
      | None => if blank_before then (Some candidate, body_end + slen tail) else (None, body_end)
      | Some closing => (Some candidate, body_end + 1 + closing)
      end
  | EmptyString => (None, body_end)
  end.

Definition _quote_char_at (s : string) : option ascii :=
  match s with String c _ => if is_quote c then Some c else None | EmptyString => None end.

Definition _REDACTED_MARKER : string := "[REDACTED]".

(** The replacement of a value and the length of what it replaces; [opening] is 1 when
    the body of the value comes after its quote. *)
Definition _build_redaction_result (body : string) (quote_char : option ascii) (opening body_end : nat) : string * nat :=
  let q := match quote_char with Some c => String c "" | None => "" end in
  let closed := match quote_char with Some c => head_is (Ascii.eqb c) (sdrop body_end body) | None => false end in
  (q +:+ _REDACTED_MARKER +:+ (if closed then q else ""), opening + body_end + (if closed then 1 else 0)).

Definition _MAX_DECODE_ROUNDS : nat := 3.

Fixpoint decode_rounds (rounds : nat) (decode : string -> string) (decoded : string) : string :=
  match rounds with
  | 0 => decoded
  | S rounds' =>
      let next_decoded := decode decoded in
      if decide (next_decoded = decoded) then decoded else decode_rounds rounds' decode next_decoded
  end.

Section redaction.
Context `{TS : TextServices}.

Definition _bounded_percent_decode (text : string) (decode : string -> string) : string :=
  if negb (has_char "%" text) && negb (has_char "+" text) then text else decode_rounds _MAX_DECODE_ROUNDS decode text.

Definition _redact_sensitive_pair_value (s : string) : string * nat :=
  let quote_char := _quote_char_at s in
  let opening := match quote_char with Some _ => 1 | None => 0 end in
  let body := sdrop opening s in
  let body_end := _sensitive_value_extent body quote_char in
  let (quote_char, body_end) :=
    if negb (is_some quote_char) && head_is is_quote (sdrop body_end body)
    then _restart_value_extent_at_quote (sdrop body_end body) body_end
           (negb (truthy (strip (_bounded_percent_decode (stake body_end body) unquote_plus))))
    else (quote_char, body_end) in
  if negb (is_some quote_char) && (body_end =? 0) && head_is (one_of "<") body
  then (_REDACTED_MARKER, _angle_value_extent body)
  else _build_redaction_result body quote_char opening body_end.

Definition _JSON_SNIFF_WINDOW : nat := 8.

Definition _looks_like_json_start (s : string) : bool :=
  match s with
  | EmptyString => false
  | String c _ =>
      if is_json_start c then true
      else Ascii.eqb c "%" && head_is is_json_start (_bounded_percent_decode (stake _JSON_SNIFF_WINDOW s) unquote_plus)
  end.

Definition is_json_likely (c : ascii) : bool := one_of "{[%" c.

(** * Assignments that are hidden ([pair_hidden_assign.py]) *)

(** [str.isspace] of one character *)
Definition is_space_code (n : Z) : bool :=
  (if n <? 256 then is_space (chr n)
   else (n =? 5760) || ((8192 <=? n) && (n <=? 8202)) || (n =? 8232) || (n =? 8233) || (n =? 8239) || (n =? 8287) || (n =? 12288))%Z.

Definition is_quote_code (n : Z) : bool := ((n =? 34) || (n =? 39))%Z.

(** [_is_gap_char], which takes the [ord] of a text that is neither blank nor a quote *)
Definition _is_gap_char (decoded : option (list Z)) : res bool :=
  match decoded with
  | None => Ok false
  | Some [n] => Ok (is_space_code n || is_quote_code n || (n <? 32)%Z)
  | Some l =>
      if nonempty l && forallb is_space_code l then Ok true
      else Raise (TypeError "ord() expected a character, but string of length 3 found")
  end.

Definition hex_number (s : string) : Z :=
  fold_left (fun n c => 16 * n + default 0 (hex_value c))%Z (String.list_ascii_of_string s) 0%Z.

Definition octal_number (s : string) : Z :=
  fold_left (fun n c => 8 * n + default 0 (hex_value c))%Z (String.list_ascii_of_string s) 0%Z.

Definition _codepoint (code : Z) : option (list Z) := if (code <=? 1114111)%Z then Some [code] else None.

(** [n] hexadecimal digits at the start of a text *)
Definition hex_digits (n : nat) (s : string) : option string :=
  if (slen (stake n s) =? n) && sforall is_hex (stake n s) then Some (stake n s) else None.

(** The part of [_ESCAPED_GAP_RE] after the backslashes: what it stands for and its length. *)
Definition escaped_char (s : string) : option (option (list Z) * nat) :=
  match s with
  | EmptyString => None
  | String c s' =>
      if one_of "tnrfvb" c || is_quote c then Some (Some [0%Z], 1)
      else if in_range 48 55 c then
        let n := Nat.min 3 (span (in_range 48 55) s) in Some (_codepoint (octal_number (stake n s)), n)
      else if one_of "xX" c then h ← hex_digits 2 s'; Some (_codepoint (hex_number h), 3)
      else if Ascii.eqb c "u" then
        match hex_digits 4 s' with
        | Some h => Some (_codepoint (hex_number h), 5)
        | None =>
            match s' with
            | String "{" body =>
                let n := span is_hex body in
                if (1 <=? n) && (n <=? 6) && head_is (one_of "}") (sdrop n body)
                then Some (_codepoint (hex_number (stake n body)), n + 3) else None
            | _ => None
            end
        end
      else if Ascii.eqb c "U" then h ← hex_digits 8 s'; Some (_codepoint (hex_number h), 9)
      else if Ascii.eqb c "N" then
        match s' with
        | String "{" body =>
            let n := span (fun a => in_range 48 57 a || in_range 65 90 a || in_range 97 122 a || one_of " -" a) body in
            if (1 <=? n) && head_is (one_of "}") (sdrop n body) then Some (unicode_lookup (stake n body), n + 3) else None
        | _ => None
        end
      else None
  end.

Definition _escaped_gap_length (s : string) : res nat :=
  let slashes := span (one_of "\") s in
  if slashes =? 0 then Ok 0
  else match escaped_char (sdrop slashes s) with
       | None => Ok 0
       | Some (decoded, n) =>
           match _is_gap_char decoded with Ok true => Ok (slashes + n) | Ok false => Ok 0 | Raise e => Raise e end
       end.

(** The first of the lengths whose text is an encoded sign of assignment. *)
Fixpoint encoded_assign (lengths : list nat) (s : string) : option nat :=
  match lengths with
  | [] => None
  | n :: more =>
      if slen s <? n then None
      else if in_list (_bounded_percent_decode (stake n s) unquote_plus) ["="; ":"] then Some n else encoded_assign more s
  end.

Definition _match_hidden_assign_token (s : string) : option nat :=
  if head_is is_assign s then Some 1 else encoded_assign [3; 5; 7] s.

(** [_skip_hidden_assign_gap]: blanks and escaped blanks, as long as there are any; each
    takes a character, so the length of the text is fuel enough. *)
Fixpoint skip_gap (fuel : nat) (s : string) : res nat :=
  let k := span _is_soft_ws s in
  match _escaped_gap_length (sdrop k s) with
  | Raise e => Raise e
  | Ok e =>
      match k + e, fuel with
      | 0, _ | _, 0 => Ok (k + e)
      | n, S fuel' => match skip_gap fuel' (sdrop n s) with Ok m => Ok (n + m) | Raise x => Raise x end
      end
  end.

Definition _skip_hidden_assign_gap (s : string) : res nat := skip_gap (slen s) s.

(** The signs of assignment and gaps at the start of a text. *)
Fixpoint assign_tokens (fuel : nat) (s : string) : res (option nat) :=
  match _match_hidden_assign_token s, fuel with
  | None, _ | _, 0 => Ok None
  | Some t, S fuel' =>
      match _skip_hidden_assign_gap (sdrop t s) with
      | Raise e => Raise e
      | Ok g => match assign_tokens fuel' (sdrop (t + g) s) with
                | Ok more => Ok (Some (t + g + default 0 more))
                | Raise e => Raise e
                end
      end
  end.

Definition _match_hidden_assign (s : string) : res (option nat) :=
  match _skip_hidden_assign_gap s with
  | Raise e => Raise e
  | Ok g => match assign_tokens (slen s) (sdrop g s) with
            | Ok (Some n) => Ok (Some (g + n))
            | Ok None => Ok None
            | Raise e => Raise e
            end
  end.

(** The length of the signs of assignment at the start of a text, each with the blanks
    and tabs after it. *)
Fixpoint assign_run_tail (after_sign : bool) (s : string) : nat :=
  match s with
  | String c s' =>
      if is_assign c then S (assign_run_tail true s')
      else if after_sign && (Ascii.eqb c " " || (code c =? 9)%Z) then S (assign_run_tail true s')
      else 0
  | EmptyString => 0
  end.

(** [_hidden_pair_split]: the name, and the text from the value on. *)
Definition _hidden_pair_split (token : string) : option (string * string) :=
  let split_pos := span (fun c => negb (is_assign c)) token in
  match sdrop split_pos token with
  | EmptyString => None
  | tail => Some (lower (strip (stake split_pos token)), sdrop (assign_run_tail false tail) tail)
  end.

Definition _redact_adjacent_sensitive_value (s : string) : option (string * nat) :=
  let k := span _is_soft_ws s in
  let value := sdrop k s in
  match value with
  | EmptyString => None
  | String c _ =>
      if is_hard_sep c then None
      else let (replacement, n) := _redact_sensitive_pair_value value in Some (stake k s +:+ replacement, k + n)
  end.

(** The quote that a text ends in before its marker. *)
Definition _open_quote_at_end (replacement : string) : option ascii :=
  if endswith replacement _REDACTED_MARKER && (slen _REDACTED_MARKER <? slen replacement)
  then _quote_char_at (sdrop (slen replacement - slen _REDACTED_MARKER - 1) replacement) else None.

Definition _close_dangling_quote_in_continuation (redacted_local continuation : string) : string * nat :=
  match _open_quote_at_end redacted_local with
  | None => (redacted_local, 0)
  | Some q =>
      if negb (truthy continuation) then (redacted_local, 0)
      else match find_char q continuation with
           | None => (redacted_local, slen continuation)
           | Some i => (redacted_local +:+ String q "", i + 1)
           end
  end.

Fixpoint split_where (p : ascii -> bool) (s : string) : list string :=
  match s with
  | EmptyString => [""]
  | String c s' =>
      if p c then "" :: split_where p s'
      else match split_where p s' with x :: xs => String c x :: xs | [] => [String c ""] end
  end.

(** [_SMUGGLED_SEPARATOR_RE] *)
Definition is_smuggled_separator (c : ascii) : bool := one_of "&;,?|" c.

(** * JSON ([logging_utils.py]) *)

(** The redaction of a value runs with [_json_depth_cap_hit], a context variable. *)
#[local] Abbreviation R := (M bool).

(** [json.loads] in the interpreter *)
Definition json_loads (text : string) : res json := if nested_too_deep text then Raise RecursionError else loads text.

Definition is_container (j : json) : bool := match j with JArr _ | JObj _ => true | _ => false end.

Definition REDACTED : json := JStr _REDACTED_MARKER.

Section json.
Context (leaf : string -> R string) (sensitive_body_fields : list string) (max_depth : Z).

(** [_redact_json_child] *)
Definition _redact_json_child (depth : Z) (below : R json) (sensitive : bool) (item : json) : R json :=
  if sensitive then ret REDACTED
  else match item with
       | JStr s => let* t := leaf s in ret (JStr t)
       | JArr _ | JObj _ => if (max_depth <=? depth + 1)%Z then modify (fun _ => true) ;;; ret REDACTED else below
       | _ => ret item
       end.

(** The rewriting of a container.  The source keeps the containers that are still to be
    filled on a stack; what each of them becomes does not depend on the order. *)
Fixpoint redact_container (depth : Z) (source : json) {struct source} : R json :=
  match source with
  | JArr items =>
      let* l := (fix go (l : list json) : R (list json) :=
        match l with
        | [] => ret []
        | x :: l' => let* y := _redact_json_child depth (redact_container (depth + 1) x) false x in let* r := go l' in ret (y :: r)
        end) items in
      ret (JArr l)
  | JObj members =>
      let* l := (fix go (l : list (string * json)) : R (list (string * json)) :=
        match l with
        | [] => ret []
        | (key, x) :: l' =>
            let* y := _redact_json_child depth (redact_container (depth + 1) x) (in_list (lower key) sensitive_body_fields) x in
            let* r := go l' in ret ((key, y) :: r)
        end) members in
      ret (JObj l)
  | _ => ret source
  end.

(** [_redact_sensitive_json], with the redaction of a string in it *)
Definition redact_json_with (value : json) : R json :=
  if negb (is_container value) then ret value
  else if (max_depth <=? 1)%Z then ret REDACTED
  else redact_container 1 value.
End json.

Definition starts_json (value : string) : bool := head_is is_json_start value.

Definition _nested_json_leaf_candidate (value : string) : option string :=
  if starts_json value then Some value
  else if negb (head_is (one_of "%") value) then None
  else let decoded := _bounded_percent_decode value unquote_plus in if starts_json decoded then Some decoded else None.

(** A JSON text, redacted, unless it is none or nothing in it is. *)
Definition redacted_json_text (redact_json : json -> R json) (text : string) : R (option json) :=
  match json_loads text with
  | Raise e => if is_json_value_error e then ret None else raise e
  | Ok parsed =>
      if negb (is_container parsed) then ret None
      else let* redacted := redact_json parsed in ret (if json_eqb redacted parsed then None else Some redacted)
  end.

Definition _try_redact_nested_json_leaf (redact_json : json -> R json) (value : string) : R (option string) :=
  match _nested_json_leaf_candidate value with
  | None => ret None
  | Some candidate => let* redacted := redacted_json_text redact_json candidate in ret (dumps_compact <$> redacted)
  end.

(** *** XML elements ([request_logging.py]) *)

(** [\w] *)
Definition is_word (c : ascii) : bool :=
  in_range 48 57 c || in_range 65 90 c || in_range 97 122 c || one_of "_" c || (code c =? 170)%Z || (code c =? 181)%Z ||
  (code c =? 178)%Z || (code c =? 179)%Z || (code c =? 185)%Z || (code c =? 186)%Z || in_range 188 190 c ||
  (in_range 192 255 c && negb ((code c =? 215)%Z || (code c =? 247)%Z)).

(** [_XML_ELEMENT_RE] after the opening bracket: the name, the text of the element, and
    the length of the rest of the match. *)
Definition xml_element (s : string) : option (string * string * nat) :=
  if head_is (fun c => in_range 65 90 c || in_range 97 122 c || one_of "_" c) s then
    let n := span (fun c => is_word c || one_of ".:-" c) s in
    let name := stake n s in
    match sdrop n s with
    | String ">" body =>
        let k := span (fun c => negb (one_of "<" c)) body in
        let closing := "</" +:+ name +:+ ">" in
        if startswith (sdrop k body) closing then Some (name, stake k body, n + 1 + k + slen closing) else None
    | _ => None
    end
  else None.

(** [_XML_ELEMENT_RE.sub], with the characters of a match that are still to be skipped. *)
Fixpoint redact_xml (sensitive : list string) (skip : nat) (s : string) : string :=
  match s with
  | EmptyString => ""
  | String c s' =>
      match skip with
      | S skip' => redact_xml sensitive skip' s'
      | 0 =>
          match (if one_of "<" c then xml_element s' else None) with
          | None => String c (redact_xml sensitive 0 s')
          | Some (name, body, n) =>
              (if in_list (lower name) sensitive
               then "<" +:+ name +:+ ">" +:+ _REDACTED_MARKER +:+ "</" +:+ name +:+ ">"
               else String c (stake n s')) +:+ redact_xml sensitive n s'
          end
      end
  end.

Definition _redact_xml_elements (text : string) (sensitive : list string) : string := redact_xml sensitive 0 text.

(** * Pairs ([pair_redaction.py]) *)

(** [_PAIR_HEAD_RE]: the length of the name with its quotes, and that of the assignment. *)
Definition pair_name (s : string) : option nat :=
  match s with
  | String c s' =>
      if is_quote c then
        let n := name_run s' in if (0 <? n) && head_is (Ascii.eqb c) (sdrop n s') then Some (n + 2) else None
      else let n := name_run s in if 0 <? n then Some n else None
  | EmptyString => None
  end.

(** A run of signs of assignment and blanks, with a sign in it. *)
Definition assign_run (s : string) : option nat :=
  let n := span (fun c => is_assign c || _is_soft_ws c) s in
  if sforall _is_soft_ws (stake n s) then None else Some n.

(** [_advance_past_non_name] *)
Definition _advance_past_non_name (s : string) : nat :=
  Nat.max 1 (span (fun c => negb (is_name_char c || one_of "%+" c || is_quote c)) s).

Definition _PLUS_SENTINEL : Z := 57344.

Definition codes (s : string) : list Z := map code (String.list_ascii_of_string s).

Fixpoint zip_with_sentinel (l : list string) : list Z :=
  match l with [] => [] | [x] => codes x | x :: l' => codes x ++ _PLUS_SENTINEL :: zip_with_sentinel l' end.

Definition of_codes (l : list Z) : string := String.string_of_list_ascii (map chr l).

(** [text.strip()] *)
Definition strip_codes (l : list Z) : list Z :=
  rev (drop_while is_space_code (rev (drop_while is_space_code l))).

Definition _finish_name_segment (segment : list Z) : string :=
  lower (strip (of_codes (map (fun n => if (n =? _PLUS_SENTINEL)%Z then 32%Z else n) segment))).

(** [_NAME_BOUNDARY_RE] *)
Definition is_name_boundary (n : Z) : bool :=
  negb ((n =? _PLUS_SENTINEL)%Z || ((n <? 256)%Z && (is_name_char (chr n) || one_of "%" (chr n)))).

Fixpoint split_codes (p : Z -> bool) (l : list Z) : list (list Z) :=
  match l with
  | [] => [[]]
  | n :: l' => if p n then [] :: split_codes p l' else match split_codes p l' with x :: xs => (n :: x) :: xs | [] => [[n]] end
  end.

Definition _decode_pair_name_slow (bare_name : string) (sensitive : list string) : string :=
  let decoded := strip_codes (zip_with_sentinel
    (map (fun part => _bounded_percent_decode part unquote) (split_on "+" bare_name))) in
  let candidates := map _finish_name_segment (split_codes is_name_boundary decoded) in
  let last_one := List.last candidates "" in
  match List.find (fun candidate => truthy candidate && in_list candidate sensitive) candidates with
  | Some candidate => if length candidates =? 1 then last_one else candidate
  | None => if truthy last_one then last_one else List.hd "" candidates
  end.

Definition decoded_pair_name (raw_run : string) (sensitive : list string) : string :=
  let bare_name := if head_is is_quote raw_run then stake (slen raw_run - 2) (sdrop 1 raw_run) else raw_run in
  if negb (has_char "%" bare_name) && negb (has_char "+" bare_name) then lower bare_name
  else _decode_pair_name_slow bare_name sensitive.

Section pairs.
(** the redaction of a decoded run, and of the JSON values in it *)
Context (redact_run : string -> R (string * bool)) (redact_json : json -> R json) (sensitive : list string).

Definition _redact_embedded_json_value (candidate : string) : R (option string) :=
  let* redacted := redacted_json_text redact_json (_bounded_percent_decode candidate unquote_plus) in
  ret ((fun j => quote_plus (dumps_compact j)) <$> redacted).

Definition _redact_embedded_json_span (s : string) : R (option (string * nat)) :=
  let n := value_length is_hard_sep is_quote false (Nat.min (slen s) _JSON_CANDIDATE_MAX_LEN) s in
  let* redacted := _redact_embedded_json_value (stake n s) in
  ret ((fun r => (r, n)) <$> redacted).

Definition _try_redact_json_span (s : string) : R (option (string * nat)) :=
  if negb (_looks_like_json_start s) then ret None else _redact_embedded_json_span s.

Definition _rescan_decoded_run (decoded_run continuation : string) : R (option (string * nat)) :=
  let* whole_json := if starts_json decoded_run then _redact_embedded_json_value decoded_run else ret None in
  match whole_json with
  | Some r => ret (Some (r, 0))
  | None =>
      if _has_undecoded_percent_escape decoded_run then ret None
      else
        let* found := redact_run decoded_run in
        let (redacted_local, dangling) := found : string * bool in
        if (redacted_local =? decoded_run)%string then ret None
        else if is_some (_open_quote_at_end redacted_local)
        then ret (Some (_close_dangling_quote_in_continuation redacted_local continuation))
        else match (if dangling then _redact_adjacent_sensitive_value continuation else None) with
             | Some (adjacent, n) => ret (Some (redacted_local +:+ adjacent, n))
             | None => ret (Some (redacted_local, 0))
             end
  end.

(** A token of a decoded run that is a pair with a sensitive name: what is redacted after
    the run, given what follows it. *)
Definition smuggled_pair (alone : bool) (continuation token : string) : option (string * nat) :=
  match _hidden_pair_split token with
  | None => None
  | Some (name, value) =>
      if in_list name sensitive || _has_undecoded_percent_escape name then
        match (if alone && negb (truthy value) then _redact_adjacent_sensitive_value continuation else None) with
        | Some (adjacent, n) => Some (_REDACTED_MARKER +:+ adjacent, n)
        | None => Some (_REDACTED_MARKER, 0)
        end
      else None
  end.

Fixpoint first_hit {A B} (f : A -> option B) (l : list A) : option B :=
  match l with [] => None | x :: l' => match f x with Some b => Some b | None => first_hit f l' end end.

Definition _redact_hidden_encoded_pair (raw_run continuation : string) : R (option (string * nat)) :=
  let decoded_run := _bounded_percent_decode raw_run unquote_plus in
  let tokens := split_where is_smuggled_separator decoded_run in
  match first_hit (smuggled_pair (length tokens =? 1) continuation) tokens with
  | Some r => ret (Some r)
  | None => if (decoded_run =? raw_run)%string then ret None else _rescan_decoded_run decoded_run continuation
  end.

Definition _resolve_pair_result (value decoded_name : string) : R (option (string * nat)) :=
  if in_list decoded_name sensitive || (has_char "%" decoded_name && has_percent_escape decoded_name)
  then ret (Some (_redact_sensitive_pair_value value))
  else if head_is is_json_likely value then _try_redact_json_span value
  else ret None.

(** [_redact_pairs_in_text_ex]: [out] is the text that is done, [pending] the text from
    [flush_start] to [i], and [rest] the text from [i] on.  Every round takes a character
    of it. *)
Fixpoint pairs_loop (fuel : nat) (out pending rest : string) (dangling : bool) : R (string * bool) :=
  match rest, fuel with
  | EmptyString, _ => ret (out +:+ pending, dangling)
  | _, 0 => raise OutOfFuel
  | _, S fuel' =>
      match pair_name rest with
      | None =>
          let k := _advance_past_non_name rest in
          pairs_loop fuel' out (pending +:+ stake k rest) (sdrop k rest) false
      | Some n =>
          let raw_run := stake n rest in
          let after := sdrop n rest in
          let* assign := match assign_run after with
                         | Some a => ret (Some a)
                         | None => lift_res (_match_hidden_assign after)
                         end in
          match assign with
          | None =>
              let* hidden := _redact_hidden_encoded_pair raw_run after in
              match hidden with
              | None => pairs_loop fuel' out (pending +:+ raw_run) after false
              | Some (replacement, k) => pairs_loop fuel' (out +:+ pending +:+ replacement) "" (sdrop k after) false
              end
          | Some a =>
              let value := sdrop a after in
              let upto := pending +:+ raw_run +:+ stake a after in
              let* result := _resolve_pair_result value (decoded_pair_name raw_run sensitive) in
              match result with
              | None => pairs_loop fuel' out upto value false
              | Some (replacement, k) =>
                  pairs_loop fuel' (out +:+ upto +:+ replacement) "" (sdrop k value) ((k =? 0) && negb (truthy value))
              end
          end
      end
  end.
End pairs.

(** * Texts within texts

    A run is redacted again when it is decoded, and a string of a JSON value when it is a
    JSON text or holds pairs.  Every level of this takes characters away, so twice the
    length of the text is fuel enough. *)
Section nested.
Context (sensitive_body_fields : list string) (max_depth : Z).

(** [_redact_json_string_leaf], given the redaction of what is in it *)
Definition redact_leaf_with (redact_json : json -> R json) (redact_pairs : string -> R (string * bool))
  (leaf_sensitive : list string) (value : string) : R string :=
  let* nested_json := _try_redact_nested_json_leaf redact_json value in
  match nested_json with
  | Some r => ret r
  | None => let* p := redact_pairs (_redact_xml_elements value leaf_sensitive) in ret (fst p)
  end.

Definition json_with (leaf : list string -> string -> R string) (sensitive : list string) : json -> R json :=
  redact_json_with (leaf (sensitive ++ sensitive_body_fields)) sensitive_body_fields max_depth.

Fixpoint redact_pairs (fuel : nat) (sensitive : list string) (text : string) : R (string * bool) :=
  match fuel with
  | 0 => raise OutOfFuel
  | S fuel' =>
      pairs_loop (redact_pairs fuel' sensitive) (json_with (redact_leaf fuel') sensitive) sensitive (slen text) "" "" text false
  end
with redact_leaf (fuel : nat) (leaf_sensitive : list string) (value : string) : R string :=
  match fuel with
  | 0 => raise OutOfFuel
  | S fuel' => redact_leaf_with (json_with (redact_leaf fuel') leaf_sensitive) (redact_pairs fuel' leaf_sensitive) leaf_sensitive value
  end.

Definition nesting (text : string) : nat := 2 * slen text + 2.

Definition _redact_pairs_in_text_ex (text : string) (sensitive : list string) : R (string * bool) :=
  redact_pairs (nesting text) sensitive text.

Definition _redact_pairs_in_text (text : string) (sensitive : list string) : R string :=
  let* p := _redact_pairs_in_text_ex text sensitive in ret (fst p).

Definition _redact_json_string_leaf (leaf_sensitive : list string) (value : string) : R string :=
  redact_leaf (nesting value) leaf_sensitive value.

Definition _redact_sensitive_json (value : json) (sensitive : list string) : R json :=
  json_with _redact_json_string_leaf sensitive value.

(** * What is shown ([request_logging.py]) *)

Definition _json_redact_text (text : string) (sensitive : list string) : R (option string) :=
  catch is_recursion_error
    (match json_loads text with
     | Raise e => if is_json_value_error e then ret None else raise e
     | Ok parsed =>
         if negb (is_container parsed) then ret None
         else
           put false ;;;
           let* redacted := _redact_sensitive_json parsed sensitive in
           let* hit := get in
           if hit : bool then ret (Some _REDACTED_MARKER)
           else ret (if json_eqb redacted parsed then None else Some (dumps_compact redacted))
     end)
    (fun _ => ret (Some _REDACTED_MARKER)).

Definition _redact_json_or_pairs_segment (segment : string) (sensitive : list string) : R string :=
  let* redacted_text := _json_redact_text (_bounded_percent_decode segment unquote) sensitive in
  match redacted_text with
  | Some r => ret (quote_text r)
  | None => _redact_pairs_in_text segment sensitive
  end.

Definition _redact_path_segment (segment : string) (sensitive : list string) : R string :=
  match partition_char ";" segment with
  | None => _redact_json_or_pairs_segment segment sensitive
  | Some (proper, rest) =>
      let* redacted_proper := _redact_json_or_pairs_segment proper sensitive in
      let* redacted_rest := _redact_json_or_pairs_segment rest sensitive in
      ret (redacted_proper +:+ ";" +:+ redacted_rest)
  end.

Definition _redact_whole_path_as_json (path : string) (sensitive : list string) : R (option string) :=
  let prefix := if startswith path "/" then "/" else "" in
  let* redacted_text := _json_redact_text (_bounded_percent_decode (sdrop (slen prefix) path) unquote) sensitive in
  ret ((fun r => prefix +:+ r) <$> redacted_text).

(** [_split_path_segments]: at the slashes that are not within quotes. *)
Fixpoint split_path (quote_char : option ascii) (escaped : bool) (current path : string) : list string :=
  match path with
  | EmptyString => [current]
  | String ch path' =>
      let current' := current +:+ String ch "" in
      match quote_char with
      | Some q =>
          if escaped then split_path quote_char false current' path'
          else if Ascii.eqb ch backslash then split_path quote_char true current' path'
          else if Ascii.eqb ch q then split_path None false current' path'
          else split_path quote_char false current' path'
      | None =>
          if is_quote ch then split_path (Some ch) escaped current' path'
          else if Ascii.eqb ch "/" then current :: split_path None escaped "" path'
          else split_path None escaped current' path'
      end
  end.

Definition _split_path_segments (path : string) : list string := split_path None false "" path.

Fixpoint each {A B} (f : A -> R B) (l : list A) : R (list B) :=
  match l with [] => ret [] | x :: l' => let* y := f x in let* r := each f l' in ret (y :: r) end.

Definition _redact_sensitive_path (path : string) (sensitive : list string) : R string :=
  let* whole := _redact_whole_path_as_json path sensitive in
  match whole with
  | Some r => ret r
  | None =>
      let* segments := each (fun segment => _redact_path_segment segment sensitive) (_split_path_segments path) in
      ret (join "/" segments)
  end.
End nested.

(** [_escape_url_unsafe_controls] *)
Fixpoint _escape_url_unsafe_controls (url : string) : string :=
  match url with
  | EmptyString => ""
  | String c url' => (if is_url_break c then percent (code c) else String c "") +:+ _escape_url_unsafe_controls url'
  end.

Definition _redact_netloc_password (netloc : string) : string :=
  match rpartition_char "@" netloc with
  | None => netloc
  | Some (userinfo, hostport) =>
      match partition_char ":" userinfo with
      | None => netloc
      | Some (user, _) => user +:+ ":[REDACTED]@" +:+ hostport
      end
  end.

(** [max_depth] is [_resolve_json_depth_cap()]: the limit of the scan in progress, or its
    default. *)
Definition redact_url_m (max_depth : Z) (url : string)
  (sensitive_params sensitive_body_fields sensitive_headers : option (list string)) : R string :=
  let escaped_url := _escape_url_unsafe_controls url in
  let* parts := lift_res (urlsplit escaped_url) in
  let body_fields := _merge_sensitive_log_body_fields sensitive_body_fields in
  let sensitive := _merged_sensitive_names sensitive_params body_fields sensitive_headers in
  let* redacted_path := _redact_sensitive_path body_fields max_depth (sr_path parts) sensitive in
  if negb (truthy (sr_query parts)) && negb (truthy (sr_fragment parts)) && negb (has_char "@" (sr_netloc parts)) &&
     (redacted_path =? sr_path parts)%string
  then ret escaped_url
  else
    let* redacted_query := _redact_json_or_pairs_segment body_fields max_depth (sr_query parts) sensitive in
    let* redacted_fragment := _redact_json_or_pairs_segment body_fields max_depth (sr_fragment parts) sensitive in
    ret (urlunsplit (mkSplit (sr_scheme parts) (_redact_netloc_password (sr_netloc parts)) redacted_path redacted_query
                             redacted_fragment)).

Definition redact_blob_m (max_depth : Z) (text : string)
  (sensitive_params sensitive_body_fields sensitive_headers : option (list string)) : R string :=
  let body_fields := _merge_sensitive_log_body_fields sensitive_body_fields in
  let sensitive := _merged_sensitive_names sensitive_params body_fields sensitive_headers in
  let* first := _json_redact_text body_fields max_depth text sensitive in
  let* json_redacted := match first with
                        | Some r => ret (Some r)
                        | None => _json_redact_text body_fields max_depth (_bounded_percent_decode text unquote_plus) sensitive
                        end in
  match json_redacted with
  | Some r => ret r
  | None => _redact_pairs_in_text body_fields max_depth (_redact_xml_elements text sensitive) sensitive
  end.

(** The context variable is set before it is read, so what it was does not matter. *)
Definition run_redaction {A} (m : R A) : res A := fst (m false).

Definition redact_url_for_display (max_depth : Z) (url : string)
  (sensitive_params sensitive_body_fields sensitive_headers : option (list string)) : res string :=
  run_redaction (redact_url_m max_depth url sensitive_params sensitive_body_fields sensitive_headers).

Definition redact_blob_for_display (max_depth : Z) (text : string)
  (sensitive_params sensitive_body_fields sensitive_headers : option (list string)) : res string :=
  run_redaction (redact_blob_m max_depth text sensitive_params sensitive_body_fields sensitive_headers).

(** [redact_header_value_for_display], outside a scan *)
Definition redact_header_value_for_display (value : string)
  (sensitive_params sensitive_body_fields sensitive_headers : option (list string)) : res string :=
  if negb (truthy value) then Ok value
  else redact_blob_for_display _DEFAULT_MAX_JSON_DEPTH value sensitive_params sensitive_body_fields sensitive_headers.

(** [redact_endpoint_for_display], outside a scan *)
Definition redact_endpoint_for_display (value : string)
  (sensitive_params sensitive_body_fields sensitive_headers : option (list string)) : res string :=
  redact_url_for_display _DEFAULT_MAX_JSON_DEPTH value sensitive_params sensitive_body_fields sensitive_headers.

Fixpoint each_header (f : string -> string -> res string) (headers : list (string * string)) : res (list (string * string)) :=
  match headers with
  | [] => Ok []
  | (key, value) :: rest =>
      match f key value with
      | Raise e => Raise e
      | Ok shown => match each_header f rest with Ok l => Ok ((key, shown) :: l) | Raise e => Raise e end
      end
  end.

Definition _redact_sensitive_headers (headers : list (string * string))
  (sensitive_headers sensitive_body_fields sensitive_params : option (list string)) : res (list (string * string)) :=
  let sensitive := _merge_sensitive_log_headers sensitive_headers in
  each_header (fun key value =>
    if in_list (lower (strip key)) sensitive then Ok _REDACTED_MARKER
    else redact_blob_for_display _DEFAULT_MAX_JSON_DEPTH value sensitive_params sensitive_body_fields sensitive_headers) headers.

(** ** With the sensitive names of a configuration, outside a scan *)

Definition display_url (config : SecurityConfig) (url : string) : res string :=
  redact_url_for_display _DEFAULT_MAX_JSON_DEPTH url (Some (log_sensitive_params config)) (Some (log_sensitive_body_fields config))
    (Some (log_sensitive_headers config)).

Definition display_endpoint (config : SecurityConfig) (endpoint : string) : res string :=
  redact_endpoint_for_display endpoint (Some (log_sensitive_params config)) (Some (log_sensitive_body_fields config))
    (Some (log_sensitive_headers config)).

Definition display_header_value (config : SecurityConfig) (value : string) : res string :=
  redact_header_value_for_display value (Some (log_sensitive_params config)) (Some (log_sensitive_body_fields config))
    (Some (log_sensitive_headers config)).

Definition display_headers (config : SecurityConfig) (headers : list (string * string)) : res (list (string * string)) :=
  _redact_sensitive_headers headers (Some (log_sensitive_headers config)) (Some (log_sensitive_body_fields config))
    (Some (log_sensitive_params config)).
End redaction.

(** * Examples *)

Section examples.
#[local] Instance plain_texts : TextServices := {|
  utf8_replace := id;
  nested_too_deep := fun text => startswith text "[[[[[";
  unicode_lookup := fun name => if (name =? "KEYCAP DIGIT ONE")%string then Some [49; 65039; 8419]%Z else None;
  float_repr := id;
  float_below := fun _ _ => false
|}.

(** Double quotes for single ones. *)
Definition requoted (s : string) : string := replace_char "'" (chr 34) s.

Definition shown (text : string) : res string := redact_blob_for_display 32 text None None None.
Definition url_shown (url : string) : res string := redact_url_for_display 32 url None None None.

Example redaction_examples :
  shown "user=bob&password=hunter2&x=1" = Ok "user=bob&password=[REDACTED]&x=1" /\
  shown (requoted "{'a':1,'password':'hunter2'}") = Ok (requoted "{'a':1,'password':'[REDACTED]'}") /\
  shown "user=bob&pass%77ord%3Dhunter2" = Ok "user=bob&[REDACTED]" /\
  shown "<token>abc</token>" = Ok "<token>[REDACTED]</token>" /\
  shown "q=%7B%22token%22%3A%22abc%22%7D" = Ok "q=%7B%22token%22%3A%22%5BREDACTED%5D%22%7D" /\
  shown "secret: 'a b c' and more" = Ok "secret: '[REDACTED]' and more" /\
  url_shown "https://u:pw@h/p?token=1#f" = Ok "https://u:[REDACTED]@h/p?token=[REDACTED]#f".
Proof. vm_compute. repeat split; reflexivity. Qed.

(** Three errors leave the redaction. *)
Example redaction_raises :
  url_shown "//[" = Raise InvalidURL /\
  shown "x\N{KEYCAP DIGIT ONE}" = Raise (TypeError "ord() expected a character, but string of length 3 found") /\
  shown "x=%5B%5B%5B%5B%5B" = Raise RecursionError.
Proof. vm_compute. repeat split; reflexivity. Qed.
End examples.
