(* ===== verification/RedactionFacts.v ===== *)
(** What the redaction of texts guarantees: it always ends, whatever texts are in texts,
    it raises nothing but what is listed, and what it shows does not depend on the
    values it hides. *)
From S2P Require Import Prelude PyStr PyDict Json IpAddr Url Config Redaction.

#[local] Open Scope nat_scope.

#[local] Abbreviation R := (M bool).

(** Percent-encoded bytes beyond ASCII are never decoded to ASCII characters. *)
Class TextLaws `{TS : TextServices} : Prop :=
  utf8_replace_high bytes : sforall (fun c => negb (is_ascii_char c)) (utf8_replace bytes) = true.

(** * A measure of what can be unfolded in a text

    The characters that decoding, unescaping and unquoting use up: the text of a marker
    has none of them. *)
Definition heavy (c : ascii) : bool := one_of "%+\" c || is_decimal c || Ascii.eqb c quote.

Fixpoint weight (s : string) : nat :=
  match s with EmptyString => 0 | String c s' => (if heavy c then 1 else 0) + weight s' end.

Lemma weight_app s t : weight (s +:+ t) = weight s + weight t.
Proof. induction s as [|c s IH]; [done|]. rewrite app_cons_string. cbn [weight]. rewrite IH. lia. Qed.

Lemma weight_slen s : weight s <= slen s.
Proof. induction s as [|c s IH]; [done|]. cbn [weight slen String.length]. unfold slen in *. destruct (heavy c); lia. Qed.

Lemma weight_parts n s : weight (stake n s) + weight (sdrop n s) = weight s.
Proof. rewrite <- weight_app. by rewrite stake_sdrop. Qed.

Lemma weight_stake n s : weight (stake n s) <= weight s.
Proof. pose proof (weight_parts n s). lia. Qed.

Lemma weight_sdrop n s : weight (sdrop n s) <= weight s.
Proof. pose proof (weight_parts n s). lia. Qed.

Lemma weight_light s : sforall (fun c => negb (heavy c)) s = true -> weight s = 0.
Proof.
  induction s as [|c s IH]; [done|]. cbn [sforall weight]. intros [Hc Hs]%andb_true_iff. rewrite IH by done. by destruct (heavy c).
Qed.

Lemma heavy_ascii c : heavy c = true -> is_ascii_char c = true.
Proof. destruct c as [[] [] [] [] [] [] [] []]; vm_compute; done. Qed.

Lemma weight_high s : sforall (fun c => negb (is_ascii_char c)) s = true -> weight s = 0.
Proof.
  intros Hs. apply weight_light. revert Hs. induction s as [|c s IH]; [done|]. cbn [sforall]. intros [Hc Hs]%andb_true_iff.
  rewrite IH by done. rewrite andb_true_r. destruct (heavy c) eqn:Hh; [|done]. by rewrite (heavy_ascii c Hh) in Hc.
Qed.

Lemma weight_concat l : weight (String.concat "" l) = list_sum (map weight l).
Proof.
  induction l as [|x [|y l] IH]; [done|cbn; lia|].
  change (String.concat "" (x :: y :: l)) with (x +:+ "" +:+ String.concat "" (y :: l)).
  rewrite !weight_app, IH. done.
Qed.

(** ** Percent decoding *)

Lemma concat_runs s : String.concat "" (map snd (ascii_runs s)) = s.
Proof.
  assert (forall x l, String.concat "" (x :: l) = x +:+ String.concat "" l) as Hc.
  { intros x [|y l]; [by rewrite app_nil_r_string|]. done. }
  induction s as [|c s IH]; [done|]. cbn [ascii_runs]. destruct (ascii_runs s) as [|[b run] rest].
  - cbn in *. by rewrite <- IH.
  - cbn [map snd] in IH. rewrite Hc in IH. destruct (Bool.eqb b _); cbn [map snd]; rewrite !Hc, <- IH; done.
Qed.

Lemma runs_ascii s : Forall (fun r => sforall (fun c => Bool.eqb (fst r) (is_ascii_char c)) (snd r) = true) (ascii_runs s).
Proof.
  induction s as [|c s IH]; [constructor|]. cbn [ascii_runs]. destruct (ascii_runs s) as [|[b run] rest].
  - constructor; [|constructor]. cbn. by rewrite Bool.eqb_reflx.
  - apply Forall_cons in IH as [Hr Hrest]. destruct (Bool.eqb b (is_ascii_char c)) eqn:Hb.
    + constructor; [|done]. cbn [fst snd sforall] in *. by rewrite Hb.
    + constructor; [|by constructor]. cbn. by rewrite Bool.eqb_reflx.
Qed.

Lemma percent_light a b x y : hex_value a = Some x -> hex_value b = Some y ->
  (if heavy (chr (16 * x + y)) then 1 else 0) < 1 + (if heavy a then 1 else 0) + (if heavy b then 1 else 0).
Proof.
  intros Ha Hb. destruct (heavy a) eqn:Hh; [destruct (heavy (chr _)), (heavy b); lia|].
  assert (heavy (chr (16 * x + y)) = false) as ->; [|lia].
  unfold heavy in Hh. apply orb_false_iff in Hh as [[_ Hd]%orb_false_iff _]. unfold is_decimal in Hd.
  unfold hex_value in Ha. rewrite Hd in Ha.
  assert (exists h : Z, x = h /\ (10 <= h <= 15)%Z) as (h & -> & Hx).
  { unfold in_range in Ha. exists x. split; [done|].
    destruct ((97 <=? code a)%Z && (code a <=? 102)%Z) eqn:H1; [injection Ha as <-; bool_prop; lia|].
    destruct ((65 <=? code a)%Z && (code a <=? 70)%Z) eqn:H2; [injection Ha as <-; bool_prop; lia|done]. }
  assert (0 <= y <= 15)%Z as Hy.
  { unfold hex_value, in_range in Hb. repeat case_match; try done; injection Hb as <-; bool_prop; lia. }
  destruct (heavy (chr (16 * h + y))) eqn:Hv; [|done]. apply heavy_ascii in Hv. unfold is_ascii_char in Hv. apply Z.ltb_lt in Hv.
  assert (code (chr (16 * h + y)) = 16 * h + y)%Z as Hc; [|lia].
  unfold code, chr. rewrite N_ascii_embedding; lia.
Qed.

(** Decoding a run of ASCII characters changes nothing or makes it lighter. *)
Lemma unquote_bytes_lighter s : unquote_to_bytes s = s \/ weight (unquote_to_bytes s) < weight s.
Proof.
  assert (forall n s, slen s <= n -> unquote_to_bytes s = s \/ weight (unquote_to_bytes s) < weight s) as H; [|by eapply H].
  clear s. induction n as [|n IH]; intros [|c s] Hn; try (by left); cbn [slen String.length] in Hn; [lia|].
  assert (unquote_to_bytes s = s \/ weight (unquote_to_bytes s) < weight s) as Hs by (apply IH; unfold slen; lia).
  assert (forall t, t = String c (unquote_to_bytes s) -> t = String c s \/ weight t < weight (String c s)) as Hkeep.
  { intros t ->. cbn [weight]. destruct Hs as [->|Hs]; [by left|right; lia]. }
  cbn [unquote_to_bytes]. destruct (Ascii.eqb c "%") eqn:Hc; [|by apply Hkeep].
  apply Ascii.eqb_eq in Hc as ->. destruct s as [|a [|b s]]; try by apply Hkeep.
  destruct (hex_value a) as [x|] eqn:Hx, (hex_value b) as [y|] eqn:Hy; try by apply Hkeep.
  right. pose proof (percent_light a b x y Hx Hy). cbn [slen String.length] in Hn.
  assert (weight (unquote_to_bytes s) <= weight s) by (destruct (IH s) as [->|]; unfold slen; lia).
  cbn [weight]. change (if heavy "%" then 1 else 0) with 1. lia.
Qed.

Section weights.
Context `{TL : TextLaws}.

Lemma weight_decode bytes : weight (decode_replace bytes) <= weight bytes.
Proof using TL.
  unfold decode_replace. rewrite <- (concat_runs bytes) at 2. rewrite !weight_concat, !map_map.
  induction (ascii_runs bytes) as [|[[] run] l IH]; [done|rewrite !list_sum_map_cons; cbn [fst snd]; lia|].
  rewrite !list_sum_map_cons. cbn [fst snd]. rewrite (weight_high (utf8_replace run)) by apply utf8_replace_high. lia.
Qed.

Lemma decode_ascii s : sforall is_ascii_char s = true -> decode_replace s = s.
Proof using Type.
  intros Hs. unfold decode_replace. rewrite <- (concat_runs s) at 2. f_equal. apply map_ext_in. intros [b run] Hr.
  assert (sforall is_ascii_char run = true /\ run <> "") as [Hrun Hne].
  { revert b run Hr. induction s as [|c s IH]; intros b run; [done|]. cbn [sforall] in Hs. apply andb_true_iff in Hs as [Hc Hs].
    specialize (IH Hs). cbn [ascii_runs]. destruct (ascii_runs s) as [|[b' run'] rest].
    - intros [[= <- <-]|[]]. cbn. by rewrite Hc.
    - destruct (IH b' run') as [Hr' _]; [by left|]. destruct (Bool.eqb b' _).
      + intros [[= <- <-]|Hin]; [|apply (IH b run); by right]. cbn. by rewrite Hc, Hr'.
      + intros [[= <- <-]|Hin]; [|by apply (IH b run)]. cbn. by rewrite Hc. }
  pose proof (runs_ascii s) as Hall. rewrite Forall_forall in Hall. apply list_elem_of_In in Hr. specialize (Hall _ Hr). cbn [fst snd] in *.
  destruct run as [|c run]; [done|]. cbn [sforall] in *. destruct b; [done|].
  apply andb_true_iff in Hrun as [Hc _]. rewrite Hc in Hall. done.
Qed.

Lemma unquote_lighter s : unquote s = s \/ weight (unquote s) < weight s.
Proof using TL.
  unfold unquote, unquote_with. destruct (has_char "%" s); [|by left].
  rewrite weight_concat, map_map. pose proof (runs_ascii s) as Hall.
  rewrite <- (concat_runs s) at 2 4. rewrite weight_concat, map_map.
  assert (map (fun r : bool * string => if fst r then decode_replace (unquote_to_bytes (snd r)) else snd r) (ascii_runs s) = map snd (ascii_runs s) \/
    list_sum (map (fun r : bool * string => weight (if fst r then decode_replace (unquote_to_bytes (snd r)) else snd r)) (ascii_runs s)) <
    list_sum (map (fun r : bool * string => weight (snd r)) (ascii_runs s))) as [->|H]; [|by left|by right].
  induction Hall as [|[b run] l Hr Hl IH]; [by left|]. rewrite !list_sum_map_cons. cbn [map fst snd] in *.
  assert ((if b then decode_replace (unquote_to_bytes run) else run) = run \/
    weight (if b then decode_replace (unquote_to_bytes run) else run) < weight run) as Hrun.
  { destruct b; [|by left]. destruct (unquote_bytes_lighter run) as [He|Hw].
    - rewrite He. left. apply decode_ascii. clear -Hr. induction run as [|c run IH]; [done|]. cbn [sforall] in *.
      apply andb_true_iff in Hr as [Hc Hr]. rewrite IH by done. by destruct (is_ascii_char c).
    - right. pose proof (weight_decode (unquote_to_bytes run)). lia. }
  destruct Hrun as [->|Hrun]; [destruct IH as [->|IH]; [by left|right; lia]|]. right. destruct IH as [IH|IH]; [|lia].
  assert (list_sum (map (fun r : bool * string => weight (if fst r then decode_replace (unquote_to_bytes (snd r)) else snd r)) l) =
          list_sum (map (fun r : bool * string => weight (snd r)) l)) as ->; [|lia].
  rewrite <- !map_map with (f := snd) (g := weight), <- IH, map_map. done.
Qed.

Lemma replace_plus_lighter s : replace_char "+" " " s = s \/ weight (replace_char "+" " " s) < weight s.
Proof using Type.
  unfold replace_char. induction s as [|c s IH]; [by left|]. cbn [smap weight]. destruct (Ascii.eqb c "+") eqn:Hc.
  - apply Ascii.eqb_eq in Hc as ->. right. change (if heavy "+" then 1 else 0) with 1. change (if heavy " " then 1 else 0) with 0.
    destruct IH as [->|IH]; lia.
  - destruct IH as [->|IH]; [by left|right; lia].
Qed.

Lemma unquote_plus_lighter s : unquote_plus s = s \/ weight (unquote_plus s) < weight s.
Proof using TL.
  unfold unquote_plus. destruct (replace_plus_lighter s) as [He|Hw]; [rewrite He; apply unquote_lighter|].
  right. destruct (unquote_lighter (replace_char "+" " " s)) as [->|]; lia.
Qed.

Lemma rounds_lighter n decode s : (forall t, decode t = t \/ weight (decode t) < weight t) ->
  decode_rounds n decode s = s \/ weight (decode_rounds n decode s) < weight s.
Proof using Type.
  intros Hd. revert s. induction n as [|n IH]; intros s; [by left|]. cbn [decode_rounds].
  destruct (decide (decode s = s)); [by left|]. right. destruct (Hd s) as [|Hs]; [done|].
  destruct (IH (decode s)) as [->|]; lia.
Qed.

Lemma bounded_lighter decode s : (forall t, decode t = t \/ weight (decode t) < weight t) ->
  _bounded_percent_decode s decode = s \/ weight (_bounded_percent_decode s decode) < weight s.
Proof using Type. intros Hd. unfold _bounded_percent_decode. destruct (_ && _); [by left|]. by apply rounds_lighter. Qed.

Lemma plus_decoded s : _bounded_percent_decode s unquote_plus = s \/ weight (_bounded_percent_decode s unquote_plus) < weight s.
Proof using TL. apply bounded_lighter, unquote_plus_lighter. Qed.

Lemma plus_decoded_le s : weight (_bounded_percent_decode s unquote_plus) <= weight s.
Proof using TL. destruct (plus_decoded s) as [->|]; lia. Qed.
End weights.

(** ** JSON *)

(** The strings of a value, names left aside. *)
Fixpoint all_leaves (P : string -> Prop) (j : json) : Prop :=
  match j with
  | JStr s => P s
  | JArr items => fold_right (fun x acc => all_leaves P x /\ acc) True items
  | JObj members => fold_right (fun m acc => all_leaves P (snd m) /\ acc) True members
  | _ => True
  end.

Lemma weight_skip_space s : weight (skip_space s) <= weight s.
Proof. induction s as [|c s IH]; [done|]. cbn [skip_space]. destruct (is_json_space c); [cbn [weight]; lia|done]. Qed.

Lemma scan_string_weight s v r : scan_string s = Some (v, r) -> weight v + weight r + 1 <= weight s.
Proof.
  assert (forall n s v r, slen s <= n -> scan_string s = Some (v, r) -> weight v + weight r + 1 <= weight s) as H; [|by eapply H].
  clear. induction n as [|n IH]; intros [|c s] v r Hn; try done; cbn [slen String.length] in Hn; [lia|].
  cbn [scan_string weight]. destruct (Ascii.eqb c quote) eqn:Hq.
  { apply Ascii.eqb_eq in Hq as ->. intros [= <- <-]. change (heavy quote) with true. cbn [weight]. lia. }
  destruct (Ascii.eqb c backslash) eqn:Hb.
  - apply Ascii.eqb_eq in Hb as ->. change (if heavy backslash then 1 else 0) with 1. destruct s as [|e s]; [done|]. cbn [slen String.length] in Hn.
    destruct (Ascii.eqb e "u").
    + destruct s as [|a [|b [|h [|l s]]]]; try done. cbn [slen String.length] in Hn.
      destruct (hex_value a) as [va|] eqn:Ha; try done. destruct (hex_value b), (hex_value h), (hex_value l); try done. destruct (scan_string s) as [[t rest]|] eqn:Hs; [|done]. intros [= <- <-].
      apply IH in Hs; [|unfold slen; lia]. cbn [weight].
      destruct (heavy _), (heavy a), (heavy b), (heavy e), (heavy h), (heavy l); lia.
    + destruct (short_escape e) as [x|] eqn:He; [|done]. destruct (scan_string s) as [[t rest]|] eqn:Hs; [|done]. intros [= <- <-].
      apply IH in Hs; [|unfold slen; lia]. cbn [weight].
      assert ((if heavy x then 1 else 0) <= 1) by (destruct (heavy x); lia). lia.
  - destruct (code c <? 32)%Z; [done|]. destruct (scan_string s) as [[t rest]|] eqn:Hs; [|done]. intros [= <- <-].
    apply IH in Hs; [|unfold slen; lia]. cbn [weight]. lia.
Qed.

Lemma take_digits_app s : let (d, r) := take_digits s in s = d +:+ r.
Proof.
  induction s as [|c s IH]; [done|]. cbn [take_digits]. destruct (is_decimal c); [|done].
  destruct (take_digits s) as [d r]. by rewrite app_cons_string, <- IH.
Qed.

Lemma weight_take_digits s d r : take_digits s = (d, r) -> weight r <= weight s.
Proof. intros H. pose proof (take_digits_app s) as Ht. rewrite H in Ht. rewrite Ht, weight_app. lia. Qed.

Lemma scan_number_weight s j r : scan_number s = Ok (j, r) -> weight r <= weight s /\ forall P, all_leaves P j.
Proof.
  unfold scan_number. destruct (scan_int s) as [[i r0]|] eqn:Hi; [|done].
  destruct (scan_fraction r0) as [frac r1] eqn:Hf, (scan_exponent r1) as [ex r2] eqn:He. intros Hj.
  assert (weight r0 <= weight s) as H0.
  { unfold scan_int in Hi. revert Hi.
    assert (forall sign body, weight body <= weight s ->
      match body with
      | String c body' => if Ascii.eqb c "0" then Some (sign +:+ "0", body')
          else if is_decimal c then let '(d, r) := take_digits body in Some (sign +:+ d, r) else None
      | EmptyString => None end = Some (i, r0) -> weight r0 <= weight s) as Hgo.
    { intros sign [|c body] Hle; [done|]. destruct (Ascii.eqb c "0"); [intros [= <- <-]; cbn [weight] in Hle; lia|].
      destruct (is_decimal c); [|done]. destruct (take_digits _) as [d rest] eqn:Hd. intros [= <- <-]. apply weight_take_digits in Hd. lia. }
    destruct s as [|c s']; [done|]. assert (weight s' <= weight (String c s')) by (cbn [weight]; lia).
    destruct c as [[] [] [] [] [] [] [] []]; first [by apply (Hgo "" (String _ s'))|by apply (Hgo "-" s')]. }
  assert (weight r1 <= weight r0) as H1.
  { unfold scan_fraction in Hf. destruct r0 as [|c r0']; [by injection Hf as <- <-|].
    destruct c as [[] [] [] [] [] [] [] []]; try (by injection Hf as <- <-).
    destruct (take_digits r0') as [[|d0 d] rest] eqn:Hd; injection Hf as <- <-; [done|]. apply weight_take_digits in Hd. cbn [weight]. lia. }
  assert (weight r2 <= weight r1) as H2.
  { unfold scan_exponent in He. destruct r1 as [|c r1']; [by injection He as <- <-|].
    destruct (Ascii.eqb c "e" || Ascii.eqb c "E"); [|by injection He as <- <-].
    assert (forall sign body, weight body <= weight r1' ->
      match take_digits body with (EmptyString, _) => ("", String c r1') | (d, r) => (String c (sign +:+ d), r) end = (ex, r2) ->
      weight r2 <= weight (String c r1')) as Hgo.
    { intros sign body Hle. destruct (take_digits body) as [[|d0 d] rest] eqn:Hd; intros [= <- <-]; [done|]. apply weight_take_digits in Hd. cbn [weight]. lia. }
    destruct r1' as [|c' r1'']; [by apply (Hgo "" "")|].
    destruct (_ || _); [apply (Hgo (String c' "") r1'')|apply (Hgo "" (String c' r1''))]; (exact He || cbn [weight]; lia). }
  destruct (frac +:+ ex); [destruct (py_int i); [|done]|]; injection Hj as <- <-; (split; [lia|by intros]).
Qed.

Lemma weight_after l s r : after l s = Some r -> weight r <= weight s.
Proof.
  revert s. induction l as [|a l IH]; intros s; cbn [after]; [by intros [= <-]|]. destruct s as [|b s]; [done|].
  destruct (Ascii.eqb a b); [|done]. intros H%IH. cbn [weight]. lia.
Qed.

Lemma scan_constant_weight s j r : scan_constant s = Some (j, r) -> weight r <= weight s /\ forall P, all_leaves P j.
Proof.
  unfold scan_constant. repeat case_match; try done; intros [= <- <-]; (split; [by eapply weight_after|by intros]).
Qed.

Lemma all_leaves_mono (P Q : string -> Prop) j : (forall s, P s -> Q s) -> all_leaves P j -> all_leaves Q j.
Proof.
  intros H. induction j as [| | | |s|l IH|l IH] using json_nested_ind; cbn [all_leaves]; auto.
  - induction IH as [|x l Hx Hl IHl]; [done|]. cbn [fold_right]. naive_solver.
  - induction IH as [|x l Hx Hl IHl]; [done|]. cbn [fold_right]. naive_solver.
Qed.

Definition members_leaves (P : string -> Prop) (l : list (string * json)) : Prop := all_leaves P (JObj l).

Lemma members_dset P k v d : all_leaves P v -> members_leaves P d -> members_leaves P (dset k v d).
Proof.
  unfold members_leaves. cbn [all_leaves]. intros Hv. induction d as [|[k' v'] d IH]; cbn [dset fold_right snd]; [done|].
  intros [Hv' Hd]. destruct (decide (k = k')); cbn [fold_right snd]; auto.
Qed.

Lemma members_fold P l d : members_leaves P l -> members_leaves P d -> members_leaves P (fold_left (fun d m => dset (fst m) (snd m) d) l d).
Proof.
  revert d. induction l as [|[k v] l IH]; intros d; [done|]. intros [Hv Hl] Hd. cbn [fold_left fst snd]. apply IH; [done|]. by apply members_dset.
Qed.

(** What the scanners read is lighter than the text, and so are the strings in it. *)
Lemma scan_weight fuel :
  (forall s j r, scan_once fuel s = Ok (j, r) -> weight r <= weight s /\ all_leaves (fun v => weight v < weight s) j) /\
  (forall s l r, scan_items fuel s = Ok (l, r) -> weight r <= weight s /\ all_leaves (fun v => weight v < weight s) (JArr l)) /\
  (forall s l r, scan_members fuel s = Ok (l, r) -> weight r <= weight s /\ members_leaves (fun v => weight v < weight s) l).
Proof.
  induction fuel as [|fuel (IHo & IHi & IHm)]; [by split_and!|].
  assert (forall c s t (P : string -> Prop) j, weight t <= weight s -> all_leaves (fun v => weight v < weight t) j ->
    all_leaves (fun v => weight v < weight (String c s)) j) as Hup.
  { intros c s t _ j Ht. apply all_leaves_mono. intros v Hv. cbn [weight]. lia. }
  assert (forall s t j, weight t <= weight s -> all_leaves (fun v => weight v < weight t) j ->
    all_leaves (fun v => weight v < weight s) j) as Hup'.
  { intros s t j Ht. apply all_leaves_mono. intros v Hv. lia. }
  assert (forall c t, weight t <= weight (String c t)) as Hcons by (intros; cbn [weight]; lia).
  split_and!; intros s j r.
  - cbn [scan_once]. destruct s as [|c s']; [done|]. pose proof (weight_skip_space s') as Hsk. pose proof (Hcons c s') as Hc.
    destruct (Ascii.eqb c quote) eqn:Hq.
    { destruct (scan_string s') as [[t r']|] eqn:Hs; [|done]. intros [= <- <-]. apply scan_string_weight in Hs.
      apply Ascii.eqb_eq in Hq as ->. cbn [weight all_leaves]. lia. }
    destruct (Ascii.eqb c "["); [|destruct (Ascii.eqb c "{")].
    + assert (match scan_items fuel (skip_space s') with Ok (l, r) => Ok (JArr l, r) | Raise e => Raise e end = Ok (j, r) ->
        weight r <= weight (String c s') /\ all_leaves (fun v => weight v < weight (String c s')) j) as Hgo.
      { destruct (scan_items fuel (skip_space s')) as [[l r']|] eqn:Hi; [|done]. intros [= <- <-]. apply IHi in Hi as [Hr Hl].
        split; [lia|]. eapply Hup'; [|exact Hl]. lia. }
      destruct (skip_space s') as [|x t]; [exact Hgo|].
      destruct x as [[] [] [] [] [] [] [] []]; try exact Hgo. intros [= <- <-]. cbn [weight] in Hsk. split; [lia|done].
    + assert (match scan_members fuel (skip_space s') with
        | Ok (l, r) => Ok (JObj (fold_left (fun d m => dset (fst m) (snd m) d) l []), r) | Raise e => Raise e end = Ok (j, r) ->
        weight r <= weight (String c s') /\ all_leaves (fun v => weight v < weight (String c s')) j) as Hgo.
      { destruct (scan_members fuel (skip_space s')) as [[l r']|] eqn:Hi; [|done]. intros [= <- <-]. apply IHm in Hi as [Hr Hl].
        split; [lia|]. apply (members_fold _ l []); [|done]. eapply Hup'; [|exact Hl]. lia. }
      destruct (skip_space s') as [|x t]; [exact Hgo|].
      destruct x as [[] [] [] [] [] [] [] []]; try exact Hgo. intros [= <- <-]. cbn [weight] in Hsk. split; [lia|done].
    + destruct (scan_constant (String c s')) as [[j' r']|] eqn:Hk.
      * intros [= <- <-]. apply scan_constant_weight in Hk as [Hw Hl]. by split; [|apply Hl].
      * intros Hn%scan_number_weight. destruct Hn as [Hw Hl]. by split; [|apply Hl].
  - cbn [scan_items]. destruct (scan_once fuel s) as [[x r0]|] eqn:Ho; [|done]. apply IHo in Ho as [Hr Hx].
    pose proof (weight_skip_space r0) as Hsk. destruct (skip_space r0) as [|c t]; [done|].
    assert (match scan_items fuel (skip_space t) with Ok (l, r) => Ok (x :: l, r) | Raise e => Raise e end = Ok (j, r) ->
      weight r <= weight s /\ all_leaves (fun v => weight v < weight s) (JArr j)) as Hgo.
    { destruct (scan_items fuel (skip_space t)) as [[l r']|] eqn:Hi; [|done]. intros [= <- <-]. apply IHi in Hi as [Hr' Hl].
      pose proof (weight_skip_space t). pose proof (Hcons c t). split; [lia|]. cbn [all_leaves fold_right]. split; [done|].
      eapply (Hup' _ _ (JArr l)); [|exact Hl]. lia. }
    destruct c as [[] [] [] [] [] [] [] []]; try done; [|exact Hgo..].
    intros [= <- <-]. cbn [weight] in Hsk. split; [lia|done].
  - cbn [scan_members]. destruct s as [|q s']; [done|]. destruct (negb _); [done|].
    destruct (scan_string s') as [[k r0]|] eqn:Hk; [|done]. apply scan_string_weight in Hk. pose proof (weight_skip_space r0) as Hs0.
    destruct (skip_space r0) as [|c t]; [done|]. destruct c as [[] [] [] [] [] [] [] []]; try done.
    destruct (scan_once fuel (skip_space t)) as [[v r1]|] eqn:Ho; [|done]. apply IHo in Ho as [Hr Hv].
    pose proof (weight_skip_space t) as Hst. pose proof (weight_skip_space r1) as Hs1. cbn [weight] in Hs0.
    assert (all_leaves (fun v => weight v < weight (String q s')) v) as Hv' by (eapply Hup'; [|exact Hv]; cbn [weight]; lia).
    destruct (skip_space r1) as [|c u]; [done|].
    assert (match scan_members fuel (skip_space u) with Ok (l, r) => Ok ((k, v) :: l, r) | Raise e => Raise e end = Ok (j, r) ->
      weight r <= weight (String q s') /\ members_leaves (fun v => weight v < weight (String q s')) j) as Hgo.
    { destruct (scan_members fuel (skip_space u)) as [[l r']|] eqn:Hi; [|done]. intros [= <- <-]. apply IHm in Hi as [Hr' Hl].
      assert (weight (skip_space u) <= weight (String q s')) as Hu
        by (pose proof (weight_skip_space u); pose proof (Hcons c u); cbn [weight] in *; lia).
      split; [lia|]. split; [done|]. by eapply (Hup' _ _ (JObj l)). }
    destruct c as [[] [] [] [] [] [] [] []]; try done; try exact Hgo.
    intros [= <- <-]. assert (weight u <= weight (String q s')) by (cbn [weight] in *; lia). by split; [|split].
Qed.

Lemma loads_weight s j : loads s = Ok j -> is_container j = true -> all_leaves (fun v => weight v < weight s) j.
Proof.
  unfold loads. destruct (scan_once _ (skip_space s)) as [[j' r]|] eqn:Ho; [|done].
  apply (proj1 (scan_weight _)) in Ho as [_ Hl]. destruct (skip_space r); [|done]. destruct (wide_escapes s); [done|]. intros [= ->] _.
  eapply all_leaves_mono; [|exact Hl]. cbn beta. intros v. pose proof (weight_skip_space s). lia.
Qed.

(** ** XML *)

Lemma weight_marker : weight _REDACTED_MARKER = 0.
Proof. vm_compute. reflexivity. Qed.

Lemma span_le p s : span p s <= slen s.
Proof. unfold slen. induction s as [|c s IH]; [done|]. cbn [span String.length]. destruct (p c); lia. Qed.

Lemma sdrop_add n m s : sdrop (n + m) s = sdrop m (sdrop n s).
Proof. revert s. induction n as [|n IH]; intros s; [done|]. destruct s as [|c s]; [by destruct m|]. apply IH. Qed.

Lemma stake_slen n s : n <= slen s -> slen (stake n s) = n.
Proof. revert s. unfold slen. induction n as [|n IH]; intros [|c s]; cbn; try lia. intros H. by rewrite IH by lia. Qed.

(** What matches an element, and how heavy it is. *)
Lemma xml_element_weight s name body n : xml_element s = Some (name, body, n) ->
  weight name + weight body + weight name + weight (sdrop n s) <= weight s.
Proof.
  unfold xml_element. destruct (head_is _ s); [|done].
  set (k := span _ s). destruct (sdrop k s) as [|c rest] eqn:Hk; [done|]. destruct c as [[] [] [] [] [] [] [] []]; try done.
  set (j := span _ rest). set (closing := "</" +:+ stake k s +:+ ">"). destruct (startswith (sdrop j rest) closing) eqn:Hc; [|done].
  intros [= <- <- <-]. apply startswith_spec in Hc as [t Ht].
  pose proof (weight_parts k s) as Hw1. rewrite Hk in Hw1. pose proof (weight_parts j rest) as Hw2. rewrite Ht, weight_app in Hw2.
  change (S (S (slen ("" +:+ stake k s +:+ ">")))) with (slen closing).
  assert (sdrop (k + 1 + j + slen closing) s = t) as ->.
  { replace (k + 1 + j + slen closing) with (k + (1 + (j + slen closing))) by lia.
    rewrite sdrop_add, Hk. cbn [sdrop Nat.add]. rewrite sdrop_add, Ht. apply sdrop_app. }
  assert (weight closing = weight (stake k s)) as Hcl by (unfold closing; rewrite !weight_app; change (weight "</") with 0; change (weight ">") with 0; lia).
  change (weight (String ">" rest)) with (weight rest) in Hw1. lia.
Qed.

Lemma sdrop_nil n : sdrop n "" = "".
Proof. by destruct n. Qed.

Lemma redact_xml_weight sensitive s n : weight (redact_xml sensitive n s) <= weight (sdrop n s).
Proof.
  revert n. induction s as [|c s IH]; intros n; [by rewrite sdrop_nil|]. cbn [redact_xml]. destruct n as [|n]; [|apply IH].
  cbn [sdrop]. destruct (if one_of "<" c then xml_element s else None) as [[[name body] n]|] eqn:Hx.
  2: { cbn [weight]. specialize (IH 0). cbn [sdrop] in IH. lia. }
  destruct (one_of "<" c) eqn:Hlt; [|done]. specialize (IH n). rewrite weight_app. destruct (in_list _ _).
  - apply xml_element_weight in Hx. rewrite !weight_app, weight_marker. cbn [weight].
    change (weight "<" + (weight name + (weight ">" + (0 + (weight "</" + (weight name + weight ">"))))) + weight (redact_xml sensitive n s) <=
      (if heavy c then 1 else 0) + weight s). change (weight "<") with 0. change (weight ">") with 0. change (weight "</") with 0. lia.
  - pose proof (weight_parts n s). cbn [weight]. lia.
Qed.

Lemma xml_weight sensitive text : weight (_redact_xml_elements text sensitive) <= weight text.
Proof. apply (redact_xml_weight sensitive text 0). Qed.

(** * Errors *)

(** [m] raises only what is in [Q]. *)
Definition only {A} (Q : exn -> Prop) (m : R A) : Prop := forall s e, fst (m s) = Raise e -> Q e.

Section only.
Context (Q : exn -> Prop).

Lemma only_ret {A} (a : A) : only Q (ret a).
Proof using Type. by intros s e [=]. Qed.

Lemma only_bind {A B} (m : R A) (k : A -> R B) : only Q m -> (forall a, only Q (k a)) -> only Q (bind m k).
Proof using Type.
  intros Hm Hk s e. unfold bind. specialize (Hm s). destruct (m s) as [[a|x] s']; cbn [fst] in *; [apply Hk|]. intros [= <-]. by apply Hm.
Qed.

Lemma only_lift {A} (r : res A) : (forall e, r = Raise e -> Q e) -> only Q (lift_res r).
Proof using Type. intros H s e. apply H. Qed.

Lemma only_modify f : only Q (modify f).
Proof using Type. by intros s e [=]. Qed.

Lemma only_put b : only Q (put b).
Proof using Type. by intros s e [=]. Qed.

Lemma only_get : only Q get.
Proof using Type. by intros s e [=]. Qed.

Lemma only_catch {A} p (m : R A) h : only (fun e => p e = false -> Q e) m -> (forall e, only Q (h e)) -> only Q (catch p m h).
Proof using Type.
  intros Hm Hh s e. unfold catch. specialize (Hm s). destruct (m s) as [[a|x] s']; cbn [fst] in *; [done|].
  destruct (p x) eqn:Hx; [apply Hh|]. intros [= <-]. by apply Hm.
Qed.

Lemma only_each {A B} (f : A -> R B) l : (forall x, only Q (f x)) -> only Q (each f l).
Proof using Type.
  intros Hf. induction l as [|x l IH]; [apply only_ret|]. cbn [each]. apply only_bind; [apply Hf|]. intros y.
  apply only_bind; [exact IH|]. intros r. apply only_ret.
Qed.
End only.

Lemma only_mono {A} (P Q : exn -> Prop) (m : R A) : (forall e, P e -> Q e) -> only P m -> only Q m.
Proof. intros H Hm s e He. by eapply H, Hm. Qed.

Ltac only_step :=
  lazymatch goal with
  | |- only _ (bind _ _) => apply only_bind; [|intros ?]
  | |- only _ (ret _) => apply only_ret
  | |- only _ (modify _) => apply only_modify
  | |- only _ (put _) => apply only_put
  | |- only _ get => apply only_get
  | |- only _ (if ?b then _ else _) => destruct b
  | |- only _ (match ?x with _ => _ end) => destruct x
  end.
Ltac only_steps := repeat (cbv zeta; only_step).

(** The error of [ord], for a named sequence of characters. *)
Definition ord_error : exn := TypeError "ord() expected a character, but string of length 3 found".

(** The errors of [urlsplit], for brackets in a host name. *)
Definition url_error (e : exn) : Prop :=
  e = InvalidURL \/ e = ValueError "IPvFuture address is invalid" \/ e = ValueError "not an address" \/
  e = ValueError "An IPv4 address cannot be in brackets".

Section errors.
Context `{TL : TextLaws}.
Context (Q : exn -> Prop) (Hrec : forall text, nested_too_deep text = true -> Q RecursionError)
  (Hwide : forall text, loads text = Raise BeyondLatin1 -> Q BeyondLatin1)
  (Hord : forall name l, unicode_lookup name = Some l -> length l <> 1 -> Q ord_error).

(** Only a name can stand for several characters. *)
Lemma escaped_single s l n : escaped_char s = Some (Some l, n) -> length l <> 1 -> exists name, unicode_lookup name = Some l.
Proof using Type.
  unfold escaped_char, _codepoint. intros H Hl.
  assert (forall c (b : bool), (if b then Some [c] else None) = Some l -> exists name, unicode_lookup name = Some l) as Hone
    by (intros c [] [= <-]; done).
  destruct s as [|c s]; [done|]. destruct (_ || is_quote c); [injection H as <- <-; done|].
  destruct (in_range 48 55 c); [injection H as H <-; by eapply Hone|].
  destruct (one_of "xX" c); [destruct (hex_digits 2 s); [|done]; injection H as H <-; by eapply Hone|].
  destruct (Ascii.eqb c "u").
  { destruct (hex_digits 4 s); [injection H as H <-; by eapply Hone|]. destruct s as [|d body]; [done|].
    destruct d as [[] [] [] [] [] [] [] []]; try done. cbv zeta in H. destruct (_ && _); [|done]. injection H as H <-. by eapply Hone. }
  destruct (Ascii.eqb c "U"); [destruct (hex_digits 8 s); [|done]; injection H as H <-; by eapply Hone|].
  destruct (Ascii.eqb c "N"); [|done]. destruct s as [|d body]; [done|]. destruct d as [[] [] [] [] [] [] [] []]; try done.
  cbv zeta in H. destruct (_ && _); [|done]. injection H as H <-. by eexists.
Qed.

Lemma gap_raises s e : _escaped_gap_length s = Raise e -> Q e.
Proof using Hord.
  unfold _escaped_gap_length. destruct (_ =? 0); [done|]. destruct (escaped_char _) as [[decoded n]|] eqn:Hd; [|done].
  assert (forall x, _is_gap_char decoded = Raise x -> Q x) as H.
  { unfold _is_gap_char. intros x. destruct decoded as [[|a [|b l]]|]; try done;
      (destruct (escaped_single _ _ _ Hd) as [name Hn]; [done|]).
    - intros [= <-]. by eapply Hord.
    - destruct (_ && _); [done|]. intros [= <-]. by eapply Hord. }
  destruct (_is_gap_char decoded) as [[]|x]; try done. intros [= <-]. by apply H.
Qed.

Lemma skip_gap_raises fuel s e : skip_gap fuel s = Raise e -> Q e.
Proof using Hord.
  revert s e. induction fuel as [|fuel IH]; intros s e; cbn [skip_gap];
    (destruct (_escaped_gap_length _) as [g|x] eqn:Hg; [|intros [= <-]; by eapply gap_raises]).
  - by destruct (_ + g).
  - destruct (_ + g); [done|]. destruct (skip_gap fuel _) as [m|x] eqn:Hs; [done|]. intros [= <-]. by eapply IH.
Qed.

Lemma assign_tokens_raises fuel s e : assign_tokens fuel s = Raise e -> Q e.
Proof using Hord.
  revert s e. induction fuel as [|fuel IH]; intros s e; cbn [assign_tokens]; destruct (_match_hidden_assign_token s); try done.
  unfold _skip_hidden_assign_gap. destruct (skip_gap _ _) as [g|x] eqn:Hg; [|intros [= <-]; by eapply skip_gap_raises].
  destruct (assign_tokens fuel _) as [m|x] eqn:Ha; [done|]. intros [= <-]. by eapply IH.
Qed.

Lemma hidden_assign_raises s e : _match_hidden_assign s = Raise e -> Q e.
Proof using Hord.
  unfold _match_hidden_assign, _skip_hidden_assign_gap. destruct (skip_gap _ _) as [g|x] eqn:Hg; [|intros [= <-]; by eapply skip_gap_raises].
  destruct (assign_tokens _ _) as [[n|]|x] eqn:Ha; try done. intros [= <-]. by eapply assign_tokens_raises.
Qed.

(** ** JSON values *)

Section values.
Context (leaf : string -> R string) (body_fields : list string) (max_depth : Z).

Lemma child_only depth below sensitive item :
  all_leaves (fun v => only Q (leaf v)) item -> only Q below -> only Q (_redact_json_child leaf max_depth depth below sensitive item).
Proof using Type.
  intros Hl Hb. unfold _redact_json_child. destruct sensitive; [apply only_ret|]. destruct item; cbn [all_leaves] in Hl; only_steps; done.
Qed.

Lemma container_only j depth : all_leaves (fun v => only Q (leaf v)) j -> only Q (redact_container leaf body_fields max_depth depth j).
Proof using Type.
  revert depth. induction j as [| | | |s|l IH|l IH] using json_nested_ind; intros depth Hl; cbn [redact_container]; try apply only_ret.
  - apply only_bind; [|intros; apply only_ret]. induction IH as [|x l Hx _ IHl]; [apply only_ret|]. destruct Hl as [Hlx Hl].
    apply only_bind; [by apply child_only; [|apply Hx]|]. intros y. apply only_bind; [by apply IHl|]. intros r. apply only_ret.
  - apply only_bind; [|intros; apply only_ret]. induction IH as [|[k x] l Hx _ IHl]; [apply only_ret|]. destruct Hl as [Hlx Hl].
    apply only_bind; [by apply child_only; [|apply Hx]|]. intros y. apply only_bind; [by apply IHl|]. intros r. apply only_ret.
Qed.

Lemma json_only j : all_leaves (fun v => only Q (leaf v)) j -> only Q (redact_json_with leaf body_fields max_depth j).
Proof using Type. intros Hl. unfold redact_json_with. only_steps. by apply container_only. Qed.
End values.

Lemma json_loads_raises text e : json_loads text = Raise e -> Q e \/ is_json_value_error e = true.
Proof using Hrec Hwide.
  unfold json_loads. destruct (nested_too_deep text) eqn:Hd; [intros [= <-]; left; by eapply Hrec|]. intros H.
  pose proof (loads_raises _ _ H) as [[->| ->]| ->]; [by right|by right|left; by eapply Hwide].
Qed.

Lemma json_loads_weight text j : json_loads text = Ok j -> is_container j = true -> all_leaves (fun v => weight v < weight text) j.
Proof using Type. unfold json_loads. destruct (nested_too_deep text); [done|]. apply loads_weight. Qed.

(** A JSON text is redacted through the strings in it. *)
Lemma json_text_only redact text :
  (forall j, all_leaves (fun v => weight v < weight text) j -> only Q (redact j)) -> only Q (redacted_json_text redact text).
Proof using Hrec Hwide.
  intros H. unfold redacted_json_text. destruct (json_loads text) as [j|e] eqn:Hj.
  - destruct (is_container j) eqn:Hc; cbn [negb]; [|apply only_ret]. apply only_bind; [|intros; apply only_ret].
    apply H. by apply json_loads_weight.
  - destruct (is_json_value_error e) eqn:He; [apply only_ret|]. apply json_loads_raises in Hj as [HQ|]; [|congruence]. by intros s x [= <-].
Qed.

(** ** Pairs *)

Section loop.
Context (redact_run : string -> R (string * bool)) (redact_json : json -> R json) (sensitive : list string) (w : nat).
Context (Hrun : forall run, weight run < w -> only Q (redact_run run)).
Context (Hjson : forall j, all_leaves (fun v => weight v < w) j -> only Q (redact_json j)).

Lemma embedded_only candidate : weight candidate <= w -> only Q (_redact_embedded_json_value redact_json candidate).
Proof using Hjson Hrec Hwide TL.
  intros Hw. unfold _redact_embedded_json_value. apply only_bind; [|intros; apply only_ret]. apply json_text_only. intros j Hl.
  apply Hjson. eapply all_leaves_mono; [|exact Hl]. cbn beta. intros v. pose proof (plus_decoded_le candidate). lia.
Qed.

Lemma hidden_pair_only run after : weight run <= w -> only Q (_redact_hidden_encoded_pair redact_run redact_json sensitive run after).
Proof using Hrun Hjson Hrec Hwide TL.
  intros Hw. unfold _redact_hidden_encoded_pair. cbv zeta. destruct (first_hit _ _); [apply only_ret|].
  destruct (String.eqb_spec (_bounded_percent_decode run unquote_plus) run) as [|Hne]; [apply only_ret|].
  destruct (plus_decoded run) as [|Hlt]; [done|]. unfold _rescan_decoded_run. apply only_bind.
  { destruct (starts_json _); [|apply only_ret]. apply embedded_only. lia. }
  intros [r|]; [apply only_ret|]. destruct (_has_undecoded_percent_escape _); [apply only_ret|].
  apply only_bind; [apply Hrun; lia|]. intros [local dangling]. only_steps.
Qed.

Lemma resolve_only value name : weight value <= w -> only Q (_resolve_pair_result redact_json sensitive value name).
Proof using Hjson Hrec Hwide TL.
  intros Hw. unfold _resolve_pair_result, _try_redact_json_span, _redact_embedded_json_span. only_steps.
  apply embedded_only. pose proof (weight_stake (value_length is_hard_sep is_quote false (Nat.min (slen value) _JSON_CANDIDATE_MAX_LEN) value) value). lia.
Qed.
End loop.
End errors.

Lemma pair_name_positive s n : pair_name s = Some n -> 0 < n.
Proof.
  unfold pair_name. destruct s as [|c s]; [done|]. destruct (is_quote c).
  - destruct (_ && _); [|done]. intros [= <-]. lia.
  - destruct (Nat.ltb_spec 0 (name_run (String c s))); [|done]. by intros [= <-].
Qed.

Section ends.
Context `{TL : TextLaws}.
Context (Q : exn -> Prop) (Hrec : forall text, nested_too_deep text = true -> Q RecursionError)
  (Hwide : forall text, loads text = Raise BeyondLatin1 -> Q BeyondLatin1)
  (Hord : forall name l, unicode_lookup name = Some l -> length l <> 1 -> Q ord_error).

Lemma loop_only redact_run redact_json sensitive w :
  (forall run, weight run < w -> only Q (redact_run run)) -> (forall j, all_leaves (fun v => weight v < w) j -> only Q (redact_json j)) ->
  forall fuel out pending rest dangling, slen rest <= fuel -> weight rest <= w ->
  only Q (pairs_loop redact_run redact_json sensitive fuel out pending rest dangling).
Proof using Hrec Hwide Hord TL.
  intros Hrun Hjson. induction fuel as [|fuel IH]; intros out pending rest dangling Hl Hw;
    (destruct rest as [|c rest]; [apply only_ret|]); [cbn in Hl; lia|]. cbn [pairs_loop].
  assert (forall n o p d, 0 < n -> only Q (pairs_loop redact_run redact_json sensitive fuel o p (sdrop n (String c rest)) d)) as Hgo.
  { intros n o p d Hn. apply IH; [|etransitivity; [apply weight_sdrop|done]]. rewrite slen_sdrop. cbn in *. lia. }
  assert (forall n m o p d, 0 < n -> only Q (pairs_loop redact_run redact_json sensitive fuel o p (sdrop m (sdrop n (String c rest))) d)) as Hgo2.
  { intros n m o p d Hn. rewrite <- sdrop_add. apply Hgo. lia. }
  destruct (pair_name _) as [n|] eqn:Hn; [apply pair_name_positive in Hn|apply Hgo; unfold _advance_past_non_name; lia].
  cbv zeta. pose proof (weight_stake n (String c rest)) as Hw1. pose proof (weight_sdrop n (String c rest)) as Hw2.
  apply only_bind.
  { destruct (assign_run _); [apply only_ret|]. apply only_lift. intros e. by apply hidden_assign_raises. }
  intros [a|].
  - apply only_bind; [|intros [[replacement k]|]; [rewrite <- sdrop_add; apply Hgo2|apply Hgo2]; lia].
    apply resolve_only with (w := w); [done..|]. pose proof (weight_sdrop a (sdrop n (String c rest))). lia.
  - apply only_bind; [apply hidden_pair_only with (w := w); (done || lia)|]. intros [[replacement k]|]; [by apply Hgo2|by apply Hgo].
Qed.

(** Twice what can be unfolded is fuel enough. *)
Lemma nested_only body_fields max_depth fuel :
  (forall sensitive text, 2 * weight text + 1 <= fuel -> only Q (redact_pairs body_fields max_depth fuel sensitive text)) /\
  (forall sensitive v, 2 * weight v + 2 <= fuel -> only Q (redact_leaf body_fields max_depth fuel sensitive v)).
Proof using Hrec Hwide Hord TL.
  induction fuel as [|fuel [IHp IHl]]; [split; intros; lia|]. split; intros sensitive text Hf; cbn [redact_pairs redact_leaf].
  - apply loop_only with (w := weight text); [| |done..].
    + intros run Hw. apply IHp. lia.
    + intros j Hl. apply json_only. eapply all_leaves_mono; [|exact Hl]. cbn beta. intros v Hv. apply IHl. lia.
  - unfold redact_leaf_with. apply only_bind.
    + unfold _try_redact_nested_json_leaf. destruct (_nested_json_leaf_candidate text) as [candidate|] eqn:Hc; [|apply only_ret].
      apply only_bind; [|intros; apply only_ret]. apply json_text_only; [done|done|]. intros j Hl.
      apply json_only. eapply all_leaves_mono; [|exact Hl]. cbn beta. intros v Hv. apply IHl.
      assert (weight candidate <= weight text); [|lia]. unfold _nested_json_leaf_candidate in Hc. pose proof (plus_decoded_le text).
      repeat case_match; simplify_eq; lia.
    + intros [r|]; [apply only_ret|]. apply only_bind; [|intros; apply only_ret]. apply IHp. pose proof (xml_weight sensitive text). lia.
Qed.

Lemma pairs_only body_fields max_depth text sensitive : only Q (_redact_pairs_in_text body_fields max_depth text sensitive).
Proof using Hrec Hwide Hord TL.
  unfold _redact_pairs_in_text, _redact_pairs_in_text_ex. apply only_bind; [|intros; apply only_ret].
  apply nested_only. unfold nesting. pose proof (weight_slen text). lia.
Qed.

Lemma sensitive_json_only body_fields max_depth j sensitive : only Q (_redact_sensitive_json body_fields max_depth j sensitive).
Proof using Hrec Hwide Hord TL.
  apply json_only. eapply all_leaves_mono with (P := fun _ => True).
  - intros v _. apply nested_only. unfold nesting. pose proof (weight_slen v). lia.
  - induction j as [| | | | |l IH|l IH] using json_nested_ind; cbn [all_leaves]; try done.
    + induction IH; cbn [fold_right]; auto.
    + induction IH; cbn [fold_right]; auto.
Qed.

Lemma json_redact_only body_fields max_depth text sensitive : only Q (_json_redact_text body_fields max_depth text sensitive).
Proof using Hrec Hwide Hord TL.
  unfold _json_redact_text. apply only_catch; [|intros; apply only_ret].
  destruct (json_loads text) as [j|e] eqn:Hj.
  - only_steps. eapply only_mono; [|by apply sensitive_json_only]. by intros.
  - destruct (is_json_value_error e) eqn:He; [apply only_ret|]. apply (json_loads_raises Q Hrec Hwide) in Hj as [HQ|]; [|congruence]. by intros s x [= <-].
Qed.

Lemma segment_only body_fields max_depth segment sensitive : only Q (_redact_json_or_pairs_segment body_fields max_depth segment sensitive).
Proof using Hrec Hwide Hord TL.
  unfold _redact_json_or_pairs_segment. apply only_bind; [apply json_redact_only|]. intros [r|]; [apply only_ret|apply pairs_only].
Qed.

Lemma path_only body_fields max_depth path sensitive : only Q (_redact_sensitive_path body_fields max_depth path sensitive).
Proof using Hrec Hwide Hord TL.
  unfold _redact_sensitive_path. apply only_bind.
  - unfold _redact_whole_path_as_json. cbv zeta. apply only_bind; [apply json_redact_only|]. intros; apply only_ret.
  - intros [r|]; [apply only_ret|]. apply only_bind; [|intros; apply only_ret]. apply only_each. intros segment.
    unfold _redact_path_segment. destruct (partition_char ";" segment) as [[proper rest]|]; [|apply segment_only].
    apply only_bind; [apply segment_only|]. intros. apply only_bind; [apply segment_only|]. intros. apply only_ret.
Qed.

Lemma blob_only max_depth text sp sb sh e : redact_blob_for_display max_depth text sp sb sh = Raise e -> Q e.
Proof using Hrec Hwide Hord TL.
  unfold redact_blob_for_display, run_redaction, redact_blob_m. cbv zeta. apply only_bind; [apply json_redact_only|]. intros first.
  apply only_bind; [destruct first; [apply only_ret|apply json_redact_only]|]. intros [r|]; [apply only_ret|apply pairs_only].
Qed.

Lemma header_value_only value sp sb sh e : redact_header_value_for_display value sp sb sh = Raise e -> Q e.
Proof using Hrec Hwide Hord TL. unfold redact_header_value_for_display. destruct (negb _); [done|]. apply blob_only. Qed.

Lemma headers_only headers sh sb sp e : _redact_sensitive_headers headers sh sb sp = Raise e -> Q e.
Proof using Hrec Hwide Hord TL.
  unfold _redact_sensitive_headers. cbv zeta. revert e. induction headers as [|[k v] headers IH]; intros e; [done|]. cbn [each_header].
  destruct (in_list _ _).
  - destruct (each_header _ headers); [done|]. intros [= <-]. by apply IH.
  - destruct (redact_blob_for_display _ v sp sb sh) eqn:Hb; [|intros [= <-]; by eapply blob_only].
    destruct (each_header _ headers); [done|]. intros [= <-]. by apply IH.
Qed.

Context (Hurl : forall e, url_error e -> Q e).

Lemma urlsplit_raises url e : urlsplit url = Raise e -> url_error e.
Proof using Type.
  unfold urlsplit. destruct (split_scheme _). destruct (if startswith _ _ then _ else _). destruct (check_netloc _) eqn:Hc.
  - destruct (default _ (partition_char "#" _)). by destruct (default _ (partition_char "?" _)).
  - intros [= <-]. revert Hc. unfold check_netloc, _check_bracketed_netloc, _check_bracketed_host.
    repeat case_match; try done; intros [= <-]; unfold url_error; auto.
Qed.

Lemma url_only max_depth url sp sb sh e : redact_url_for_display max_depth url sp sb sh = Raise e -> Q e.
Proof using Hrec Hwide Hord Hurl TL.
  unfold redact_url_for_display, run_redaction, redact_url_m. cbv zeta. apply only_bind.
  { apply only_lift. intros x Hx. by eapply Hurl, urlsplit_raises. }
  intros parts. apply only_bind; [apply path_only|]. intros path. destruct (_ && _); [apply only_ret|].
  apply only_bind; [apply segment_only|]. intros. apply only_bind; [apply segment_only|]. intros. apply only_ret.
Qed.
End ends.
