(* ===== verification/RedactionSpec.v ===== *)
(** What redaction shows: every value under a sensitive name is replaced by the marker,
    whatever it is, and plain values stay as they are. *)
From S2P Require Import Prelude PyStr PyDict Json IpAddr Url Sample Config Redaction RedactionFacts.

#[local] Open Scope nat_scope.

#[local] Abbreviation R := (M bool).

(** * Errors *)

Section errors.
Context `{TL : TextLaws}.

(** The errors of the redaction of a text, each with what makes it possible. *)
Definition text_error (e : exn) : Prop :=
  e = RecursionError /\ (exists text, nested_too_deep text = true) \/
  e = ord_error /\ (exists name l, unicode_lookup name = Some l /\ length l <> 1) \/
  e = BeyondLatin1 /\ (exists text, loads text = Raise BeyondLatin1).

End errors.

(** * Secrets *)

(** A JSON value whose sensitive values are all the same. *)
Fixpoint masked (sensitive_fields : list string) (value : json) : json :=
  match value with
  | JArr items => JArr (map (masked sensitive_fields) items)
  | JObj members =>
      JObj (map (fun m => (fst m, if in_list (lower (fst m)) sensitive_fields then JNull else masked sensitive_fields (snd m))) members)
  | _ => value
  end.

Definition masked_headers (sensitive : list string) (headers : list (string * string)) : list (string * string) :=
  map (fun h => (fst h, if in_list (lower (strip (fst h))) sensitive then "" else snd h)) headers.

Section secrets.
Context `{TS : TextServices}.
Context (leaf : string -> R string) (fields : list string) (max_depth : Z).

Lemma bind_ext {A B} (m m' : R A) (k k' : A -> R B) s : m s = m' s -> (forall a s', k a s' = k' a s') -> bind m k s = bind m' k' s.
Proof using Type. unfold bind. intros -> Hk. by destruct (m' s) as [[a|e] s']. Qed.

Lemma child_masked depth below below' sensitive value s : (forall s', below s' = below' s') ->
  _redact_json_child leaf max_depth depth below sensitive (if sensitive then JNull else masked fields value) s =
  _redact_json_child leaf max_depth depth below' sensitive value s.
Proof using Type.
  intros Hb. unfold _redact_json_child. destruct sensitive; [done|]. destruct value; try done; cbn [masked];
    (destruct (_ <=? _)%Z; [done|apply Hb]).
Qed.

Lemma container_masked value depth s :
  redact_container leaf fields max_depth depth (masked fields value) s = redact_container leaf fields max_depth depth value s.
Proof using Type.
  revert depth s. induction value as [| | | |text|items IH|members IH] using json_nested_ind; intros depth s; try done;
    cbn [masked redact_container]; (apply bind_ext; [|done]); revert depth s; induction IH as [|x l Hx _ IHl]; intros depth s; try done; cbn [map].
  - apply bind_ext; [apply (child_masked depth _ _ false); by intros|]. intros y s'. by apply bind_ext.
  - destruct x as [k x]. cbn [fst snd] in *. apply bind_ext; [|intros y s'; by apply bind_ext].
    rewrite <- (child_masked depth (redact_container leaf fields max_depth (depth + 1) x) _ _ x) by done.
    destruct (in_list (lower k) fields); [done|]. unfold _redact_json_child.
    destruct x; try done; cbn [masked]; (destruct (_ <=? _)%Z; [done|apply Hx]).
Qed.

Lemma json_masked value s :
  redact_json_with leaf fields max_depth (masked fields value) s = redact_json_with leaf fields max_depth value s.
Proof using Type.
  unfold redact_json_with. destruct value; try done; cbn [masked is_container negb]; (destruct (_ <=? _)%Z; [done|]);
    [apply (container_masked (JArr _))|apply (container_masked (JObj _))].
Qed.
End secrets.

(** C14: secrets do not show.  What the redaction of a JSON value does - the value it
    returns, the error it raises - is the same when every value of a sensitive field, at
    any depth, is replaced by the same one; and the redaction of headers is the same when
    the values of the sensitive headers are. *)
Theorem secrets_do_not_show `{TS : TextServices} fields max_depth value sensitive headers sh sb sp :
  run_redaction (_redact_sensitive_json fields max_depth (masked fields value) sensitive) =
    run_redaction (_redact_sensitive_json fields max_depth value sensitive) /\
  _redact_sensitive_headers (masked_headers (_merge_sensitive_log_headers sh) headers) sh sb sp =
    _redact_sensitive_headers headers sh sb sp.
Proof.
  split; [unfold run_redaction, _redact_sensitive_json, json_with; by rewrite json_masked|].
  unfold _redact_sensitive_headers. cbv zeta. induction headers as [|[k v] headers IH]; [done|].
  cbn [masked_headers map each_header fst snd]. rewrite <- IH. by destruct (in_list _ _).
Qed.

(** * Queries *)

(** The text of a query. *)
Fixpoint query (pairs : list (string * string)) : string :=
  match pairs with
  | [] => ""
  | [(name, value)] => name +:+ "=" +:+ value
  | (name, value) :: pairs' => name +:+ "=" +:+ value +:+ "&" +:+ query pairs'
  end.

Definition plain (s : string) : bool := sforall is_name_char s.

(** A value with neither blanks, quotes nor separators: anything may be encoded in it. *)
Definition is_word_char (c : ascii) : bool := negb (is_hard_sep c || is_quote c || _is_soft_ws c).
Definition one_word (s : string) : bool := sforall is_word_char s && negb (head_is is_assign s).

Definition fine_pair (sensitive : list string) (p : string * string) : bool :=
  truthy (fst p) && plain (fst p) && (if in_list (lower (fst p)) sensitive then one_word (snd p) else plain (snd p)).

Definition hidden_pair (sensitive : list string) (p : string * string) : string * string :=
  (fst p, if in_list (lower (fst p)) sensitive then _REDACTED_MARKER else snd p).

(** What follows a pair. *)
Definition ends_pair (s : string) : bool := match s with "" => true | String c _ => Ascii.eqb c "&" end.

Section queries.
Context `{TS : TextServices}.

Lemma name_char_kinds c : is_name_char c = true ->
  is_quote c = false /\ Ascii.eqb c "%" = false /\ Ascii.eqb c "+" = false /\ is_assign c = false /\ is_smuggled_separator c = false /\
  is_json_likely c = false /\ Ascii.eqb (lower_char c) "%" = false.
Proof using Type. destruct c as [[] [] [] [] [] [] [] []]; vm_compute; intros; try discriminate; repeat split. Qed.

Lemma plain_no_char c s : plain s = true -> (forall a, is_name_char a = true -> Ascii.eqb a c = false) -> has_char c s = false.
Proof using Type.
  intros Hs Hc. induction s as [|a s IH]; [done|]. cbn [plain sforall has_char] in *. apply andb_true_iff in Hs as [Ha Hs].
  rewrite Hc by done. by apply IH.
Qed.

Lemma name_run_plain s t : plain s = true -> name_run t = 0 -> name_run (s +:+ t) = slen s.
Proof using Type.
  intros Hs Ht. induction s as [|c s IH]; [done|]. cbn [plain sforall] in Hs. apply andb_true_iff in Hs as [Hc Hs].
  rewrite app_cons_string. cbn [name_run slen String.length]. rewrite Hc. cbn [orb]. by rewrite IH.
Qed.

Lemma pair_name_plain s t : plain s = true -> s <> "" -> name_run t = 0 -> pair_name (s +:+ t) = Some (slen s).
Proof using Type.
  intros Hs Hne Ht. destruct s as [|c s]; [done|]. pose proof (name_run_plain _ t Hs Ht) as Hn. rewrite app_cons_string in *.
  cbn [pair_name]. cbn [plain sforall] in Hs. apply andb_true_iff in Hs as [(-> & _)%name_char_kinds _]. by rewrite Hn.
Qed.

Lemma decoded_plain s sensitive : plain s = true -> s <> "" -> decoded_pair_name s sensitive = lower s.
Proof using Type.
  intros Hs Hne. unfold decoded_pair_name. destruct s as [|c s]; [done|].
  assert (is_quote c = false) as Hq by (cbn [plain sforall] in Hs; by apply andb_true_iff in Hs as [(? & _)%name_char_kinds _]).
  cbn [head_is]. rewrite Hq. by rewrite !(plain_no_char _ _ Hs) by (by intros a (? & ? & ? & _)%name_char_kinds).
Qed.

Lemma lower_plain_percent s : plain s = true -> has_char "%" (lower s) = false.
Proof using Type.
  intros Hs. unfold lower. induction s as [|a s IH]; [done|]. cbn [plain sforall smap has_char] in *. apply andb_true_iff in Hs as [Ha Hs].
  apply name_char_kinds in Ha as (_ & _ & _ & _ & _ & _ & ->). by apply IH.
Qed.

Lemma value_char_kinds c : is_word_char c = true -> is_hard_sep c = false /\ is_quote c = false /\ _is_soft_ws c = false.
Proof using Type. unfold is_word_char. by intros [[? ?]%orb_false_iff ?]%negb_true_iff%orb_false_iff. Qed.

Lemma value_length_word s t : sforall is_word_char s = true -> ends_pair t = true ->
  value_length is_hard_sep is_quote false (slen (s +:+ t)) (s +:+ t) = slen s.
Proof using Type.
  intros Hs Ht. induction s as [|c s IH].
  - change ("" +:+ t) with t. destruct t as [|c t]; [done|]. cbn [ends_pair] in Ht. apply Ascii.eqb_eq in Ht as ->.
    by destruct t.
  - cbn [sforall] in Hs. apply andb_true_iff in Hs as [(H1 & H2 & H3)%value_char_kinds Hs].
    rewrite app_cons_string. cbn [slen String.length value_length]. rewrite H1, H2, H3. cbn [andb orb]. f_equal. by apply IH.
Qed.

(** A sensitive value is replaced whole. *)
Lemma sensitive_value_plain s t : sforall is_word_char s = true -> ends_pair t = true ->
  _redact_sensitive_pair_value (s +:+ t) = (_REDACTED_MARKER, slen s).
Proof using Type.
  intros Hs Ht. unfold _redact_sensitive_pair_value.
  assert (_quote_char_at (s +:+ t) = None) as ->.
  { destruct s as [|c s].
    - destruct t as [|c t]; [done|]. cbn in Ht. by apply Ascii.eqb_eq in Ht as ->.
    - rewrite app_cons_string. cbn [_quote_char_at]. cbn [sforall] in Hs. apply andb_true_iff in Hs as [(_ & H2 & _)%value_char_kinds Hs]. by rewrite H2. }
  cbn [sdrop _sensitive_value_extent is_some negb]. unfold _unquoted_value_extent. rewrite value_length_word by done. rewrite sdrop_app.
  assert (head_is is_quote t = false) as -> by (destruct t as [|c t]; [done|]; cbn in Ht; by apply Ascii.eqb_eq in Ht as ->).
  cbn [andb is_some negb]. destruct (slen s =? 0) eqn:Hz; cbn [andb].
  - destruct s; [|done]. change ("" +:+ t) with t.
    assert (head_is (one_of "<") t = false) as -> by (destruct t as [|c t]; [done|]; cbn in Ht; by apply Ascii.eqb_eq in Ht as ->). done.
  - unfold _build_redaction_result. by rewrite app_nil_r_string, Nat.add_0_r.
Qed.
(** A separator is never decoded to a sign of assignment. *)
Lemma ascii_runs_head c s : is_ascii_char c = true -> exists run rest, ascii_runs (String c s) = (true, String c run) :: rest.
Proof using Type.
  intros Hc. cbn [ascii_runs]. destruct (ascii_runs s) as [|[[] run] rest]; rewrite ?Hc; cbn [Bool.eqb]; by do 2 eexists.
Qed.

Lemma concat_head c run rest : exists t, String.concat "" (String c run :: rest) = String c t.
Proof using Type. destruct rest as [|y rest]; cbn; by eexists. Qed.

Lemma unquote_head c s : is_ascii_char c = true -> Ascii.eqb c "%" = false -> exists t, unquote (String c s) = String c t.
Proof using Type.
  intros Hc Hp. unfold unquote, unquote_with. destruct (has_char _ _); [|by eexists].
  destruct (ascii_runs_head c s Hc) as (run & rest & ->). cbn [map fst snd unquote_to_bytes]. rewrite Hp.
  assert (exists t, decode_replace (String c (unquote_to_bytes run)) = String c t) as [t ->]; [|apply concat_head].
  unfold decode_replace. destruct (ascii_runs_head c (unquote_to_bytes run) Hc) as (run' & rest' & ->). cbn [map fst snd]. apply concat_head.
Qed.

Lemma unquote_plus_head c s : is_ascii_char c = true -> Ascii.eqb c "%" = false -> Ascii.eqb c "+" = false ->
  exists t, unquote_plus (String c s) = String c t.
Proof using Type. intros Hc Hp Hplus. unfold unquote_plus, replace_char. cbn [smap]. rewrite Hplus. by apply unquote_head. Qed.

Lemma decoded_head c s : is_ascii_char c = true -> Ascii.eqb c "%" = false -> Ascii.eqb c "+" = false ->
  exists t, _bounded_percent_decode (String c s) unquote_plus = String c t.
Proof using Type.
  intros Hc Hp Hplus. unfold _bounded_percent_decode. destruct (_ && _); [by eexists|]. generalize _MAX_DECODE_ROUNDS. intros n.
  revert s. induction n as [|n IH]; intros s; [by eexists|]. cbn [decode_rounds].
  destruct (unquote_plus_head c s Hc Hp Hplus) as [t ->]. destruct (decide _); [by eexists|apply IH].
Qed.

Lemma no_hidden_assign t : ends_pair t = true -> _match_hidden_assign t = Ok None.
Proof using Type.
  intros Ht. unfold _match_hidden_assign. destruct t as [|c t]; [done|]. cbn [ends_pair] in Ht. apply Ascii.eqb_eq in Ht as ->.
  assert (_skip_hidden_assign_gap (String "&" t) = Ok 0) as -> by done. cbn [sdrop].
  assert (_match_hidden_assign_token (String "&" t) = None) as Htoken; [|cbn [slen String.length assign_tokens]; by rewrite Htoken].
  unfold _match_hidden_assign_token. change (head_is is_assign (String "&" t)) with false. cbv iota.
  assert (forall l, Forall (fun n => 0 < n) l -> encoded_assign l (String "&" t) = None) as H;
    [|apply H; repeat constructor; lia].
  induction l as [|n l IH]; [done|]. intros [Hn Hl]%Forall_cons. cbn [encoded_assign]. destruct (_ <? _); [done|].
  destruct n as [|n]; [lia|]. cbn [stake]. destruct (decoded_head "&" (stake n t)) as [u ->]; [done..|].
  by apply IH.
Qed.

(** A plain value hides nothing. *)
Lemma no_hidden_pair rr rj sensitive v t : plain v = true -> _redact_hidden_encoded_pair rr rj sensitive v t = ret None.
Proof using Type.
  intros Hv. unfold _redact_hidden_encoded_pair. cbv zeta.
  assert (_bounded_percent_decode v unquote_plus = v) as ->.
  { unfold _bounded_percent_decode. by rewrite !(plain_no_char _ _ Hv) by (by intros a (? & ? & ? & _)%name_char_kinds). }
  assert (split_where is_smuggled_separator v = [v]) as ->.
  { induction v as [|c v IH]; [done|]. cbn [plain sforall] in Hv. apply andb_true_iff in Hv as [(_ & _ & _ & _ & Hc & _)%name_char_kinds Hv].
    cbn [split_where]. by rewrite Hc, IH. }
  cbn [first_hit length]. unfold smuggled_pair, _hidden_pair_split. cbv zeta.
  assert (sdrop (span (fun c => negb (is_assign c)) v) v = "") as ->; [|by rewrite String.eqb_refl].
  induction v as [|c v IH]; [done|]. cbn [plain sforall] in Hv. apply andb_true_iff in Hv as [(_ & _ & _ & Hc & _)%name_char_kinds Hv].
  cbn [span]. rewrite Hc. cbn [negb sdrop]. by apply IH.
Qed.

Lemma ends_no_name t : ends_pair t = true -> name_run t = 0 /\ assign_run t = None.
Proof using Type. destruct t as [|c t]; [done|]. cbn [ends_pair]. by intros ->%Ascii.eqb_eq. Qed.

(** A plain value is passed over. *)
Lemma loop_value rr rj sensitive fuel out pending v t d s : plain v = true -> ends_pair t = true -> slen (v +:+ t) <= fuel ->
  exists fuel' d', slen t <= fuel' /\
    pairs_loop rr rj sensitive fuel out pending (v +:+ t) d s = pairs_loop rr rj sensitive fuel' out (pending +:+ v) t d' s.
Proof using Type.
  intros Hv Ht Hf. destruct v as [|c v]; [exists fuel, d; by rewrite app_nil_r_string|].
  destruct (ends_no_name t Ht) as [Hn Ha]. destruct fuel as [|fuel]; [rewrite app_cons_string in Hf; cbn in Hf; lia|].
  exists fuel, false. split; [rewrite slen_app in Hf; cbn [slen String.length] in *; lia|].
  rewrite app_cons_string. cbn [pairs_loop]. rewrite <- app_cons_string. rewrite pair_name_plain by done. cbv zeta.
  rewrite sdrop_app, stake_app, Ha, no_hidden_assign by done. unfold bind, lift_res. by rewrite no_hidden_pair.
Qed.
Lemma plain_one_word v : plain v = true -> one_word v = true.
Proof using Type.
  intros Hv. assert (forall c, is_name_char c = true -> is_word_char c = true /\ is_assign c = false) as H
    by (intros [[] [] [] [] [] [] [] []]; vm_compute; intros; try discriminate; by split).
  unfold one_word. apply andb_true_iff. destruct v as [|c v]; [by split|]. split.
  - induction (String c v) as [|a u IH]; [done|]. cbn [plain sforall] in *. apply andb_true_iff in Hv as [Ha Hu]. rewrite IH by done.
    by rewrite (proj1 (H a Ha)).
  - cbn [plain sforall head_is] in *. apply andb_true_iff in Hv as [Hc _]. by rewrite (proj2 (H c Hc)).
Qed.

Lemma assign_before_value v t : one_word v = true -> ends_pair t = true -> assign_run (String "=" (v +:+ t)) = Some 1.
Proof using Type.
  intros [Hv Hh]%andb_true_iff Ht. unfold assign_run. cbn [span]. change (is_assign "=" || _is_soft_ws "=") with true. cbv iota zeta.
  assert (span (fun c => is_assign c || _is_soft_ws c) (v +:+ t) = 0) as ->; [|done]. destruct v as [|c v].
  - change ("" +:+ t) with t. destruct t as [|c t]; [done|]. cbn [ends_pair] in Ht. by apply Ascii.eqb_eq in Ht as ->.
  - rewrite app_cons_string. cbn [sforall head_is] in *. apply andb_true_iff in Hv as [(_ & _ & H3)%value_char_kinds _].
    apply negb_true_iff in Hh. cbn [span]. by rewrite Hh, H3.
Qed.

(** A pair is shown as it is, or with its value hidden. *)
Lemma loop_pair rr rj sensitive fuel out pending name v t d s : fine_pair sensitive (name, v) = true -> ends_pair t = true ->
  slen (name +:+ "=" +:+ v +:+ t) <= fuel ->
  exists fuel' out' pending' d', slen t <= fuel' /\
    out' +:+ pending' = out +:+ pending +:+ name +:+ "=" +:+ snd (hidden_pair sensitive (name, v)) /\
    pairs_loop rr rj sensitive fuel out pending (name +:+ "=" +:+ v +:+ t) d s = pairs_loop rr rj sensitive fuel' out' pending' t d' s.
Proof using Type.
  intros [[Hne Hname]%andb_true_iff Hv]%andb_true_iff Ht Hf. cbn [fst snd] in *. unfold hidden_pair. cbn [fst snd].
  assert (one_word v = true) as Hword by (destruct (in_list _ _); [done|by apply plain_one_word]).
  destruct name as [|c name]; [done|]. set (n := String c name) in *.
  destruct fuel as [|fuel]; [subst n; rewrite app_cons_string in Hf; cbn in Hf; lia|].
  assert (slen (v +:+ t) <= fuel) as Hf' by (rewrite !slen_app in *; subst n; cbn [slen String.length] in *; lia).
  assert (pairs_loop rr rj sensitive (S fuel) out pending (n +:+ "=" +:+ v +:+ t) d s =
    (let* result := _resolve_pair_result rj sensitive (v +:+ t) (lower n) in
     match result with
     | None => pairs_loop rr rj sensitive fuel out (pending +:+ n +:+ "=") (v +:+ t) false
     | Some (replacement, k) =>
         pairs_loop rr rj sensitive fuel (out +:+ (pending +:+ n +:+ "=") +:+ replacement) "" (sdrop k (v +:+ t)) ((k =? 0) && negb (truthy (v +:+ t)))
     end) s) as ->.
  { pose proof (pair_name_plain n ("=" +:+ v +:+ t) Hname ltac:(done) eq_refl) as Hp. subst n. rewrite app_cons_string in *. cbn [pairs_loop].
    rewrite Hp, <- app_cons_string. cbv zeta. rewrite sdrop_app, stake_app. change ("=" +:+ v +:+ t) with (String "=" (v +:+ t)).
    rewrite assign_before_value by done. rewrite bind_ret_l. by rewrite decoded_plain. }
  unfold _resolve_pair_result. rewrite (lower_plain_percent n Hname). cbn [andb]. rewrite orb_false_r.
  destruct (in_list (lower n) sensitive).
  - apply andb_true_iff in Hword as [Hword _]. rewrite bind_ret_l, sensitive_value_plain, sdrop_app by done.
    eexists fuel, _, "", _. split; [rewrite slen_app in Hf'; lia|]. split; [|reflexivity]. by rewrite app_nil_r_string, !app_assoc_string.
  - assert (head_is is_json_likely (v +:+ t) = false) as ->.
    { destruct v as [|a v]; [change ("" +:+ t) with t; destruct t as [|a t]; [done|]; cbn [ends_pair] in Ht; by apply Ascii.eqb_eq in Ht as ->|].
      rewrite app_cons_string. cbn [plain sforall head_is] in *. by apply andb_true_iff in Hv as [(_ & _ & _ & _ & _ & ? & _)%name_char_kinds _]. }
    rewrite bind_ret_l. destruct (loop_value rr rj sensitive fuel out (pending +:+ n +:+ "=") v t false s) as (fuel' & d' & Hl & ->); [done..|].
    exists fuel', out, ((pending +:+ n +:+ "=") +:+ v), d'. split; [done|]. split; [|done]. by rewrite !app_assoc_string.
Qed.

Lemma loop_separator rr rj sensitive fuel out pending u d s : head_is is_name_char u = true ->
  pairs_loop rr rj sensitive (S fuel) out pending ("&" +:+ u) d s = pairs_loop rr rj sensitive fuel out (pending +:+ "&") u false s.
Proof using Type.
  intros Hu. change ("&" +:+ u) with (String "&" u). cbn [pairs_loop]. change (pair_name (String "&" u)) with (@None nat).
  cbv iota. assert (_advance_past_non_name (String "&" u) = 1) as ->; [|done].
  unfold _advance_past_non_name. cbn [span]. change (negb (is_name_char "&" || one_of "%+" "&" || is_quote "&")) with true. cbv iota.
  destruct u as [|c u]; [done|]. cbn [head_is] in Hu. cbn [span]. rewrite Hu. done.
Qed.

Lemma loop_query rr rj sensitive pairs : forallb (fine_pair sensitive) pairs = true -> forall fuel out pending d s,
  slen (query pairs) <= fuel ->
  exists d', pairs_loop rr rj sensitive fuel out pending (query pairs) d s = (Ok (out +:+ pending +:+ query (map (hidden_pair sensitive) pairs), d'), s).
Proof using Type.
  induction pairs as [|[name v] pairs IH]; intros Hp fuel out pending d s Hf.
  { exists d. cbn [query map]. rewrite app_nil_r_string. by destruct fuel. }
  cbn [forallb] in Hp. apply andb_true_iff in Hp as [Hp Hps]. destruct pairs as [|[name' v'] pairs].
  - change (query [(name, v)]) with (name +:+ "=" +:+ v) in *.
    change (query (map _ _)) with (name +:+ "=" +:+ snd (hidden_pair sensitive (name, v))).
    destruct (loop_pair rr rj sensitive fuel out pending name v "" d s Hp eq_refl) as (fuel' & out' & pending' & d' & _ & Ho & He);
      rewrite app_nil_r_string in *; [done|]. exists d'. rewrite He, <- Ho. by destruct fuel'.
  - set (rest := (name', v') :: pairs) in *.
    change (query ((name, v) :: rest)) with (name +:+ "=" +:+ v +:+ "&" +:+ query rest) in *.
    change (query (map _ (_ :: rest))) with
      (name +:+ "=" +:+ snd (hidden_pair sensitive (name, v)) +:+ "&" +:+ query (map (hidden_pair sensitive) rest)).
    destruct (loop_pair rr rj sensitive fuel out pending name v ("&" +:+ query rest) d s Hp eq_refl Hf)
      as (fuel' & out' & pending' & d' & Hf' & Ho & ->).
    rewrite slen_app in Hf'. change (slen "&") with 1 in Hf'. destruct fuel' as [|fuel']; [lia|]. rewrite loop_separator.
    + destruct (IH Hps fuel' out' (pending' +:+ "&") false s) as [d'' ->]; [lia|].
      exists d''. do 3 f_equal. rewrite <- (app_assoc_string pending'), (app_assoc_string out'), Ho, <- !app_assoc_string. done.
    + cbn [forallb] in Hps. apply andb_true_iff in Hps as [[[Hne Hn]%andb_true_iff _]%andb_true_iff _]. cbn [fst] in *.
      destruct name' as [|c name']; [done|]. cbn [plain sforall] in Hn. apply andb_true_iff in Hn as [Hc _]. by destruct pairs.
Qed.
End queries.

(** C13: In a query whose names are plain, every value under a sensitive name that is
    a single word (no blank, quote or separator in it) is replaced by the marker,
    whatever is percent-encoded in it, and plain values under other names, the names
    and the separators stay as they are; nothing is raised. A value with a blank, a
    quote or a separator in it is outside this claim: the code replaces it up to there
    and leaves the rest. *)
Theorem query_values_are_hidden `{TS : TextServices} fields max_depth sensitive pairs s :
  forallb (fine_pair sensitive) pairs = true ->
  _redact_pairs_in_text fields max_depth (query pairs) sensitive s = (Ok (query (map (hidden_pair sensitive) pairs)), s).
Proof.
  intros Hp. unfold _redact_pairs_in_text, _redact_pairs_in_text_ex, nesting.
  replace (2 * slen (query pairs) + 2) with (S (2 * slen (query pairs) + 1)) by lia. cbn [redact_pairs].
  destruct (loop_query (redact_pairs fields max_depth (2 * slen (query pairs) + 1) sensitive)
    (json_with fields max_depth (redact_leaf fields max_depth (2 * slen (query pairs) + 1)) sensitive) sensitive pairs Hp
    (slen (query pairs)) "" "" false s) as [d Hd]; [done|]. by rewrite (bind_ok _ _ _ _ _ Hd).
Qed.

(** * Witnesses *)

Section witnesses.
#[local] Existing Instance sample_texts.

Lemma sample_texts_laws : TextLaws.
Proof.
  intros bytes. unfold utf8_replace, sample_texts. induction bytes as [|c bytes IH]; [done|].
  cbn [smap sforall]. rewrite IH, andb_true_r. by destruct (is_ascii_char c) eqn:Hc; [|rewrite Hc].
Qed.


(** A value that is encoded in part, with signs of assignment in it. *)
Lemma query_values_are_hidden_witness :
  _redact_pairs_in_text [] 32 "user=bob&Password=hunter%32=%3D&page=&token=" ["password"; "token"] false =
  (Ok "user=bob&Password=[REDACTED]&page=&token=[REDACTED]", false).
Proof.
  apply (query_values_are_hidden [] 32 ["password"; "token"]
    [("user", "bob"); ("Password", "hunter%32=%3D"); ("page", ""); ("token", "")] false). vm_compute. reflexivity.
Defined.
End witnesses.
