(* ===== verification/Request.v ===== *)
(** The request view of the adapters ([GuardRequest]) and the mutable
    [request.state] the engine attaches its findings to. *)
From S2P Require Import Prelude PyStr PyDict Config.

(** [GuardRequest]: [rq_https_url] is [url_replace_scheme("https")], and
    [rq_url_full] the whole URL. *)
Record Request : Type := mkRequest {
  rq_path : string;
  rq_scheme : string;
  rq_method : string;
  rq_client_host : option string;
  rq_headers : list (string * string);
  rq_query_params : list (string * string);
  rq_https_url : string;
  rq_url_full : string
}.

(** [request.headers.get(name)]: the mapping is case-insensitive. *)
Fixpoint headers_get (headers : list (string * string)) (name : string) : option string :=
  match headers with
  | [] => None
  | (k, v) :: headers' =>
      if (lower k =? lower name)%string then Some v else headers_get headers' name
  end.

Definition header (request : Request) (name : string) : option string :=
  headers_get (rq_headers request) name.

(** [request.headers.get(name, default)] *)
Definition header_or (request : Request) (name dflt : string) : string :=
  match header request name with Some v => v | None => dflt end.

(** [bool(request.client_host)] *)
Definition has_client_host (request : Request) : bool := truthy_str (rq_client_host request).

(** The result of the detection engine ([DetectionResult]). *)
Record DetectionResult : Type := mkDetection {
  is_threat : bool;
  trigger_info : string;
  threat_categories : list string;
  (** the highest score of each category, in millionths *)
  threat_scores : list (string * Z)
}.

#[export] Instance DetectionResult_eq_dec : EqDecision DetectionResult.
Proof. solve_decision. Defined.

(** [request.state]: an attribute that is not set reads as its default in every
    place that reads it. *)
Record RequestState : Type := mkReqState {
  st_client_ip : option string;
  st_route_config : option RouteConfig;
  st_route_id : option string;
  st_endpoint_id : option string;
  st_route_unresolved : bool;
  st_is_whitelisted : bool;
  st_is_exempt : bool;
  st_exclusion_scoped : bool;
  st_block_stash : option (string * string);
  st_detection_cache : option (option RouteConfig * DetectionResult);
  st_auth_principal : option string;
  st_guard_decorator : option Decorator
}.

Definition fresh_state : RequestState :=
  mkReqState None None None None false false false false None None None None.
