(* ===== verification/IpExtraction.v ===== *)
(** Client address resolution: [guard_core/_utils/ip_extraction.py].

    Which address a request is attributed to: the connecting peer, unless the
    peer is a trusted proxy, in which case the X-Forwarded-For chain is walked.
    The [ValueError]s of [ipaddress] are [None] in [IpAddr]; log texts are
    abbreviated, the "warn once" flags keep the source's names. *)
From S2P Require Import Prelude PyStr PyDict IpAddr IpAddrText Sys Sample Config Request.

Definition UNKNOWN_CLIENT_IDENTITY : string := "unknown".

(** * Text of addresses *)

Definition _canonical_ip_text (addr : ip) : string :=
  match addr with
  | V6 n None => match ipv4_mapped n with
                 | Some m => string_of_ip (V4 m)
                 | None => string_of_ip addr
                 end
  | _ => string_of_ip addr
  end.

Definition _strip_ip_brackets (value : string) : string :=
  if startswith value "[" && endswith value "]"
  then stake (slen value - 2) (sdrop 1 value)   (* value[1:-1] *)
  else value.

Definition _canonicalize_ip (value : string) : string :=
  match ip_address (_strip_ip_brackets value) with
  | None => value
  | Some addr => _canonical_ip_text addr
  end.

Definition _strip_forwarded_entry_port (value : string) : string :=
  if startswith value "[" then
    match find_char "]" value with
    | None => value
    | Some closing =>
        let remainder := sdrop (S closing) value in
        if truthy remainder && negb (startswith remainder ":" && isdigit (sdrop 1 remainder))
        then value
        else stake (closing - 1) (sdrop 1 value)   (* value[1:closing] *)
    end
  else if (count_char ":" value =? 1)%nat then
    match partition_char ":" value with
    | Some (host, port) => if isdigit port then host else value
    | None => value
    end
  else value.

Definition _forwarded_header_candidate_has_metachar (candidate : string) : bool :=
  existsb (fun c => has_char c candidate) ["*"; "?"; "["; "]"; "\"]%char.

Definition _forwarded_header_candidate_addr (candidate : string) : option ip := ip_address candidate.

(** * Trusted proxies *)

(** [ip_network] may raise on the entry. *)
Definition _proxy_matches (connecting_ip : string) (obj : ip) (proxy : string) : res bool :=
  if has_char "/" proxy then
    match ip_network proxy with
    | Some n => Ok (ip_in_net obj n)
    | None => Raise (ValueError proxy)
    end
  else Ok (connecting_ip =? proxy)%string.

(** [any(f(x) for x in l)]: stops at the first true one, and at an exception. *)
Fixpoint any_res {A} (f : A -> res bool) (l : list A) : res bool :=
  match l with
  | [] => Ok false
  | x :: l' => match f x with
               | Ok true => Ok true
               | Ok false => any_res f l'
               | Raise e => Raise e
               end
  end.

Definition _is_trusted_proxy (connecting_ip : string) (trusted_proxies : list string) : bool :=
  match ip_address connecting_ip with
  | None => false
  | Some obj =>
      match any_res (_proxy_matches connecting_ip obj) trusted_proxies with
      | Ok b => b
      | Raise _ => false
      end
  end.

(** * The X-Forwarded-For chain *)

(** [l[i]], Python indices *)
Definition py_index {A} (l : list A) (i : Z) : res A :=
  let j := if (i <? 0)%Z then (Z.of_nat (length l) + i)%Z else i in
  if (j <? 0)%Z then Raise (IndexError "list index out of range")
  else match l !! Z.to_nat j with
       | Some x => Ok x
       | None => Raise (IndexError "list index out of range")
       end.

(** [l[i:]], Python indices *)
Definition py_slice_from {A} (l : list A) (i : Z) : list A :=
  drop (Z.to_nat (if (i <? 0)%Z then Z.max 0 (Z.of_nat (length l) + i) else i)) l.

Definition _forwarded_header_candidate (forwarded_for : string) (proxy_depth : Z) : res (option string) :=
  let ips := map strip (split_on "," forwarded_for) in
  if (Z.of_nat (length ips) <? proxy_depth)%Z then Ok None
  else match py_index ips (- proxy_depth) with
       | Ok s => Ok (Some (_strip_forwarded_entry_port s))
       | Raise e => Raise e
       end.

Definition _extract_from_forwarded_header (forwarded_for : string) (proxy_depth : Z) : res (option string) :=
  if negb (truthy forwarded_for) then Ok None
  else match _forwarded_header_candidate forwarded_for proxy_depth with
       | Raise e => Raise e
       | Ok None => Ok None
       | Ok (Some candidate) =>
           match _forwarded_header_candidate_addr candidate with
           | None => Ok None
           | Some addr =>
               if _forwarded_header_candidate_has_metachar candidate then Ok None
               else Ok (Some (_canonical_ip_text addr))
           end
       end.

Definition _forwarded_header_ips (forwarded_for : string) : list string :=
  map (fun ip => _strip_forwarded_entry_port (strip ip)) (split_on "," forwarded_for).

Definition _forwarded_header_right_side_unlisted_count
  (ips : list string) (proxy_depth : Z) (trusted_proxies : list string) : nat :=
  let right_side := py_slice_from ips (Z.of_nat (length ips) - proxy_depth + 1) in
  length (List.filter (fun entry => negb (_is_trusted_proxy (_canonicalize_ip entry) trusted_proxies))
            right_side).

(** [for entry in reversed(ips): ...] *)
Fixpoint resolve_reversed (entries trusted_proxies : list string) : option string :=
  match entries with
  | [] => None
  | entry :: entries' =>
      if _is_trusted_proxy (_canonicalize_ip entry) trusted_proxies
      then resolve_reversed entries' trusted_proxies
      else match _forwarded_header_candidate_addr entry with
           | None => None
           | Some addr => if _forwarded_header_candidate_has_metachar entry then None
                          else Some (_canonical_ip_text addr)
           end
  end.

Definition _resolve_forwarded_chain_right_to_left (ips trusted_proxies : list string) : option string :=
  resolve_reversed (rev ips) trusted_proxies.

Definition _is_private_or_loopback (s : string) : bool :=
  match ip_address s with
  | None => false
  | Some addr => is_private addr || is_loopback addr || is_link_local addr
  end.

Definition _display_forwarded_chain (value : string) : string :=
  join "," (map (fun part =>
    match _forwarded_header_candidate_addr (_strip_forwarded_entry_port (strip part)) with
    | Some _ => part
    | None => "[REDACTED]"
    end) (split_on "," value)).

(** * Warnings and events *)

Section extraction.
Context `{E : Env}.

Definition _warn_forwarded_header_preempted (connecting_ip : string) (forwarded_for : option string)
  : M Sys unit :=
  match forwarded_for with
  | None => ret tt
  | Some f =>
      if negb (truthy f) || negb (in_list connecting_ip (map strip (split_on "," f))) then ret tt
      else warn_once "_forwarded_header_preemption_warned"
             (log WARNING ("forwarded header preempted: " +:+ connecting_ip))
  end.

Definition _warn_forwarded_header_chain_too_short (forwarded_for : string) (chain_length : nat)
  : M Sys unit :=
  warn_once "_forwarded_header_chain_too_short_warned"
    (log WARNING ("forwarded chain too short: " +:+ _display_forwarded_chain forwarded_for)).

Definition _warn_forwarded_header_selected_entry_trusted_proxy (entry : string) : M Sys unit :=
  warn_once "_forwarded_header_selected_entry_trusted_proxy_warned"
    (log WARNING ("selected entry is a trusted proxy: " +:+ entry)).

Definition _warn_forwarded_header_depth_overcounts_hops
  (unlisted_right_entries : nat) (forwarded_for : string) : M Sys unit :=
  warn_once "_forwarded_header_depth_overcounts_hops_warned"
    (log WARNING ("trusted_proxy_depth over-counts: " +:+ _display_forwarded_chain forwarded_for)).

(** [send_agent_event] ([guard_core/_utils/agent_events.py]) *)
Definition send_agent_event (agent_handler : bool) (event_type ip_address action reason : string)
  : M Sys unit :=
  if negb agent_handler then ret tt
  else agent_send_logged
         {| ev_type := event_type; ev_ip := ip_address; ev_action := action; ev_reason := reason;
            ev_handler := "ip_extraction"; ev_country := None; ev_meta := [] |}
         "Failed to send agent event".

Definition _handle_untrusted_proxy (connecting_ip canonical_connecting_ip : string)
  (forwarded_for : option string) (agent_handler : bool) : M Sys string :=
  match forwarded_for with
  | Some f =>
      if truthy f then
        _warn_forwarded_header_preempted connecting_ip forwarded_for ;;;
        let display_forwarded_for := _display_forwarded_chain f in
        log (if _is_private_or_loopback connecting_ip then DEBUG else WARNING)
          ("Potential IP spoof attempt: " +:+ display_forwarded_for) ;;;
        send_agent_event agent_handler "suspicious_request" canonical_connecting_ip
          "spoofing_detected"
          ("Potential IP spoof attempt: X-Forwarded-For header " +:+ display_forwarded_for) ;;;
        ret canonical_connecting_ip
      else ret canonical_connecting_ip
  | None => ret canonical_connecting_ip
  end.

Definition _resolve_client_ip_from_forwarded_chain (canonical_connecting_ip : string)
  (forwarded_for : option string) (proxy_depth : Z) (trusted_proxies : list string) : M Sys string :=
  catch (fun e => is_value_error e || is_index_error e)
    (match forwarded_for with
     | None => ret canonical_connecting_ip
     | Some f =>
         if negb (truthy f) then ret canonical_connecting_ip else
         let ips := _forwarded_header_ips f in
         let chain_length := length ips in
         if (Z.of_nat chain_length <? proxy_depth)%Z then
           _warn_forwarded_header_chain_too_short f chain_length ;;;
           ret canonical_connecting_ip
         else
         let unlisted :=
           if nonempty trusted_proxies
           then _forwarded_header_right_side_unlisted_count ips proxy_depth trusted_proxies
           else 0%nat in
         if (0 <? unlisted)%nat then
           _warn_forwarded_header_depth_overcounts_hops unlisted f ;;;
           ret (match _resolve_forwarded_chain_right_to_left ips trusted_proxies with
                | Some resolved => resolved
                | None => canonical_connecting_ip
                end)
         else
           let* client_ip := lift_res (_extract_from_forwarded_header f proxy_depth) in
           match client_ip with
           | Some client_ip =>
               if truthy client_ip then
                 when (_is_trusted_proxy client_ip trusted_proxies)
                   (_warn_forwarded_header_selected_entry_trusted_proxy client_ip) ;;;
                 ret client_ip
               else ret canonical_connecting_ip
           | None => ret canonical_connecting_ip
           end
     end)
    (fun e => log WARNING ("Error processing client IP: " +:+ exn_message e) ;;;
              ret canonical_connecting_ip).

(** [extract_client_ip]; [cached_ip] is [request.state.client_ip]. *)
Definition extract_client_ip (request : Request) (cached_ip : option string)
  (config : SecurityConfig) (agent_handler : bool) : M Sys string :=
  match cached_ip with
  | Some (String _ _ as ip) => ret ip
  | _ =>
    match rq_client_host request with
    | Some (String _ _ as connecting_ip) =>
        let canonical_connecting_ip := _canonicalize_ip connecting_ip in
        let forwarded_for := header request "X-Forwarded-For" in
        if negb (nonempty (trusted_proxies config)) then
          _warn_forwarded_header_preempted connecting_ip forwarded_for ;;;
          ret canonical_connecting_ip
        else if negb (_is_trusted_proxy connecting_ip (trusted_proxies config)) then
          _handle_untrusted_proxy connecting_ip canonical_connecting_ip forwarded_for agent_handler
        else
          _resolve_client_ip_from_forwarded_chain canonical_connecting_ip forwarded_for
            (trusted_proxy_depth config) (trusted_proxies config)
    | _ =>
        if in_list "unix" (trusted_proxies config) then
          _resolve_client_ip_from_forwarded_chain UNKNOWN_CLIENT_IDENTITY
            (header request "X-Forwarded-For") (trusted_proxy_depth config) (trusted_proxies config)
        else ret UNKNOWN_CLIENT_IDENTITY
    end
  end.
End extraction.

(** * Canonical text *)

(** An address whose text is its canonical form. *)
Definition canonical_addr (a : ip) : ip :=
  match a with
  | V6 n None => match ipv4_mapped n with Some m => V4 m | None => a end
  | _ => a
  end.

Lemma canonical_ip_text_addr a : _canonical_ip_text a = string_of_ip (canonical_addr a).
Proof.
  destruct a as [n|n [sc|]]; [reflexivity|reflexivity|].
  cbn [_canonical_ip_text canonical_addr]. by destruct (ipv4_mapped n).
Qed.

Lemma canonical_addr_idemp a : canonical_addr (canonical_addr a) = canonical_addr a.
Proof.
  destruct a as [n|n [sc|]]; [done|done|]. cbn [canonical_addr].
  destruct (ipv4_mapped n) eqn:E; cbn [canonical_addr]; by rewrite ?E.
Qed.

Lemma canonical_addr_wf a : ip_wf a -> scope_wf a -> ip_wf (canonical_addr a) /\ scope_wf (canonical_addr a).
Proof.
  intros Hw Hs. destruct a as [n|n [sc|]]; [exact (conj Hw Hs)|exact (conj Hw Hs)|].
  cbn [canonical_addr]. destruct (ipv4_mapped n) as [m|] eqn:E; [|exact (conj Hw Hs)].
  split; [|exact I]. revert E. unfold ipv4_mapped. case_match; [|discriminate]. intros [= <-].
  unfold ip_wf. cbn [ip_int ip_width]. rewrite Z.land_ones by lia. apply Z.mod_pos_bound. lia.
Qed.

Lemma ip_text_no_bracket n : (0 <= n < 2 ^ 128)%Z -> has_char "[" (string_of_ip (V6 n None)) = false.
Proof.
  intros Hn. unfold string_of_ip, ipv4_mapped. destruct (Z.shiftr n 32 =? 65535)%Z.
  - rewrite !has_char_app, string_of_ipv6_chars by done. rewrite ipv4_text_chars; [done| |done|discriminate].
    rewrite Z.land_ones by lia. apply Z.mod_pos_bound. lia.
  - by apply string_of_ipv6_chars.
Qed.

Lemma startswith_no_char c s t : truthy s = true -> has_char c s = false -> startswith (s +:+ t) (String c "") = false.
Proof.
  destruct s as [|a s]; [done|]. intros _. cbn [has_char]. intros [Ha _]%orb_false_iff.
  destruct (startswith (String a s +:+ t) (String c "")) eqn:E; [|done].
  apply startswith_spec in E as [u Hu]. injection Hu as -> _.
  by rewrite Ascii.eqb_refl in Ha.
Qed.

Lemma ip_text_truthy a : ip_wf a -> truthy (string_of_ip a) = true.
Proof.
  intros Hw. destruct a as [n|n sc].
  - cbn [string_of_ip]. unfold string_of_ipv4. destruct (octet_text (n / 256 ^ 3 mod 256)) as (_ & _ & Ho).
    { apply Z.mod_pos_bound; lia. }
    cbn [join map]. by destruct (string_of_Z (n / 256 ^ 3 mod 256)).
  - destruct (ipv6_text n Hw) as (t & Et & _ & _ & _ & Hc & Hsc). assert (truthy t = true) by (by destruct t).
    destruct sc as [sc|]; [rewrite Hsc; by destruct t|by rewrite Et].
Qed.

Lemma canonical_text_truthy s a : ip_address s = Some a -> truthy (_canonical_ip_text a) = true.
Proof.
  intros Ha. rewrite canonical_ip_text_addr. apply ip_text_truthy.
  apply canonical_addr_wf; [by eapply ip_address_wf|by eapply ip_address_scope_wf].
Qed.

Lemma strip_brackets_text a : ip_wf a -> scope_wf a -> _strip_ip_brackets (string_of_ip a) = string_of_ip a.
Proof.
  intros Hw Hs. unfold _strip_ip_brackets.
  assert (startswith (string_of_ip a) "[" = false) as ->; [|done].
  destruct a as [n|n sc].
  - rewrite <- (app_nil_r_string (string_of_ip (V4 n))). apply startswith_no_char.
    + by apply ip_text_truthy.
    + apply ipv4_text_chars; [done|done|discriminate].
  - destruct (ipv6_text n Hw) as (t & Et & _ & _ & _ & Hc & Hsc).
    assert (truthy t = true) as Ht by (by destruct t).
    assert (has_char "[" t = false) as Hb by (rewrite <- Et; by apply ip_text_no_bracket).
    destruct sc as [sc|]; [rewrite Hsc|rewrite Et, <- (app_nil_r_string t)]; by apply startswith_no_char.
Qed.

(** A value that is its own canonical text. *)
Definition canonical (value : string) : Prop := _canonicalize_ip value = value.

Lemma canonical_ip_text_canonical s a : ip_address s = Some a -> canonical (_canonical_ip_text a).
Proof.
  intros Ha. unfold canonical, _canonicalize_ip. rewrite canonical_ip_text_addr.
  destruct (canonical_addr_wf a) as [Hw Hs]; [eauto using ip_address_wf|eauto using ip_address_scope_wf|].
  rewrite strip_brackets_text, ip_address_text, canonical_ip_text_addr, canonical_addr_idemp; done.
Qed.

Lemma canonicalize_canonical v : canonical (_canonicalize_ip v).
Proof.
  unfold canonical at 1. unfold _canonicalize_ip at 2 3.
  destruct (ip_address (_strip_ip_brackets v)) eqn:E; [by eapply canonical_ip_text_canonical|].
  unfold _canonicalize_ip. by rewrite E.
Qed.

(** * Resolution *)

Lemma resolve_reversed_spec entries tp r :
  resolve_reversed entries tp = Some r <->
  exists skipped entry rest addr,
    entries = skipped ++ entry :: rest /\
    Forall (fun e => _is_trusted_proxy (_canonicalize_ip e) tp = true) skipped /\
    _is_trusted_proxy (_canonicalize_ip entry) tp = false /\
    _forwarded_header_candidate_addr entry = Some addr /\
    _forwarded_header_candidate_has_metachar entry = false /\
    r = _canonical_ip_text addr.
Proof.
  split.
  - induction entries as [|e es IH]; cbn [resolve_reversed]; [discriminate|].
    destruct (_is_trusted_proxy (_canonicalize_ip e) tp) eqn:Et.
    + intros (sk & en & rest & a & -> & Hs & H)%IH. exists (e :: sk), en, rest, a.
      split; [done|]. split; [by constructor|exact H].
    + destruct (_forwarded_header_candidate_addr e) as [a|] eqn:Ea; [|discriminate].
      destruct (_forwarded_header_candidate_has_metachar e) eqn:Em; [discriminate|].
      intros [= <-]. exists [], e, es, a. split_and!; auto.
  - intros (sk & en & rest & a & -> & Hs & Ht & Ha & Hm & ->).
    induction Hs as [|e sk He Hs IH]; cbn [app resolve_reversed]; [by rewrite Ht, Ha, Hm|by rewrite He].
Qed.

(** Once an entry is not a trusted proxy, what is further left is not read. *)
Lemma resolve_reversed_prefix entries more more' tp :
  Exists (fun e => _is_trusted_proxy (_canonicalize_ip e) tp = false) entries ->
  resolve_reversed (entries ++ more) tp = resolve_reversed (entries ++ more') tp.
Proof.
  induction entries as [|e es IH]; intros He; [by apply Exists_nil in He|]. cbn [app resolve_reversed].
  destruct (_is_trusted_proxy (_canonicalize_ip e) tp) eqn:Et; [|done].
  apply IH. apply Exists_cons in He as [He|He]; [congruence|done].
Qed.

Lemma extract_from_forwarded_header_canonical f d r :
  _extract_from_forwarded_header f d = Ok (Some r) -> canonical r.
Proof.
  unfold _extract_from_forwarded_header. case_match; [discriminate|].
  destruct (_forwarded_header_candidate f d) as [[c|]|]; [|discriminate|discriminate].
  destruct (_forwarded_header_candidate_addr c) eqn:Ea; [|discriminate].
  case_match; [discriminate|]. intros [= <-]. by eapply canonical_ip_text_canonical.
Qed.

Lemma py_index_raises {A} (l : list A) i e : py_index l i = Raise e -> is_index_error e = true.
Proof.
  unfold py_index. destruct (_ <? 0)%Z; [by intros [= <-]|].
  destruct (l !! _); [discriminate|by intros [= <-]].
Qed.

Lemma extract_from_forwarded_header_raises f d e :
  _extract_from_forwarded_header f d = Raise e -> is_index_error e = true.
Proof.
  unfold _extract_from_forwarded_header, _forwarded_header_candidate.
  destruct (negb (truthy f)); [discriminate|]. cbv zeta. destruct (_ <? d)%Z; [discriminate|].
  destruct (py_index _ _) as [x|x] eqn:Hx; [|intros [= <-]; by eapply py_index_raises].
  destruct (_forwarded_header_candidate_addr _); [|discriminate].
  by destruct (_forwarded_header_candidate_has_metachar _).
Qed.

Section resolution.
Context `{E : Env}.

Ltac sys_steps := repeat first [ wp_step | apply wp_warn_once; intros | apply wp_log; intros ].

Lemma wp_resolve_chain peer forwarded depth tp s :
  canonical peer ->
  wp (_resolve_client_ip_from_forwarded_chain peer forwarded depth tp)
     (fun r s' => exists c, r = Ok c /\ canonical c) s.
Proof.
  intros Hp. unfold _resolve_client_ip_from_forwarded_chain. apply wp_catch.
  destruct forwarded as [f|]; [|by apply wp_ret; eauto].
  cbv zeta. destruct (negb (truthy f)); [by apply wp_ret; eauto|].
  destruct (_ <? _)%Z; [sys_steps; eauto|]. destruct (0 <? _)%nat.
  - sys_steps. destruct (_resolve_forwarded_chain_right_to_left _ tp) eqn:Hr; [|eauto].
    apply resolve_reversed_spec in Hr as (? & ? & ? & a & _ & _ & _ & Ha & _ & ->).
    eexists. split; [done|]. by eapply canonical_ip_text_canonical.
  - apply wp_bind, wp_lift_res. destruct (_extract_from_forwarded_header f depth) as [[c|]|e] eqn:Hx.
    + sys_steps; eauto using extract_from_forwarded_header_canonical.
    + apply wp_ret. eauto.
    + apply extract_from_forwarded_header_raises in Hx. rewrite Hx, orb_true_r. sys_steps. eauto.
Qed.

Lemma wp_handle_untrusted c peer forwarded ah s :
  wp (_handle_untrusted_proxy c peer forwarded ah) (fun r _ => r = Ok peer) s.
Proof.
  unfold _handle_untrusted_proxy, _warn_forwarded_header_preempted, send_agent_event.
  destruct forwarded as [f|]; [|by apply wp_ret]. destruct (truthy f); [|by apply wp_ret].
  sys_steps; try reflexivity; apply wp_agent_send_logged; intros; sys_steps; reflexivity.
Qed.

(** The peer is not one of the trusted proxies (none configured included). *)
Lemma wp_extract_untrusted request host config ah s :
  rq_client_host request = Some host -> truthy host = true ->
  _is_trusted_proxy host (trusted_proxies config) = false ->
  wp (extract_client_ip request None config ah) (fun r _ => r = Ok (_canonicalize_ip host)) s.
Proof.
  intros Hh Ht Htp. unfold extract_client_ip. rewrite Hh. destruct host as [|a host]; [done|].
  cbv zeta. rewrite Htp. cbn [negb]. destruct (negb (nonempty (trusted_proxies config))).
  - apply wp_bind. unfold _warn_forwarded_header_preempted.
    sys_steps; try reflexivity.
  - apply wp_handle_untrusted.
Qed.
End resolution.

(** * The chain an attacker can extend *)

(** A chain whose right end [l] was appended by the proxies, after [p]. *)
Definition chain (p : string) (l : list string) : string := p +:+ String "," (join "," l).

Section chain.
Context (l : list string) (Hl : l <> []) (Hc : Forall (fun x => has_char "," x = false) l).

Lemma split_chain p : split_on "," (chain p l) = split_on "," p ++ l.
Proof using Hl Hc. unfold chain. by rewrite split_on_app_gen, split_on_join. Qed.

Lemma chain_ips p :
  _forwarded_header_ips (chain p l) =
  _forwarded_header_ips p ++ map (fun ip => _strip_forwarded_entry_port (strip ip)) l.
Proof using Hl Hc. unfold _forwarded_header_ips. by rewrite split_chain, map_app. Qed.

Lemma chain_right_side p tp :
  _forwarded_header_right_side_unlisted_count (_forwarded_header_ips (chain p l)) (Z.of_nat (length l)) tp
  = length (List.filter (fun e => negb (_is_trusted_proxy (_canonicalize_ip e) tp))
              (map (fun ip => _strip_forwarded_entry_port (strip ip)) (tail l))).
Proof using Hl Hc.
  unfold _forwarded_header_right_side_unlisted_count. rewrite chain_ips. f_equal. f_equal.
  unfold py_slice_from. rewrite length_app, length_map.
  destruct (Z.ltb_spec (Z.of_nat (length (_forwarded_header_ips p) + length l) - Z.of_nat (length l) + 1) 0); [lia|].
  rewrite drop_app_ge by lia. destruct l as [|x l']; [done|]. cbn [length tail map].
  replace (Z.to_nat _ - _)%nat with 1%nat by lia. done.
Qed.

Lemma chain_candidate p :
  _forwarded_header_candidate (chain p l) (Z.of_nat (length l)) =
  Ok (option_map (fun x => _strip_forwarded_entry_port (strip x)) (head l)).
Proof using Hl Hc.
  unfold _forwarded_header_candidate. rewrite split_chain, map_app, length_app, !length_map.
  destruct (Z.ltb_spec (Z.of_nat (length (split_on "," p) + length l)) (Z.of_nat (length l))); [lia|].
  unfold py_index. rewrite length_app, !length_map. destruct l as [|x l']; [done|]. cbn [length].
  destruct (Z.ltb_spec (- Z.of_nat (S (length l'))) 0); [|lia].
  destruct (Z.ltb_spec (Z.of_nat (length (split_on "," p) + S (length l')) + - Z.of_nat (S (length l'))) 0); [lia|].
  rewrite lookup_app_r by (rewrite length_map; lia). rewrite length_map.
  replace (Z.to_nat _ - _)%nat with 0%nat by lia. done.
Qed.
End chain.

(** * Properties *)

(** Canonicalisation is idempotent: the canonical text of a canonical text
    is itself, for every input string, IPv4-mapped and scoped addresses
    included. *)
Theorem canonicalize_ip_idempotent v : _canonicalize_ip (_canonicalize_ip v) = _canonicalize_ip v.
Proof. apply canonicalize_canonical. Qed.

Section properties.
Context `{E : Env}.

(** Address resolution is total: whatever the peer, the headers and the
    configuration, [extract_client_ip] returns (it never raises), and what it
    returns is in canonical form, so bans and counters are keyed uniformly. *)
Theorem extract_client_ip_canonical request config ah s :
  exists c, fst (extract_client_ip request None config ah s) = Ok c /\ canonical c.
Proof.
  assert (canonical UNKNOWN_CLIENT_IDENTITY) as Hu by reflexivity.
  change (wp (extract_client_ip request None config ah)
            (fun r _ => exists c, r = Ok c /\ canonical c) s).
  destruct (rq_client_host request) as [[|a host]|] eqn:Hh.
  1, 3: unfold extract_client_ip; rewrite Hh; case_match;
    [by apply wp_resolve_chain | apply wp_ret; eauto].
  destruct (_is_trusted_proxy (String a host) (trusted_proxies config)) eqn:Htp.
  - unfold extract_client_ip. rewrite Hh. cbv zeta. rewrite Htp. cbn [negb].
    destruct (trusted_proxies config) eqn:El; [by revert Htp; unfold _is_trusted_proxy; case_match|].
    apply wp_resolve_chain, canonicalize_canonical.
  - eapply wp_mono; [by apply (wp_extract_untrusted _ (String a host))|].
    intros r s' ->. eexists. split; [done|]. apply canonicalize_canonical.
Qed.

(** A peer that is not a trusted proxy cannot be attributed another
    address: the client is the connecting peer, whatever X-Forwarded-For and
    the other headers say. *)
Theorem untrusted_peer_is_the_client request host config ah s :
  rq_client_host request = Some host -> truthy host = true ->
  _is_trusted_proxy host (trusted_proxies config) = false ->
  fst (extract_client_ip request None config ah s) = Ok (_canonicalize_ip host).
Proof. intros Hh Ht Htp. by apply (wp_extract_untrusted _ host). Qed.

(** What the resolution of a chain returns, without its log records. *)
Lemma resolve_chain_result peer f depth tp s :
  fst (_resolve_client_ip_from_forwarded_chain peer (Some f) depth tp s) =
  if negb (truthy f) then Ok peer else
  let ips := _forwarded_header_ips f in
  if (Z.of_nat (length ips) <? depth)%Z then Ok peer
  else if (0 <? (if nonempty tp then _forwarded_header_right_side_unlisted_count ips depth tp else 0))%nat
  then Ok (default peer (_resolve_forwarded_chain_right_to_left ips tp))
  else match _extract_from_forwarded_header f depth with
       | Ok (Some c) => Ok (if truthy c then c else peer)
       | _ => Ok peer
       end.
Proof.
  match goal with |- fst _ = ?r => set (R := r) end.
  change (wp (_resolve_client_ip_from_forwarded_chain peer (Some f) depth tp) (fun r _ => r = R) s).
  subst R. unfold _resolve_client_ip_from_forwarded_chain. apply wp_catch.
  destruct (negb (truthy f)); [by apply wp_ret|]. cbv zeta.
  destruct (_ <? _)%Z; [apply wp_bind, wp_warn_once; intros; by apply wp_ret|].
  destruct (0 <? _)%nat.
  - apply wp_bind, wp_warn_once. intros. apply wp_ret. by destruct (_resolve_forwarded_chain_right_to_left _ _).
  - apply wp_bind, wp_lift_res. destruct (_extract_from_forwarded_header f depth) as [[c|]|e] eqn:Hx.
    + destruct (truthy c); [|by apply wp_ret]. apply wp_bind, wp_when; intros _; [|by apply wp_ret].
      apply wp_warn_once. intros. by apply wp_ret.
    + by apply wp_ret.
    + apply extract_from_forwarded_header_raises in Hx. rewrite Hx, orb_true_r.
      apply wp_bind, wp_log. intros. by apply wp_ret.
Qed.
End properties.

Section chain_properties.
Context `{E : Env}.
Context (l : list string) (Hl : l <> []) (Hc : Forall (fun x => has_char "," x = false) l).

#[local] Abbreviation entries := (map (fun ip => _strip_forwarded_entry_port (strip ip)) l).

Lemma chain_truthy p : truthy (chain p l) = true.
Proof. unfold chain. by destruct p. Qed.

Lemma chain_long_enough p :
  (Z.of_nat (length (_forwarded_header_ips (chain p l))) <? Z.of_nat (length l))%Z = false.
Proof using Hl Hc. apply Z.ltb_ge. rewrite chain_ips, length_app, length_map by done. lia. Qed.

(** The outcome of a chain of at least the trusted depth, from its right end. *)
Lemma chain_result p peer tp s :
  fst (_resolve_client_ip_from_forwarded_chain peer (Some (chain p l)) (Z.of_nat (length l)) tp s) =
  let unlisted := List.filter (fun e => negb (_is_trusted_proxy (_canonicalize_ip e) tp))
                    (map (fun ip => _strip_forwarded_entry_port (strip ip)) (tail l)) in
  if nonempty tp && nonempty unlisted
  then Ok (default peer (resolve_reversed (rev entries) tp))
  else match head entries with
       | Some e => match _forwarded_header_candidate_addr e with
                   | Some a => if _forwarded_header_candidate_has_metachar e then Ok peer
                               else Ok (if truthy (_canonical_ip_text a) then _canonical_ip_text a else peer)
                   | None => Ok peer
                   end
       | None => Ok peer
       end.
Proof using Hl Hc.
  cbv zeta. rewrite resolve_chain_result, chain_truthy. cbn [negb]. cbv zeta. rewrite chain_long_enough.
  rewrite chain_right_side by done.
  set (u := List.filter _ (map _ (tail l))). assert ((0 <? (if nonempty tp then length u else 0))%nat =
    nonempty tp && nonempty u) as -> by (destruct (nonempty tp), u; done).
  destruct (nonempty tp && nonempty u) eqn:Hu.
  - f_equal. f_equal. unfold _resolve_forwarded_chain_right_to_left.
    rewrite chain_ips by done. rewrite rev_app_distr.
    rewrite (resolve_reversed_prefix _ _ []); [by rewrite app_nil_r|].
    apply andb_true_iff in Hu as [_ Hu]. destruct u as [|e u'] eqn:Eu; [done|].
    assert (List.In e u) as He by (rewrite Eu; left; done). subst u.
    apply List.filter_In in He as [He Ht]. apply Exists_exists. exists e.
    split; [|by apply negb_true_iff in Ht]. apply list_elem_of_In, in_rev. rewrite rev_involutive.
    destruct l as [|x l']; [done|by right].
  - unfold _extract_from_forwarded_header. rewrite chain_truthy. cbn [negb].
    rewrite chain_candidate by done. destruct l as [|x l']; [done|]. cbn [head option_map map].
    destruct (_forwarded_header_candidate_addr _); [|done].
    by destruct (_forwarded_header_candidate_has_metachar _).
Qed.
End chain_properties.

(** C34: forwarded entries beyond the trusted depth have no influence.  When the
    last [trusted_proxy_depth] entries of X-Forwarded-For are [l], the client is
    the same whatever text [p] or [p'] the sender put in front of them. *)
Theorem forwarded_prefix_irrelevant `{E : Env} l p p' request request' config ah s s' :
  l <> [] -> Forall (fun x => has_char "," x = false) l ->
  trusted_proxy_depth config = Z.of_nat (length l) ->
  rq_client_host request = rq_client_host request' ->
  header request "X-Forwarded-For" = Some (chain p l) ->
  header request' "X-Forwarded-For" = Some (chain p' l) ->
  fst (extract_client_ip request None config ah s) = fst (extract_client_ip request' None config ah s').
Proof.
  intros Hl Hc Hd Hh Hf Hf'. destruct (rq_client_host request) as [[|a host]|] eqn:Hr.
  1, 3: unfold extract_client_ip; rewrite Hr, <- Hh, Hf, Hf', Hd; case_match; [|done];
    by rewrite !chain_result.
  destruct (_is_trusted_proxy (String a host) (trusted_proxies config)) eqn:Ht.
  - unfold extract_client_ip. rewrite Hr, <- Hh, Hf, Hf', Hd. cbv zeta. rewrite Ht. cbn [negb].
    destruct (trusted_proxies config) eqn:El; [by revert Ht; unfold _is_trusted_proxy; case_match|].
    cbn [nonempty negb]. by rewrite !chain_result.
  - transitivity (@Ok string (_canonicalize_ip (String a host)));
      [|symmetry]; by apply wp_extract_untrusted.
Qed.

(** With every proxy to its right listed as trusted, the entry at the
    trusted depth is the client, in canonical form. *)
Theorem trusted_depth_selects `{E : Env} p entry rest addr host request config ah s :
  Forall (fun x => has_char "," x = false) (entry :: rest) ->
  trusted_proxy_depth config = Z.of_nat (S (length rest)) ->
  rq_client_host request = Some host ->
  _is_trusted_proxy host (trusted_proxies config) = true ->
  header request "X-Forwarded-For" = Some (chain p (entry :: rest)) ->
  Forall (fun e => _is_trusted_proxy (_canonicalize_ip (_strip_forwarded_entry_port (strip e)))
                     (trusted_proxies config) = true) rest ->
  ip_address (_strip_forwarded_entry_port (strip entry)) = Some addr ->
  _forwarded_header_candidate_has_metachar (_strip_forwarded_entry_port (strip entry)) = false ->
  fst (extract_client_ip request None config ah s) = Ok (_canonical_ip_text addr).
Proof.
  intros Hc Hd Hh Ht Hf Hr Ha Hm. pose proof (canonical_text_truthy _ _ Ha) as Htx. destruct host as [|c host]; [done|].
  unfold extract_client_ip. rewrite Hh, Hf, Hd. cbv zeta. rewrite Ht. cbn [negb].
  destruct (trusted_proxies config) eqn:El; [by revert Ht; unfold _is_trusted_proxy; case_match|].
  rewrite <- El in *. cbn [nonempty negb]. replace (negb (nonempty (trusted_proxies config))) with false by (by rewrite El).
  rewrite chain_result by done. cbv zeta. cbn [tail].
  assert (List.filter (fun e => negb (_is_trusted_proxy (_canonicalize_ip e) (trusted_proxies config)))
    (map (fun ip => _strip_forwarded_entry_port (strip ip)) rest) = []) as ->.
  { clear -Hr. induction Hr as [|e r He Hr IH]; [done|]. cbn [map List.filter]. rewrite He. exact IH. }
  rewrite andb_false_r. cbn [map head]. unfold _forwarded_header_candidate_addr. by rewrite Ha, Hm, Htx.
Qed.

(** * Extraction does not read the clock *)

Section extraction_ticks.
Context `{E : Env}.

Lemma warn_once_ticks flag w : keeps same_ticks w -> keeps same_ticks (warn_once flag w).
Proof. intros Hw. unfold warn_once. keeps_steps; [done|]. apply keeps_modify. by intros []. Qed.

Lemma extract_client_ip_ticks request c cfg ah : keeps same_ticks (extract_client_ip request c cfg ah).
Proof.
  unfold extract_client_ip, _handle_untrusted_proxy, _resolve_client_ip_from_forwarded_chain, send_agent_event,
    _warn_forwarded_header_preempted, _warn_forwarded_header_chain_too_short,
    _warn_forwarded_header_selected_entry_trusted_proxy, _warn_forwarded_header_depth_overcounts_hops.
  keeps_steps; try apply warn_once_ticks; auto with ticks; keeps_steps; auto with ticks.
Qed.
End extraction_ticks.

(** * Witnesses *)

Definition proxied_config : SecurityConfig :=
  default_config {{ trusted_proxies := ["10.0.0.1"; "10.1.0.0/16"]; trusted_proxy_depth := 2%Z }}.

Definition forwarded_request (host f : string) : Request :=
  {| rq_path := "/"; rq_scheme := "http"; rq_method := "GET"; rq_client_host := Some host;
     rq_headers := [("x-forwarded-for", f)]; rq_query_params := []; rq_https_url := "https://h/"; rq_url_full := "http://h/" |}.

#[local] Abbreviation sys0 := (sample_sys (ticking 0) redis_up).

Lemma untrusted_peer_is_the_client_witness :
  fst (@extract_client_ip (sample_env (ticking 0) redis_up) (forwarded_request "::ffff:203.0.113.9" "1.2.3.4, 10.0.0.1")
         None proxied_config true sys0) = Ok "203.0.113.9".
Proof.
  apply (@untrusted_peer_is_the_client (sample_env (ticking 0) redis_up) _ "::ffff:203.0.113.9"); vm_compute; reflexivity.
Defined.

Lemma forwarded_prefix_irrelevant_witness :
  fst (@extract_client_ip (sample_env (ticking 0) redis_up) (forwarded_request "10.0.0.1" "127.0.0.1,8.8.8.8,203.0.113.7:443, 10.1.2.3")
         None proxied_config true sys0) =
  fst (@extract_client_ip (sample_env (ticking 0) redis_up) (forwarded_request "10.0.0.1" ",203.0.113.7:443, 10.1.2.3")
         None proxied_config true sys0).
Proof.
  apply (@forwarded_prefix_irrelevant (sample_env (ticking 0) redis_up) ["203.0.113.7:443"; " 10.1.2.3"] "127.0.0.1,8.8.8.8" "");
    [discriminate|repeat constructor|reflexivity..].
Defined.

Lemma trusted_depth_selects_witness :
  fst (@extract_client_ip (sample_env (ticking 0) redis_up) (forwarded_request "10.0.0.1" "127.0.0.1,203.0.113.7:443, 10.1.2.3")
         None proxied_config true sys0) = Ok "203.0.113.7".
Proof.
  apply (@trusted_depth_selects (sample_env (ticking 0) redis_up) "127.0.0.1" "203.0.113.7:443" [" 10.1.2.3"]
           (V4 3405803783) "10.0.0.1"); try reflexivity; repeat constructor; reflexivity.
Defined.
