(* ===== verification/PathMatching.v ===== *)
(** Path exclusion: [guard_core/core/validation/path_matching.py].

    A path that matches [exclude_paths] skips the checks, so matching must not be
    fooled by encoding: the path is percent-decoded a bounded number of rounds,
    its dot segments are collapsed, and it is compared segment by segment.
    Decoding yields arbitrary code points, so text is a list of code points. *)
From S2P Require Import Prelude PyStr.

#[local] Open Scope Z_scope.

(** * Text as code points *)

Abbreviation ustr := (list Z).

(** A literal, or a string of the rest of the model. *)
Fixpoint ustr_of (s : string) : ustr :=
  match s with EmptyString => [] | String a s' => code a :: ustr_of s' end.

Definition u_slash : Z := 47.
Definition u_backslash : Z := 92.
Definition u_percent : Z := 37.
Definition u_semicolon : Z := 59.
Definition u_dot : Z := 46.

(** [s.split(c)] *)
Fixpoint usplit (c : Z) (s : ustr) : list ustr :=
  match s with
  | [] => [[]]
  | a :: s' =>
      if a =? c then [] :: usplit c s'
      else match usplit c s' with
           | x :: xs => (a :: x) :: xs
           | [] => [[a]]
           end
  end.

(** [sep.join(l)], a one-character separator *)
Fixpoint ujoin (c : Z) (l : list ustr) : ustr :=
  match l with
  | [] => []
  | [x] => x
  | x :: l' => x ++ c :: ujoin c l'
  end.

(** [s.replace(a, b)], one character each *)
Definition ureplace (a b : Z) (s : ustr) : ustr := map (fun x => if x =? a then b else x) s.

(** [s.startswith(p)] *)
Definition ustartswith (s p : ustr) : bool := bool_decide (p `prefix_of` s).

(** * Percent decoding *)

(** [[0-9A-Fa-f]] *)
Definition uhex (c : Z) : option Z :=
  if (48 <=? c) && (c <=? 57) then Some (c - 48)
  else if (65 <=? c) && (c <=? 70) then Some (c - 55)
  else if (97 <=? c) && (c <=? 102) then Some (c - 87)
  else None.

(** [%HH] at the front of the text: its byte, and what follows. *)
Definition percent_byte (s : ustr) : option (Z * ustr) :=
  match s with
  | p :: h :: l :: s' =>
      if p =? u_percent then
        match uhex h, uhex l with
        | Some x, Some y => Some (16 * x + y, s')
        | _, _ => None
        end
      else None
  | _ => None
  end.

(** [bytes.decode("utf-8")], strict: how many continuation bytes follow a lead
    byte, the bits it carries, and the bounds of the first continuation byte. *)
Definition utf8_lead (b : Z) : option (nat * Z * Z * Z) :=
  if b <=? 127 then Some (0%nat, b, 0, 0)
  else if (194 <=? b) && (b <=? 223) then Some (1%nat, b - 192, 128, 191)
  else if b =? 224 then Some (2%nat, 0, 160, 191)
  else if (225 <=? b) && (b <=? 236) then Some (2%nat, b - 224, 128, 191)
  else if b =? 237 then Some (2%nat, 13, 128, 159)
  else if (238 <=? b) && (b <=? 239) then Some (2%nat, b - 224, 128, 191)
  else if b =? 240 then Some (3%nat, 0, 144, 191)
  else if (241 <=? b) && (b <=? 243) then Some (3%nat, b - 240, 128, 191)
  else if b =? 244 then Some (3%nat, 4, 128, 143)
  else None.

(** [need] continuation bytes are still due for the code point [acc], the next
    one between [lo] and [hi]. *)
Fixpoint utf8_go (need : nat) (acc lo hi : Z) (bs : list Z) : option ustr :=
  match bs with
  | [] => match need with O => Some [] | S _ => None end
  | b :: bs' =>
      match need with
      | O => match utf8_lead b with
             | Some (O, v, _, _) => option_map (cons v) (utf8_go O 0 0 0 bs')
             | Some (S n, v, lo', hi') => utf8_go (S n) v lo' hi' bs'
             | None => None
             end
      | S n =>
          if (lo <=? b) && (b <=? hi) then
            let acc' := acc * 64 + (b - 128) in
            match n with
            | O => option_map (cons acc') (utf8_go O 0 0 0 bs')
            | S _ => utf8_go n acc' 128 191 bs'
            end
          else None
      end
  end.

Definition utf8_decode (bs : list Z) : option ustr := utf8_go 0 0 0 0 bs.

(** The bytes of a run of [%HH], decoded. *)
Definition _decode_percent_run (run : list Z) : option ustr := utf8_decode run.

(** [_PERCENT_RUN.sub]: [run] holds the bytes of the run being read. *)
Fixpoint decode_runs (run : list Z) (value : ustr) : option ustr :=
  match value with
  | [] => _decode_percent_run run
  | p :: tl =>
      match tl with
      | h :: l :: value' =>
          match percent_byte (p :: h :: l :: value') with
          | Some (b, _) => decode_runs (run ++ [b]) value'
          | None => match _decode_percent_run run, decode_runs [] tl with
                    | Some d, Some r => Some (d ++ p :: r)
                    | _, _ => None
                    end
          end
      | _ => match _decode_percent_run run, decode_runs [] tl with
             | Some d, Some r => Some (d ++ p :: r)
             | _, _ => None
             end
      end
  end.

Definition _decode_percent_once (value : ustr) : option ustr := decode_runs [] value.

(** [_PERCENT_RUN.search(value)] is not [None] *)
Fixpoint has_percent_run (value : ustr) : bool :=
  match value with
  | [] => false
  | _ :: tl => match percent_byte value with Some _ => true | None => has_percent_run tl end
  end.

Definition _MAX_DECODE_ROUNDS : nat := 4.

(** [for _ in range(n)] *)
Fixpoint decode_rounds (n : nat) (decoded : ustr) : option ustr :=
  match n with
  | O => Some decoded
  | S n' => match _decode_percent_once decoded with
            | None => None
            | Some next_decoded => decode_rounds n' next_decoded
            end
  end.

Definition _decode_percent_recursive (raw_path : ustr) : option ustr :=
  match decode_rounds _MAX_DECODE_ROUNDS raw_path with
  | None => None
  | Some decoded => if has_percent_run decoded then None else Some decoded
  end.

(** * Dot segments *)

Definition dot_segment (s : ustr) : bool := bool_decide (s = [u_dot]) || bool_decide (s = [u_dot; u_dot]).

Definition _fold_dot_segment_params (segment : ustr) : ustr :=
  let base := match usplit u_semicolon segment with b :: _ => b | [] => [] end in
  if dot_segment base then base else segment.

(** The body of the loop; [segments] is kept newest first. *)
Definition collapse_step (segments : list ustr) (raw_segment : ustr) : list ustr :=
  let segment := _fold_dot_segment_params raw_segment in
  if bool_decide (segment = []) || bool_decide (segment = [u_dot]) then segments
  else if bool_decide (segment = [u_dot; u_dot]) then tail segments
  else segment :: segments.

Definition path_of (segments : list ustr) : ustr := u_slash :: ujoin u_slash segments.

Definition _collapse_dot_segments (decoded : ustr) : ustr :=
  path_of (rev (fold_left collapse_step (usplit u_slash (ureplace u_backslash u_slash decoded)) [])).

Definition normalize_url_path (raw_path : ustr) : option ustr :=
  match _decode_percent_recursive raw_path with
  | None => None
  | Some decoded => Some (_collapse_dot_segments decoded)
  end.

(** * Matching *)

Definition _is_subtree_or_equal (path excluded : ustr) : bool :=
  if bool_decide (excluded = [u_slash]) then true
  else bool_decide (path = excluded) || ustartswith path (excluded ++ [u_slash]).

Definition normalize_exclude_paths (exclude_paths : list ustr) : list ustr :=
  omap normalize_url_path exclude_paths.

Definition path_matches_exclusions (normalized_path : ustr) (normalized_exclusions : list ustr) : bool :=
  existsb (_is_subtree_or_equal normalized_path) normalized_exclusions.

Definition path_is_excluded (url_path : ustr) (exclude_paths : list ustr) : bool :=
  match normalize_url_path url_path with
  | None => false
  | Some normalized_path =>
      path_matches_exclusions normalized_path (normalize_exclude_paths exclude_paths)
  end.

#[local] Close Scope Z_scope.

Example normalize_example :
  normalize_url_path (ustr_of "/a/%252e%252e/b/./%C3%A9;x//..;p/c") = Some (ustr_of "/b/c").
Proof. vm_compute. reflexivity. Qed.

(** * Splitting and joining *)

Lemma usplit_nonnil c s : usplit c s <> [].
Proof. destruct s as [|a s]; simpl; [done|]. case_match; [done|]. by destruct (usplit c s). Qed.

Lemma usplit_pieces c s : Forall (fun x => c ∉ x) (usplit c s).
Proof.
  induction s as [|a s IH]; simpl; [by repeat constructor; set_solver|].
  destruct (Z.eqb_spec a c); [constructor; [set_solver|done]|].
  destruct (usplit c s) as [|x xs]; [by repeat constructor; set_solver|].
  apply Forall_cons in IH as [Hx Hxs]. constructor; [set_solver|done].
Qed.

Lemma usplit_single c s : c ∉ s -> usplit c s = [s].
Proof.
  induction s as [|a s IH]; [done|]. intros Hc. apply not_elem_of_cons in Hc as [Ha Hs]. simpl.
  rewrite (IH Hs). by destruct (Z.eqb_spec a c); [congruence|].
Qed.

Lemma usplit_app c s t : usplit c (s ++ c :: t) = usplit c s ++ usplit c t.
Proof.
  induction s as [|a s IH]; simpl; [by rewrite Z.eqb_refl|]. rewrite IH. destruct (a =? c)%Z; [done|].
  pose proof (usplit_nonnil c s). by destruct (usplit c s).
Qed.

Lemma usplit_ujoin c l : l <> [] -> Forall (fun x => c ∉ x) l -> usplit c (ujoin c l) = l.
Proof.
  intros Hl Hf. induction Hf as [|x l Hx Hf IH]; [done|]. destruct l as [|y l]; [by apply usplit_single|].
  change (ujoin c (x :: y :: l)) with (x ++ c :: ujoin c (y :: l)).
  by rewrite usplit_app, usplit_single, IH.
Qed.

Lemma ujoin_app c l k : l <> [] -> k <> [] -> ujoin c (l ++ k) = ujoin c l ++ c :: ujoin c k.
Proof.
  intros Hl Hk. induction l as [|x l IH]; [done|]. destruct l as [|y l].
  - simpl. by destruct k.
  - change ((x :: y :: l) ++ k) with (x :: (y :: l) ++ k).
    change (ujoin c (x :: (y :: l) ++ k)) with (x ++ c :: ujoin c ((y :: l) ++ k)).
    rewrite IH by done. change (ujoin c (x :: y :: l)) with (x ++ c :: ujoin c (y :: l)).
    by rewrite <- app_assoc.
Qed.

(** * Percent runs *)

Lemma percent_byte_prefix s t b r :
  s `prefix_of` t -> percent_byte s = Some (b, r) -> percent_byte t <> None.
Proof.
  intros [k ->]. destruct s as [|p [|h [|l s]]]; try discriminate. simpl.
  destruct (p =? u_percent)%Z; [|discriminate]. destruct (uhex h); [|discriminate]. by destruct (uhex l).
Qed.

Lemma head_usplit_prefix c s x xs : usplit c s = x :: xs -> x `prefix_of` s.
Proof.
  revert x xs. induction s as [|a s IH]; simpl; intros x xs; [by intros [= <- _]|].
  destruct (a =? c)%Z; [intros [= <- _]; apply prefix_nil|].
  destruct (usplit c s) as [|y ys] eqn:E; intros [= <- _]; [apply prefix_cons, prefix_nil|].
  by eapply prefix_cons, IH.
Qed.

Lemma has_percent_run_pieces c s :
  has_percent_run s = false -> Forall (fun x => has_percent_run x = false) (usplit c s).
Proof.
  induction s as [|a s IH]; [by repeat constructor|]. cbn [has_percent_run usplit].
  destruct (percent_byte (a :: s)) eqn:Hp; [done|]. intros Hs. specialize (IH Hs).
  destruct (a =? c)%Z; [by constructor|]. destruct (usplit c s) as [|x xs] eqn:E; [by repeat constructor|].
  apply Forall_cons in IH as [Hx Hxs]. constructor; [|done]. cbn [has_percent_run].
  destruct (percent_byte (a :: x)) as [[b r]|] eqn:Hq; [|done]. exfalso.
  eapply percent_byte_prefix; [|exact Hq|exact Hp]. eapply prefix_cons, head_usplit_prefix, E.
Qed.

Lemma percent_byte_replace s : percent_byte (ureplace u_backslash u_slash s) = None <-> percent_byte s = None.
Proof.
  destruct s as [|p [|h [|l s]]]; [done..|]. simpl.
  assert (forall x, uhex (if (x =? u_backslash)%Z then u_slash else x) = uhex x) as Hh.
  { intros x. by destruct (Z.eqb_spec x u_backslash) as [->|]. }
  rewrite !Hh. destruct (Z.eqb_spec p u_backslash) as [->|]; [done|].
  destruct (p =? u_percent)%Z, (uhex h), (uhex l); done.
Qed.

Lemma has_percent_run_replace s :
  has_percent_run (ureplace u_backslash u_slash s) = has_percent_run s.
Proof.
  induction s as [|a s IH]; [done|]. pose proof (percent_byte_replace (a :: s)) as Hp.
  cbn [ureplace map has_percent_run] in *. fold (ureplace u_backslash u_slash s) in *. rewrite IH.
  destruct (percent_byte (a :: s)), (percent_byte _); try done; [by discriminate (proj1 Hp eq_refl)|].
  by discriminate (proj2 Hp eq_refl).
Qed.

Lemma has_percent_run_slash x y :
  has_percent_run (x ++ u_slash :: y) = has_percent_run x || has_percent_run y.
Proof.
  induction x as [|a x IH]; [by destruct y as [|? [|? ?]]|].
  cbn [app has_percent_run]. rewrite IH.
  assert (percent_byte (a :: x ++ u_slash :: y) = None <-> percent_byte (a :: x) = None) as Hp.
  { destruct x as [|h [|l x]]; simpl.
    - destruct y; [done|]. by destruct (a =? u_percent)%Z.
    - by destruct (a =? u_percent)%Z, (uhex h).
    - by destruct (a =? u_percent)%Z, (uhex h), (uhex l). }
  destruct (percent_byte (a :: x ++ u_slash :: y)), (percent_byte (a :: x)); try done;
    [by discriminate (proj2 Hp eq_refl)|by discriminate (proj1 Hp eq_refl)].
Qed.

Lemma has_percent_run_join l :
  Forall (fun x => has_percent_run x = false) l -> has_percent_run (path_of l) = false.
Proof.
  intros Hl. change (path_of l) with ([] ++ u_slash :: ujoin u_slash l).
  rewrite has_percent_run_slash. simpl. induction Hl as [|x l Hx Hl IH]; [done|].
  destruct l as [|y l]; [done|]. change (ujoin u_slash (x :: y :: l)) with (x ++ u_slash :: ujoin u_slash (y :: l)).
  by rewrite has_percent_run_slash, Hx, IH.
Qed.

(** Without a run there is nothing to decode. *)
Lemma decode_once_id v : has_percent_run v = false -> _decode_percent_once v = Some v.
Proof.
  unfold _decode_percent_once. induction v as [|p v IH]; [done|]. cbn [has_percent_run].
  destruct (percent_byte (p :: v)) eqn:Hp; [done|]. intros Hv. cbn [decode_runs].
  destruct v as [|h [|l v']]; rewrite ?Hp, (IH Hv); done.
Qed.

Lemma decode_recursive_id v : has_percent_run v = false -> _decode_percent_recursive v = Some v.
Proof.
  intros Hv. unfold _decode_percent_recursive. simpl. do 4 (rewrite decode_once_id by done). by rewrite Hv.
Qed.

Lemma decode_recursive_clean raw v : _decode_percent_recursive raw = Some v -> has_percent_run v = false.
Proof.
  unfold _decode_percent_recursive. destruct (decode_rounds _ _) as [d|]; [|done].
  destruct (has_percent_run d) eqn:E; [done|]. by intros [= <-].
Qed.

(** * Segments *)

(** A segment a normalised path may have. *)
Definition seg_ok (s : ustr) : Prop :=
  s <> [] /\ u_slash ∉ s /\ u_backslash ∉ s /\ has_percent_run s = false /\
  match usplit u_semicolon s with b :: _ => dot_segment b = false | [] => True end.

Lemma seg_ok_fold s : seg_ok s -> _fold_dot_segment_params s = s.
Proof.
  intros (_ & _ & _ & _ & Hb). unfold _fold_dot_segment_params. pose proof (usplit_nonnil u_semicolon s).
  destruct (usplit u_semicolon s) as [|b ?]; [done|]. by rewrite Hb.
Qed.

Lemma seg_ok_not_dot s : seg_ok s -> s <> [u_dot] /\ s <> [u_dot; u_dot].
Proof. intros (_ & _ & _ & _ & Hb). by split; intros ->. Qed.

Lemma collapse_step_push s l : seg_ok s -> collapse_step l s = s :: l.
Proof.
  intros Hs. unfold collapse_step. rewrite seg_ok_fold by done. destruct (seg_ok_not_dot s Hs), Hs as [? _].
  by rewrite !bool_decide_eq_false_2.
Qed.

Lemma collapse_push l acc : Forall seg_ok l -> fold_left collapse_step l acc = rev l ++ acc.
Proof.
  intros Hl. revert acc. induction Hl as [|s l Hs Hl IH]; intros acc; [done|]. cbn [fold_left rev].
  by rewrite collapse_step_push, IH, <- app_assoc.
Qed.

Lemma collapse_step_ok acc raw :
  Forall seg_ok acc -> u_slash ∉ raw -> u_backslash ∉ raw -> has_percent_run raw = false ->
  Forall seg_ok (collapse_step acc raw).
Proof.
  intros Ha H1 H2 H3. unfold collapse_step, _fold_dot_segment_params.
  pose proof (usplit_nonnil u_semicolon raw) as Hn. destruct (usplit u_semicolon raw) as [|b bs] eqn:Eb; [done|].
  destruct (dot_segment b) eqn:Hd.
  - apply orb_true_iff in Hd as [->%bool_decide_eq_true| ->%bool_decide_eq_true]; [done|].
    change (Forall seg_ok (tail acc)). by apply Forall_tail.
  - destruct (bool_decide (raw = []) || bool_decide (raw = [u_dot])) eqn:Hr; [done|]. bool_prop.
    destruct (bool_decide (raw = [u_dot; u_dot])); [by apply Forall_tail|]. simpl. constructor; [|done]. split_and!; try done. by rewrite Eb.
Qed.

Lemma ureplace_absent a b s : a <> b -> a ∉ ureplace a b s.
Proof.
  intros Hab. induction s as [|x s IH]; simpl; [set_solver|]. destruct (Z.eqb_spec x a); set_solver.
Qed.

Lemma ureplace_id a b s : a ∉ s -> ureplace a b s = s.
Proof.
  induction s as [|x s IH]; [done|]. intros [Hx Hs]%not_elem_of_cons. simpl. fold (ureplace a b s).
  rewrite IH by done. destruct (Z.eqb_spec x a); congruence.
Qed.

Lemma usplit_absent c a s : a ∉ s -> Forall (fun x => a ∉ x) (usplit c s).
Proof.
  induction s as [|x s IH]; simpl; [by repeat constructor|]. intros [Hx Hs]%not_elem_of_cons.
  specialize (IH Hs). destruct (x =? c)%Z; [constructor; [set_solver|done]|].
  destruct (usplit c s) as [|y ys]; [by repeat constructor; set_solver|].
  apply Forall_cons in IH as [Hy Hys]. constructor; [set_solver|done].
Qed.

(** The result of normalising: the segments of a clean path. *)
Lemma normalize_segments raw p :
  normalize_url_path raw = Some p -> exists segs, Forall seg_ok segs /\ p = path_of segs.
Proof.
  unfold normalize_url_path. destruct (_decode_percent_recursive raw) as [d|] eqn:Hd; [|done].
  apply decode_recursive_clean in Hd. intros [= <-]. eexists. split; [|reflexivity].
  apply Forall_rev. set (r := ureplace u_backslash u_slash d).
  assert (Forall (fun x => u_slash ∉ x /\ u_backslash ∉ x /\ has_percent_run x = false) (usplit u_slash r)) as Hr.
  { repeat (apply Forall_and; split); [apply usplit_pieces|apply usplit_absent, ureplace_absent; done|].
    apply has_percent_run_pieces. unfold r. by rewrite has_percent_run_replace. }
  assert (forall l acc, Forall seg_ok acc ->
    Forall (fun x => u_slash ∉ x /\ u_backslash ∉ x /\ has_percent_run x = false) l ->
    Forall seg_ok (fold_left collapse_step l acc)) as Hf; [|by apply Hf].
  induction l as [|x l IH]; intros acc Ha Hl; [done|]. apply Forall_cons in Hl as [(? & ? & ?) Hl].
  apply IH; [|done]. by apply collapse_step_ok.
Qed.

Lemma segs_no_slash segs : Forall seg_ok segs -> Forall (fun x => u_slash ∉ x) segs.
Proof. intros H. eapply Forall_impl; [exact H|]. by intros x (_ & ? & _). Qed.

Lemma ujoin_absent c a l : a <> c -> Forall (fun x => a ∉ x) l -> a ∉ ujoin c l.
Proof.
  intros Hac Hl. induction Hl as [|x l Hx Hl IH]; [set_solver|]. destruct l as [|y l]; [done|].
  change (ujoin c (x :: y :: l)) with (x ++ c :: ujoin c (y :: l)). set_solver.
Qed.

Lemma normalize_path_of segs : Forall seg_ok segs -> normalize_url_path (path_of segs) = Some (path_of segs).
Proof.
  intros Hs. unfold normalize_url_path. rewrite decode_recursive_id.
  2: { apply has_percent_run_join. eapply Forall_impl; [exact Hs|]. by intros x (_ & _ & _ & ? & _). }
  f_equal. unfold _collapse_dot_segments. rewrite ureplace_id.
  2: { apply not_elem_of_cons. split; [done|]. apply ujoin_absent; [done|].
       eapply Forall_impl; [exact Hs|]. by intros x (_ & _ & ? & _). }
  f_equal. change (path_of segs) with ([] ++ u_slash :: ujoin u_slash segs). rewrite usplit_app.
  cbn [usplit app fold_left]. change (collapse_step [] []) with (@nil ustr). destruct segs as [|s segs]; [done|].
  rewrite usplit_ujoin by (done || by apply segs_no_slash). rewrite collapse_push by done.
  by rewrite app_nil_r, rev_involutive.
Qed.

(** * Comparing normalised paths *)

Section compare.
Context (ps es : list ustr) (Hps : Forall seg_ok ps) (Hes : Forall seg_ok es).

Lemma usplit_path_of l : Forall seg_ok l -> l <> [] -> usplit u_slash (ujoin u_slash l) = l.
Proof. intros Hl Hn. by apply usplit_ujoin, segs_no_slash. Qed.

Lemma path_of_slash : path_of es = [u_slash] -> es = [].
Proof using Hes.
  intros [= Hj]. destruct Hes as [|e l He Hl]; [done|]. exfalso. destruct He as (He & _).
  destruct l; simpl in Hj; [done|]. by destruct e.
Qed.

(** The character-level subtree test is the prefix order on segments. *)
Lemma is_subtree_or_equal_spec :
  _is_subtree_or_equal (path_of ps) (path_of es) = true <-> es `prefix_of` ps.
Proof using Hps Hes.
  unfold _is_subtree_or_equal. case_bool_decide as Hr.
  { rewrite (path_of_slash Hr). split; [intros _; apply prefix_nil|done]. }
  assert (es <> []) as Hne by (by intros ->). split.
  - intros [He%bool_decide_eq_true|Hp]%orb_true_iff.
    + injection He as He. assert (ps <> []) as Hpn.
      { intros ->. symmetry in He. apply Hne, path_of_slash. unfold path_of. by rewrite He. }
      pose proof (usplit_path_of ps Hps Hpn) as Hsp. rewrite He, usplit_path_of in Hsp by done. by subst.
    + unfold ustartswith in Hp. apply bool_decide_eq_true in Hp as [t Ht]. change ((path_of es ++ [u_slash]) ++ t) with (u_slash :: (ujoin u_slash es ++ [u_slash]) ++ t) in Ht.
      unfold path_of in Ht. injection Ht as Ht. rewrite <- app_assoc in Ht. simpl in Ht.
      assert (ps <> []) as Hpn. { intros ->. simpl in Ht. by destruct (ujoin u_slash es). }
      pose proof (usplit_path_of ps Hps Hpn) as Hsp. rewrite Ht, usplit_app, usplit_path_of in Hsp by done.
      exists (usplit u_slash t). by rewrite <- Hsp.
  - intros [k ->]. destruct k as [|x k].
    + rewrite app_nil_r. by rewrite bool_decide_eq_true_2.
    + apply orb_true_iff. right. apply bool_decide_eq_true. exists (ujoin u_slash (x :: k)).
      unfold path_of. rewrite ujoin_app by done. cbn [app]. f_equal.
      rewrite <- app_assoc. done.
Qed.
End compare.

(** * Properties *)

(** C36: a normalised path is clean and normalising is idempotent: the result
    is ["/"] joined with segments that are neither empty nor ["."] nor [".."],
    hold no slash or backslash, and leave nothing to percent-decode; normalising
    it again gives it back. *)
Theorem normalize_url_path_clean raw p :
  normalize_url_path raw = Some p ->
  normalize_url_path p = Some p /\ has_percent_run p = false /\
  exists segs, p = path_of segs /\
    Forall (fun s => s <> [] /\ s <> [u_dot] /\ s <> [u_dot; u_dot] /\ u_slash ∉ s /\ u_backslash ∉ s) segs.
Proof.
  intros (segs & Hs & ->)%normalize_segments. split_and!.
  - by apply normalize_path_of.
  - apply has_percent_run_join. eapply Forall_impl; [exact Hs|]. by intros x (_ & _ & _ & ? & _).
  - exists segs. split; [done|]. eapply Forall_impl; [exact Hs|]. intros s Hk.
    destruct (seg_ok_not_dot s Hk). by destruct Hk as (? & ? & ? & _).
Qed.

(** A request path is excluded exactly when it normalises and the segments
    of some normalised exclusion are a prefix of its segments; no encoding, dot
    segment or sibling with a common text prefix makes it so. *)
Theorem path_is_excluded_spec url_path exclude_paths :
  path_is_excluded url_path exclude_paths = true <->
  exists segs e es,
    normalize_url_path url_path = Some (path_of segs) /\ Forall seg_ok segs /\
    e ∈ exclude_paths /\ normalize_url_path e = Some (path_of es) /\ Forall seg_ok es /\
    es `prefix_of` segs.
Proof.
  unfold path_is_excluded, path_matches_exclusions, normalize_exclude_paths. split.
  - destruct (normalize_url_path url_path) as [p|] eqn:Hp; [|done].
    destruct (normalize_segments _ _ Hp) as (segs & Hs & ->).
    intros (x & Hx & Hsub)%List.existsb_exists. apply list_elem_of_In, list_elem_of_omap in Hx as (e & He & Hn).
    destruct (normalize_segments _ _ Hn) as (es & Hes & ->). exists segs, e, es.
    split_and!; try done. by apply is_subtree_or_equal_spec.
  - intros (segs & e & es & -> & Hs & He & Hn & Hes & Hpre). apply List.existsb_exists. exists (path_of es). split.
    + apply list_elem_of_In, list_elem_of_omap. by exists e.
    + by apply is_subtree_or_equal_spec.
Qed.

Lemma normalize_url_path_clean_witness :
  normalize_url_path (ustr_of "/b/c") = Some (ustr_of "/b/c") /\ has_percent_run (ustr_of "/b/c") = false /\
  exists segs, ustr_of "/b/c" = path_of segs /\
    Forall (fun s => s <> [] /\ s <> [u_dot] /\ s <> [u_dot; u_dot] /\ u_slash ∉ s /\ u_backslash ∉ s) segs.
Proof.
  apply (normalize_url_path_clean (ustr_of "/a/%252e%252e/b/./%C3%A9;x//..;p/c")). vm_compute. reflexivity.
Defined.
