(* ===== verification/TTL.v ===== *)
(** The cache of [cachetools] the handlers keep their short-lived data in, as an
    interface: [TTLCache(maxsize, ttl)], timed by [time.monotonic].

    The package is not part of the repository, so its cache is a class: the
    operations, and the documented laws the handlers rely on.  The last section
    gives an implementation, which shows that the laws can be met. *)
From S2P Require Import Prelude PyStr PyDict Sys.

Class TTLCache (K V : Type) `{EqDecision K} (maxsize ttl : Z) : Type := {
  ttl_cache : Type;
  ttl_empty : ttl_cache;
  (** [cache.get(k)] at a time: a value that has not expired; the cache may
      record the use *)
  ttl_get : Z -> K -> ttl_cache -> option V * ttl_cache;
  (** [cache[k] = v] at a time, and how many entries [popitem] evicted *)
  ttl_set : Z -> K -> V -> ttl_cache -> ttl_cache * nat;
  (** [del cache[k]], where there is one *)
  ttl_del : Z -> K -> ttl_cache -> ttl_cache;

  ttl_empty_get : forall now k, fst (ttl_get now k ttl_empty) = None;
  (** reading does not change what is readable *)
  ttl_get_get : forall now now' k k' c,
    fst (ttl_get now' k' (snd (ttl_get now k c))) = fst (ttl_get now' k' c);
  (** an entry is readable until its time to live has passed *)
  ttl_set_get : forall now now' k v c, (0 < maxsize)%Z -> (now <= now')%Z ->
    fst (ttl_get now' k (fst (ttl_set now k v c))) = if (now' <? now + ttl)%Z then Some v else None;
  (** storing keeps the other entries unless it evicts *)
  ttl_set_other : forall now now' k k' v c, k <> k' -> (now <= now')%Z -> snd (ttl_set now k v c) = 0%nat ->
    fst (ttl_get now' k' (fst (ttl_set now k v c))) = fst (ttl_get now' k' c);
  (** and never adds any *)
  ttl_set_shrinks : forall now now' k k' v v' c, k <> k' -> (now <= now')%Z ->
    fst (ttl_get now' k' (fst (ttl_set now k v c))) = Some v' -> fst (ttl_get now' k' c) = Some v';
  ttl_del_get : forall now now' k c, (now <= now')%Z -> fst (ttl_get now' k (ttl_del now k c)) = None;
  ttl_del_other : forall now now' k k' c, k <> k' -> (now <= now')%Z ->
    fst (ttl_get now' k' (ttl_del now k c)) = fst (ttl_get now' k' c);
  (** what is readable later is readable now *)
  ttl_get_earlier : forall now now' k v c, (now <= now')%Z ->
    fst (ttl_get now' k c) = Some v -> fst (ttl_get now k c) = Some v
}.

(** * A list of entries, newest first *)

Section assoc.
Context {K V : Type} `{EqDecision K} (maxsize ttl : Z).

#[local] Abbreviation cache := (list (K * (V * Z))).

Definition assoc_get (now : Z) (k : K) (c : cache) : option V :=
  match dget k c with
  | Some (v, expires) => if (now <? expires)%Z then Some v else None
  | None => None
  end.

(** A full cache is emptied. *)
Definition assoc_set (now : Z) (k : K) (v : V) (c : cache) : cache * nat :=
  if (Z.of_nat (length c) <? maxsize)%Z
  then ((k, (v, (now + ttl)%Z)) :: c, 0%nat)
  else ([(k, (v, (now + ttl)%Z))], length c).

Definition assoc_del (now : Z) (k : K) (c : cache) : cache :=
  List.filter (fun p => negb (bool_decide (fst p = k))) c.

Lemma assoc_del_get now now' k c : assoc_get now' k (assoc_del now k c) = None.
Proof.
  unfold assoc_get. replace (dget k (assoc_del now k c)) with (@None (V * Z)); [done|].
  symmetry. apply dget_None. intros Hk. apply list_elem_of_fmap in Hk as ([k' p] & -> & Hp).
  apply list_elem_of_In, List.filter_In in Hp as [_ Hp]. simpl in Hp. by rewrite bool_decide_eq_true_2 in Hp.
Qed.

Lemma assoc_del_other now now' k k' c : k <> k' -> assoc_get now' k' (assoc_del now k c) = assoc_get now' k' c.
Proof.
  intros Hne. unfold assoc_get. replace (dget k' (assoc_del now k c)) with (dget k' c); [done|].
  induction c as [|[k1 p] c IH]; [done|]. cbn [assoc_del List.filter dget fst] in *. rewrite IH.
  destruct (decide (k' = k1)) as [->|]; [|by destruct (bool_decide _); cbn [negb dget]; rewrite ?decide_False].
  rewrite bool_decide_eq_false_2 by congruence. cbn [negb dget]. by rewrite decide_True.
Qed.

Program Definition assoc_ttl : TTLCache K V maxsize ttl := {|
  ttl_cache := cache;
  ttl_empty := [];
  ttl_get := fun now k c => (assoc_get now k c, c);
  ttl_set := assoc_set;
  ttl_del := assoc_del
|}.
Next Obligation. done. Qed.
Next Obligation. done. Qed.
Next Obligation.
  intros now now' k v c _ _. unfold assoc_set, assoc_get.
  destruct (Z.of_nat (length c) <? maxsize)%Z; cbn [fst dget]; by rewrite decide_True.
Qed.
Next Obligation.
  intros now now' k k' v c Hne _. unfold assoc_set, assoc_get.
  destruct (Z.ltb_spec (Z.of_nat (length c)) maxsize) as [|Hf]; cbn [fst snd dget]; rewrite decide_False by congruence.
  - done.
  - intros ->%length_zero_iff_nil. done.
Qed.
Next Obligation.
  intros now now' k k' v v' c Hne _. unfold assoc_set, assoc_get.
  destruct (Z.of_nat (length c) <? maxsize)%Z; cbn [fst dget]; rewrite decide_False by congruence; done.
Qed.
Next Obligation. intros now now' k c _. apply assoc_del_get. Qed.
Next Obligation. intros now now' k k' c Hne _. by apply assoc_del_other. Qed.
Next Obligation.
  intros now now' k v c Hle. simpl. unfold assoc_get. destruct (dget k c) as [[w e]|]; [|done].
  destruct (Z.ltb_spec now' e); [|done]. intros [= ->]. destruct (Z.ltb_spec now e); [done|lia].
Qed.
End assoc.
