(* ===== verification/Redis.v ===== *)
(** The Redis manager: [guard_core/handlers/redis_handler.py].

    A thin layer over the Redis client: connection handling, key prefixes, and
    the conversion of every failure to [GuardRedisError].  The client is
    [redis_call] of [Sys]; [Redis.from_url] builds it, and its failure to
    connect shows in the [PING] that follows.  [config] is the manager's own. *)
From S2P Require Import Prelude PyStr PyDict Sys Sample Config.

Section redis.
Context `{E : Env}.

Implicit Types config : SecurityConfig.

(** [_send_redis_event], with the manager's agent handler present or not *)
Definition _send_redis_event (agent_handler : bool) (event_type action_taken reason : string)
  (kwargs : list (string * string)) : M Sys unit :=
  if negb agent_handler then ret tt
  else agent_send_logged
         {| ev_type := event_type; ev_ip := "system"; ev_action := action_taken; ev_reason := reason;
            ev_handler := "redis"; ev_country := None; ev_meta := kwargs |}
         "Failed to send Redis event to agent".

Definition _discard_client : M Sys unit := modify (fun s => s {{ redis_client := false }}).

(** [PING] has no effect on the server. *)
Definition ping : M Sys unit := redis_call (fun r => (tt, r)).

Definition RedisManager_initialize config (agent_handler : bool) : M Sys unit :=
  if negb (enable_redis config) then _discard_client
  else
    modify (fun s => s {{ redis_closed := false }}) ;;;
    _discard_client ;;;
    catch any_exn
      (match redis_url config with
       | Some url =>
           ping ;;;
           modify (fun s => s {{ redis_client := true }}) ;;;
           log INFO "Redis connection established" ;;;
           _send_redis_event agent_handler "redis_connection" "connection_established"
             "Redis connection successfully established" []
       | None => log WARNING "Redis URL is None, skipping connection"
       end)
      (fun e =>
         log ERROR ("Redis connection failed: " +:+ exn_message e) ;;;
         _send_redis_event agent_handler "redis_error" "connection_failed"
           ("Redis connection failed: " +:+ exn_message e) [("error_type", "connection_error")] ;;;
         modify (fun s => s {{ redis_client := false }}) ;;;
         raise (GuardRedisError 503 "Redis connection failed")).

Definition RedisManager_close (agent_handler : bool) : M Sys unit :=
  let* client := gets redis_client in
  when client
    (_discard_client ;;;
     log INFO "Redis connection closed" ;;;
     _send_redis_event agent_handler "redis_connection" "connection_closed"
       "Redis connection closed gracefully" []) ;;;
  modify (fun s => s {{ redis_closed := true }}).

(** [redis.exceptions.ConnectionError] and [AttributeError], which
    [get_connection] converts; the class is part of [OtherError]. *)
Definition is_connection_error (e : exn) : bool :=
  match e with
  | OtherError cls _ => (cls =? "ConnectionError")%string || (cls =? "AttributeError")%string
  | _ => false
  end.

(** [async with get_connection() as conn: body].  The body may use more state
    than [Sys]: [lift] runs the calls of the manager in it. *)
Definition get_connection_in {W A} (lift : forall B, M Sys B -> M W B) config (agent_handler : bool)
  (body : M W A) : M W A :=
  catch is_connection_error
    (let* closed := lift _ (gets redis_closed) in
     when closed
       (lift _ (_send_redis_event agent_handler "redis_error" "operation_failed"
          "Attempted to use closed Redis connection" [("error_type", "connection_closed")]) ;;;
        raise (GuardRedisError 503 "Redis connection closed")) ;;;
     let* client := lift _ (gets redis_client) in
     when (negb client) (lift _ (RedisManager_initialize config agent_handler)) ;;;
     let* client := lift _ (gets redis_client) in
     when (negb client)
       (lift _ (_send_redis_event agent_handler "redis_error" "operation_failed"
          "Redis connection is None after initialization" [("error_type", "initialization_failed")]) ;;;
        raise (GuardRedisError 503 "Redis connection failed")) ;;;
     body)
    (fun e =>
       lift _ (log ERROR ("Redis operation failed: " +:+ exn_message e)) ;;;
       lift _ (_send_redis_event agent_handler "redis_error" "operation_failed"
         ("Redis operation failed: " +:+ exn_message e) [("error_type", "operation_error")]) ;;;
       raise (GuardRedisError 503 "Redis connection failed")).

Definition get_connection {A} config (agent_handler : bool) (body : M Sys A) : M Sys A :=
  get_connection_in (fun _ m => m) config agent_handler body.

(** [safe_operation]; [None] when Redis is disabled *)
Definition safe_operation {A} config (agent_handler : bool) (function_name : string) (func : M Sys A)
  : M Sys (option A) :=
  if negb (enable_redis config) then ret None
  else
    catch any_exn
      (let* a := get_connection config agent_handler func in ret (Some a))
      (fun e =>
         log ERROR ("Redis operation failed: " +:+ exn_message e) ;;;
         _send_redis_event agent_handler "redis_error" "safe_operation_failed"
           ("Redis safe operation failed: " +:+ exn_message e)
           [("error_type", "safe_operation_error"); ("function_name", function_name)] ;;;
         raise (GuardRedisError 503 "Redis operation failed")).

Definition full_key config (namespace key : string) : string :=
  redis_prefix config +:+ namespace +:+ ":" +:+ key.

Definition get_key config (ah : bool) (namespace key : string) : M Sys (option string) :=
  if negb (enable_redis config) then ret None
  else let* r := safe_operation config ah "_get" (redis_call (srv_get (full_key config namespace key))) in
       ret (match r with Some v => v | None => None end).

(** [ex=ttl] unless the time to live is [None] or zero *)
Definition set_key config (ah : bool) (namespace key value : string) (ttl : option Z) : M Sys (option bool) :=
  if negb (enable_redis config) then ret None
  else let ex := match ttl with Some t => if (t =? 0)%Z then None else Some t | None => None end in
       let* r := safe_operation config ah "_set" (redis_call (srv_set (full_key config namespace key) value ex)) in
       ret (Some (match r with Some _ => true | None => false end)).

Definition incr config (ah : bool) (namespace key : string) (ttl : option Z) : M Sys (option Z) :=
  if negb (enable_redis config) then ret None
  else let k := full_key config namespace key in
       let* r := safe_operation config ah "_incr" (redis_call (fun st =>
         let '(n, st) := srv_incr k st in
         match ttl with
         | Some t => if (t =? 0)%Z then (n, st) else let '(_, st) := srv_expire k t st in (n, st)
         | None => (n, st)
         end)) in
       ret (Some (match r with Some n => n | None => 0%Z end)).

Definition record_sliding_window_hit config (ah : bool) (namespace key : string)
  (timestamp window_start ttl : Z) : M Sys Z :=
  if negb (enable_redis config) then ret 0%Z
  else let k := full_key config namespace key in
       let* r := safe_operation config ah "_record"
         (let* member := draw_uuid in
          redis_call (fun st =>
            let '(_, st) := srv_zadd k member timestamp st in
            let '(_, st) := srv_zremrangebyscore k MinusInf (Excl window_start) st in
            let '(n, st) := srv_zcard k st in
            let '(_, st) := srv_expire k ttl st in
            (n, st))) in
       ret (match r with Some n => n | None => 0%Z end).

Definition exists_key config (ah : bool) (namespace key : string) : M Sys (option bool) :=
  if negb (enable_redis config) then ret None
  else let* r := safe_operation config ah "_exists" (redis_call (srv_exists (full_key config namespace key))) in
       ret (Some (match r with Some n => negb (n =? 0)%Z | None => false end)).

Definition delete config (ah : bool) (namespace key : string) : M Sys (option Z) :=
  if negb (enable_redis config) then ret None
  else let* r := safe_operation config ah "_delete" (redis_call (srv_delete [full_key config namespace key])) in
       ret (Some (match r with Some n => n | None => 0%Z end)).

Definition keys config (ah : bool) (pattern : string) : M Sys (option (list string)) :=
  if negb (enable_redis config) then ret None
  else let* r := safe_operation config ah "_keys" (redis_call (srv_keys (redis_prefix config +:+ pattern))) in
       ret (Some (match r with Some l => l | None => [] end)).

Definition delete_pattern config (ah : bool) (pattern : string) : M Sys (option Z) :=
  if negb (enable_redis config) then ret None
  else let* r := safe_operation config ah "_delete_pattern"
         (let* ks := redis_call (srv_keys (redis_prefix config +:+ pattern)) in
          match ks with
          | [] => ret 0%Z
          | _ => redis_call (srv_delete ks)
          end) in
       ret (Some (match r with Some n => n | None => 0%Z end)).
End redis.

(** * Lemmas *)

Section redis_lemmas.
Context `{E : Env} (config : SecurityConfig) (ah : bool).

Lemma wp_send_redis_event t a r kw (Q : res unit -> Sys -> Prop) s :
  (forall s', same_clock s s' -> Q (Ok tt) s') -> wp (_send_redis_event ah t a r kw) Q s.
Proof.
  intros H. unfold _send_redis_event. destruct ah; cbn [negb]; [|by apply wp_ret, H].
  apply wp_agent_send_logged. intros s' Hs _. by apply H.
Qed.

(** What a guarded operation may end in. *)
Definition redis_result {A} (r : res (option A)) : Prop :=
  match r with
  | Ok None => enable_redis config = false
  | Ok (Some _) => enable_redis config = true
  | Raise e => enable_redis config = true /\ e = GuardRedisError 503 "Redis operation failed"
  end.

Lemma wp_safe_operation {A} name (func : M Sys A) s :
  wp (safe_operation config ah name func) (fun r _ => redis_result r) s.
Proof.
  unfold safe_operation. destruct (enable_redis config) eqn:He; cbn [negb]; [|by apply wp_ret].
  apply wp_catch, wp_bind. unfold wp at 1. destruct (get_connection config ah func s) as [[a|e] s1]; cbn [fst snd].
  - by apply wp_ret.
  - cbn [any_exn]. apply wp_bind, wp_log. intros s2 _ _. apply wp_bind, wp_send_redis_event.
    intros s3 _. apply wp_raise. by split.
Qed.

(** Redis failures reach the callers in one form.  Whatever the client call
    does, [safe_operation] returns [None] exactly when Redis is disabled, and
    otherwise returns the operation's value or raises [GuardRedisError(503)]. *)
Theorem safe_operation_outcome {A} name (func : M Sys A) s :
  redis_result (fst (safe_operation config ah name func s)).
Proof. apply (wp_safe_operation name func s). Qed.

(** On an open connection the operation runs as it is. *)
Lemma get_connection_open {A} (func : M Sys A) s :
  redis_closed s = false -> redis_client s = true ->
  get_connection config ah func s = catch is_connection_error func (fun e =>
    log ERROR ("Redis operation failed: " +:+ exn_message e) ;;;
    _send_redis_event ah "redis_error" "operation_failed"
      ("Redis operation failed: " +:+ exn_message e) [("error_type", "operation_error")] ;;;
    raise (GuardRedisError 503 "Redis connection failed")) s.
Proof.
  intros Hc Hr. unfold get_connection, get_connection_in, catch at 1. unfold bind at 1, gets at 1. rewrite Hc. cbn [when].
  unfold bind at 1, ret at 1. unfold bind at 1, gets at 1. rewrite Hr. cbn [negb when].
  unfold bind at 1, ret at 1. unfold bind at 1, gets at 1. rewrite Hr. cbn [negb when].
  unfold bind at 1, ret at 1. reflexivity.
Qed.

Lemma safe_operation_ok {A} name (func : M Sys A) s a s' :
  enable_redis config = true -> redis_closed s = false -> redis_client s = true ->
  func s = (Ok a, s') -> safe_operation config ah name func s = (Ok (Some a), s').
Proof.
  intros He Hc Hr Hf. unfold safe_operation. rewrite He. cbn [negb]. unfold catch, bind.
  rewrite get_connection_open by done. unfold catch. by rewrite Hf.
Qed.
End redis_lemmas.

(** * Redis calls do not read the clock *)

Section redis_ticks.
Context `{E : Env} (config : SecurityConfig) (ah : bool).

Ltac ticks_steps := keeps_steps; auto with ticks; try (apply keeps_modify; intros []; done).

Lemma send_redis_event_ticks ty a r kw : keeps same_ticks (_send_redis_event ah ty a r kw).
Proof. unfold _send_redis_event. ticks_steps. Qed.

#[local] Hint Resolve send_redis_event_ticks : ticks.

Lemma initialize_ticks : keeps same_ticks (RedisManager_initialize config ah).
Proof. unfold RedisManager_initialize, _discard_client, ping. ticks_steps. Qed.

#[local] Hint Resolve initialize_ticks : ticks.

Lemma get_connection_ticks {A} (body : M Sys A) :
  keeps same_ticks body -> keeps same_ticks (get_connection config ah body).
Proof. intros Hb. unfold get_connection, get_connection_in. ticks_steps. Qed.

Lemma safe_operation_ticks {A} name (func : M Sys A) :
  keeps same_ticks func -> keeps same_ticks (safe_operation config ah name func).
Proof. intros Hf. unfold safe_operation. ticks_steps. by apply get_connection_ticks. Qed.

Lemma get_key_ticks ns k : keeps same_ticks (get_key config ah ns k).
Proof. unfold get_key. ticks_steps. apply safe_operation_ticks. auto with ticks. Qed.

Lemma set_key_ticks ns k v t : keeps same_ticks (set_key config ah ns k v t).
Proof. unfold set_key. ticks_steps; apply safe_operation_ticks; auto with ticks. Qed.

Lemma delete_ticks ns k : keeps same_ticks (delete config ah ns k).
Proof. unfold delete. ticks_steps. apply safe_operation_ticks. auto with ticks. Qed.
End redis_ticks.

#[export] Hint Resolve get_connection_ticks safe_operation_ticks get_key_ticks set_key_ticks delete_ticks
  send_redis_event_ticks : ticks.

(** * A server that works *)

(** What the manager relies on of the strings kept by the server: [sview] is the
    text under a key. *)
Class StringLaws `{E : Env} : Type := {
  sview : string -> redis_state -> option string;
  get_view : forall key st, fst (srv_get key st) = sview key st;
  get_keeps_view : forall key k st, sview k (snd (srv_get key st)) = sview k st;
  set_view : forall key v ttl st, sview key (snd (srv_set key v ttl st)) = Some v;
  set_other_view : forall key k v ttl st, k <> key -> sview k (snd (srv_set key v ttl st)) = sview k st
}.

Section working.
Context `{E : Env} `{SL : !StringLaws}.
Context (config : SecurityConfig) (ah : bool).
Context (Hen : enable_redis config = true) (Hup : forall n, redis_outcome n = None).

Definition connected (s : Sys) : Prop := redis_closed s = false /\ redis_client s = true.

Lemma operation_up {A} name (command : redis_state -> A * redis_state) s : connected s ->
  exists s', safe_operation config ah name (redis_call command) s = (Ok (Some (fst (command (redis s)))), s') /\
    connected s' /\ redis s' = snd (command (redis s)).
Proof using Hen Hup.
  intros [Hc Hr]. assert (exists s', redis_call command s = (Ok (fst (command (redis s))), s') /\ connected s' /\
    redis s' = snd (command (redis s))) as (s' & Hs & Hs').
  { unfold redis_call. destruct (command (redis s)) as [a r]. rewrite Hup. eexists. split; [reflexivity|]. by destruct s. }
  exists s'. split; [by apply safe_operation_ok|done].
Qed.

Lemma get_key_up ns key s : connected s ->
  exists s', get_key config ah ns key s = (Ok (sview (full_key config ns key) (redis s)), s') /\ connected s' /\
    forall k, sview k (redis s') = sview k (redis s).
Proof using Hen Hup.
  intros Hs. destruct (operation_up "_get" (srv_get (full_key config ns key)) s Hs) as (s' & Hrun & Hs' & Hr).
  exists s'. split_and!; [|done|intros k; rewrite Hr; apply get_keeps_view].
  unfold get_key. rewrite Hen. cbn [negb]. rewrite (bind_ok _ _ _ _ _ Hrun). cbn [ret]. by rewrite get_view.
Qed.

Lemma set_key_up ns key value ttl s : connected s ->
  exists s', set_key config ah ns key value ttl s = (Ok (Some true), s') /\ connected s' /\
    sview (full_key config ns key) (redis s') = Some value /\
    forall k, k <> full_key config ns key -> sview k (redis s') = sview k (redis s).
Proof using Hen Hup.
  intros Hs. unfold set_key. rewrite Hen. cbn [negb]. cbv zeta.
  destruct (operation_up "_set" (srv_set (full_key config ns key) value
    (match ttl with Some t => if (t =? 0)%Z then None else Some t | None => None end)) s Hs) as (s' & Hrun & Hs' & Hr).
  exists s'. split_and!; [|done|rewrite Hr; apply set_view|intros k Hk; rewrite Hr; by apply set_other_view].
  by rewrite (bind_ok _ _ _ _ _ Hrun).
Qed.
End working.

(** The sample Redis answers as a Redis does. *)
Definition sample_string_laws clk outcome : @StringLaws (sample_env clk outcome).
Proof.
  refine (@Build_StringLaws (sample_env clk outcome) (fun key st => dget key (sr_keys st)) _ _ _ _); try done.
  - intros key v ttl st. cbn. apply dget_dset_eq.
  - intros key k v ttl st Hk. cbn. by apply dget_dset_ne.
Defined.
