(* ===== verification/SecurityHeaders.v ===== *)
(** Security headers: [guard_core/handlers/security_headers_handler.py] and its
    mixins [_security_headers_config.py], [_security_headers_cache.py],
    [_security_headers_cors.py] and [_security_headers_events.py].

    The settings are what [config.security_headers] holds, a dictionary of anything,
    and what [json.loads] makes of the texts found in Redis: they are data of JSON
    here, [JNull] for [None], and using them where they have another shape raises what
    it raises in the code.  The headers of a configuration are computed once per path
    and kept in a time-to-live cache. *)
From Stdlib Require Import DecimalString.
From S2P Require Import Prelude PyStr PyDict Json JsonPattern IpAddr Url Sys Sample Config Redaction TTL Redis.

#[local] Open Scope Z_scope.

Definition HEADERS_CACHE_SIZE : Z := 1000.
Definition HEADERS_CACHE_TTL : Z := 300000000.

(** A configuration object: its identity ([id(config)]) and its value. *)
Abbreviation config_object := (string * SecurityConfig)%type.

Abbreviation headers := (list (string * string)).

(** The dictionary [_compute_cors_config] returns. *)
Record CorsConfig : Type := mkCors {
  origins : list string;
  allow_credentials : bool;
  allow_methods : list string;
  allow_headers : list string
}.

(** [SecurityHeadersManager.default_headers] *)
Definition class_default_headers : headers := [
  ("X-Content-Type-Options", "nosniff");
  ("X-Frame-Options", "SAMEORIGIN");
  ("X-XSS-Protection", "1; mode=block");
  ("Referrer-Policy", "strict-origin-when-cross-origin");
  ("Permissions-Policy", "geolocation=(), microphone=(), camera=()");
  ("X-Permitted-Cross-Domain-Policies", "none");
  ("X-Download-Options", "noopen");
  ("Cross-Origin-Embedder-Policy", "require-corp");
  ("Cross-Origin-Opener-Policy", "same-origin");
  ("Cross-Origin-Resource-Policy", "same-origin")
].

(** * Values ([_security_headers_config.py]) *)

(** ** Data of any type

    The operations of Python the settings meet, on the types of JSON. *)

Definition py_type (j : json) : string :=
  match j with
  | JNull => "NoneType" | JBool _ => "bool" | JInt _ => "int" | JFloat _ => "float"
  | JStr _ => "str" | JArr _ => "list" | JObj _ => "dict"
  end.

Definition AttributeError (j : json) (name : string) : exn :=
  OtherError "AttributeError" ("'" +:+ py_type j +:+ "' object has no attribute '" +:+ name +:+ "'").

Definition and_then {A B} (r : res A) (k : A -> res B) : res B :=
  match r with Ok a => k a | Raise e => Raise e end.

(** The members, for [j.items()] and [j.get(...)] *)
Definition py_dict (j : json) (method : string) : res (list (string * json)) :=
  match j with JObj members => Ok members | _ => Raise (AttributeError j method) end.

(** [members.get(key, default)] *)
Definition option_get (key : string) (dflt : json) (members : list (string * json)) : json :=
  default dflt (dget key members).

(** What a loop over [j] goes through, if it can. *)
Definition py_elements (j : json) : option (list json) :=
  match j with
  | JStr s => Some (map (fun c => JStr (String c "")) (String.list_ascii_of_string s))
  | JArr items => Some items
  | JObj members => Some (map (fun m => JStr (fst m)) members)
  | _ => None
  end.

(** [x in j] *)
Definition py_in (x : string) (j : json) : res bool :=
  match j, py_elements j with
  | JStr s, _ => Ok (contains x s)
  | _, Some elements => Ok (existsb (json_eqb (JStr x)) elements)
  | _, None => Raise (TypeError ("argument of type '" +:+ py_type j +:+ "' is not iterable"))
  end.

(** The texts of the elements, for [sep.join(...)] *)
Fixpoint text_items (i : Z) (elements : list json) : res (list string) :=
  match elements with
  | [] => Ok []
  | JStr s :: elements' => and_then (text_items (i + 1) elements') (fun l => Ok (s :: l))
  | j :: _ => Raise (TypeError ("sequence item " +:+ string_of_Z i +:+ ": expected str instance, " +:+ py_type j +:+ " found"))
  end.

(** [sep.join(j)] *)
Definition py_join (sep : string) (j : json) : res string :=
  match py_elements j with
  | Some elements => and_then (text_items 0 elements) (fun l => Ok (join sep l))
  | None => Raise (TypeError "can only join an iterable")
  end.

(** [j < n], given [float(literal) < n] *)
Definition py_below (float_below : string -> Z -> bool) (j : json) (n : Z) : res bool :=
  match j with
  | JInt m => Ok (m <? n)
  | JBool b => Ok (Z.b2z b <? n)
  | JFloat literal => Ok (float_below literal n)
  | _ => Raise (TypeError ("'<' not supported between instances of '" +:+ py_type j +:+ "' and 'int'"))
  end.

(** The characters whose [ord] is taken. *)
Fixpoint ord_items (elements : list json) : res string :=
  match elements with
  | [] => Ok ""
  | JStr (String c "") :: elements' => and_then (ord_items elements') (fun s => Ok (String c s))
  | JStr s :: _ =>
      Raise (TypeError ("ord() expected a character, but string of length " +:+ string_of_Z (Z.of_nat (slen s)) +:+ " found"))
  | j :: _ => Raise (TypeError ("ord() expected string of length 1, but " +:+ py_type j +:+ " found"))
  end.

(** ** Names and values of headers *)

(** A character of [_HEADER_NAME_TOKEN_RE] *)
Definition is_token_char (c : ascii) : bool :=
  in_range 48 57 c || in_range 65 90 c || in_range 97 122 c || has_char c "!#$%&'*+.^_`|~-".

Definition _validate_header_name (name : string) : res string :=
  if truthy name && sforall is_token_char name then Ok name
  else Raise (ValueError ("Invalid header name: " +:+ name)).

(** [ord(char) >= 32 or char == "\t"] *)
Definition is_value_char (c : ascii) : bool := (32 <=? code c) || (code c =? 9).

Fixpoint sfilter (p : ascii -> bool) (s : string) : string :=
  match s with EmptyString => "" | String c s' => if p c then String c (sfilter p s') else sfilter p s' end.

Section values.
Context `{TS : TextServices}.

(** A text, or anything else that can be searched and whose elements are characters. *)
Definition _validate_header_value (value : json) : res string :=
  and_then (py_in (String (chr 13) "") value) (fun cr =>
  and_then (py_in (String (chr 10) "") value) (fun lf =>
  let elements := default [] (py_elements value) in
  if cr || lf then Raise (ValueError ("Invalid header value contains newline: " +:+ py_str float_repr value))
  else if (8192 <? length elements)%nat
  then Raise (ValueError ("Header value too long: " +:+ string_of_Z (Z.of_nat (length elements)) +:+ " bytes"))
  else and_then (ord_items elements) (fun text => Ok (sfilter is_value_char text)))).

(** [headers\[header_name\] = ...] *)
Definition _reset_or_apply_header (hs : headers) (header_name : string) (override : json) (class_default : string)
  : res headers :=
  match override with
  | JNull => Ok (dset header_name class_default hs)
  | _ => and_then (_validate_header_value override) (fun value => Ok (dset header_name value hs))
  end.

Definition class_default (name : string) : string := default "" (dget name class_default_headers).

Definition _compute_default_headers (frame_options content_type_options xss_protection referrer_policy : json)
  (permissions_policy : json) : res headers :=
  let reset name override hs := _reset_or_apply_header hs name override (class_default name) in
  and_then (reset "X-Frame-Options" frame_options class_default_headers) (fun hs =>
  and_then (reset "X-Content-Type-Options" content_type_options hs) (fun hs =>
  and_then (reset "X-XSS-Protection" xss_protection hs) (fun hs =>
  and_then (reset "Referrer-Policy" referrer_policy hs) (fun hs =>
  if json_eqb permissions_policy (JStr "UNSET")
  then Ok (dset "Permissions-Policy" (class_default "Permissions-Policy") hs)
  else if json_truth float_repr permissions_policy
  then and_then (_validate_header_value permissions_policy) (fun policy => Ok (dset "Permissions-Policy" policy hs))
  else Ok (ddel "Permissions-Policy" hs))))).

(** [{validate(name): validate(value) for name, value in custom_headers.items()}] *)
Fixpoint validate_headers (custom : list (string * json)) (hs : headers) : res headers :=
  match custom with
  | [] => Ok hs
  | (name, value) :: custom' =>
      and_then (_validate_header_name name) (fun name =>
      and_then (_validate_header_value value) (fun value => validate_headers custom' (dset name value hs)))
  end.

Definition _compute_custom_headers (custom_headers : json) : res headers :=
  if negb (json_truth float_repr custom_headers) then Ok []
  else and_then (py_dict custom_headers "items") (fun custom => validate_headers custom []).

(** ** Texts of the headers *)

Fixpoint csp_directives (items : list (string * json)) : res (list string) :=
  match items with
  | [] => Ok []
  | (directive, sources) :: items' =>
      and_then (if json_truth float_repr sources
                then and_then (py_join " " sources) (fun sources_str => Ok (directive +:+ " " +:+ sources_str))
                else Ok directive) (fun text =>
      and_then (csp_directives items') (fun l => Ok (text :: l)))
  end.

Definition _build_csp (csp_config : json) : res string :=
  and_then (py_dict csp_config "items") (fun items => and_then (csp_directives items) (fun l => Ok (join "; " l))).

Definition _build_hsts (hsts_config : json) : res string :=
  match hsts_config with
  | JObj members =>
      match dget "max_age" members with
      | Some age =>
          let set key := json_truth float_repr (option_get key JNull members) in
          Ok (join "; " (["max-age=" +:+ py_str float_repr age] ++
                         (if set "include_subdomains" then ["includeSubDomains"] else []) ++
                         (if set "preload" then ["preload"] else [])))
      | None => Raise (KeyError "max_age")
      end
  | JArr _ => Raise (TypeError "list indices must be integers or slices, not str")
  | JStr _ => Raise (TypeError "string indices must be integers, not 'str'")
  | _ => Raise (TypeError ("'" +:+ py_type hsts_config +:+ "' object is not subscriptable"))
  end.

(** The dictionary [_compute_hsts_config] returns. *)
Definition hsts_dict (max_age include_subdomains preload : json) : json :=
  JObj [("max_age", max_age); ("include_subdomains", include_subdomains); ("preload", preload)].

Definition json_of_headers (hs : headers) : json := JObj (map (fun h => (fst h, JStr (snd h))) hs).
End values.

(** * The manager *)

Section manager.
Context `{E : Env} `{TS : TextServices} `{HC : !TTLCache string headers HEADERS_CACHE_SIZE HEADERS_CACHE_TTL}.

(** [SecurityHeadersManager] *)
Record SecurityHeadersManager : Type := mkHeadersManager {
  headers_cache : ttl_cache (K := string) (V := headers);
  hm_redis : option (RedisHandle SecurityConfig);
  hm_agent : bool;
  hm_enabled : bool;
  hm_custom_headers : headers;
  hm_csp_config : json;
  hm_hsts_config : json;
  hm_cors_config : option CorsConfig;
  hm_default_headers : headers
}.

Definition SecurityHeadersManager_new : SecurityHeadersManager :=
  mkHeadersManager ttl_empty None false true [] JNull JNull None class_default_headers.

#[local] Abbreviation H := (M (Sys * SecurityHeadersManager)).

Definition h_get {A} (f : SecurityHeadersManager -> A) : H A := gets (fun w => f (snd w)).
Definition h_set (f : SecurityHeadersManager -> SecurityHeadersManager) : H unit := modify (fun w => (fst w, f (snd w))).

(** ** Computing the settings *)

(** ["'unsafe-inline'" in sources or "'unsafe-eval'" in sources] *)
Definition unsafe_sources (sources : json) : res bool :=
  and_then (py_in "'unsafe-inline'" sources) (fun inline =>
    if inline : bool then Ok true else py_in "'unsafe-eval'" sources).

Definition _compute_csp_config (csp : json) : H json :=
  if negb (json_truth float_repr csp) then ret JNull
  else
    let* items := lift_res (py_dict csp "items") in
    for_each items (fun d =>
      let* unsafe := lift_res (unsafe_sources (snd d)) in
      when unsafe (sys (log WARNING ("CSP directive '" +:+ fst d +:+ "' contains unsafe sources")))) ;;;
    ret csp.

Definition _compute_hsts_config (hsts_max_age hsts_include_subdomains hsts_preload : json) : H json :=
  match hsts_max_age with
  | JNull => ret JNull
  | _ =>
      if json_truth float_repr hsts_preload then
        let* short := lift_res (py_below float_below hsts_max_age 31536000) in
        when short (sys (log WARNING "HSTS preload requires max_age >= 31536000")) ;;;
        let apart := negb (json_truth float_repr hsts_include_subdomains) in
        when apart (sys (log WARNING "HSTS preload requires includeSubDomains")) ;;;
        ret (hsts_dict hsts_max_age (if apart then JBool true else hsts_include_subdomains)
               (if short : bool then JBool false else hsts_preload))
      else ret (hsts_dict hsts_max_age hsts_include_subdomains hsts_preload)
  end.

Definition _compute_cors_config (cors_origins : list string) (cors_allow_credentials : bool)
  (cors_allow_methods cors_allow_headers : list string) : H (option CorsConfig) :=
  if negb (nonempty cors_origins) then ret None
  else
    let clash := in_list "*" cors_origins && cors_allow_credentials in
    when clash (sys (log ERROR "CORS config error: Wildcard origin disallowed with credentials")) ;;;
    ret (Some (mkCors cors_origins (if clash then false else cors_allow_credentials)
                 (if nonempty cors_allow_methods then cors_allow_methods else ["GET"; "POST"])
                 (if nonempty cors_allow_headers then cors_allow_headers else ["*"]))).

Definition _configure_csp (csp : json) : H unit :=
  let* csp := _compute_csp_config csp in h_set (fun m => m {{ hm_csp_config := csp }}).

Definition _configure_hsts (hsts_max_age hsts_include_subdomains hsts_preload : json) : H unit :=
  let* hsts := _compute_hsts_config hsts_max_age hsts_include_subdomains hsts_preload in
  h_set (fun m => m {{ hm_hsts_config := hsts }}).

Definition _configure_cors (cors_origins : list string) (cors_allow_credentials : bool)
  (cors_allow_methods cors_allow_headers : list string) : H unit :=
  let* cors := _compute_cors_config cors_origins cors_allow_credentials cors_allow_methods cors_allow_headers in
  h_set (fun m => m {{ hm_cors_config := cors }}).

Definition _update_default_headers (frame_options content_type_options xss_protection referrer_policy : json)
  (permissions_policy : json) : H unit :=
  let* hs := lift_res (_compute_default_headers frame_options content_type_options xss_protection referrer_policy
                         permissions_policy) in
  h_set (fun m => m {{ hm_default_headers := hs }}).

Definition _add_custom_headers (custom_headers : json) : H unit :=
  let* hs := lift_res (_compute_custom_headers custom_headers) in
  h_set (fun m => m {{ hm_custom_headers := hs }}).

(** The keyword arguments of [configure]; those that are left out have the defaults
    [no_options] gives. *)
Record HeadersOptions : Type := mkHeadersOptions {
  ho_enabled : bool;
  ho_csp : json;
  ho_hsts_max_age : json;
  ho_hsts_include_subdomains : json;
  ho_hsts_preload : json;
  ho_frame_options : json;
  ho_content_type_options : json;
  ho_xss_protection : json;
  ho_referrer_policy : json;
  ho_permissions_policy : json;
  ho_custom_headers : json;
  ho_cors_origins : list string;
  ho_cors_allow_credentials : bool;
  ho_cors_allow_methods : list string;
  ho_cors_allow_headers : list string
}.

Definition no_options : HeadersOptions :=
  mkHeadersOptions true JNull JNull (JBool true) (JBool false) JNull JNull JNull JNull (JStr "UNSET") JNull [] false [] [].

Definition configure (o : HeadersOptions) : H unit :=
  h_set (fun m => m {{ hm_enabled := ho_enabled o; headers_cache := ttl_empty }}) ;;;
  _configure_csp (ho_csp o) ;;;
  _configure_hsts (ho_hsts_max_age o) (ho_hsts_include_subdomains o) (ho_hsts_preload o) ;;;
  _configure_cors (ho_cors_origins o) (ho_cors_allow_credentials o) (ho_cors_allow_methods o) (ho_cors_allow_headers o) ;;;
  _update_default_headers (ho_frame_options o) (ho_content_type_options o) (ho_xss_protection o) (ho_referrer_policy o)
    (ho_permissions_policy o) ;;;
  _add_custom_headers (ho_custom_headers o).

(** [headers_config.get("hsts") or {}] *)
Definition hsts_options (options : list (string * json)) : json :=
  let hsts := option_get "hsts" JNull options in if json_truth float_repr hsts then hsts else JObj [].

(** [None] is the manager's own configuration. *)
Definition _resolve_headers_state (config : option SecurityConfig) : H (json * json * headers * headers) :=
  match config with
  | None => h_get (fun m => (hm_csp_config m, hm_hsts_config m, hm_default_headers m, hm_custom_headers m))
  | Some config =>
      let headers_config := default [] (security_headers config) in
      let get key := option_get key JNull headers_config in
      let hsts_cfg := hsts_options headers_config in
      let* csp_config := _compute_csp_config (get "csp") in
      let* hsts := lift_res (py_dict hsts_cfg "get") in
      let* hsts_config := _compute_hsts_config (option_get "max_age" JNull hsts)
        (option_get "include_subdomains" (JBool true) hsts) (option_get "preload" (JBool false) hsts) in
      let* default_headers := lift_res (_compute_default_headers (get "frame_options") (get "content_type_options")
        (get "xss_protection") (get "referrer_policy") (option_get "permissions_policy" (JStr "UNSET") headers_config)) in
      let* custom_headers := lift_res (_compute_custom_headers (get "custom")) in
      ret (csp_config, hsts_config, default_headers, custom_headers)
  end.

Definition _resolve_cors_state (config : option SecurityConfig) : H (option CorsConfig) :=
  match config with
  | None => h_get hm_cors_config
  | Some config =>
      _compute_cors_config (if enable_cors config then cors_allow_origins config else [])
        (cors_allow_credentials config) (cors_allow_methods config) (cors_allow_headers config)
  end.

(** ** The headers of a response *)

(** [s.strip("/")] *)
Fixpoint lstrip_slash (s : string) : string :=
  match s with String "/" s' => lstrip_slash s' | _ => s end.

Fixpoint rstrip_slash (s : string) : string :=
  match s with
  | EmptyString => ""
  | String c s' => match rstrip_slash s' with
                   | EmptyString => if Ascii.eqb c "/" then "" else String c ""
                   | t => String c t
                   end
  end.

Definition _generate_cache_key (request_path : option string) (config : option config_object) : string :=
  let base := match request_path with
              | Some (String _ _ as path) =>
                  "path_" +:+ stake 16 (sha256_hex (rstrip_slash (lstrip_slash (lower path))))
              | _ => "default"
              end in
  match config with None => base | Some (id, _) => "cfg_" +:+ id +:+ "_" +:+ base end.

Definition _SECURITY_HEADERS_HANDLER_NAME : string := "security_headers".

Definition headers_event (event_type action : string) (meta : headers) : agent_event :=
  {| ev_type := event_type; ev_ip := ""; ev_action := action; ev_reason := "";
     ev_handler := _SECURITY_HEADERS_HANDLER_NAME; ev_country := None; ev_meta := meta |}.

Definition _send_headers_applied_event (path : string) (hs : headers) : H unit :=
  catch any_exn
    (let* shown_path := lift_res (redact_endpoint_for_display path None None None) in
     sys (agent_send (headers_event "security_headers_applied" "headers_added"
       [("path", shown_path); ("headers_count", string_of_Z (Z.of_nat (length hs)));
        ("has_csp", py_bool (dmem "Content-Security-Policy" hs));
        ("has_hsts", py_bool (dmem "Strict-Transport-Security" hs))])))
    (fun e => sys (log DEBUG ("Failed to send headers event to agent: " +:+ exn_message e))).

(** [headers\[name\] = build(setting)], if there is the setting *)
Definition build_header (name : string) (build : json -> res string) (setting : json) (hs : headers) : res headers :=
  if json_truth float_repr setting then and_then (build setting) (fun value => Ok (dset name value hs)) else Ok hs.

(** The headers, from the four settings. *)
Definition assemble_headers (csp_config hsts_config : json) (default_headers custom_headers : headers) : res headers :=
  and_then (build_header "Content-Security-Policy" _build_csp csp_config default_headers) (fun hs =>
  and_then (build_header "Strict-Transport-Security" _build_hsts hsts_config hs) (fun hs =>
    Ok (fold_left (fun hs h => dset (fst h) (snd h) hs) custom_headers hs))).

Definition headers_cache_get (key : string) : H (option headers) :=
  let* now := sys time_monotonic in
  fun w => let '(v, c) := ttl_get now key (headers_cache (snd w)) in
           (Ok v, (fst w, (snd w) {{ headers_cache := c }})).

Definition headers_cache_set (key : string) (hs : headers) : H unit :=
  let* now := sys time_monotonic in
  h_set (fun m => m {{ headers_cache := fst (ttl_set now key hs (headers_cache m)) }}).

(** [headers_config and headers_config.get("enabled", True)] *)
Definition headers_enabled (config : SecurityConfig) : bool :=
  match security_headers config with
  | Some ((_ :: _) as members) => json_truth float_repr (option_get "enabled" (JBool true) members)
  | _ => false
  end.

Definition headers_off (config : option config_object) : H bool :=
  match config with
  | Some (_, config) => ret (negb (headers_enabled config))
  | None => h_get (fun m => negb (hm_enabled m))
  end.

Definition get_headers (request_path : option string) (config : option config_object) : H headers :=
  let* off := headers_off config in
  if off : bool then ret []
  else
    let cache_key := _generate_cache_key request_path config in
    let* cached := headers_cache_get cache_key in
    match cached with
    | Some hs => ret hs
    | None =>
        let* (csp_config, hsts_config, default_headers, custom_headers) :=
          _resolve_headers_state (option_map snd config) in
        let* hs := lift_res (assemble_headers csp_config hsts_config default_headers custom_headers) in
        headers_cache_set cache_key hs ;;;
        let* agent_handler := h_get hm_agent in
        match request_path with
        | Some (String _ _ as path) => when agent_handler (_send_headers_applied_event path hs)
        | _ => ret tt
        end ;;;
        ret hs
    end.

(** ** CORS headers ([_security_headers_cors.py]) *)

Definition _is_wildcard_with_credentials (allowed_origins : list string) (cors_config : CorsConfig) : H bool :=
  if negb (in_list "*" allowed_origins) then ret false
  else if allow_credentials cors_config then
    sys (log WARNING "Credentials cannot be used with wildcard origin - blocking CORS") ;;; ret true
  else ret false.

Definition _is_origin_allowed (origin : string) (allowed_origins : list string) : bool :=
  in_list "*" allowed_origins || in_list origin allowed_origins.

(** The methods and headers of the settings, which hold lists of both. *)
Definition _get_validated_cors_config (cors_config : option CorsConfig) : list string * list string :=
  match cors_config with
  | None => (["GET"; "POST"], ["*"])
  | Some cors => (allow_methods cors, allow_headers cors)
  end.

Definition _build_cors_headers (origin : string) (allowed_origins methods hdrs : list string) (cors_config : CorsConfig)
  : headers :=
  [("Access-Control-Allow-Origin", if in_list origin allowed_origins then origin else "*");
   ("Access-Control-Allow-Methods", join ", " methods);
   ("Access-Control-Allow-Headers", join ", " hdrs);
   ("Access-Control-Max-Age", "3600")] ++
  (if allow_credentials cors_config then [("Access-Control-Allow-Credentials", "true")] else []).

Definition get_cors_headers (origin : string) (config : option SecurityConfig) : H headers :=
  let* cors_config := _resolve_cors_state config in
  match cors_config with
  | None => ret []
  | Some cors =>
      let* wildcard := _is_wildcard_with_credentials (origins cors) cors in
      if wildcard : bool then ret []
      else if negb (_is_origin_allowed origin (origins cors)) then ret []
      else
        let '(methods, hdrs) := _get_validated_cors_config (Some cors) in
        ret (_build_cors_headers origin (origins cors) methods hdrs cors)
  end.

(** ** Content-security-policy reports ([_security_headers_events.py]) *)

(** The report, a dictionary with a text or an integer under each name. *)
Definition report_text (report : list (string * json)) (name : string) : string :=
  match dget name report with Some (JStr s) => s | Some (JInt n) => string_of_Z n | _ => "None" end.

Definition _safe_csp_uri (value : string) : H string := lift_res (redact_endpoint_for_display value None None None).
Definition _safe_csp_directive (value : string) : H string := lift_res (redact_header_value_for_display value None None None).

Definition _safe_csp_line_number (value : option json) : option Z :=
  match value with
  | Some (JInt n) => Some n
  | Some (JStr s) => py_int s
  | Some (JBool b) => Some (if b then 1 else 0)
  | _ => None
  end.

Definition _send_csp_violation_event (report : list (string * json)) : H unit :=
  catch any_exn
    (let* document_uri := _safe_csp_uri (report_text report "document-uri") in
     let* violated_directive := _safe_csp_directive (report_text report "violated-directive") in
     let* blocked_uri := _safe_csp_uri (report_text report "blocked-uri") in
     let* source_file := _safe_csp_uri (report_text report "source-file") in
     sys (agent_send (headers_event "csp_violation" "logged"
       [("document_uri", document_uri); ("violated_directive", violated_directive);
        ("blocked_uri", blocked_uri); ("source_file", source_file);
        ("line_number", match _safe_csp_line_number (dget "line-number" report) with
                        | Some n => string_of_Z n
                        | None => "None"
                        end)])))
    (fun e =>
       let* safe_error := lift_res (redact_header_value_for_display (exn_message e) None None None) in
       sys (log DEBUG ("Failed to send CSP violation event to agent: " +:+ safe_error))).

(** [csp_report] is [report.get("csp-report", {})]. *)
Definition validate_csp_report (csp_report : list (string * json)) : H bool :=
  if negb (forallb (fun field => dmem field csp_report) ["document-uri"; "violated-directive"; "blocked-uri"]) then ret false
  else
    let* safe_directive := _safe_csp_directive (report_text csp_report "violated-directive") in
    let* safe_blocked_uri := _safe_csp_uri (report_text csp_report "blocked-uri") in
    let* safe_document_uri := _safe_csp_uri (report_text csp_report "document-uri") in
    sys (log WARNING ("CSP Violation: " +:+ safe_directive +:+ " blocked " +:+ safe_blocked_uri +:+ " on " +:+ safe_document_uri)) ;;;
    let* agent_handler := h_get hm_agent in
    when agent_handler (_send_csp_violation_event csp_report) ;;;
    ret true.

(** ** Settings kept in Redis ([_security_headers_cache.py]) *)

Definition stored_text (h : RedisHandle SecurityConfig) (key : string) : H (option string) :=
  let* v := sys (get_key (rh_config h) (rh_agent h) "security_headers" key) in
  ret (match v with Some (String _ _) => v | _ => None end).

Definition store_text (h : RedisHandle SecurityConfig) (key : string) (j : json) : H unit :=
  let* _ := sys (set_key (rh_config h) (rh_agent h) "security_headers" key (dumps j) (Some 86400)) in ret tt.

Definition _load_cached_config : H unit :=
  let* redis_handler := h_get hm_redis in
  match redis_handler with
  | None => ret tt
  | Some h =>
      catch within_latin1
        (let* csp_config := stored_text h "csp_config" in
         match csp_config with
         | Some text => let* csp := lift_res (loads text) in h_set (fun m => m {{ hm_csp_config := csp }})
         | None => ret tt
         end ;;;
         let* hsts_config := stored_text h "hsts_config" in
         match hsts_config with
         | Some text => let* hsts := lift_res (loads text) in h_set (fun m => m {{ hm_hsts_config := hsts }})
         | None => ret tt
         end ;;;
         let* custom_headers := stored_text h "custom_headers" in
         match custom_headers with
         | Some text =>
             let* loaded_custom_headers := lift_res (loads text) in
             let* items := lift_res (py_dict loaded_custom_headers "items") in
             let* validated_custom_headers := lift_res (validate_headers items []) in
             h_set (fun m => m {{ hm_custom_headers := validated_custom_headers }})
         | None => ret tt
         end)
        (fun e => sys (log WARNING ("Failed to load cached header config: " +:+ exn_message e)))
  end.

Definition _cache_configuration : H unit :=
  let* redis_handler := h_get hm_redis in
  match redis_handler with
  | None => ret tt
  | Some h =>
      catch any_exn
        (let* csp_config := h_get hm_csp_config in
         when (json_truth float_repr csp_config) (store_text h "csp_config" csp_config) ;;;
         let* hsts_config := h_get hm_hsts_config in
         when (json_truth float_repr hsts_config) (store_text h "hsts_config" hsts_config) ;;;
         let* custom_headers := h_get hm_custom_headers in
         when (nonempty custom_headers) (store_text h "custom_headers" (json_of_headers custom_headers)))
        (fun e => sys (log WARNING ("Failed to cache header configuration: " +:+ exn_message e)))
  end.

Definition headers_initialize_redis (redis_handler : RedisHandle SecurityConfig) : H unit :=
  h_set (fun m => m {{ hm_redis := Some redis_handler }}) ;;;
  _load_cached_config ;;;
  _cache_configuration.

Definition headers_initialize_agent (agent_handler : bool) : H unit :=
  h_set (fun m => m {{ hm_agent := agent_handler }}).

Definition headers_reset : H unit :=
  h_set (fun m => m {{ headers_cache := ttl_empty; hm_custom_headers := []; hm_csp_config := JNull;
                       hm_hsts_config := JNull; hm_cors_config := None; hm_enabled := true;
                       hm_default_headers := class_default_headers }}) ;;;
  let* redis_handler := h_get hm_redis in
  match redis_handler with
  | Some h =>
      catch any_exn
        (sys (get_connection (rh_config h) (rh_agent h)
           (let* ks := redis_call (srv_keys (redis_prefix (rh_config h) +:+ "security_headers:*")) in
            match ks with
            | [] => ret tt
            | _ => redis_call (srv_delete ks) ;;; ret tt
            end)))
        (fun e => sys (log WARNING ("Failed to clear Redis cache: " +:+ exn_message e)))
  | None => ret tt
  end ;;;
  h_set (fun m => m {{ hm_redis := None; hm_agent := false }}).
End manager.

#[local] Close Scope Z_scope.

(** * Header values are clean *)

Abbreviation CSP := "Content-Security-Policy".
Abbreviation HSTS := "Strict-Transport-Security".

Lemma and_then_ok {A B} (r : res A) (k : A -> res B) b : and_then r k = Ok b -> exists a, r = Ok a /\ k a = Ok b.
Proof. destruct r; [eauto|done]. Qed.

Section clean_values.
Context `{TS : TextServices}.

(** An age that shows as digits or a word. *)
Definition plain_age (age : json) : bool :=
  match age with JNull | JBool _ | JInt _ => true | _ => false end.

(** A value built from an age nobody has checked. *)
Definition odd_age (value : string) : Prop :=
  exists members age, dget "max_age" members = Some age /\ plain_age age = false /\ _build_hsts (JObj members) = Ok value.

(** What a header must look like: a token for a name, and a value without line breaks
    and other control characters, except for the policy, whose sources are those of the
    settings, and for a transport security whose age is not a number. *)
Definition header_clean (h : string * string) : Prop :=
  sforall is_token_char (fst h) = true /\
  (sforall is_value_char (snd h) = true \/ fst h = CSP \/ fst h = HSTS /\ odd_age (snd h)).

#[local] Abbreviation clean := (Forall header_clean).

Lemma sfilter_sforall p s : sforall p (sfilter p s) = true.
Proof. induction s as [|c s IH]; [done|]. cbn [sfilter]. destruct (p c) eqn:Hp; [|done]. cbn [sforall]. by rewrite Hp. Qed.

Lemma sfilter_id p s : sforall p s = true -> sfilter p s = s.
Proof.
  induction s as [|c s IH]; [done|]. cbn [sforall sfilter]. intros [-> H]%andb_true_iff. by rewrite IH.
Qed.

Lemma validate_value_ok value v : _validate_header_value value = Ok v -> sforall is_value_char v = true.
Proof.
  unfold _validate_header_value. intros (cr & _ & (lf & _ & H)%and_then_ok)%and_then_ok.
  destruct (cr || lf); [done|]. destruct (_ <? _)%nat; [done|]. apply and_then_ok in H as (text & _ & [= <-]).
  apply sfilter_sforall.
Qed.

Lemma validate_name_ok name n : _validate_header_name name = Ok n -> sforall is_token_char n = true.
Proof. unfold _validate_header_name. destruct (truthy name && _) eqn:H; [|done]. intros [= <-]. by bool_prop. Qed.

Lemma clean_dset n v hs : header_clean (n, v) -> clean hs -> clean (dset n v hs).
Proof.
  intros Hn. induction 1 as [|[k x] hs Hk Hhs IH]; cbn [dset]; [constructor; [done|constructor]|].
  destruct (decide _) as [->|]; constructor; auto.
Qed.

Lemma value_clean n v : sforall is_token_char n = true -> sforall is_value_char v = true -> header_clean (n, v).
Proof. split; [done|by left]. Qed.

Lemma clean_ddel n hs : clean hs -> clean (ddel n hs).
Proof. induction 1 as [|[k x] hs Hk Hhs IH]; cbn [ddel]; [done|]. destruct (decide _); auto. Qed.

Lemma class_defaults_clean : clean class_default_headers.
Proof. unfold class_default_headers. repeat constructor. Qed.

Lemma reset_clean hs name override dflt hs' :
  sforall is_token_char name = true -> sforall is_value_char dflt = true -> clean hs ->
  _reset_or_apply_header hs name override dflt = Ok hs' -> clean hs'.
Proof.
  intros Hn Hd Hc. unfold _reset_or_apply_header.
  destruct override; [intros [= <-]; apply clean_dset; [by apply value_clean|done]|
    intros (v & Hv & [= <-])%and_then_ok; apply clean_dset; [|done]; apply value_clean; [done|by eapply validate_value_ok]..].
Qed.

Lemma default_headers_clean f c x r p hs : _compute_default_headers f c x r p = Ok hs -> clean hs.
Proof.
  unfold _compute_default_headers. intros (h1 & H1 & (h2 & H2 & (h3 & H3 & (h4 & H4 & H)%and_then_ok)%and_then_ok)%and_then_ok)%and_then_ok.
  apply reset_clean in H1; [|reflexivity|reflexivity|exact class_defaults_clean].
  apply reset_clean in H2; [|reflexivity|reflexivity|exact H1]. apply reset_clean in H3; [|reflexivity|reflexivity|exact H2].
  apply reset_clean in H4; [|reflexivity|reflexivity|exact H3].
  destruct (json_eqb p _); [injection H as <-; apply clean_dset; [by apply value_clean|done]|].
  destruct (json_truth _ p); [|injection H as <-; by apply clean_ddel].
  apply and_then_ok in H as (v & Hv & [= <-]). apply clean_dset; [|done]. apply value_clean; [done|by eapply validate_value_ok].
Qed.

Lemma validate_headers_clean custom hs hs' : clean hs -> validate_headers custom hs = Ok hs' -> clean hs'.
Proof.
  revert hs. induction custom as [|[n v] custom IH]; intros hs Hc; cbn [validate_headers]; [by intros [= <-]|].
  intros (n' & Hn & (v' & Hv & H)%and_then_ok)%and_then_ok. apply (IH (dset n' v' hs)); [|done].
  apply clean_dset; [|done]. apply value_clean; [by eapply validate_name_ok|by eapply validate_value_ok].
Qed.

Lemma custom_headers_clean custom hs : _compute_custom_headers custom = Ok hs -> clean hs.
Proof.
  unfold _compute_custom_headers. destruct (negb _); [by intros [= <-]|]. intros (items & _ & H)%and_then_ok.
  by eapply validate_headers_clean; [constructor|].
Qed.

Lemma string_of_Z_value n : sforall is_value_char (string_of_Z n) = true.
Proof.
  assert (forall d, sforall is_value_char (NilEmpty.string_of_uint d) = true) as He by (intros d; induction d; done).
  assert (forall d, sforall is_value_char (NilZero.string_of_uint d) = true) as Hz by (intros d; destruct d as [|d|d|d|d|d|d|d|d|d|d]; [reflexivity|exact (He _)..]).
  unfold string_of_Z. destruct (Z.to_int n); cbn [NilZero.string_of_int sforall]; by rewrite Hz.
Qed.

Lemma plain_age_value age : plain_age age = true -> sforall is_value_char (py_str float_repr age) = true.
Proof. destruct age as [|[]|n| | | |]; intros H; [reflexivity|reflexivity|reflexivity|exact (string_of_Z_value n)|done..]. Qed.

Lemma build_hsts_value hsts v : _build_hsts hsts = Ok v -> sforall is_value_char v = true \/ odd_age v.
Proof.
  intros Hb. destruct hsts as [| | | | | |members]; try done. cbn [_build_hsts] in Hb.
  destruct (dget "max_age" members) as [age|] eqn:Ha; [|done]. destruct (plain_age age) eqn:Hp.
  2: { right. exists members, age. split_and!; [done..|]. cbn [_build_hsts]. by rewrite Ha. }
  left. cbv zeta in Hb. injection Hb as <-. apply plain_age_value in Hp.
  destruct (json_truth _ (option_get "include_subdomains" _ _)), (json_truth _ (option_get "preload" _ _));
    cbn [app join]; rewrite ?sforall_app, Hp; reflexivity.
Qed.

Lemma build_header_clean name build setting hs hs' : clean hs -> sforall is_token_char name = true ->
  (forall v, build setting = Ok v -> header_clean (name, v)) -> build_header name build setting hs = Ok hs' -> clean hs'.
Proof.
  intros Hc Hn Hv. unfold build_header. destruct (json_truth _ _); [|by intros [= <-]].
  intros (v & Hb & [= <-])%and_then_ok. apply clean_dset; [by apply Hv|done].
Qed.

Lemma assemble_clean csp hsts dflts custom hs :
  clean dflts -> clean custom -> assemble_headers csp hsts dflts custom = Ok hs -> clean hs.
Proof.
  intros Hd Hc. unfold assemble_headers. intros (h1 & H1 & (h2 & H2 & [= <-])%and_then_ok)%and_then_ok.
  apply build_header_clean in H1; [|done|done|by (intros v _; split; [done|right; left])].
  apply build_header_clean in H2; [|done|done|].
  2: { intros v Hv%build_hsts_value. split; [done|]. destruct Hv; [by left|by right; right]. }
  clear H1. revert h2 H2. induction Hc as [|[n v] custom Hn Hc IH]; intros h2 H2; [done|].
  cbn [fold_left fst snd]. apply IH. by apply clean_dset.
Qed.
End clean_values.

Abbreviation clean := (Forall header_clean).

(** * Whatever is configured, stored or cached *)

Section clean.
Context `{E : Env} `{TS : TextServices} `{HC : !TTLCache string headers HEADERS_CACHE_SIZE HEADERS_CACHE_TTL}.

Context (Hmono : forall i j, (i <= j)%nat -> (monotonic i <= monotonic j)%Z).

#[local] Abbreviation St := (Sys * SecurityHeadersManager)%type.

(** Everything that will be readable in the cache is in [P]. *)
Definition cached_in (P : headers -> Prop) (w : St) : Prop :=
  forall n k hs, (ticks (fst w) <= n)%nat ->
    fst (ttl_get (monotonic n) k (headers_cache (snd w))) = Some hs -> P hs.

Definition manager_clean (w : St) : Prop :=
  clean (hm_default_headers (snd w)) /\ clean (hm_custom_headers (snd w)) /\ cached_in clean w.

(** Nothing but the surroundings changes. *)
Definition quiet (w w' : St) : Prop := snd w' = snd w /\ ticks_le (fst w) (fst w').

#[export] Instance quiet_preorder : PreOrder quiet.
Proof. split; [done|]. intros w1 w2 w3 [H1 H2] [H3 H4]. split; [congruence|by etransitivity]. Qed.

Lemma quiet_cached P w w' : quiet w w' -> cached_in P w -> cached_in P w'.
Proof. intros [Hm Ht] Hc n k hs Hn. rewrite Hm. apply Hc. unfold ticks_le in Ht. lia. Qed.

Lemma quiet_clean w w' : quiet w w' -> manager_clean w -> manager_clean w'.
Proof. intros Hq (Hd & Hc & Hk). split_and!; [..|by eapply quiet_cached]; destruct Hq as [-> _]; done. Qed.

Lemma sys_quiet {A} (m : M Sys A) : keeps same_ticks m -> keeps quiet (sys m).
Proof.
  intros Hm [s b]. unfold sys, zoom. cbn [fst snd]. specialize (Hm s). destruct (m s) as [r s']. split; [done|].
  by apply same_ticks_le.
Qed.
#[local] Hint Resolve sys_quiet : quiet.

Ltac quiet_steps := keeps_steps; auto with quiet ticks; try (intros w; reflexivity).

Lemma h_get_quiet {A} (f : SecurityHeadersManager -> A) : keeps quiet (h_get f).
Proof. intros w. reflexivity. Qed.
#[local] Hint Resolve h_get_quiet : quiet.

Lemma compute_csp_quiet csp : keeps quiet (_compute_csp_config csp).
Proof. unfold _compute_csp_config. quiet_steps. Qed.

Lemma compute_hsts_quiet n i p : keeps quiet (_compute_hsts_config n i p).
Proof. unfold _compute_hsts_config. quiet_steps. Qed.

Lemma compute_cors_quiet o c m h : keeps quiet (_compute_cors_config o c m h).
Proof. unfold _compute_cors_config. quiet_steps. Qed.
#[local] Hint Resolve compute_csp_quiet compute_hsts_quiet compute_cors_quiet : quiet.

Lemma headers_event_quiet path hs : keeps quiet (_send_headers_applied_event path hs).
Proof. unfold _send_headers_applied_event. quiet_steps. Qed.
#[local] Hint Resolve headers_event_quiet : quiet.

Lemma lift_res_quiet {A} (r : res A) : keeps quiet (lift_res r).
Proof. intros w. reflexivity. Qed.
#[local] Hint Resolve lift_res_quiet : quiet.

Lemma resolve_headers_quiet config : keeps quiet (_resolve_headers_state config).
Proof. unfold _resolve_headers_state. quiet_steps. Qed.

(** The headers that are resolved are clean. *)
Lemma resolve_headers_clean config w :
  manager_clean w ->
  wp (_resolve_headers_state config) (fun r w' => quiet w w' /\
    match r with Ok (_, _, dflts, custom) => clean dflts /\ clean custom | Raise _ => True end) w.
Proof.
  intros (Hd & Hc & _). unfold wp. split; [apply resolve_headers_quiet|].
  destruct (_resolve_headers_state config w) as [[[[[csp hsts] dflts] custom]|e] w'] eqn:Hr; [|done]. cbn [fst].
  unfold _resolve_headers_state in Hr. destruct config as [config|]; [|by injection Hr as <- <- <- <- _].
  apply bind_ok_inv in Hr as (x1 & w1 & _ & Hr). apply bind_ok_inv in Hr as (x2 & w2 & _ & Hr).
  apply bind_ok_inv in Hr as (x3 & w3 & _ & Hr). apply bind_ok_inv in Hr as (x4 & w4 & H3 & Hr).
  apply bind_ok_inv in Hr as (x5 & w5 & H4 & Hr).
  injection Hr as <- <- <- <- _. injection H3 as H3 _. injection H4 as H4 _.
  split; [by eapply default_headers_clean|by eapply custom_headers_clean].
Qed.

Lemma cache_get_inv key w :
  wp (headers_cache_get key) (fun r w' => ticks_le (fst w) (fst w') /\ (fst w').(ticks) = S (ticks (fst w)) /\
    hm_default_headers (snd w') = hm_default_headers (snd w) /\ hm_custom_headers (snd w') = hm_custom_headers (snd w) /\
    hm_agent (snd w') = hm_agent (snd w) /\
    (forall n k, fst (ttl_get n k (headers_cache (snd w'))) = fst (ttl_get n k (headers_cache (snd w)))) /\
    r = Ok (fst (ttl_get (monotonic (ticks (fst w))) key (headers_cache (snd w))))) w.
Proof.
  destruct w as [s m]. unfold wp, headers_cache_get. erewrite bind_ok by reflexivity. cbn [fst snd].
  pose proof (fun n k => ttl_get_get (monotonic (ticks s)) n key k (headers_cache m)) as Hg.
  destruct (ttl_get _ key (headers_cache m)) as [v c]. cbn [fst snd] in *. destruct s, m. unfold ticks_le. cbn in *.
  split_and!; auto.
Qed.

Lemma cache_set_cached P key hs w :
  P hs -> cached_in P w -> wp (headers_cache_set key hs) (fun r w' => r = Ok tt /\ cached_in P w' /\
    hm_default_headers (snd w') = hm_default_headers (snd w) /\ hm_custom_headers (snd w') = hm_custom_headers (snd w)) w.
Proof using Hmono.
  destruct w as [s m]. intros Hp Hc. unfold wp, headers_cache_set. erewrite bind_ok by reflexivity. cbn [fst snd h_set modify].
  split_and!; [done| |by destruct m..]. intros n k hs' Hn Hget. cbn [fst snd] in *.
  replace (headers_cache (m {{ headers_cache := fst (ttl_set (monotonic (ticks s)) key hs (headers_cache m)) }}))
    with (fst (ttl_set (monotonic (ticks s)) key hs (headers_cache m))) in Hget by (by destruct m).
  assert (monotonic (ticks s) <= monotonic n)%Z as Hle by (apply Hmono; destruct s; cbn in *; lia).
  destruct (decide (key = k)) as [->|Hne].
  - rewrite ttl_set_get in Hget by done. destruct (_ <? _)%Z; [by injection Hget as <-|done].
  - apply ttl_set_shrinks in Hget; [|done..]. eapply (Hc n); [|exact Hget]. destruct s; cbn in *; lia.
Qed.

(** What [get_headers] keeps and returns. *)
Lemma get_headers_wp path config w :
  manager_clean w ->
  wp (get_headers path config) (fun r w' => manager_clean w' /\ match r with Ok hs => clean hs | Raise _ => True end) w.
Proof using Hmono.
  intros Hw. unfold get_headers. apply wp_bind.
  assert (exists off, headers_off config w = (Ok off, w)) as [off Hoff] by (unfold headers_off; destruct config as [[]|]; by eexists).
  unfold wp at 1. rewrite Hoff. cbn [fst snd]. destruct off; [apply wp_ret; by split|]. apply wp_bind.
  eapply wp_mono; [apply cache_get_inv|]. intros r w1 (Ht & _ & Hd & Hc & _ & Hg & ->).
  assert (manager_clean w1) as Hw1.
  { destruct Hw as (H1 & H2 & H3). split_and!; [by rewrite Hd|by rewrite Hc|]. intros n k hs Hn. rewrite Hg.
    apply H3. unfold ticks_le in Ht. lia. }
  destruct (fst (ttl_get _ _ _)) as [hs|] eqn:He.
  { apply wp_ret. split; [done|]. destruct Hw as (_ & _ & H3). eapply H3; [|exact He]. done. }
  apply wp_bind. eapply wp_mono; [by apply resolve_headers_clean|]. intros r w2 [Hq Hr].
  apply (quiet_clean _ _ Hq) in Hw1. destruct r as [[[[csp hsts] dflts] custom]|e]; [|by split].
  destruct Hr as [Hrd Hrc]. apply wp_bind. unfold lift_res, wp at 1. cbn [fst snd].
  destruct (assemble_headers csp hsts dflts custom) as [hs|e] eqn:Ha; [|by split].
  apply assemble_clean in Ha; [|done..]. apply wp_bind. destruct Hw1 as (H1 & H2 & H3). eapply wp_mono; [by apply (cache_set_cached clean)|].
  intros r w3 (-> & H3' & Hd' & Hc'). assert (manager_clean w3) as Hw3 by (split_and!; [by rewrite Hd'|by rewrite Hc'|done]).
  apply wp_bind. unfold h_get. apply wp_gets. apply wp_bind.
  assert (forall b p, wp (when b (_send_headers_applied_event p hs))
    (fun _ w' => manager_clean w') w3) as Hev.
  { intros b p. eapply wp_mono; [apply (wp_keeps quiet), keeps_when, headers_event_quiet; exact _|].
    intros ? w4 Hq4. exact (quiet_clean _ _ Hq4 Hw3). }
  destruct path as [[|ch path]|]; [by apply wp_ret| |by apply wp_ret].
  eapply wp_mono; [apply Hev|]. intros [|] w4 Hw4; [by apply wp_ret|by split].
Qed.

(** Time goes on. *)
Definition later (w w' : St) : Prop := ticks_le (fst w) (fst w').

#[local] Instance later_preorder : PreOrder later.
Proof. split; unfold later; [intros w; reflexivity|intros w1 w2 w3 H1 H2; by etransitivity]. Qed.

Lemma quiet_later {A} (m : M St A) : keeps quiet m -> keeps later m.
Proof. apply keeps_weaken. by intros w w' [_ H]. Qed.

Lemma cache_get_later key : keeps later (headers_cache_get key).
Proof. intros w. apply (cache_get_inv key w). Qed.

Lemma cache_set_later key hs : keeps later (headers_cache_set key hs).
Proof.
  unfold headers_cache_set. apply keeps_bind; [exact _|intros [[] m]; unfold later, ticks_le; cbn; lia|intros now [s m]].
  unfold later, ticks_le. cbn. lia.
Qed.

Lemma get_headers_ticks path config : keeps later (get_headers path config).
Proof.
  unfold get_headers, headers_off.
  repeat (cbv zeta; lazymatch goal with
    | |- keeps _ (headers_cache_get _) => apply cache_get_later
    | |- keeps _ (headers_cache_set _ _) => apply cache_set_later
    | |- keeps _ (_resolve_headers_state _) => apply quiet_later, resolve_headers_quiet
    | |- keeps _ (_send_headers_applied_event _ _) => apply quiet_later, headers_event_quiet
    | |- keeps _ (h_get _) => apply quiet_later, h_get_quiet
    | |- keeps _ (lift_res _) => apply quiet_later, lift_res_quiet
    | |- _ => keeps_step
    end).
Qed.

(** ** Every operation keeps the manager clean *)

Definition keeps_clean (w w' : St) : Prop := manager_clean w -> manager_clean w'.

#[local] Instance keeps_clean_preorder : PreOrder keeps_clean.
Proof. split; [intros w Hw; exact Hw|intros w1 w2 w3 H1 H2 Hw; exact (H2 (H1 Hw))]. Qed.

Lemma quiet_keeps_clean {A} (m : M St A) : keeps quiet m -> keeps keeps_clean m.
Proof. apply keeps_weaken. intros w w' Hq Hw. exact (quiet_clean w w' Hq Hw). Qed.

Lemma sys_keeps_clean {A} (m : M Sys A) : keeps same_ticks m -> keeps keeps_clean (sys m).
Proof. intros Hm. by apply quiet_keeps_clean, sys_quiet. Qed.

Lemma get_keeps_clean {A} (f : SecurityHeadersManager -> A) : keeps keeps_clean (h_get f).
Proof. apply quiet_keeps_clean, h_get_quiet. Qed.

Lemma set_keeps_clean f :
  (forall m, clean (hm_default_headers m) -> clean (hm_default_headers (f m))) ->
  (forall m, clean (hm_custom_headers m) -> clean (hm_custom_headers (f m))) ->
  (forall m, headers_cache (f m) = headers_cache m \/ headers_cache (f m) = ttl_empty) -> keeps keeps_clean (h_set f).
Proof.
  intros Hd Hc Hk [s m] (H1 & H2 & H3). unfold h_set, modify. cbn [fst snd] in *.
  split_and!; cbn [fst snd]; [by apply Hd|by apply Hc|]. intros n k hs Hn. cbn [fst snd]. destruct (Hk m) as [-> | ->]; [by apply H3|]. by rewrite ttl_empty_get.
Qed.

Lemma lift_keeps {A B} (R : St -> St -> Prop) `{!PreOrder R} (r : res A) (k : A -> M St B) :
  (forall a, r = Ok a -> keeps R (k a)) -> keeps R (bind (lift_res r) k).
Proof. intros Hk w. unfold bind, lift_res. destruct r as [a|e]; [by apply Hk|]. cbn. reflexivity. Qed.

#[local] Hint Resolve sys_keeps_clean get_keeps_clean compute_csp_quiet compute_hsts_quiet compute_cors_quiet : clean.

Ltac clean_steps :=
  repeat (cbv zeta; lazymatch goal with
    | |- keeps _ (h_set _) => apply set_keeps_clean; intros []; cbn; auto
    | |- keeps _ (bind (lift_res _) _) => apply lift_keeps; [exact _|intros ? ?]
    | |- keeps _ (_compute_csp_config _) => apply quiet_keeps_clean, compute_csp_quiet
    | |- keeps _ (_compute_hsts_config _ _ _) => apply quiet_keeps_clean, compute_hsts_quiet
    | |- keeps _ (_compute_cors_config _ _ _ _) => apply quiet_keeps_clean, compute_cors_quiet
    | |- _ => keeps_step
    end); auto with clean ticks.

Lemma configure_clean o : keeps keeps_clean (configure o).
Proof.
  unfold configure, _configure_csp, _configure_hsts, _configure_cors, _update_default_headers, _add_custom_headers.
  clean_steps.
  - intros _. by eapply default_headers_clean.
  - intros _. by eapply custom_headers_clean.
Qed.

Lemma stored_text_clean h key : keeps keeps_clean (stored_text h key).
Proof. unfold stored_text. clean_steps. Qed.

Lemma store_text_clean h key j : keeps keeps_clean (store_text h key j).
Proof. unfold store_text. clean_steps. Qed.
#[local] Hint Resolve stored_text_clean store_text_clean : clean.

Lemma load_clean : keeps keeps_clean _load_cached_config.
Proof.
  unfold _load_cached_config. clean_steps. intros _. by eapply validate_headers_clean; [constructor|].
Qed.

Lemma cache_configuration_clean : keeps keeps_clean _cache_configuration.
Proof. unfold _cache_configuration. clean_steps. Qed.
#[local] Hint Resolve load_clean cache_configuration_clean : clean.

Lemma initialize_redis_clean h : keeps keeps_clean (headers_initialize_redis h).
Proof. unfold headers_initialize_redis. clean_steps. Qed.

Lemma initialize_agent_clean b : keeps keeps_clean (headers_initialize_agent b).
Proof. unfold headers_initialize_agent. clean_steps. Qed.

Lemma reset_keeps_clean : keeps keeps_clean headers_reset.
Proof.
  unfold headers_reset. clean_steps.
  - intros _. exact class_defaults_clean.
  - apply sys_keeps_clean, get_connection_ticks. keeps_steps; auto with ticks.
Qed.

Lemma cors_headers_clean origin config : keeps keeps_clean (get_cors_headers origin config).
Proof. unfold get_cors_headers, _resolve_cors_state, _is_wildcard_with_credentials. clean_steps. Qed.

Lemma csp_report_clean report : keeps keeps_clean (validate_csp_report report).
Proof. unfold validate_csp_report, _send_csp_violation_event, _safe_csp_uri, _safe_csp_directive. clean_steps. Qed.

Lemma get_headers_clean path config : keeps keeps_clean (get_headers path config).
Proof using Hmono. intros w Hw. by apply (get_headers_wp path config w). Qed.

(** A call of the manager. *)
Inductive headers_op : Type :=
| Configure (options : HeadersOptions)
| GetHeaders (request_path : option string) (config : option config_object)
| GetCorsHeaders (origin : string) (config : option SecurityConfig)
| CspReport (report : list (string * json))
| InitializeRedis (handler : RedisHandle SecurityConfig)
| InitializeAgent (agent : bool)
| Reset_headers.

Definition run_headers_op (o : headers_op) (w : St) : St :=
  match o with
  | Configure o => snd (configure o w)
  | GetHeaders path config => snd (get_headers path config w)
  | GetCorsHeaders origin config => snd (get_cors_headers origin config w)
  | CspReport report => snd (validate_csp_report report w)
  | InitializeRedis h => snd (headers_initialize_redis h w)
  | InitializeAgent b => snd (headers_initialize_agent b w)
  | Reset_headers => snd (headers_reset w)
  end.

Definition run_headers_ops (ops : list headers_op) (w : St) : St := fold_left (fun w o => run_headers_op o w) ops w.

Lemma run_headers_op_clean o w : manager_clean w -> manager_clean (run_headers_op o w).
Proof using Hmono.
  destruct o; cbn [run_headers_op];
    [apply configure_clean|apply get_headers_clean|apply cors_headers_clean|apply csp_report_clean
    |apply initialize_redis_clean|apply initialize_agent_clean|apply reset_keeps_clean].
Qed.

Lemma manager_new_clean s : manager_clean (s, SecurityHeadersManager_new).
Proof.
  split_and!; [exact class_defaults_clean|constructor|]. intros n k hs _. cbn. by rewrite ttl_empty_get.
Qed.

(** What can be sent: a name of visible ASCII characters without a colon, and a value
    without line breaks and other control characters than the tab. *)
Definition chars_of (s : string) : list ascii := String.list_ascii_of_string s.
Definition sendable_name (name : string) : Prop :=
  forall c, List.In c (chars_of name) -> (32 < code c < 127)%Z /\ code c <> code ":".
Definition sendable_value (value : string) : Prop :=
  forall c, List.In c (chars_of value) -> (32 <= code c)%Z \/ code c = 9%Z.

(** The values no one has checked: the policy, and the transport security of an age
    that is a text, a fraction, a list or a dictionary. *)
Definition unchecked (h : string * string) : Prop := fst h = CSP \/ fst h = HSTS /\ odd_age (snd h).

Lemma sforall_chars p s : sforall p s = true -> forall c, List.In c (chars_of s) -> p c = true.
Proof using Type.
  induction s as [|d s IH]; intros Hs c Hc; [done|]. apply andb_true_iff in Hs as [Hd Hs].
  destruct Hc as [->|Hc]; [done|by apply IH].
Qed.

Lemma token_char_visible c : is_token_char c = true -> (32 < code c < 127)%Z /\ code c <> code ":".
Proof using Type. destruct c as [[] [] [] [] [] [] [] []]; vm_compute; try discriminate; intros _; repeat split; discriminate || reflexivity. Qed.

Lemma clean_sendable hs : clean hs -> Forall (fun h => sendable_name (fst h) /\ (sendable_value (snd h) \/ unchecked h)) hs.
Proof using Type.
  intros Hhs. eapply Forall_impl; [exact Hhs|]. intros [n v] [Hn Hv]. cbn [fst snd] in *. split; cbn [fst snd].
  - intros c Hc. by apply token_char_visible, (sforall_chars _ n).
  - destruct Hv as [Hv|Hv]; [left|by right]. intros c Hc. apply (sforall_chars _ _ Hv) in Hc.
    apply orb_true_iff in Hc as [?|?]; bool_prop; [left|right]; lia.
Qed.

End clean.

(** * CORS *)

Section cors.
Context `{E : Env} `{TS : TextServices} `{HC : !TTLCache string headers HEADERS_CACHE_SIZE HEADERS_CACHE_TTL}.

(** The settings in force. *)
Definition cors_settings (config : option SecurityConfig) (m : SecurityHeadersManager) : option CorsConfig :=
  match config with
  | None => hm_cors_config m
  | Some config =>
      if enable_cors config && nonempty (cors_allow_origins config) then
        Some (mkCors (cors_allow_origins config)
          (cors_allow_credentials config && negb (in_list "*" (cors_allow_origins config)))
          (if nonempty (cors_allow_methods config) then cors_allow_methods config else ["GET"; "POST"])
          (if nonempty (cors_allow_headers config) then cors_allow_headers config else ["*"]))
      else None
  end.

Lemma resolve_cors_run config w :
  exists w1, _resolve_cors_state config w = (Ok (cors_settings config (snd w)), w1) /\ snd w1 = snd w.
Proof.
  destruct config as [config|]; [|by eexists]. unfold _resolve_cors_state, _compute_cors_config, cors_settings.
  destruct (enable_cors config); cbn [andb]; [|by eexists].
  destruct (nonempty (cors_allow_origins config)); cbn [negb]; [|by eexists].
  destruct (in_list "*" _), (cors_allow_credentials config); by eexists.
Qed.

(** Who may read a response across origins.  [get_cors_headers] gives headers
    exactly when CORS is configured, the origin is listed or any origin is, and not
    credentials with any origin; the origin is then answered as itself when it is
    listed, and credentials are allowed only to a listed origin, never to the
    wildcard. *)
Theorem cors_headers_spec origin config w :
  exists hs w', get_cors_headers origin config w = (Ok hs, w') /\
    match cors_settings config (snd w) with
    | None => hs = []
    | Some cors =>
        let any := in_list "*" (origins cors) in
        let listed := in_list origin (origins cors) in
        if (any && allow_credentials cors) || negb (any || listed) then hs = []
        else
          dget "Access-Control-Allow-Origin" hs = Some (if listed then origin else "*") /\
          dget "Access-Control-Allow-Methods" hs = Some (join ", " (allow_methods cors)) /\
          dget "Access-Control-Allow-Headers" hs = Some (join ", " (allow_headers cors)) /\
          (forall v, dget "Access-Control-Allow-Credentials" hs = Some v ->
             any = false /\ listed = true /\ dget "Access-Control-Allow-Origin" hs = Some origin)
    end.
Proof.
  destruct (resolve_cors_run config w) as (w1 & Hr & _). unfold get_cors_headers.
  destruct (cors_settings config (snd w)) as [cors|].
  2: { exists [], w1. by rewrite (bind_ok _ _ _ _ _ Hr). }
  assert (exists w2, _is_wildcard_with_credentials (origins cors) cors w1 =
    (Ok (in_list "*" (origins cors) && allow_credentials cors), w2)) as [w2 Hw].
  { unfold _is_wildcard_with_credentials. destruct (in_list "*" (origins cors)), (allow_credentials cors); by eexists. }
  destruct (in_list "*" (origins cors) && allow_credentials cors) eqn:Hclash; cbn [orb].
  { exists [], w2. split; [|done]. by rewrite (bind_ok _ _ _ _ _ Hr), (bind_ok _ _ _ _ _ Hw). }
  destruct (in_list "*" (origins cors) || in_list origin (origins cors)) eqn:Hall; cbn [negb].
  2: { exists [], w2. split; [|done]. rewrite (bind_ok _ _ _ _ _ Hr), (bind_ok _ _ _ _ _ Hw). unfold _is_origin_allowed.
       by rewrite Hall. }
  eexists _, w2. split.
  { rewrite (bind_ok _ _ _ _ _ Hr), (bind_ok _ _ _ _ _ Hw). unfold _is_origin_allowed. rewrite Hall. reflexivity. }
  cbv zeta. unfold _build_cors_headers. split_and!; [done..|]. intros v Hv.
  destruct (allow_credentials cors); [|done]. rewrite andb_true_r in Hclash. rewrite Hclash in *. cbn [orb] in Hall.
  rewrite Hall. done.
Qed.
End cors.

(** * The cache is transparent *)

Section transparent.
Context `{E : Env} `{TS : TextServices} `{HC : !TTLCache string headers HEADERS_CACHE_SIZE HEADERS_CACHE_TTL}.

Context (Hmono : forall i j, (i <= j)%nat -> (monotonic i <= monotonic j)%Z).

Context (id : string) (config : SecurityConfig).

(** The headers of a configuration, computed without a cache, or the error of a
    setting that is not acceptable. *)
Fixpoint check_sources (items : list (string * json)) : res unit :=
  match items with
  | [] => Ok tt
  | d :: items' => and_then (unsafe_sources (snd d)) (fun _ => check_sources items')
  end.

Definition csp_settings (csp : json) : res json :=
  if negb (json_truth float_repr csp) then Ok JNull
  else and_then (py_dict csp "items") (fun items => and_then (check_sources items) (fun _ => Ok csp)).

Definition hsts_settings (age subdomains preload : json) : res json :=
  match age with
  | JNull => Ok JNull
  | _ =>
      if json_truth float_repr preload then
        and_then (py_below float_below age 31536000) (fun short =>
          Ok (hsts_dict age (if json_truth float_repr subdomains then subdomains else JBool true)
                (if short then JBool false else preload)))
      else Ok (hsts_dict age subdomains preload)
  end.

Definition resolved : res (json * json * headers * headers) :=
  let options := default [] (security_headers config) in
  let get key := option_get key JNull options in
  and_then (csp_settings (get "csp")) (fun csp =>
  and_then (py_dict (hsts_options options) "get") (fun hsts =>
  and_then (hsts_settings (option_get "max_age" JNull hsts) (option_get "include_subdomains" (JBool true) hsts)
              (option_get "preload" (JBool false) hsts)) (fun hsts =>
  and_then (_compute_default_headers (get "frame_options") (get "content_type_options") (get "xss_protection")
              (get "referrer_policy") (option_get "permissions_policy" (JStr "UNSET") options)) (fun dflts =>
  and_then (_compute_custom_headers (get "custom")) (fun custom => Ok (csp, hsts, dflts, custom)))))).

Definition headers_of : res headers :=
  if headers_enabled config
  then and_then resolved (fun '(csp, hsts, dflts, custom) => assemble_headers csp hsts dflts custom)
  else Ok [].

(** [m] gives the result [r], whatever the state. *)
Definition gives {A} (m : M (Sys * SecurityHeadersManager) A) (r : res A) : Prop := forall w, exists w', m w = (r, w').

Lemma gives_lift {A} (r : res A) : gives (lift_res r) r.
Proof using Type. intros w. by exists w. Qed.

Lemma gives_bind {A B} (m : M _ A) (r : res A) (k : A -> M _ B) (r' : A -> res B) :
  gives m r -> (forall a, gives (k a) (r' a)) -> gives (bind m k) (and_then r r').
Proof using Type.
  intros Hm Hk w. destruct (Hm w) as [w1 H1]. unfold bind. rewrite H1. destruct r as [a|e]; [apply Hk|by exists w1].
Qed.

Lemma gives_warning (b : bool) msg : gives (when b (sys (log WARNING msg))) (Ok tt).
Proof using Type. intros w. destruct b; by eexists. Qed.

Lemma compute_csp_gives csp : gives (_compute_csp_config csp) (csp_settings csp).
Proof using Type.
  unfold _compute_csp_config, csp_settings. destruct (negb _); [intros w; by eexists|].
  apply gives_bind; [apply gives_lift|]. intros items.
  apply gives_bind; [|intros _ w; by eexists]. induction items as [|d items IH]; [intros w; by eexists|].
  cbn [for_each check_sources]. intros w. destruct (unsafe_sources (snd d)) as [b|e]; [|by exists w].
  cbn [and_then]. unfold bind at 2, lift_res. revert w.
  apply (gives_bind _ (Ok tt) _ (fun _ => check_sources items)); [apply gives_warning|by intros _].
Qed.

Lemma compute_hsts_gives age subdomains preload :
  gives (_compute_hsts_config age subdomains preload) (hsts_settings age subdomains preload).
Proof using Type.
  unfold _compute_hsts_config, hsts_settings. destruct age as [|b|n|l|t|items|members]; [intros w; by eexists|..];
    (destruct (json_truth float_repr preload); [|intros w; by eexists]; apply gives_bind; [apply gives_lift|]; intros short;
     apply (gives_bind _ (Ok tt) _ (fun _ => Ok _)); [apply gives_warning|]; intros _;
     apply (gives_bind _ (Ok tt) _ (fun _ => Ok _)); [apply gives_warning|]; intros _ w; exists w;
     by destruct (json_truth float_repr subdomains)).
Qed.

Lemma resolve_headers_gives : gives (_resolve_headers_state (Some config)) resolved.
Proof using Type.
  unfold _resolve_headers_state, resolved. cbv zeta. apply gives_bind; [apply compute_csp_gives|]. intros csp.
  apply gives_bind; [apply gives_lift|]. intros hsts. apply gives_bind; [apply compute_hsts_gives|]. intros hsts'.
  apply gives_bind; [apply gives_lift|]. intros dflts. apply gives_bind; [apply gives_lift|]. intros custom w. by exists w.
Qed.

#[local] Abbreviation current := (cached_in (fun hs => headers_of = Ok hs)).

Lemma event_current b p hs w : current w ->
  wp (when b (_send_headers_applied_event p hs)) (fun r w' => r = Ok tt /\ current w') w.
Proof using Type.
  intros Hw. pose proof (keeps_when quiet b _ (headers_event_quiet p hs) w) as Hq.
  split; [|exact (quiet_cached _ _ _ Hq Hw)]. destruct b; [|done]. unfold when, _send_headers_applied_event, catch.
  match goal with |- fst (let (_, _) := ?m in _) = _ => destruct m as [[[]|] ?] end; done.
Qed.

Lemma get_headers_current path w :
  current w -> wp (get_headers path (Some (id, config))) (fun r w' => r = headers_of /\ current w') w.
Proof using Hmono.
  intros Hw. unfold get_headers. apply wp_bind. unfold headers_off. apply wp_ret.
  destruct (headers_enabled config) eqn:Hen; cbn [negb]; [|apply wp_ret; split; [by unfold headers_of; rewrite Hen|done]].
  apply wp_bind. eapply wp_mono; [apply cache_get_inv|]. intros r w1 (Ht & _ & _ & _ & _ & Hg & ->).
  assert (current w1) as Hw1 by (intros n k hs Hn; rewrite Hg; apply Hw; unfold ticks_le in Ht; lia).
  destruct (fst (ttl_get _ _ _)) as [hs|] eqn:He; [apply wp_ret; split; [eapply eq_sym, Hw; [|exact He]; reflexivity|done]|].
  apply wp_bind. destruct (resolve_headers_gives w1) as [w2 Hr]. pose proof (resolve_headers_quiet (Some config) w1) as Hq.
  cbn [option_map snd]. unfold wp at 1. rewrite Hr in *. cbn [fst snd] in *. apply (quiet_cached _ _ _ Hq) in Hw1.
  assert (headers_of = and_then resolved (fun '(csp, hsts, dflts, custom) => assemble_headers csp hsts dflts custom)) as Hof
    by (unfold headers_of; by rewrite Hen).
  destruct resolved as [[[[csp hsts] dflts] custom]|e]; cbn [and_then] in Hof; [|by split].
  apply wp_bind. unfold lift_res, wp at 1. cbn [fst snd].
  destruct (assemble_headers csp hsts dflts custom) as [hs|e]; [|by split].
  apply wp_bind. eapply wp_mono; [exact (cache_set_cached Hmono (fun hs => headers_of = Ok hs) _ _ _ Hof Hw1)|]. intros r w3 (-> & Hw3 & _ & _).
  apply wp_bind. unfold h_get. apply wp_gets. apply wp_bind.
  destruct path as [[|ch path]|]; [by apply wp_ret| |by apply wp_ret].
  eapply wp_mono; [by apply event_current|]. intros r w4 [-> Hw4]. by apply wp_ret.
Qed.

(** Caching does not show.  For one configuration object, however many responses
    were given headers before, on whatever paths and however long ago, the headers
    returned are those computed from the configuration, or the error of a value in
    it that is not acceptable is raised again. *)
Theorem cached_headers_are_computed paths path s :
  let call (w : Sys * SecurityHeadersManager) p := snd (get_headers p (Some (id, config)) w) in
  fst (get_headers path (Some (id, config)) (fold_left call paths (s, SecurityHeadersManager_new))) = headers_of.
Proof using Hmono.
  intros call. assert (forall l w, current w -> current (fold_left call l w)) as Hl.
  { intros l. induction l as [|p l IH]; intros w Hw; [done|]. by apply IH, (get_headers_current p w). }
  apply (get_headers_current path). apply Hl. intros n k hs _. cbn. by rewrite ttl_empty_get.
Qed.

(** A configuration whose headers can be computed; then headers are always returned. *)
Definition acceptable : Prop := exists hs, headers_of = Ok hs.

Lemma get_headers_returns path w :
  acceptable -> exists hs w', get_headers path (Some (id, config)) w = (Ok hs, w').
Proof using Type.
  unfold acceptable. intros Ha. enough (wp (get_headers path (Some (id, config))) (fun r _ => exists hs, r = Ok hs) w) as [hs Hr].
  { exists hs, (snd (get_headers path (Some (id, config)) w)). rewrite <- Hr. apply surjective_pairing. }
  unfold get_headers. apply wp_bind. unfold headers_off. apply wp_ret.
  unfold headers_of in Ha. destruct (headers_enabled config); cbn [negb]; [|apply wp_ret; by eexists].
  apply wp_bind. eapply wp_mono; [apply cache_get_inv|]. intros r w1 (_ & _ & _ & _ & _ & _ & ->).
  destruct (fst (ttl_get _ _ _)) as [hs|]; [apply wp_ret; by eexists|].
  apply wp_bind. destruct (resolve_headers_gives w1) as [w2 Hr]. cbn [option_map snd]. unfold wp at 1. rewrite Hr.
  destruct Ha as [hs Ha]. destruct resolved as [[[[csp hsts] dflts] custom]|e]; [|done]. cbn [and_then] in Ha.
  cbn [fst snd]. apply wp_bind. unfold lift_res. rewrite Ha. unfold wp at 1. cbn [fst snd].
  apply wp_bind. unfold headers_cache_set. apply wp_bind. unfold wp at 1. cbn [fst snd sys zoom time_monotonic].
  apply wp_modify. apply wp_bind. unfold h_get. apply wp_gets. apply wp_bind.
  assert (forall b p w, wp (when b (_send_headers_applied_event p hs)) (fun r w' => r = Ok tt) w) as Hev.
  { intros b p w'. destruct b; [|done]. unfold when, _send_headers_applied_event, wp, catch.
    match goal with |- fst (let (_, _) := ?m in _) = _ => destruct m as [[[]|] ?] end; done. }
  destruct path as [[|ch path]|]; [apply wp_ret, wp_ret; by eexists| |apply wp_ret, wp_ret; by eexists].
  eapply wp_mono; [apply Hev|]. intros r w4 ->. apply wp_ret. by eexists.
Qed.
End transparent.

(** * Settings survive a restart *)

(** ** JSON forms *)

Lemma forallb_map_true {A B} (p : B -> bool) (f : A -> B) l : (forall x, p (f x) = true) -> forallb p (map f l) = true.
Proof. intros H. induction l as [|x l IH]; [done|]. cbn. by rewrite H, IH. Qed.

Lemma headers_plain hs : NoDup (map fst hs) -> plain (json_of_headers hs) = true.
Proof.
  intros Hn. cbn [json_of_headers plain]. rewrite map_map. cbn. rewrite bool_decide_eq_true_2 by done. cbn.
  by apply forallb_map_true.
Qed.

(** Headers that have passed validation pass it again, unchanged. *)
Definition header_valid `{TS : TextServices} (h : string * string) : Prop :=
  _validate_header_name (fst h) = Ok (fst h) /\ _validate_header_value (JStr (snd h)) = Ok (snd h).

Lemma validate_headers_id `{TS : TextServices} custom hs : Forall header_valid custom -> NoDup (map fst custom) ->
  (forall n, n ∈ map fst custom -> n ∉ dkeys hs) ->
  validate_headers (map (fun h => (fst h, JStr (snd h))) custom) hs = Ok (hs ++ custom).
Proof.
  intros Hv. revert hs. induction Hv as [|[n v] custom [Hn Hval] Hv IH]; intros hs Hnd Hk; [by rewrite app_nil_r|].
  cbn [fst snd] in *. apply NoDup_cons in Hnd as [Hnew Hnd]. cbn [map validate_headers fst snd]. rewrite Hn, Hval. cbn [and_then].
  rewrite dset_absent by (apply dget_None, Hk; left). rewrite IH; [by rewrite <- app_assoc|done|].
  intros k Hin. unfold dkeys. rewrite map_app, not_elem_of_app. split; [apply Hk; by right|]. cbn [map fst].
  rewrite list_elem_of_singleton. intros ->. done.
Qed.

Section restart.
Context `{E : Env} `{SL : !StringLaws} `{TS : TextServices}
  `{HC : !TTLCache string headers HEADERS_CACHE_SIZE HEADERS_CACHE_TTL}.

Context (h : RedisHandle SecurityConfig).
Context (Hen : enable_redis (rh_config h) = true) (Hup : forall n, redis_outcome n = None).

#[local] Abbreviation St := (Sys * SecurityHeadersManager)%type.

Definition header_key (key : string) : string := full_key (rh_config h) "security_headers" key.

(** A step of the manager: it returns, stays connected, and leaves the manager. *)
Lemma stored_text_up key s m : connected s ->
  exists s', stored_text h key (s, m) =
    (Ok (match sview (header_key key) (redis s) with Some (String _ _) => sview (header_key key) (redis s) | _ => None end),
     (s', m)) /\ connected s' /\ forall k, sview k (redis s') = sview k (redis s).
Proof using Hen Hup.
  intros Hs. destruct (get_key_up (rh_config h) (rh_agent h) Hen Hup "security_headers" key s Hs) as (s' & Hrun & Hs' & Hr).
  exists s'. split_and!; [|done..]. unfold stored_text, bind at 1, sys, zoom. cbn [fst snd]. by rewrite Hrun.
Qed.

Lemma store_text_up key j s m : connected s ->
  exists s', store_text h key j (s, m) = (Ok tt, (s', m)) /\ connected s' /\
    sview (header_key key) (redis s') = Some (dumps j) /\
    forall k, k <> header_key key -> sview k (redis s') = sview k (redis s).
Proof using Hen Hup.
  intros Hs. destruct (set_key_up (rh_config h) (rh_agent h) Hen Hup "security_headers" key (dumps j) (Some 86400%Z) s Hs)
    as (s' & Hrun & Hs' & Hv & Ho).
  exists s'. split_and!; [|done..]. unfold store_text, bind at 1, sys, zoom. cbn [fst snd]. by rewrite Hrun.
Qed.

Lemma header_key_inj k k' : header_key k = header_key k' -> k = k'.
Proof.
  unfold header_key, full_key. rewrite !app_assoc_string. intros H. apply (f_equal (sdrop (slen (redis_prefix (rh_config h) +:+
    "security_headers" +:+ ":")))) in H. rewrite !app_assoc_string, !sdrop_app in H. done.
Qed.

(** The text a manager stores under each key: nothing for a setting it has not. *)
Definition setting_text (setting : json) : option string :=
  if json_truth float_repr setting then Some (dumps setting) else None.
Definition custom_text (m : SecurityHeadersManager) : option string :=
  match hm_custom_headers m with [] => None | c => Some (dumps (json_of_headers c)) end.

(** A server that keeps no settings yet. *)
Definition no_settings (st : redis_state) : Prop :=
  forall key, key ∈ ["csp_config"; "hsts_config"; "custom_headers"] -> sview (header_key key) st = None.

Lemma cache_configuration_up s m : connected s -> hm_redis m = Some h -> no_settings (redis s) ->
  exists s', _cache_configuration (s, m) = (Ok tt, (s', m)) /\ connected s' /\
    sview (header_key "csp_config") (redis s') = setting_text (hm_csp_config m) /\ sview (header_key "hsts_config") (redis s') = setting_text (hm_hsts_config m) /\
    sview (header_key "custom_headers") (redis s') = custom_text m.
Proof using Hen Hup.
  intros Hs Hh Hno. assert (sview (header_key "csp_config") (redis s) = None /\ sview (header_key "hsts_config") (redis s) = None /\
    sview (header_key "custom_headers") (redis s) = None) as (N1 & N2 & N3) by (split_and!; apply Hno; set_solver).
  assert (forall k k', k <> k' -> header_key k <> header_key k') as Hk by (intros k k' Hne He; by apply header_key_inj in He).
  unfold _cache_configuration. rewrite (bind_ok _ _ _ (Some h) (s, m)) by (unfold h_get, gets; by rewrite <- Hh).
  assert (forall key setting s, connected s -> exists s1,
    when (json_truth float_repr setting) (store_text h key setting) (s, m) = (Ok tt, (s1, m)) /\ connected s1 /\
    sview (header_key key) (redis s1) = (if json_truth float_repr setting then Some (dumps setting) else sview (header_key key) (redis s)) /\
    forall k, k <> key -> sview (header_key k) (redis s1) = sview (header_key k) (redis s)) as Hstore.
  { clear s Hs Hno N1 N2 N3. intros key setting s Hs. destruct (json_truth _ setting); [|by exists s].
    destruct (store_text_up key setting s m Hs) as (s1 & R & C & V & O). exists s1. split_and!; [done..|].
    intros k Hne. by apply O, Hk. }
  destruct (Hstore "csp_config" (hm_csp_config m) s Hs) as (s1 & R1 & C1 & V1 & O1). rewrite N1 in V1.
  destruct (Hstore "hsts_config" (hm_hsts_config m) s1 C1) as (s2 & R2 & C2 & V2' & O2).
  rewrite (O1 "hsts_config"), N2 in V2' by done. pose proof (O2 "csp_config" ltac:(done)) as V1'. rewrite V1 in V1'.
  assert (sview (header_key "custom_headers") (redis s2) = None) as V3' by (by rewrite O2, O1).
  assert (exists s3, (when (nonempty (hm_custom_headers m)) (store_text h "custom_headers" (json_of_headers (hm_custom_headers m))))
    (s2, m) = (Ok tt, (s3, m)) /\ connected s3 /\ sview (header_key "csp_config") (redis s3) = setting_text (hm_csp_config m) /\
    sview (header_key "hsts_config") (redis s3) = setting_text (hm_hsts_config m) /\ sview (header_key "custom_headers") (redis s3) = custom_text m)
    as (s3 & R3 & C3 & V1'' & V2'' & V3'').
  { unfold custom_text. destruct (hm_custom_headers m) as [|c l]; [by exists s2|]. cbn [nonempty when].
    destruct (store_text_up "custom_headers" (json_of_headers (c :: l)) s2 m C2) as (s3 & R & C & V & O). exists s3.
    rewrite (O (header_key "csp_config")), (O (header_key "hsts_config")) by (by apply Hk). done. }
  exists s3. split_and!; [|done..]. unfold catch. rewrite (bind_ok _ _ _ (hm_csp_config m) (s, m)) by done.
  rewrite (bind_ok _ _ _ _ _ R1). rewrite (bind_ok _ _ _ (hm_hsts_config m) (s1, m)) by done.
  rewrite (bind_ok _ _ _ _ _ R2). rewrite (bind_ok _ _ _ (hm_custom_headers m) (s2, m)) by done. by rewrite R3.
Qed.

(** Settings that can be written and read back: data [json] gives back as it was, and
    headers that have been validated. *)
Definition storable (m : SecurityHeadersManager) : Prop :=
  plain (hm_csp_config m) = true /\ plain (hm_hsts_config m) = true /\
  NoDup (map fst (hm_custom_headers m)) /\ Forall header_valid (hm_custom_headers m).

(** A setting as a fresh manager finds it. *)
Definition kept (setting : json) : json := if json_truth float_repr setting then setting else JNull.

Lemma load_cached_config_up s m0 m : connected s -> hm_redis m0 = Some h -> storable m ->
  hm_csp_config m0 = JNull -> hm_hsts_config m0 = JNull -> hm_custom_headers m0 = [] ->
  sview (header_key "csp_config") (redis s) = setting_text (hm_csp_config m) ->
  sview (header_key "hsts_config") (redis s) = setting_text (hm_hsts_config m) ->
  sview (header_key "custom_headers") (redis s) = custom_text m ->
  exists s' m', _load_cached_config (s, m0) = (Ok tt, (s', m')) /\
    hm_csp_config m' = kept (hm_csp_config m) /\ hm_hsts_config m' = kept (hm_hsts_config m) /\
    hm_custom_headers m' = hm_custom_headers m.
Proof using Hen Hup.
  intros Hs Hh (Hcsp & Hhsts & Hnc & Hval) E1 E2 E3 V1 V2 V3. unfold _load_cached_config.
  rewrite (bind_ok _ _ _ (Some h) (s, m0)) by (unfold h_get, gets; by rewrite <- Hh).
  destruct (stored_text_up "csp_config" s m0 Hs) as (s1 & R1 & C1 & O1).
  set (m1 := m0 {{ hm_csp_config := kept (hm_csp_config m) }}).
  destruct (stored_text_up "hsts_config" s1 m1 C1) as (s2 & R2 & C2 & O2).
  set (m2 := m1 {{ hm_hsts_config := kept (hm_hsts_config m) }}).
  destruct (stored_text_up "custom_headers" s2 m2 C2) as (s3 & R3 & C3 & _).
  set (m3 := m2 {{ hm_custom_headers := hm_custom_headers m }}).
  exists s3, m3. split; [|by subst m3 m2 m1; destruct m0]. rewrite V1 in R1. rewrite O1, V2 in R2. rewrite O2, O1, V3 in R3.
  assert (match setting_text (hm_csp_config m) with
          | Some text => let* csp := lift_res (loads text) in h_set (fun m => m {{ hm_csp_config := csp }})
          | None => ret tt
          end (s1, m0) = (Ok tt, (s1, m1))) as L1.
  { subst m1. unfold setting_text, kept. destruct (json_truth _ _); [|by destruct m0; cbn in *; subst].
    unfold lift_res, bind. by rewrite loads_dumps. }
  assert (match setting_text (hm_hsts_config m) with
          | Some text => let* hsts := lift_res (loads text) in h_set (fun m => m {{ hm_hsts_config := hsts }})
          | None => ret tt
          end (s2, m1) = (Ok tt, (s2, m2))) as L2.
  { subst m2. assert (hm_hsts_config m1 = JNull) as E2' by (by subst m1; destruct m0). clearbody m1.
    unfold setting_text, kept. destruct (json_truth _ _); [|by destruct m1; cbn in *; subst].
    unfold lift_res, bind. by rewrite loads_dumps. }
  assert (match custom_text m with
          | Some text =>
              let* loaded_custom_headers := lift_res (loads text) in
              let* items := lift_res (py_dict loaded_custom_headers "items") in
              let* validated_custom_headers := lift_res (validate_headers items []) in
              h_set (fun m => m {{ hm_custom_headers := validated_custom_headers }})
          | None => ret tt
          end (s3, m2) = (Ok tt, (s3, m3))) as L3.
  { subst m3. assert (hm_custom_headers m2 = []) as E3' by (by subst m2 m1; destruct m0). clearbody m2.
    unfold custom_text. destruct (hm_custom_headers m) as [|c l]; [by destruct m2; cbn in *; subst|].
    unfold lift_res, bind. rewrite loads_dumps by (by apply headers_plain). cbn [py_dict json_of_headers].
    rewrite validate_headers_id; [done|done|done|]. intros n _. apply not_elem_of_nil. }
  assert (forall setting, plain setting = true ->
    match setting_text setting with Some (String _ _) => setting_text setting | _ => None end = setting_text setting) as Htext.
  { clear. intros setting Hp. unfold setting_text. destruct (json_truth _ _); [|done].
    destruct (dumps setting) eqn:Hd; [|done]. pose proof (loads_dumps setting Hp) as Hl. by rewrite Hd in Hl. }
  rewrite Htext in R1 by done. rewrite Htext in R2 by done.
  replace (match custom_text m with Some (String _ _) => custom_text m | _ => None end) with (custom_text m) in R3
    by (unfold custom_text; by destruct (hm_custom_headers m)).
  unfold catch. rewrite (bind_ok _ _ _ _ _ R1), (bind_ok _ _ _ _ _ L1), (bind_ok _ _ _ _ _ R2), (bind_ok _ _ _ _ _ L2).
  by rewrite (bind_ok _ _ _ _ _ R3), L3.
Qed.

(** C33: Once a manager has stored its settings through a working Redis that kept no
    settings before, a fresh manager without settings that loads them has the same
    policy, the same transport security and the same custom headers, provided the
    settings are data that json gives back (no fractions, no key twice) and the custom
    headers have been validated. Storing deletes no key, so over older settings a
    policy that is no longer configured would come back. *)
Theorem settings_survive_restart s m s1 m0 :
  connected s -> no_settings (redis s) -> hm_redis m = Some h -> storable m ->
  snd (_cache_configuration (s, m)) = (s1, m) ->
  hm_redis m0 = Some h -> hm_csp_config m0 = JNull -> hm_hsts_config m0 = JNull -> hm_custom_headers m0 = [] ->
  exists s2 m2, _load_cached_config (s1, m0) = (Ok tt, (s2, m2)) /\
    hm_csp_config m2 = kept (hm_csp_config m) /\ hm_hsts_config m2 = kept (hm_hsts_config m) /\
    hm_custom_headers m2 = hm_custom_headers m.
Proof using Hen Hup.
  intros Hc Hno Hh Hst Hcache. destruct (cache_configuration_up s m Hc Hh Hno) as (s' & Hrun & Hc' & V1 & V2 & V3).
  rewrite Hrun in Hcache. injection Hcache as ->. intros. by apply load_cached_config_up.
Qed.
End restart.

(** * Witnesses *)

Section witness.
#[local] Instance env : Env := sample_env (ticking 1000) redis_up.
#[local] Existing Instance sample_texts.

Definition sample_headers_cache : TTLCache string headers HEADERS_CACHE_SIZE HEADERS_CACHE_TTL := assoc_ttl _ _.
#[local] Existing Instance sample_headers_cache.

#[local] Instance string_laws : StringLaws := sample_string_laws _ _.

Lemma sample_mono i j : (i <= j)%nat -> (monotonic i <= monotonic j)%Z.
Proof. apply ticking_mono. Qed.

Lemma sample_never_fails n : redis_outcome n = None.
Proof. reflexivity. Qed.

(** A manager with a policy and a custom header. *)
Definition sample_csp : json :=
  JObj [("default-src", JArr [JStr "'self'"; JStr "cdn.example"]); ("upgrade-insecure-requests", JArr [])].
Definition sample_custom : json := JObj [("x-tenant", JStr ("acme" +:+ String (chr 1) ""))].

Definition sample_options : HeadersOptions :=
  no_options {{ ho_csp := sample_csp; ho_hsts_max_age := JInt 600; ho_hsts_preload := JBool true;
                ho_frame_options := JStr "DENY"; ho_permissions_policy := JNull; ho_custom_headers := sample_custom }}.

(** The same, as the dictionary of a configuration. *)
Definition sample_headers_options : list (string * json) :=
  [("csp", sample_csp); ("hsts", JObj [("max_age", JInt 600); ("preload", JBool true)]);
   ("frame_options", JStr "DENY"); ("permissions_policy", JNull); ("custom", sample_custom)].

Definition sample_ops : list headers_op := [Configure sample_options; GetHeaders (Some "/Path/") None].

Definition sample_manager : Sys * SecurityHeadersManager :=
  run_headers_ops sample_ops (sample_sys (ticking 1000) redis_up, SecurityHeadersManager_new).

Definition sample_headers_list : headers :=
  [("X-Content-Type-Options", "nosniff"); ("X-Frame-Options", "DENY"); ("X-XSS-Protection", "1; mode=block");
   ("Referrer-Policy", "strict-origin-when-cross-origin"); ("X-Permitted-Cross-Domain-Policies", "none");
   ("X-Download-Options", "noopen"); ("Cross-Origin-Embedder-Policy", "require-corp");
   ("Cross-Origin-Opener-Policy", "same-origin"); ("Cross-Origin-Resource-Policy", "same-origin");
   (CSP, "default-src 'self' cdn.example; upgrade-insecure-requests");
   ("Strict-Transport-Security", "max-age=600; includeSubDomains"); ("x-tenant", "acme")].


Definition sample_headers_config : SecurityConfig := default_config {{ security_headers := Some sample_headers_options }}.

Lemma cached_headers_are_computed_witness :
  fst (get_headers (Some "/b") (Some ("1", sample_headers_config))
    (fold_left (fun w p => snd (get_headers p (Some ("1", sample_headers_config)) w)) [Some "/a"; None]
      (sample_sys (ticking 1000) redis_up, SecurityHeadersManager_new))) = Ok sample_headers_list.
Proof.
  refine (eq_trans (cached_headers_are_computed sample_mono "1" sample_headers_config [Some "/a"; None] (Some "/b")
    (sample_sys (ticking 1000) redis_up)) _).
  vm_compute. reflexivity.
Defined.

Definition sample_handle : RedisHandle SecurityConfig := mkRedisHandle default_config false.

Lemma settings_survive_restart_witness :
  let m := (snd sample_manager) {{ hm_redis := Some sample_handle }} in
  let m0 := SecurityHeadersManager_new {{ hm_redis := Some sample_handle }} in
  exists s2 m2, _load_cached_config (fst (snd (_cache_configuration (fst sample_manager, m))), m0) = (Ok tt, (s2, m2)) /\
    hm_csp_config m2 = sample_csp /\ hm_hsts_config m2 = hsts_dict (JInt 600) (JBool true) (JBool false) /\
    hm_custom_headers m2 = [("x-tenant", "acme")].
Proof.
  intros m m0. apply (settings_survive_restart sample_handle eq_refl sample_never_fails (fst sample_manager) m
    (fst (snd (_cache_configuration (fst sample_manager, m)))) m0); try reflexivity.
  - split; reflexivity.
  - intros key Hk. repeat (apply elem_of_cons in Hk as [->|Hk]; [reflexivity|]). by apply elem_of_nil in Hk.
  - split_and!; [repeat constructor; set_solver..|repeat constructor].
Defined.

(** An age that is a text goes into the header as it is, line breaks too: configured,
    and found in Redis. *)
Definition odd_text : string := "1" +:+ String (chr 13) (String (chr 10) "X: y").
Definition odd_value : string := "max-age=" +:+ odd_text.

Example odd_age_of_configuration :
  and_then (headers_of (default_config {{ security_headers := Some
    [("hsts", JObj [("max_age", JStr odd_text); ("include_subdomains", JBool false)])] }}))
    (fun hs => Ok (dget HSTS hs)) = Ok (Some odd_value).
Proof. vm_compute. reflexivity. Qed.

Example odd_age_of_redis :
  let stored := fst (snd (store_text sample_handle "hsts_config" (JObj [("max_age", JStr odd_text)])
                            (sample_sys (ticking 1000) redis_up, SecurityHeadersManager_new))) in
  let w := snd (headers_initialize_redis sample_handle (stored, SecurityHeadersManager_new)) in
  and_then (fst (get_headers None None w)) (fun hs => Ok (dget HSTS hs)) = Ok (Some odd_value).
Proof. vm_compute. reflexivity. Qed.

(** Settings of another shape: no headers, but the error of using them. *)
Example settings_of_other_shapes :
  headers_of (default_config {{ security_headers := Some [("hsts", JObj [("max_age", JStr "1"); ("preload", JBool true)])] }})
    = Raise (TypeError "'<' not supported between instances of 'str' and 'int'") /\
  headers_of (default_config {{ security_headers := Some [("csp", JArr [JStr "default-src"])] }})
    = Raise (OtherError "AttributeError" "'list' object has no attribute 'items'") /\
  headers_of (default_config {{ security_headers := Some [("csp", JObj [("img-src", JNull)])] }})
    = Raise (TypeError "argument of type 'NoneType' is not iterable").
Proof. vm_compute. split_and!; reflexivity. Qed.
End witness.
