(* ===== verification/Cors.v ===== *)
(** Cross-origin requests without a response of the application
    ([guard_core/handlers/cors_handler.py]): preflight answers and the headers of
    ordinary responses, for the adapters that leave CORS to the engine.  The other
    source of CORS headers, [get_cors_headers] of the security headers manager, is
    in [SecurityHeaders]; the last theorem compares the two. *)
From S2P Require Import Prelude PyStr PyDict IpAddr Sys Sample Config Request TTL Redis.
From S2P Require Import Json SecurityHeaders.

Definition ALLOWED_PREFLIGHT_REQUEST_HEADER : string := "access-control-request-method".

Record CorsPreflightResponse : Type := mkPreflight {
  pf_status_code : Z;
  pf_headers : headers;
  pf_body : string
}.

(** [{k.lower(): v for k, v in headers.items()}] *)
Definition _lower_headers (hs : headers) : headers :=
  fold_left (fun d h => dset (lower (fst h)) (snd h) d) hs [].

Definition is_preflight (method : string) (hs : headers) : bool :=
  if negb (upper method =? "OPTIONS")%string then false
  else in_list ALLOWED_PREFLIGHT_REQUEST_HEADER (map (fun h => lower (fst h)) hs).

Record CorsHandler : Type := mkCorsHandler {
  _enabled : bool;
  _allow_all : bool;
  _allow_origins : list string;
  _allow_methods : list string;
  _allow_headers : list string;
  _allow_all_headers : bool;
  _allow_credentials : bool;
  _max_age : Z;
  _expose_headers : list string
}.

Definition _init_disabled : CorsHandler := mkCorsHandler false false [] [] [] false false 600 [].

(** [x or y] for lists and numbers *)
Definition or_list {A} (l l' : list A) : list A := if nonempty l then l else l'.
Definition or_Z (n m : Z) : Z := if n =? 0 then m else n.

Definition _init_enabled (config : SecurityConfig) : res CorsHandler :=
  let origins := cors_allow_origins config in
  let allow_all := in_list "*" origins in
  if allow_all && cors_allow_credentials config then
    Raise (ValueError ("CORS misconfiguration: wildcard origin '*' is incompatible " +:+
                       "with cors_allow_credentials=True"))
  else
    let allow_headers := map lower (cors_allow_headers config) in
    Ok {| _enabled := true; _allow_all := allow_all; _allow_origins := origins;
          _allow_methods := map upper (or_list (cors_allow_methods config) ["GET"]);
          _allow_headers := allow_headers; _allow_all_headers := in_list "*" allow_headers;
          _allow_credentials := cors_allow_credentials config; _max_age := or_Z (cors_max_age config) 600;
          _expose_headers := cors_expose_headers config |}.

Definition CorsHandler_init (config : SecurityConfig) : res CorsHandler :=
  if negb (enable_cors config) then Ok _init_disabled else _init_enabled config.

Section handler.
Variable h : CorsHandler.

Definition is_origin_allowed (origin : string) : bool :=
  if negb (_enabled h) then false else if _allow_all h then true else in_list origin (_allow_origins h).

(** The three validations add to the headers of the response and to the list of
    failures. *)
Definition preflight_state : Type := headers * list string.

Definition _validate_preflight_origin (origin : string) (st : preflight_state) : preflight_state :=
  let '(response_headers, failures) := st in
  if is_origin_allowed origin then
    (dset "Access-Control-Allow-Origin" (if _allow_all h && negb (_allow_credentials h) then "*" else origin)
       response_headers, failures)
  else (response_headers, failures ++ ["origin"]).

Definition _validate_preflight_method (requested_method : string) (st : preflight_state) : preflight_state :=
  let '(response_headers, failures) := st in
  if in_list requested_method (_allow_methods h) then st else (response_headers, failures ++ ["method"]).

Definition _validate_preflight_headers (requested_headers : list string) (requested_headers_raw : string)
  (st : preflight_state) : preflight_state :=
  let '(response_headers, failures) := st in
  if _allow_all_headers h then
    if truthy requested_headers_raw then
      (dset "Access-Control-Allow-Headers" requested_headers_raw response_headers, failures)
    else st
  else if existsb (fun x => negb (in_list x (_allow_headers h))) requested_headers then
    (response_headers, failures ++ ["headers"])
  else st.

(** The names in [Access-Control-Request-Headers]. *)
Definition requested_names (raw : string) : list string :=
  map (fun x => lower (strip x)) (List.filter (fun x => truthy (strip x)) (split_on "," raw)).

Definition build_preflight_response (request_headers : headers) : CorsPreflightResponse :=
  let hs := _lower_headers request_headers in
  let origin := default "" (dget "origin" hs) in
  let requested_method := upper (default "" (dget "access-control-request-method" hs)) in
  let requested_headers_raw := default "" (dget "access-control-request-headers" hs) in
  let requested_headers := requested_names requested_headers_raw in
  let '(response_headers, failures) :=
    _validate_preflight_headers requested_headers requested_headers_raw
      (_validate_preflight_method requested_method
        (_validate_preflight_origin origin ([("Vary", "Origin")], []))) in
  let response_headers :=
    dset "Access-Control-Max-Age" (string_of_Z (_max_age h))
      (dset "Access-Control-Allow-Methods" (join ", " (_allow_methods h)) response_headers) in
  let response_headers :=
    if _allow_credentials h then dset "Access-Control-Allow-Credentials" "true" response_headers
    else response_headers in
  if nonempty failures then mkPreflight 400 response_headers ("Disallowed CORS: " +:+ join ", " failures)
  else mkPreflight 200 response_headers "OK".

Definition build_response_headers (request_headers : headers) : headers :=
  if negb (_enabled h) then []
  else
    let origin := default "" (dget "origin" (_lower_headers request_headers)) in
    if negb (truthy origin) then []
    else
      let finish allowed :=
        let result := [("Vary", "Origin"); ("Access-Control-Allow-Origin", allowed)] in
        let result := if _allow_credentials h then dset "Access-Control-Allow-Credentials" "true" result else result in
        if nonempty (_expose_headers h) then
          dset "Access-Control-Expose-Headers" (join ", " (_expose_headers h)) result
        else result in
      if _allow_all h && negb (_allow_credentials h) then finish "*"
      else if is_origin_allowed origin then finish origin
      else [].
End handler.

(** * What a preflight is answered *)

Section answers.
Variable h : CorsHandler.

(** The three conditions on a preflight, and what its answer lists. *)
Definition method_ok (method : string) : bool := in_list (upper method) (_allow_methods h).
Definition headers_ok (raw : string) : bool :=
  _allow_all_headers h || forallb (fun x => in_list x (_allow_headers h)) (requested_names raw).

Definition objections (origin method raw : string) : list string :=
  (if is_origin_allowed h origin then [] else ["origin"]) ++ (if method_ok method then [] else ["method"]) ++
  (if headers_ok raw then [] else ["headers"]).

(** The value of a header, in any case of its name. *)
Definition header_value (request_headers : headers) (name : string) : string :=
  default "" (dget name (_lower_headers request_headers)).

Lemma existsb_negb {A} (p : A -> bool) l : existsb (fun x => negb (p x)) l = negb (forallb p l).
Proof. induction l as [|x l IH]; [done|]. cbn. rewrite IH. by destruct (p x). Qed.

Lemma validations_run origin method raw :
  exists rh,
    _validate_preflight_headers h (requested_names raw) raw
      (_validate_preflight_method h (upper method) (_validate_preflight_origin h origin ([("Vary", "Origin")], []))) =
    (rh, objections origin method raw) /\
    dget "Access-Control-Allow-Origin" rh =
      (if is_origin_allowed h origin then Some (if _allow_all h && negb (_allow_credentials h) then "*" else origin)
       else None) /\
    dget "Access-Control-Allow-Credentials" rh = None.
Proof.
  unfold objections, method_ok, headers_ok, _validate_preflight_origin.
  destruct (is_origin_allowed h origin);
    unfold _validate_preflight_method; destruct (in_list (upper method) (_allow_methods h));
    unfold _validate_preflight_headers; rewrite existsb_negb; destruct (_allow_all_headers h);
    try (destruct (truthy raw); eexists; split_and!; reflexivity);
    destruct (forallb (fun x => in_list x (_allow_headers h)) (requested_names raw));
    eexists; split_and!; reflexivity.
Qed.

(** C40: a preflight is granted exactly when its origin, its method and every header
    it asks for are allowed; otherwise it is refused with the list of what is not.
    Whatever the answer, an origin is named in it exactly when that origin is
    allowed, and credentials are offered exactly when they are configured. *)
Theorem preflight_spec request_headers :
  let origin := header_value request_headers "origin" in
  let method := header_value request_headers "access-control-request-method" in
  let raw := header_value request_headers "access-control-request-headers" in
  let r := build_preflight_response h request_headers in
  (pf_status_code r = 200 <-> is_origin_allowed h origin = true /\ method_ok method = true /\ headers_ok raw = true) /\
  (pf_status_code r <> 200 ->
     pf_status_code r = 400 /\ pf_body r = "Disallowed CORS: " +:+ join ", " (objections origin method raw)) /\
  dget "Access-Control-Allow-Origin" (pf_headers r) =
    (if is_origin_allowed h origin then Some (if _allow_all h && negb (_allow_credentials h) then "*" else origin)
     else None) /\
  dget "Access-Control-Allow-Credentials" (pf_headers r) = (if _allow_credentials h then Some "true" else None).
Proof.
  intros origin method raw. unfold build_preflight_response. cbv zeta.
  fold (header_value request_headers "origin") (header_value request_headers "access-control-request-method")
    (header_value request_headers "access-control-request-headers"). fold origin method raw.
  destruct (validations_run origin method raw) as (rh & -> & Ho & Hc). unfold objections.
  destruct (is_origin_allowed h origin), (method_ok method), (headers_ok raw);
    cbn [nonempty app pf_status_code pf_headers pf_body];
    (split; [split; [done|by intros (? & ? & ?)]|split; [by intros ?|]]);
    destruct (_allow_credentials h);
    rewrite ?dget_dset_eq, ?dget_dset_ne by done; done.
Qed.
End answers.

(** * The two sources of CORS headers agree *)

Section agreement.
Context `{E : Env} `{HC : !TTLCache string headers HEADERS_CACHE_SIZE HEADERS_CACHE_TTL}.

(** The handler that a configuration gives. *)
Lemma CorsHandler_init_inv config h : CorsHandler_init config = Ok h ->
  _enabled h = enable_cors config /\
  (enable_cors config = true ->
     _allow_all h = in_list "*" (cors_allow_origins config) /\ _allow_origins h = cors_allow_origins config /\
     _allow_credentials h = cors_allow_credentials config /\
     in_list "*" (cors_allow_origins config) && cors_allow_credentials config = false).
Proof.
  unfold CorsHandler_init, _init_enabled. destruct (enable_cors config); cbn [negb]; [|by intros [= <-]].
  destruct (in_list "*" (cors_allow_origins config) && cors_allow_credentials config); [done|]. by intros [= <-].
Qed.

(** What an ordinary response says about an origin. *)
Lemma build_response_headers_run h request_headers :
  let origin := header_value request_headers "origin" in
  let hs := build_response_headers h request_headers in
  dget "Access-Control-Allow-Origin" hs =
    (if truthy origin && is_origin_allowed h origin then Some (if _allow_all h && negb (_allow_credentials h) then "*" else origin)
     else None) /\
  dget "Access-Control-Allow-Credentials" hs =
    (if truthy origin && is_origin_allowed h origin && _allow_credentials h then Some "true" else None).
Proof.
  intros origin. cbv zeta. unfold build_response_headers. fold (header_value request_headers "origin"). fold origin.
  unfold is_origin_allowed. destruct (_enabled h); cbn [negb]; [|by rewrite andb_false_r].
  destruct (truthy origin); cbn [negb andb]; [|done].
  destruct (_allow_all h), (_allow_credentials h); cbn [negb andb];
    try (destruct (in_list origin (_allow_origins h)); [|done]);
    destruct (nonempty (_expose_headers h)); done.
Qed.

(** The handler of the adapters and the security headers manager give the same
    permission.  For a configuration the handler accepts, and a request with an
    origin, either both name the origin (as itself or as the wildcard) or neither
    does, and they agree on credentials. *)
Theorem cors_answers_agree config h request_headers w :
  let origin := header_value request_headers "origin" in
  CorsHandler_init config = Ok h -> truthy origin = true ->
  exists hs w', get_cors_headers origin (Some config) w = (Ok hs, w') /\
    let hs' := build_response_headers h request_headers in
    (dget "Access-Control-Allow-Origin" hs = None <-> dget "Access-Control-Allow-Origin" hs' = None) /\
    (forall v, dget "Access-Control-Allow-Origin" hs = Some v \/ dget "Access-Control-Allow-Origin" hs' = Some v ->
       v = origin \/ (v = "*" /\ in_list "*" (cors_allow_origins config) = true)) /\
    dget "Access-Control-Allow-Credentials" hs = dget "Access-Control-Allow-Credentials" hs'.
Proof.
  intros origin Hh Ho. destruct (build_response_headers_run h request_headers) as [Hor Hcr]. fold origin in Hor, Hcr.
  destruct (resolve_cors_run (Some config) w) as (w1 & Hr & _). unfold get_cors_headers. rewrite (bind_ok _ _ _ _ _ Hr).
  apply CorsHandler_init_inv in Hh as [He Hh]. cbv zeta. rewrite Hor, Hcr, Ho. unfold is_origin_allowed.
  cbn [cors_settings andb]. rewrite He. destruct (enable_cors config); cbn [negb andb];
    [|exists [], w1; split; [done|]; split_and!; [done|by intros v [?|?]|done]].
  destruct Hh as (Ha & Hl & Hc & Hclash); [done|]. rewrite Ha, Hl, Hc.
  destruct (cors_allow_origins config) as [|o os] eqn:Hos; cbn [nonempty].
  { exists [], w1. split; [done|]. split_and!; [done|by intros v [?|?]|done]. }
  set (l := o :: os) in *. unfold _is_wildcard_with_credentials, _is_origin_allowed. cbn [origins allow_credentials].
  destruct (in_list "*" l), (cors_allow_credentials config), (in_list origin l) eqn:Hin; cbn [negb andb orb] in *; try done;
    (eexists _, w1; split; [unfold bind, ret; cbn [negb]; rewrite ?Hin; reflexivity|]);
    unfold _build_cors_headers; cbn [origins allow_credentials]; rewrite ?Hin;
    split_and!; try done; intros v [Hv|Hv];
    first [change (Some origin = Some v) in Hv|change (Some "*" = Some v) in Hv|change (@None string = Some v) in Hv];
    simplify_eq; auto.
Qed.
End agreement.

(** * A concrete handler *)

Definition cors_config : SecurityConfig :=
  default_config {{ enable_cors := true; cors_allow_origins := ["https://app.example"]; cors_allow_methods := ["GET"; "put"];
                    cors_allow_headers := ["X-Token"]; cors_max_age := 0 }}.

Definition cors_request : headers :=
  [("Origin", "https://app.example"); ("Access-Control-Request-Method", "PUT");
   ("Access-Control-Request-Headers", "x-token , ")].

Definition cors_handler : CorsHandler := match CorsHandler_init cors_config with Ok h => h | Raise _ => _init_disabled end.

(** A header that is allowed by name is granted without being listed in the answer;
    and a maximum age of zero is answered as ten minutes. *)
Example granted_headers_are_not_listed :
  build_preflight_response cors_handler cors_request =
  mkPreflight 200 [("Vary", "Origin"); ("Access-Control-Allow-Origin", "https://app.example");
    ("Access-Control-Allow-Methods", "GET, PUT"); ("Access-Control-Max-Age", "600")] "OK".
Proof. vm_compute. reflexivity. Qed.

Example refused_preflight :
  build_preflight_response cors_handler [("origin", "https://evil.example"); ("access-control-request-method", "DELETE")] =
  mkPreflight 400 [("Vary", "Origin"); ("Access-Control-Allow-Methods", "GET, PUT"); ("Access-Control-Max-Age", "600")]
    "Disallowed CORS: origin, method".
Proof. vm_compute. reflexivity. Qed.

Section witness.
#[local] Instance env : Env := sample_env (ticking 1000) redis_up.
#[local] Existing Instance sample_headers_cache.

Lemma cors_answers_agree_witness :
  exists hs w', get_cors_headers "https://app.example" (Some cors_config) sample_manager = (Ok hs, w') /\
    dget "Access-Control-Allow-Origin" hs <> None /\ dget "Access-Control-Allow-Credentials" hs = None.
Proof.
  destruct (cors_answers_agree cors_config cors_handler cors_request sample_manager) as (hs & w' & Hr & Ho & _ & Hc);
    [reflexivity..|].
  exists hs, w'. split; [exact Hr|]. split; [|rewrite Hc; vm_compute; reflexivity].
  intros Hn. apply Ho in Hn. vm_compute in Hn. discriminate Hn.
Defined.
End witness.
