(* ===== verification/IpBan.v ===== *)
(** The IP ban manager: [guard_core/handlers/ipban_handler.py] and the
    [_ipban_*] modules it is made of.

    Bans of single addresses are kept in a time-to-live cache, bans of networks
    in a list, and both in Redis when there is one. *)
From S2P Require Import Prelude PyStr PyDict IpAddr IpAddrText Sys Sample Config Request IpExtraction TTL Redis.

Definition LOCAL_CACHE_TTL_CAP_SECONDS : Z := 3600.
Definition BAN_CACHE_SIZE : Z := 10000.
Definition _EVICTION_LOG_EVERY : nat := 100.

Definition _LOOPBACK_NETWORKS : list net := [net4 127 0 0 0 8; Net6 1 128 None].

Section ban.
Context `{E : Env} `{C : !TTLCache string Z BAN_CACHE_SIZE (seconds LOCAL_CACHE_TTL_CAP_SECONDS)}.

(** [IPBanManager] *)
Record BanManager : Type := mkBan {
  banned_ips : ttl_cache (K := string);
  banned_networks : list (net * Z);
  evictions_count : nat;
  bm_config : option SecurityConfig;
  bm_redis : option (RedisHandle SecurityConfig);
  bm_agent : bool
}.

Definition BanManager_new : BanManager := mkBan ttl_empty [] 0 None None false.

Abbreviation B := (M (Sys * BanManager)).

Definition on_ban {A} (f : BanManager -> A * BanManager) : B A :=
  fun w => let '(a, b) := f (snd w) in (Ok a, (fst w, b)).

(** ** The cache ([_ipban_cache.py]) *)

Definition _on_eviction : B unit :=
  on_ban (fun b => (tt, b {{ evictions_count ::= S }})) ;;;
  let* n := gets (fun w => evictions_count (snd w)) in
  when (n mod _EVICTION_LOG_EVERY =? 0)%nat
    (sys (log WARNING "IP ban cache full; entries evicted (silent overflow)")).

(** [banned_ips.get(ip)] *)
Definition banned_ips_get (ip : string) : B (option Z) :=
  let* now := sys time_monotonic in
  on_ban (fun b => let '(v, c) := ttl_get now ip (banned_ips b) in (v, b {{ banned_ips := c }})).

(** [banned_ips[ip] = expiry]; [popitem] calls [_on_eviction] *)
Definition banned_ips_set (ip : string) (expiry : Z) : B unit :=
  let* now := sys time_monotonic in
  let* evicted := on_ban (fun b => let '(c, n) := ttl_set now ip expiry (banned_ips b) in
                                   (n, b {{ banned_ips := c }})) in
  for_each (seq 0 evicted) (fun _ => _on_eviction).

(** [_purge_banned_ip] *)
Definition _purge_banned_ip (ip : string) : B unit :=
  let* now := sys time_monotonic in
  on_ban (fun b => (tt, b {{ banned_ips := ttl_del now ip (banned_ips b) }})).

(** ** Events ([_ipban_events.py]) *)

Definition ban_event (event_type ip action reason : string) (meta : list (string * string)) : agent_event :=
  {| ev_type := event_type; ev_ip := ip; ev_action := action; ev_reason := reason;
     ev_handler := "ip_ban"; ev_country := None; ev_meta := meta |}.

Definition _send_ban_event (ip : string) (duration : Z) (reason : string) : B unit :=
  sys (agent_send_logged (ban_event "ip_banned" ip "banned" reason [("duration", string_of_Z duration)])
         "Failed to send ban event to agent").

Definition _send_unban_event (ip : string) : B unit :=
  sys (agent_send_logged (ban_event "ip_unbanned" ip "unbanned" "dynamic_rule_whitelist" [("action", "unban")])
         "Failed to send unban event to agent").

(** ** Banning ([_ipban_bans.py]) *)

Definition _assert_positive_duration (duration : Z) : B unit :=
  when (duration <=? 0)%Z (raise (ValueError "ban duration must be positive")).

Definition _clamp_to_local_cap (duration : Z) (cause : string) : B Z :=
  if (duration <=? LOCAL_CACHE_TTL_CAP_SECONDS)%Z then ret duration
  else sys (log WARNING ("Redis unavailable (" +:+ cause +:+ "): ban shortened")) ;;;
       ret LOCAL_CACHE_TTL_CAP_SECONDS.

(** [self.banned_networks.append((network, time.time() + duration))] *)
Definition append_network (network : net) (duration : Z) : B unit :=
  let* now := sys time_time in
  on_ban (fun b => (tt, b {{ banned_networks := banned_networks b ++ [(network, (now + seconds duration)%Z)] }})).

Definition redis_set_key (h : RedisHandle SecurityConfig) (namespace key value : string) (ttl : Z) : B unit :=
  sys (set_key (rh_config h) (rh_agent h) namespace key value (Some ttl)) ;;; ret tt.

Definition _ban_cidr (ip : string) (duration : Z) : B unit :=
  match ip_network ip with
  | None => raise (ValueError ("Invalid CIDR network " +:+ ip))
  | Some network =>
      let* redis_handler := gets (fun w => bm_redis (snd w)) in
      match redis_handler with
      | None =>
          let* duration := _clamp_to_local_cap duration "not configured" in
          append_network network duration
      | Some h =>
          catch any_exn
            (let* now := sys time_time in
             redis_set_key h "banned_networks" (string_of_net network)
               (str_time (now + seconds duration)) duration)
            (fun _ =>
               let* duration := _clamp_to_local_cap duration "request failed" in
               append_network network duration)
      end
  end.

Definition _ban_exact_ip (ip : string) (duration : Z) (reason : string) : B unit :=
  match ip_address ip with
  | None => raise (ValueError ("Invalid IP address " +:+ ip))
  | Some _ =>
      let* redis_handler := gets (fun w => bm_redis (snd w)) in
      let* duration := match redis_handler with
                       | None => _clamp_to_local_cap duration "not configured"
                       | Some _ => ret duration
                       end in
      let* now := sys time_time in
      let expiry := (now + seconds duration)%Z in
      banned_ips_set ip expiry ;;;
      let* duration := match redis_handler with
        | None => ret duration
        | Some h =>
            catch any_exn
              (redis_set_key h "banned_ips" ip (str_time expiry) duration ;;; ret duration)
              (fun _ =>
                 let* duration := _clamp_to_local_cap duration "request failed" in
                 let* now := sys time_time in
                 banned_ips_set ip (now + seconds duration)%Z ;;;
                 ret duration)
        end in
      let* agent_handler := gets (fun w => bm_agent (snd w)) in
      when agent_handler (_send_ban_event ip duration reason)
  end.

Definition _target_network (ip : string) : option net :=
  if has_char "/" ip then ip_network ip else option_map host_network (ip_address ip).

Definition _trusted_proxy_networks (config : option SecurityConfig) : list net :=
  omap ip_network (match config with Some c => trusted_proxies c | None => [] end).

Definition _self_dos_refusal_reason (config : option SecurityConfig) (ip : string) : option string :=
  match _target_network ip with
  | None => None
  | Some target =>
      if existsb (fun network => same_version target network && overlaps target network) _LOOPBACK_NETWORKS
      then Some "loopback"
      else if existsb (fun network => same_version target network && overlaps target network)
                (_trusted_proxy_networks config)
      then Some "trusted_proxy"
      else None
  end.

Definition _log_refused_ban (ip reason : string) : B unit :=
  sys (log WARNING ("Refused to ban " +:+ ip +:+ ": overlaps " +:+
         (if (reason =? "loopback")%string then "loopback" else "a configured trusted proxy") +:+ " space")).

Definition _warn_if_private_target (ip : string) : B unit :=
  match _target_network ip with
  | None => ret tt
  | Some target => when (net_is_private target)
                     (sys (log WARNING ("Banning private IP range " +:+ ip)))
  end.

Definition ban_ip (ip : string) (duration : Z) (reason : string) : B bool :=
  let ip := _canonicalize_ip ip in
  _assert_positive_duration duration ;;;
  let* config := gets (fun w => bm_config (snd w)) in
  match _self_dos_refusal_reason config ip with
  | Some refusal => _log_refused_ban ip refusal ;;; ret false
  | None =>
      _warn_if_private_target ip ;;;
      (if has_char "/" ip then _ban_cidr ip duration else _ban_exact_ip ip duration reason) ;;;
      ret true
  end.

(** ** Queries ([_ipban_queries.py]) *)

(** The loop: expired networks are dropped, and [hit] is whether a live one
    contains the address. *)
Fixpoint scan_networks (addr : ip) (now : Z) (l : list (net * Z)) : bool * list (net * Z) :=
  match l with
  | [] => (false, [])
  | (network, expiry) :: l' =>
      let '(hit, active) := scan_networks addr now l' in
      if (expiry <=? now)%Z then (hit, active)
      else ((ip_width addr =? net_width network)%Z && ip_in_net addr network || hit, (network, expiry) :: active)
  end.

Definition _check_network_cache (addr : ip) (now : Z) : B bool :=
  on_ban (fun b => let '(hit, active) := scan_networks addr now (banned_networks b) in
                   (hit, b {{ banned_networks := active }})).

Definition _check_redis_exact (h : RedisHandle SecurityConfig) (ip : string) (current_time : Z) : B bool :=
  let* expiry := sys (get_key (rh_config h) (rh_agent h) "banned_ips" ip) in
  match expiry with
  | Some (String _ _ as expiry) =>
      let* expiry_time := lift_res (float_time expiry) in
      if (current_time <=? expiry_time)%Z then
        banned_ips_set ip expiry_time ;;;
        ret true
      else
        sys (delete (rh_config h) (rh_agent h) "banned_ips" ip) ;;;
        ret false
  | _ => ret false
  end.

Definition is_ip_banned (ip : string) : B bool :=
  let ip := _canonicalize_ip ip in
  let* current_time := sys time_time in
  let* expiry := banned_ips_get ip in
  match expiry with
  | Some expiry =>
      if (expiry <? current_time)%Z then _purge_banned_ip ip ;;; ret false
      else ret true
  | None =>
      match ip_address ip with
      | None => ret false
      | Some addr =>
          let* hit := _check_network_cache addr current_time in
          if hit then ret true
          else
            let* redis_handler := gets (fun w => bm_redis (snd w)) in
            match redis_handler with
            | Some h => _check_redis_exact h ip current_time
            | None => ret false
            end
      end
  end.

Definition unban_ip (ip : string) : B unit :=
  let ip := _canonicalize_ip ip in
  _purge_banned_ip ip ;;;
  let* redis_handler := gets (fun w => bm_redis (snd w)) in
  match redis_handler with
  | Some h => sys (delete (rh_config h) (rh_agent h) "banned_ips" ip) ;;; ret tt
  | None => ret tt
  end ;;;
  let* agent_handler := gets (fun w => bm_agent (snd w)) in
  when agent_handler (_send_unban_event ip).

(** [reset]; [conn] is used without [safe_operation] *)
Definition ban_reset : B unit :=
  on_ban (fun b => (tt, b {{ banned_ips := ttl_empty; banned_networks := [] }})) ;;;
  let* redis_handler := gets (fun w => bm_redis (snd w)) in
  match redis_handler with
  | Some h =>
      sys (get_connection (rh_config h) (rh_agent h)
             (let* ks := redis_call (srv_keys (redis_prefix (rh_config h) +:+ "banned_ips:*")) in
              match ks with
              | [] => ret tt
              | _ => redis_call (srv_delete ks) ;;; ret tt
              end))
  | None => ret tt
  end.

(** ** Migration of legacy keys ([_ipban_migration.py]) *)

Definition _migrate_one_ban_key (key prefix : string) : M Sys unit :=
  let raw_ip := sdrop (slen prefix) key in
  let canonical_ip := _canonicalize_ip raw_ip in
  if (canonical_ip =? raw_ip)%string then ret tt
  else
    let* (value, old_pttl) := redis_call (fun st =>
      let '(v, st) := srv_get key st in
      let '(p, st) := srv_pttl key st in
      ((v, p), st)) in
    if (old_pttl <=? 0)%Z then redis_call (srv_delete [key]) ;;; ret tt
    else
      let canonical_key := prefix +:+ canonical_ip in
      let* new_pttl := redis_call (srv_pttl canonical_key) in
      when (new_pttl <? old_pttl)%Z
        (match value with
         | Some v => redis_call (srv_pset canonical_key v old_pttl)
         | None => raise (OtherError "DataError" "Invalid input of type: 'NoneType'")
         end) ;;;
      redis_call (srv_delete [key]) ;;; ret tt.

(** [SCAN] is taken to return the keys [KEYS] returns. *)
Definition _migrate_legacy_ban_keys : B unit :=
  let* redis_handler := gets (fun w => bm_redis (snd w)) in
  match redis_handler with
  | None => ret tt
  | Some h =>
      let prefix := redis_prefix (rh_config h) +:+ "banned_ips:" in
      sys (catch any_exn
             (get_connection (rh_config h) (rh_agent h)
                (let* ks := redis_call (srv_keys (prefix +:+ "*")) in
                 for_each ks (fun key => _migrate_one_ban_key key prefix)))
             (fun e => log WARNING ("Legacy ban-key migration skipped: " +:+ exn_message e)))
  end.

Definition ban_initialize_redis (h : RedisHandle SecurityConfig) : B unit :=
  on_ban (fun b => (tt, b {{ bm_redis := Some h }})) ;;;
  _migrate_legacy_ban_keys.

Definition ban_initialize_agent : B unit := on_ban (fun b => (tt, b {{ bm_agent := true }})).

(** [reset_global_state] *)
Definition ban_reset_global_state : B unit :=
  on_ban (fun b => (tt, b {{ banned_ips := ttl_empty; banned_networks := []; evictions_count := 0%nat;
                             bm_redis := None; bm_agent := false }})).
End ban.

(** * A ban stays *)

Section stays.
Context `{E : Env} `{C : !TTLCache string Z BAN_CACHE_SIZE (seconds LOCAL_CACHE_TTL_CAP_SECONDS)}.

#[local] Abbreviation W := (Sys * BanManager)%type.

(** Time and the eviction count only grow. *)
Definition ban_le (w w' : W) : Prop :=
  ticks_le (fst w) (fst w') /\ (evictions_count (snd w) <= evictions_count (snd w'))%nat.

#[export] Instance ban_le_preorder : PreOrder ban_le.
Proof.
  split; [split; [reflexivity|lia]|]. intros w1 w2 w3 [H1 H2] [H3 H4]. split; [by etransitivity|lia].
Qed.

(** The entry of the banned address, from [ev0] evictions on, readable until the
    cache's clock reaches [until] and the wall clock [exp]. *)
Context (addr : string) (exp until : Z) (ev0 : nat).

Definition live (w : W) : Prop :=
  (ev0 <= evictions_count (snd w))%nat /\
  (evictions_count (snd w) = ev0 -> (clock (ticks (fst w)) <= exp)%Z ->
   forall m, (monotonic (ticks (fst w)) <= m)%Z -> (m < until)%Z ->
             fst (ttl_get m addr (banned_ips (snd w))) = Some exp).

Definition ban_keeps (w w' : W) : Prop := ban_le w w' /\ (live w -> live w').

#[export] Instance ban_keeps_preorder : PreOrder ban_keeps.
Proof.
  split; [split; [reflexivity|auto]|]. intros w1 w2 w3 [H1 H2] [H3 H4].
  split; [by etransitivity|auto].
Qed.

Context (Hclock : forall i j, (i <= j)%nat -> (clock i <= clock j)%Z)
        (Hmono : forall i j, (i <= j)%nat -> (monotonic i <= monotonic j)%Z).

(** A change that keeps the readings of the entry keeps [live]. *)
Lemma ban_keeps_intro (w w' : W) :
  ban_le w w' ->
  (evictions_count (snd w') = evictions_count (snd w) ->
   forall m, (monotonic (ticks (fst w')) <= m)%Z ->
   fst (ttl_get m addr (banned_ips (snd w'))) = fst (ttl_get m addr (banned_ips (snd w)))) ->
  ban_keeps w w'.
Proof using Hclock Hmono.
  intros [Ht He] Hget. split; [by split|]. intros [H1 H2]. split; [lia|]. intros Hev Hc m Hm Hu.
  rewrite Hget by lia. apply H2; [lia| |by etransitivity; [apply Hmono, Ht|]|done].
  etransitivity; [apply Hclock, Ht|done].
Qed.

Lemma sys_ban_keeps {A} (m : M Sys A) : keeps ticks_le m -> keeps ban_keeps (sys m).
Proof using Hclock Hmono.
  intros Hm. unfold sys. eapply keeps_zoom; [|exact Hm]. intros w s Hs.
  apply ban_keeps_intro; [by split|done].
Qed.

Lemma sys_same_ban_keeps {A} (m : M Sys A) : keeps same_ticks m -> keeps ban_keeps (sys m).
Proof using Hclock Hmono.
  intros Hm. apply sys_ban_keeps. eapply keeps_weaken; [apply same_ticks_le|exact Hm].
Qed.

Lemma time_ban_keeps : keeps ban_keeps (sys time_time).
Proof using Hclock Hmono. apply sys_ban_keeps. intros s. destruct s. unfold ticks_le. simpl. lia. Qed.

Lemma monotonic_ban_keeps : keeps ban_keeps (sys time_monotonic).
Proof using Hclock Hmono. apply sys_ban_keeps. intros s. destruct s. unfold ticks_le. simpl. lia. Qed.

(** A step on the manager that touches neither the cache nor the count. *)
Lemma on_ban_keeps {A} (f : BanManager -> A * BanManager) :
  (forall b, banned_ips (snd (f b)) = banned_ips b /\ evictions_count (snd (f b)) = evictions_count b) ->
  keeps ban_keeps (on_ban f).
Proof using Hclock Hmono.
  intros H [s b]. unfold on_ban. simpl. specialize (H b). destruct (f b) as [a b']. simpl in *.
  destruct H as [H1 H2]. apply ban_keeps_intro; [split; [reflexivity|simpl; lia]|]. simpl. by rewrite H1.
Qed.

Lemma evictions_run n : forall s b, exists s',
  for_each (seq 0 n) (fun _ => _on_eviction) (s, b) =
  (Ok tt, (s', b {{ evictions_count := (evictions_count b + n)%nat }})) /\ ticks s' = ticks s.
Proof using Type.
  generalize 0%nat. induction n as [|n IH]; intros k s b.
  { exists s. split; [|done]. rewrite Nat.add_0_r. by destruct b. }
  assert (exists s1, _on_eviction (s, b) = (Ok tt, (s1, b {{ evictions_count ::= S }})) /\ ticks s1 = ticks s)
    as (s1 & H1 & Ht).
  { unfold _on_eviction. unfold bind, on_ban, gets. cbn [snd fst].
    destruct (_ =? 0)%nat; cbn [when]; [|by exists s].
    pose proof (log_ticks WARNING "IP ban cache full; entries evicted (silent overflow)" s) as Hl.
    unfold sys, zoom, log, modify in *. cbn [fst snd] in *. eexists. split; [reflexivity|].
    symmetry. exact Hl. }
  destruct (IH (S k) s1 (b {{ evictions_count ::= S }})) as (s2 & H2 & Ht2). exists s2. split; [|congruence].
  change (seq k (S n)) with (k :: seq (S k) n). cbn [for_each]. rewrite (bind_ok _ _ _ _ _ H1). rewrite H2.
  destruct b; cbn. by rewrite Nat.add_succ_r.
Qed.

(** What storing an entry leaves. *)
Lemma banned_ips_set_run ip e s b : exists s',
  let '(c, n) := ttl_set (monotonic (ticks s)) ip e (banned_ips b) in
  banned_ips_set ip e (s, b) =
  (Ok tt, (s', b {{ banned_ips := c; evictions_count := (evictions_count b + n)%nat }})) /\
  ticks s' = S (ticks s).
Proof using Type.
  destruct (ttl_set _ ip e (banned_ips b)) as [c n] eqn:Es.
  destruct (evictions_run n (s {{ ticks ::= S }}) (b {{ banned_ips := c }})) as (s' & Hr & Ht).
  exists s'. split; [|rewrite Ht; by destruct s]. unfold banned_ips_set.
  erewrite bind_ok by reflexivity. erewrite bind_ok.
  2: { unfold on_ban. cbn [snd fst]. rewrite Es. reflexivity. }
  rewrite Hr. by destruct b.
Qed.

Lemma banned_ips_set_keeps ip e : ip <> addr -> keeps ban_keeps (banned_ips_set ip e).
Proof using Hclock Hmono.
  intros Hne [s b]. destruct (banned_ips_set_run ip e s b) as (s' & Hr).
  destruct (ttl_set _ ip e (banned_ips b)) as [c n] eqn:Es. destruct Hr as [Hr Ht]. rewrite Hr. cbn [snd].
  apply ban_keeps_intro; cbn [fst snd].
  - split; unfold ticks_le; cbn [fst snd]; rewrite ?Ht; destruct b; simpl; lia.
  - intros Hev m Hm. assert (n = 0%nat) as -> by (destruct b; simpl in Hev; lia).
    assert (monotonic (ticks s) <= m)%Z as Hm' by (etransitivity; [|exact Hm]; apply Hmono; lia).
    pose proof (ttl_set_other (monotonic (ticks s)) m ip addr e (banned_ips b) Hne Hm') as Ho.
    rewrite Es in Ho. destruct b; simpl in *. by apply Ho.
Qed.

Lemma purge_keeps ip : ip <> addr -> keeps ban_keeps (_purge_banned_ip ip).
Proof using Hclock Hmono.
  intros Hne [s b]. unfold _purge_banned_ip. erewrite bind_ok by reflexivity. unfold on_ban. cbn [fst snd].
  apply ban_keeps_intro; cbn [fst snd].
  - split; [unfold ticks_le; destruct s; simpl; lia|by destruct b].
  - intros _ m Hm. assert (banned_ips (b {{ banned_ips := ttl_del (monotonic (ticks s)) ip (banned_ips b) }}) =
      ttl_del (monotonic (ticks s)) ip (banned_ips b)) as -> by (by destruct b).
    apply ttl_del_other; [done|]. etransitivity; [|exact Hm]. apply Hmono. destruct s; simpl; lia.
Qed.

Lemma get_keeps ip : keeps ban_keeps (banned_ips_get ip).
Proof using Hclock Hmono.
  intros [s b]. unfold banned_ips_get. erewrite bind_ok by reflexivity. unfold on_ban. cbn [fst snd].
  destruct (ttl_get _ ip (banned_ips b)) as [v c] eqn:Eg. cbn [snd].
  apply ban_keeps_intro; cbn [fst snd].
  - split; [unfold ticks_le; destruct s; simpl; lia|by destruct b].
  - intros _ m _. pose proof (ttl_get_get (monotonic (ticks s)) m ip addr (banned_ips b)) as Hg.
    rewrite Eg in Hg. by destruct b.
Qed.

Lemma clamp_keeps d cause : keeps ban_keeps (_clamp_to_local_cap d cause).
Proof using Hclock Hmono.
  unfold _clamp_to_local_cap. keeps_steps. apply sys_same_ban_keeps. auto with ticks.
Qed.

Lemma append_network_keeps n d : keeps ban_keeps (append_network n d).
Proof using Hclock Hmono.
  unfold append_network. keeps_steps; [apply time_ban_keeps|]. apply on_ban_keeps. by intros [].
Qed.

Lemma set_key_keeps h ns k v d : keeps ban_keeps (redis_set_key h ns k v d).
Proof using Hclock Hmono.
  unfold redis_set_key. keeps_steps. apply sys_same_ban_keeps. auto with ticks.
Qed.

(** Banning another address. *)
Lemma ban_ip_keeps ip d reason :
  _canonicalize_ip ip <> addr -> keeps ban_keeps (ban_ip ip d reason).
Proof using Hclock Hmono.
  intros Hne. unfold ban_ip, _assert_positive_duration, _log_refused_ban, _warn_if_private_target,
    _ban_cidr, _ban_exact_ip, _send_ban_event.
  keeps_steps; first [ apply clamp_keeps | apply append_network_keeps | apply set_key_keeps
    | by apply banned_ips_set_keeps | apply time_ban_keeps | apply sys_same_ban_keeps; auto with ticks ].
Qed.

Lemma unban_ip_keeps ip : _canonicalize_ip ip <> addr -> keeps ban_keeps (unban_ip ip).
Proof using Hclock Hmono.
  intros Hne. unfold unban_ip, _send_unban_event.
  keeps_steps; first [ by apply purge_keeps | apply sys_same_ban_keeps; auto with ticks ].
Qed.

Lemma check_network_keeps a now : keeps ban_keeps (_check_network_cache a now).
Proof using Hclock Hmono.
  apply on_ban_keeps. intros b. destruct (scan_networks a now (banned_networks b)). by destruct b.
Qed.

Lemma check_redis_keeps h ip now : ip <> addr -> keeps ban_keeps (_check_redis_exact h ip now).
Proof using Hclock Hmono.
  intros Hne. unfold _check_redis_exact.
  keeps_steps; first [ by apply banned_ips_set_keeps | apply sys_same_ban_keeps; auto with ticks ].
Qed.

(** Asking about another address. *)
Lemma is_ip_banned_keeps_other ip : _canonicalize_ip ip <> addr -> keeps ban_keeps (is_ip_banned ip).
Proof using Hclock Hmono.
  intros Hne. unfold is_ip_banned.
  keeps_steps; first [ by apply purge_keeps | apply time_ban_keeps | apply get_keeps
    | apply check_network_keeps | by apply check_redis_keeps ].
Qed.
End stays.

(** Whatever is done, time and the eviction count only grow. *)
Section grows.
Context `{E : Env} `{C : !TTLCache string Z BAN_CACHE_SIZE (seconds LOCAL_CACHE_TTL_CAP_SECONDS)}.

Lemma sys_ban_le {A} (m : M Sys A) : keeps ticks_le m -> keeps ban_le (sys m).
Proof. intros Hm. eapply keeps_zoom; [|exact Hm]. intros w s Hs. by split. Qed.

Lemma sys_same_ban_le {A} (m : M Sys A) : keeps same_ticks m -> keeps ban_le (sys m).
Proof. intros Hm. apply sys_ban_le. eapply keeps_weaken; [apply same_ticks_le|exact Hm]. Qed.

Lemma time_ban_le : keeps ban_le (sys time_time).
Proof. apply sys_ban_le. intros []. unfold ticks_le. simpl. lia. Qed.

Lemma on_ban_le {A} (f : BanManager -> A * BanManager) :
  (forall b, evictions_count (snd (f b)) = evictions_count b) -> keeps ban_le (on_ban f).
Proof.
  intros H [s b]. unfold on_ban. specialize (H b). cbn [snd fst]. destruct (f b) as [a b']. cbn [snd] in *.
  split; cbn [fst snd]; [reflexivity|lia].
Qed.

Lemma banned_ips_set_le ip e : keeps ban_le (banned_ips_set ip e).
Proof.
  intros [s b]. destruct (banned_ips_set_run ip e s b) as (s' & Hr).
  destruct (ttl_set _ ip e (banned_ips b)) as [c n]. destruct Hr as [-> Ht]. cbn [snd].
  split; [unfold ticks_le; cbn [fst]; lia|destruct b; simpl; lia].
Qed.

Lemma purge_le ip : keeps ban_le (_purge_banned_ip ip).
Proof.
  unfold _purge_banned_ip. keeps_steps; [|apply on_ban_le; by intros []].
  apply sys_ban_le. intros []. unfold ticks_le. simpl. lia.
Qed.

Lemma check_network_le a now : keeps ban_le (_check_network_cache a now).
Proof. apply on_ban_le. intros b. destruct (scan_networks a now (banned_networks b)). by destruct b. Qed.

Lemma check_redis_le h ip now : keeps ban_le (_check_redis_exact h ip now).
Proof.
  unfold _check_redis_exact. keeps_steps; first [ apply banned_ips_set_le | apply sys_same_ban_le; auto with ticks ].
Qed.
End grows.

Section stays_query.
Context `{E : Env} `{C : !TTLCache string Z BAN_CACHE_SIZE (seconds LOCAL_CACHE_TTL_CAP_SECONDS)}.
Context (addr : string) (exp until : Z) (ev0 : nat).
Context (Hclock : forall i j, (i <= j)%nat -> (clock i <= clock j)%Z)
        (Hmono : forall i j, (i <= j)%nat -> (monotonic i <= monotonic j)%Z).

#[local] Abbreviation live := (live addr exp until ev0).
#[local] Abbreviation ban_keeps := (ban_keeps addr exp until ev0).

(** What a query reads first: the wall clock, then the entry. *)
Lemma query_start s b :
  exists s1 b1, ticks s1 = S (S (ticks s)) /\
    evictions_count b1 = evictions_count b /\
    (bm_redis b1 = bm_redis b /\ banned_networks b1 = banned_networks b) /\
    (let* t := sys time_time in let* e := banned_ips_get addr in ret (t, e)) (s, b) =
    (Ok (clock (ticks s), fst (ttl_get (monotonic (S (ticks s))) addr (banned_ips b))), (s1, b1)).
Proof.
  unfold banned_ips_get. erewrite bind_ok by reflexivity. cbn [fst snd].
  destruct (ttl_get (monotonic (S (ticks s))) addr (banned_ips b)) as [v c] eqn:Eg.
  eexists _, _. split; [|split; [|split; [|unfold bind, sys, zoom, time_monotonic, on_ban; cbn [fst snd ticks];
    replace (ticks (s {{ ticks ::= S }})) with (S (ticks s)) by (by destruct s); rewrite Eg; reflexivity]]];
    try split; by destruct s, b.
Qed.

(** The rest of a query, given what it read. *)
Definition query_rest (ip : string) (current_time : Z) (expiry : option Z) : M (Sys * BanManager) bool :=
  match expiry with
  | Some expiry =>
      if (expiry <? current_time)%Z then _purge_banned_ip ip ;;; ret false
      else ret true
  | None =>
      match ip_address ip with
      | None => ret false
      | Some a =>
          let* hit := _check_network_cache a current_time in
          if hit then ret true
          else
            let* redis_handler := gets (fun w => bm_redis (snd w)) in
            match redis_handler with
            | Some h => _check_redis_exact h ip current_time
            | None => ret false
            end
      end
  end.

Lemma is_ip_banned_split ip s b :
  _canonicalize_ip ip = addr -> exists s1 b1,
  ticks s1 = S (S (ticks s)) /\ evictions_count b1 = evictions_count b /\ bm_redis b1 = bm_redis b /\
  is_ip_banned ip (s, b) =
  query_rest addr (clock (ticks s)) (fst (ttl_get (monotonic (S (ticks s))) addr (banned_ips b))) (s1, b1) /\
  ban_keeps (s, b) (s1, b1).
Proof using Hclock Hmono.
  intros Ha. destruct (query_start s b) as (s1 & b1 & Ht & He & [Hr _] & Hq). exists s1, b1.
  split; [done|]. split; [done|]. split; [done|]. split.
  - unfold is_ip_banned. rewrite Ha. unfold bind at 1. unfold bind at 1 in Hq.
    destruct (sys time_time (s, b)) as [[t|e] w1] eqn:E1; [|discriminate].
    unfold bind at 1. unfold bind at 1 in Hq.
    destruct (banned_ips_get addr w1) as [[v|e] w2] eqn:E2; [|discriminate].
    unfold ret in Hq. injection Hq as -> -> ->. reflexivity.
  - pose proof (keeps_bind ban_keeps (sys time_time) (fun t => let* e := banned_ips_get addr in ret (t, e))) as Hk.
    specialize (Hk (time_ban_keeps addr exp until ev0 Hclock Hmono)).
    specialize (Hk (fun t => keeps_bind ban_keeps (banned_ips_get addr) (fun e => ret (t, e))
      (get_keeps addr exp until ev0 Hclock Hmono addr) (fun e => keeps_ret ban_keeps _))).
    specialize (Hk (s, b)). by rewrite Hq in Hk.
Qed.

Lemma query_rest_le ip t v : keeps ban_le (query_rest ip t v).
Proof.
  unfold query_rest. keeps_steps; first [ apply purge_le | apply check_network_le | apply check_redis_le ].
Qed.

(** Asking about the banned address itself. *)
Lemma is_ip_banned_keeps_self ip : _canonicalize_ip ip = addr -> keeps ban_keeps (is_ip_banned ip).
Proof using Hclock Hmono.
  intros Ha [s b]. destruct (is_ip_banned_split ip s b Ha) as (s1 & b1 & Ht & He & _ & -> & Hk).
  set (t := clock (ticks s)). set (now := monotonic (S (ticks s))). set (v := fst _).
  pose proof (query_rest_le addr t v (s1, b1)) as Hle.
  assert (live (s, b) -> forall w', ban_le (s1, b1) w' -> evictions_count (snd w') = ev0 ->
    (clock (ticks (fst w')) <= exp)%Z -> forall m, (monotonic (ticks (fst w')) <= m)%Z -> (m < until)%Z ->
    v = Some exp /\ (t <= exp)%Z) as Hread.
  { intros [Hl1 Hl2] w' [Hw1 Hw2] Hev Hc m Hm Hu. unfold ticks_le in Hw1. cbn [fst snd] in *.
    assert (clock (ticks s) <= clock (ticks (fst w')))%Z by (apply Hclock; lia).
    assert (now <= monotonic (ticks (fst w')))%Z by (apply Hmono; lia).
    split; [|unfold t; lia]. apply Hl2; [lia|lia| |lia]. apply Hmono. lia. }
  destruct (query_rest addr t v (s1, b1)) as [r w'] eqn:Eq. cbn [snd] in *.
  split; [etransitivity; [apply Hk|exact Hle]|]. intros Hl. split.
  { destruct Hl as [Hl _], Hle as [_ Hle]. cbn [snd] in *. lia. }
  intros Hev Hc m Hm Hu. destruct (Hread Hl w' Hle Hev Hc m Hm Hu) as [Hv Hte].
  unfold query_rest in Eq. rewrite Hv in Eq. destruct (Z.ltb_spec exp t); [lia|].
  injection Eq as <- <-. destruct Hk as [_ Hk]. by apply (Hk Hl).
Qed.

(** A live entry answers the query. *)
Lemma is_ip_banned_live ip s b :
  _canonicalize_ip ip = addr -> live (s, b) -> evictions_count b = ev0 ->
  (clock (ticks s) <= exp)%Z -> (monotonic (S (ticks s)) < until)%Z ->
  fst (is_ip_banned ip (s, b)) = Ok true.
Proof using Hclock Hmono.
  intros Ha [_ Hl] Hev Hc Hu. destruct (is_ip_banned_split ip s b Ha) as (s1 & b1 & _ & _ & _ & -> & _).
  cbn [fst snd] in *. rewrite (Hl Hev Hc) by (done || apply Hmono; lia). unfold query_rest.
  by destruct (Z.ltb_spec exp (clock (ticks s))); [lia|].
Qed.
End stays_query.

(** * Establishing a ban *)

Section establish.
Context `{E : Env} `{C : !TTLCache string Z BAN_CACHE_SIZE (seconds LOCAL_CACHE_TTL_CAP_SECONDS)}.
Context (addr : string) (duration : Z).
Context (Hclock : forall i j, (i <= j)%nat -> (clock i <= clock j)%Z)
        (Hmono : forall i j, (i <= j)%nat -> (monotonic i <= monotonic j)%Z).

#[local] Abbreviation W := (Sys * BanManager)%type.

(** The time a ban lasts when Redis does not hold it. *)
Definition local_duration (d : Z) : Z := Z.min d LOCAL_CACHE_TTL_CAP_SECONDS.

(** The address is banned for its local duration, counted from reading [n]. *)
Definition banned_since (n : nat) (w : W) : Prop :=
  (n <= ticks (fst w))%nat /\
  exists exp until, (clock n + seconds (local_duration duration) <= exp)%Z /\
    (monotonic n + seconds LOCAL_CACHE_TTL_CAP_SECONDS <= until)%Z /\
    live addr exp until (evictions_count (snd w)) w.

Lemma wp_sys_frame {A} (m : M Sys A) (Q : res A -> W -> Prop) w :
  keeps same_ticks m ->
  (forall r w', snd w' = snd w -> ticks (fst w') = ticks (fst w) -> Q r w') -> wp (sys m) Q w.
Proof using Type.
  intros Hm HQ. apply wp_sys. unfold wp. specialize (Hm (fst w)). apply HQ; [done|]. symmetry. exact Hm.
Qed.

Lemma wp_log_frame l msg (Q : res unit -> W -> Prop) w :
  (forall w', snd w' = snd w -> ticks (fst w') = ticks (fst w) -> Q (Ok tt) w') -> wp (sys (log l msg)) Q w.
Proof using Type. intros HQ. apply wp_sys, wp_modify. apply HQ; [done|]. by destruct w as [[] ?]. Qed.

Lemma wp_clamp d cause (Q : res Z -> W -> Prop) w :
  (forall d' w', (local_duration d <= d')%Z -> snd w' = snd w -> ticks (fst w') = ticks (fst w) -> Q (Ok d') w') ->
  wp (_clamp_to_local_cap d cause) Q w.
Proof using Type.
  intros HQ. unfold _clamp_to_local_cap. unfold local_duration in HQ.
  destruct (Z.leb_spec d LOCAL_CACHE_TTL_CAP_SECONDS); [apply wp_ret, HQ; [lia|done|done]|].
  apply wp_bind, wp_log_frame. intros w' H1 H2. apply wp_ret, HQ; [lia|done|done].
Qed.

Lemma wp_banned_ips_set n e (Q : res unit -> W -> Prop) w :
  (n <= ticks (fst w))%nat -> (clock n + seconds (local_duration duration) <= e)%Z ->
  (forall w', banned_since n w' -> bm_redis (snd w') = bm_redis (snd w) -> Q (Ok tt) w') ->
  wp (banned_ips_set addr e) Q w.
Proof using Hclock Hmono.
  destruct w as [s b]. cbn [fst snd]. intros Hn He HQ. unfold wp.
  destruct (banned_ips_set_run addr e s b) as (s' & Hr).
  destruct (ttl_set (monotonic (ticks s)) addr e (banned_ips b)) as [c k] eqn:Es. destruct Hr as [-> Ht]. cbn [fst snd].
  apply HQ; [|by destruct b]. split; cbn [fst snd]; [lia|].
  exists e, (monotonic (ticks s) + seconds LOCAL_CACHE_TTL_CAP_SECONDS)%Z.
  split; [done|]. split; [apply Z.add_le_mono_r, Hmono; lia|]. split; [done|]. intros _ _ m Hm Hu.
  cbn [fst snd] in *. assert (monotonic (ticks s) <= m)%Z as Hm' by (etransitivity; [apply Hmono|exact Hm]; lia).
  pose proof (ttl_set_get (monotonic (ticks s)) m addr e (banned_ips b) eq_refl Hm') as Hg.
  rewrite Es in Hg. destruct b; simpl in *. rewrite Hg. by destruct (Z.ltb_spec m (monotonic (ticks s) + seconds LOCAL_CACHE_TTL_CAP_SECONDS)); [|lia].
Qed.

Lemma banned_since_frame n w w' :
  snd w' = snd w -> ticks (fst w') = ticks (fst w) -> banned_since n w -> banned_since n w'.
Proof using Type. unfold banned_since, live. intros -> ->. done. Qed.

Lemma wp_time_time (Q : res Z -> W -> Prop) w :
  (forall w', snd w' = snd w -> ticks (fst w') = S (ticks (fst w)) -> Q (Ok (clock (ticks (fst w)))) w') ->
  wp (sys time_time) Q w.
Proof using Type. intros HQ. apply wp_sys. unfold wp, time_time. cbn [fst snd]. apply HQ; [done|]. by destruct w as [[] ?]. Qed.

Lemma local_duration_idem d d' : (local_duration d <= d')%Z -> (local_duration d <= local_duration d')%Z.
Proof using Type. unfold local_duration. lia. Qed.

Lemma expiry_bound n m d' :
  (n <= m)%nat -> (local_duration duration <= d')%Z ->
  (clock n + seconds (local_duration duration) <= clock m + seconds d')%Z.
Proof using Hclock. intros Hnm Hd. specialize (Hclock _ _ Hnm). unfold seconds. lia. Qed.

(** Storing the ban and telling Redis; if Redis fails, the ban is stored again. *)
Lemma wp_ban_exact reason w :
  wp (_ban_exact_ip addr duration reason) (fun r w' => r = Ok tt -> banned_since (ticks (fst w)) w') w.
Proof using Hclock Hmono.
  unfold _ban_exact_ip. destruct (ip_address addr); [|by apply wp_raise].
  apply wp_bind, wp_gets. set (n := ticks (fst w)). apply wp_bind.
  match goal with |- wp _ ?Q w => assert (forall d' w1, (local_duration duration <= d')%Z -> snd w1 = snd w ->
    ticks (fst w1) = n -> Q (Ok d') w1) as Hgo end.
  2: { destruct (bm_redis (snd w)); [|apply wp_clamp; intros; by apply Hgo].
       apply wp_ret. apply Hgo; [unfold local_duration; lia|done|done]. }
  intros d1 w1 Hd1 Hs1 Ht1. apply wp_bind, wp_time_time. intros w2 Hs2 Ht2. cbv zeta.
  apply wp_bind, (wp_banned_ips_set n); [lia|apply expiry_bound; lia|].
  intros w3 Hb3 _. apply wp_bind.
  assert (forall d w4, banned_since n w4 ->
    wp (let* agent_handler := gets (fun w => bm_agent (snd w)) in
        when agent_handler (_send_ban_event addr d reason))
       (fun r w' => r = Ok tt -> banned_since n w') w4) as Hend.
  { intros d w4 Hb4. apply wp_bind, wp_gets. unfold _send_ban_event. apply wp_when; intros _; [|done].
    apply wp_sys_frame; [auto with ticks|]. intros r w' H1 H2 _. by eapply banned_since_frame. }
  destruct (bm_redis (snd w)) as [h|]; [|by apply wp_ret, Hend].
  apply wp_catch, wp_bind. unfold redis_set_key. apply wp_bind.
  apply wp_sys_frame; [auto with ticks|]. intros [x|e] w4 H1 H2.
  - apply wp_ret, wp_ret, Hend. by eapply banned_since_frame.
  - cbn [any_exn]. apply wp_bind, wp_clamp. intros d2 w5 Hd2 Hs5 Ht5. apply wp_bind, wp_time_time.
    intros w6 Hs6 Ht6. destruct Hb3 as [Hn3 _].
    apply wp_bind, (wp_banned_ips_set n); [lia| |].
    + apply expiry_bound; [lia|]. apply local_duration_idem in Hd1. lia.
    + intros w7 Hb7 _. by apply wp_ret, Hend.
Qed.
End establish.

(** What may happen between a ban and a question about it. *)
Inductive ban_op : Type :=
| OpBan (ip : string) (duration : Z) (reason : string)
| OpUnban (ip : string)
| OpQuery (ip : string).

Section enforced.
Context `{E : Env} `{C : !TTLCache string Z BAN_CACHE_SIZE (seconds LOCAL_CACHE_TTL_CAP_SECONDS)}.

(** Running operations one after the other, each returning or raising. *)
Fixpoint run_ops (ops : list ban_op) (w : Sys * BanManager) : Sys * BanManager :=
  match ops with
  | [] => w
  | OpBan ip d reason :: ops' => run_ops ops' (snd (ban_ip ip d reason w))
  | OpUnban ip :: ops' => run_ops ops' (snd (unban_ip ip w))
  | OpQuery ip :: ops' => run_ops ops' (snd (is_ip_banned ip w))
  end.

(** Bans and unbans are of another address than [addr]. *)
Definition not_of (addr : string) (op : ban_op) : Prop :=
  match op with
  | OpBan ip _ _ | OpUnban ip => _canonicalize_ip ip <> addr
  | OpQuery _ => True
  end.

Lemma run_ops_keeps addr exp until ev0 ops w :
  (forall i j, (i <= j)%nat -> (clock i <= clock j)%Z) ->
  (forall i j, (i <= j)%nat -> (monotonic i <= monotonic j)%Z) ->
  Forall (not_of addr) ops -> ban_keeps addr exp until ev0 w (run_ops ops w).
Proof.
  intros Hc Hm Hops. revert w. induction Hops as [|op ops Hop Hops IH]; intros w; [reflexivity|].
  destruct op as [ip d reason|ip|ip]; cbn [run_ops not_of] in *; (etransitivity; [|apply IH]).
  - by apply ban_ip_keeps.
  - by apply unban_ip_keeps.
  - destruct (decide (_canonicalize_ip ip = addr)); [by apply is_ip_banned_keeps_self|].
    by apply is_ip_banned_keeps_other.
Qed.

(** What an accepted ban of a single address establishes. *)
Lemma ban_ip_establishes ip duration reason w0 w1 :
  (forall i j, (i <= j)%nat -> (clock i <= clock j)%Z) ->
  (forall i j, (i <= j)%nat -> (monotonic i <= monotonic j)%Z) ->
  ban_ip ip duration reason w0 = (Ok true, w1) -> has_char "/" (_canonicalize_ip ip) = false ->
  banned_since (_canonicalize_ip ip) duration (ticks (fst w0)) w1.
Proof.
  intros Hc Hm Hban Hsl. revert Hban. unfold ban_ip, _assert_positive_duration.
  destruct (duration <=? 0)%Z; [discriminate|].
  cbn [when]. rewrite bind_ret_l. erewrite bind_ok by reflexivity. cbv zeta.
  destruct (_self_dos_refusal_reason _ _); [by unfold bind; destruct (_log_refused_ban _ _ w0) as [[|] ?]|].
  intros (? & w & Hw & Hrest)%bind_ok_inv. rewrite Hsl in Hrest.
  apply bind_ok_inv in Hrest as ([] & w' & Hx & [= <-]).
  assert (snd w = snd w0 /\ ticks (fst w) = ticks (fst w0)) as [Hs Ht].
  { revert Hw. unfold _warn_if_private_target. destruct (_target_network _) as [t|]; [|by intros [= _ <-]].
    destruct (net_is_private t); [|by intros [= _ <-]]. cbn [when]. unfold sys, zoom, log, modify.
    intros [= _ <-]. by destruct w0 as [[] ?]. }
  pose proof (wp_ban_exact (_canonicalize_ip ip) duration Hc Hm reason w) as Hwp.
  unfold wp in Hwp. rewrite Hx, Ht in Hwp. by apply Hwp.
Qed.

(** C24: After ban_ip has accepted a single address, is_ip_banned reports every
    spelling of it as banned until the duration of the ban or one hour (the cap of the
    local entry), whichever is less, has passed, with Redis or without it, through any
    sequence of bans and unbans of other addresses and queries, while the cache has
    not overflowed and the clocks do not go back. What Redis holds beyond the hour is
    outside this claim. *)
Theorem ban_is_enforced ip ip' duration reason ops w0 :
  let w1 := snd (ban_ip ip duration reason w0) in
  let w2 := run_ops ops w1 in
  (forall i j, (i <= j)%nat -> (clock i <= clock j)%Z) ->
  (forall i j, (i <= j)%nat -> (monotonic i <= monotonic j)%Z) ->
  fst (ban_ip ip duration reason w0) = Ok true ->
  has_char "/" (_canonicalize_ip ip) = false ->
  Forall (not_of (_canonicalize_ip ip)) ops ->
  evictions_count (snd w2) = evictions_count (snd w1) ->
  (clock (ticks (fst w2)) <= clock (ticks (fst w0)) + seconds (Z.min duration LOCAL_CACHE_TTL_CAP_SECONDS))%Z ->
  (monotonic (S (ticks (fst w2))) < monotonic (ticks (fst w0)) + seconds LOCAL_CACHE_TTL_CAP_SECONDS)%Z ->
  _canonicalize_ip ip' = _canonicalize_ip ip ->
  fst (is_ip_banned ip' w2) = Ok true.
Proof.
  destruct (ban_ip ip duration reason w0) as [r w1] eqn:Hban. cbn [fst snd].
  intros Hc Hm -> Hsl Hops Hev Htime Hu Hip'.
  destruct (ban_ip_establishes ip duration reason w0 w1 Hc Hm Hban Hsl) as (_ & exp & until & He & Hun & Hl).
  pose proof (run_ops_keeps (_canonicalize_ip ip) exp until (evictions_count (snd w1)) ops w1 Hc Hm Hops) as [_ Hk].
  specialize (Hk Hl). destruct (run_ops ops w1) as [s2 b2]. cbn [fst snd] in *. unfold local_duration in He.
  eapply (is_ip_banned_live (_canonicalize_ip ip) exp until (evictions_count (snd w1))); try done; lia.
Qed.
End enforced.

(** * Refusals *)

Section refusal.
Context `{E : Env} `{C : !TTLCache string Z BAN_CACHE_SIZE (seconds LOCAL_CACHE_TTL_CAP_SECONDS)}.

(** The networks no ban may touch. *)
Definition protected (config : option SecurityConfig) (n : net) : Prop :=
  n ∈ _LOOPBACK_NETWORKS \/
  exists c p, config = Some c /\ p ∈ trusted_proxies c /\ ip_network p = Some n.

Lemma protected_spec config n :
  protected config n <-> n ∈ _LOOPBACK_NETWORKS ++ _trusted_proxy_networks config.
Proof.
  unfold protected, _trusted_proxy_networks. rewrite elem_of_app, list_elem_of_omap.
  split; (intros [H|H]; [by left|right]).
  - destruct H as (c & p & -> & Hp & Hn). by exists p.
  - destruct H as (p & Hp & Hn). destruct config as [c|]; [by exists c, p|by apply not_elem_of_nil in Hp].
Qed.

Lemma protected_wf config n : protected config n -> net_wf n.
Proof.
  intros [H|(c & p & _ & _ & H)]; [|by eapply ip_network_wf].
  repeat (apply elem_of_cons in H as [->|H]); [..|by apply not_elem_of_nil in H];
    unfold net_wf; repeat split; vm_compute; discriminate || reflexivity.
Qed.

Lemma target_network_wf s n : _target_network s = Some n -> net_wf n.
Proof.
  unfold _target_network. destruct (has_char "/" s); [apply ip_network_wf|].
  destruct (ip_address s) as [a|] eqn:Ea; [|done]. intros [= <-]. by eapply host_network_wf, ip_address_wf.
Qed.

(** Sharing an address, as the code decides it. *)
Lemma overlap_decided a b :
  net_wf a -> net_wf b -> same_version a b && overlaps a b = true <->
  exists x, ip_wf x /\ ip_in_net x a = true /\ ip_in_net x b = true.
Proof.
  intros Ha Hb. rewrite andb_true_iff, overlaps_spec by done. unfold same_version. rewrite Z.eqb_eq. split.
  - intros (_ & Hw & x & Hx & H1 & H2). exists (if (net_width a =? 32)%Z then V4 x else V6 x None).
    assert (net_width a = 32 \/ net_width a = 128)%Z as [E1|E1] by (destruct a; auto);
      rewrite E1 in *; cbn [Z.eqb]; unfold ip_wf; rewrite !ip_in_net_int; simpl; auto.
  - intros (x & Hx & H1 & H2). rewrite ip_in_net_int in H1, H2.
    assert (ip_width x = net_width a) as Ew by (unfold int_in_net in H1; bool_prop; done).
    assert (ip_width x = net_width b) as Ew' by (unfold int_in_net in H2; bool_prop; done).
    unfold ip_wf in Hx. split; [congruence|]. split; [congruence|]. exists (ip_int x). rewrite <- Ew. auto.
Qed.

Lemma refusal_spec config s :
  match _self_dos_refusal_reason config s with
  | Some _ => exists target n x, _target_network s = Some target /\ protected config n /\
                ip_wf x /\ ip_in_net x target = true /\ ip_in_net x n = true
  | None => forall target n x, _target_network s = Some target -> protected config n ->
                ip_wf x -> ip_in_net x target = true -> ip_in_net x n = false
  end.
Proof.
  unfold _self_dos_refusal_reason. destruct (_target_network s) as [target|] eqn:Et; [|done].
  pose proof (target_network_wf _ _ Et) as Hwt.
  set (p := fun network => same_version target network && overlaps target network).
  assert (forall l, Forall (protected config) l -> existsb p l = true ->
    exists n x, protected config n /\ ip_wf x /\ ip_in_net x target = true /\ ip_in_net x n = true) as Hyes.
  { intros l Hl (n & Hn%list_elem_of_In & Hp)%List.existsb_exists. rewrite Forall_forall in Hl.
    apply overlap_decided in Hp as (x & ? & ? & ?); [by exists n, x; auto|done|by eapply protected_wf, Hl]. }
  assert (Forall (protected config) _LOOPBACK_NETWORKS /\ Forall (protected config) (_trusted_proxy_networks config))
    as [Hl1 Hl2].
  { split; apply Forall_forall; intros n Hn; apply protected_spec, elem_of_app; auto. }
  destruct (existsb p _LOOPBACK_NETWORKS) eqn:E1.
  { destruct (Hyes _ Hl1 E1) as (n & x & H). exists target, n, x. tauto. }
  destruct (existsb p (_trusted_proxy_networks config)) eqn:E2.
  { destruct (Hyes _ Hl2 E2) as (n & x & H). exists target, n, x. tauto. }
  intros ? n x [= <-] Hp Hx H1. destruct (ip_in_net x n) eqn:Hxn; [|done]. exfalso.
  assert (p n = true) as Hpn. { apply overlap_decided; [done|by eapply protected_wf|by exists x]. }
  pose proof (proj1 (protected_spec config n) Hp) as Hin. apply elem_of_app in Hin as [Hin|Hin];
    apply list_elem_of_In in Hin.
  - assert (existsb p _LOOPBACK_NETWORKS = true) by (apply List.existsb_exists; eauto). congruence.
  - assert (existsb p (_trusted_proxy_networks config) = true) by (apply List.existsb_exists; eauto). congruence.
Qed.

(** No ban locks the deployment out.  An accepted ban covers no loopback
    address and no address of a trusted proxy; a ban is refused only because its
    target does share an address with one of them, and then nothing is stored,
    sent to Redis or reported. *)
Theorem ban_spares_protected ip duration reason w :
  let config := bm_config (snd w) in
  match ban_ip ip duration reason w with
  | (Ok true, _) =>
      exists target, _target_network (_canonicalize_ip ip) = Some target /\
        forall n x, protected config n -> ip_wf x -> ip_in_net x target = true -> ip_in_net x n = false
  | (Ok false, w') =>
      snd w' = snd w /\ same_clock (fst w) (fst w') /\ agent_log (fst w') = agent_log (fst w) /\
      exists target n x, _target_network (_canonicalize_ip ip) = Some target /\ protected config n /\
        ip_wf x /\ ip_in_net x target = true /\ ip_in_net x n = true
  | (Raise _, _) => True
  end.
Proof.
  cbv zeta. pose proof (refusal_spec (bm_config (snd w)) (_canonicalize_ip ip)) as Hr.
  destruct (ban_ip ip duration reason w) as [[b|e] w'] eqn:Hb; [|done]. revert Hb.
  unfold ban_ip, _assert_positive_duration. destruct (duration <=? 0)%Z; [discriminate|].
  cbn [when]. rewrite bind_ret_l. erewrite bind_ok by reflexivity. cbv zeta.
  destruct (_self_dos_refusal_reason _ _) as [refusal|].
  - unfold _log_refused_ban, sys, zoom, log, bind, modify. intros [= <- <-]. cbn [fst snd].
    split; [done|]. by destruct w as [[] ?].
  - intros (u1 & w1 & _ & Hrest)%bind_ok_inv. apply bind_ok_inv in Hrest as (u2 & w2 & Hx & [= <- <-]).
    unfold _target_network in *. destruct (has_char "/" (_canonicalize_ip ip)) eqn:Hs.
    + unfold _ban_cidr in Hx. destruct (ip_network (_canonicalize_ip ip)) as [n|] eqn:En; [|discriminate].
      exists n. split; [done|]. intros m x Hp Hw Hi. by eapply Hr.
    + unfold _ban_exact_ip in Hx. destruct (ip_address (_canonicalize_ip ip)) as [a|] eqn:En; [|discriminate].
      exists (host_network a). split; [done|]. intros m x Hp Hw Hi. by eapply Hr.
Qed.

(** The entry is gone once it has been deleted. *)
Lemma scan_networks_miss addr now l :
  Forall (fun p => (snd p <=? now)%Z = true \/ ip_in_net addr (fst p) = false) l ->
  fst (scan_networks addr now l) = false.
Proof.
  induction 1 as [|[n e] l Hn Hl IH]; [done|]. cbn [scan_networks]. destruct (scan_networks addr now l) as [hit act].
  cbn [fst snd] in *. subst hit. destruct (e <=? now)%Z; [done|]. destruct Hn as [Hn|Hn]; [done|].
  cbn [fst]. rewrite Hn. by destruct (ip_width addr =? net_width n)%Z.
Qed.

(** [unban_ip] lifts a ban: without Redis, and unless a live network ban
    covers it, the address is not banned afterwards, at any later time. *)
Theorem unban_lifts ip w s2 addr :
  let w1 := snd (unban_ip ip w) in
  (forall i j, (i <= j)%nat -> (monotonic i <= monotonic j)%Z) ->
  fst (unban_ip ip w) = Ok tt -> bm_redis (snd w) = None ->
  ip_address (_canonicalize_ip ip) = Some addr ->
  Forall (fun p => (snd p <=? clock (ticks s2))%Z = true \/ ip_in_net addr (fst p) = false)
    (banned_networks (snd w)) ->
  (ticks (fst w1) <= ticks s2)%nat ->
  fst (is_ip_banned ip (s2, snd w1)) = Ok false.
Proof.
  destruct (unban_ip ip w) as [r w1] eqn:Hun. cbn [fst snd].
  intros Hm -> Hr Ha Hn Ht. destruct w as [s b]. cbn [fst snd] in *.
  assert (snd w1 = b {{ banned_ips := ttl_del (monotonic (ticks s)) (_canonicalize_ip ip) (banned_ips b) }}
          /\ (S (ticks s) <= ticks (fst w1))%nat) as [Hw1 Ht1].
  { revert Hun. unfold unban_ip, _purge_banned_ip. cbv zeta. erewrite bind_ok by reflexivity.
    erewrite bind_ok by reflexivity. cbn [snd bm_redis]. 
    replace (bm_redis _) with (bm_redis b) by (by destruct b). rewrite Hr, bind_ret_l.
    erewrite bind_ok by reflexivity. cbn [snd fst].
    destruct (bm_agent _); cbn [when]; [|intros [= <-]; by destruct s].
    unfold _send_unban_event, sys, zoom. cbn [fst snd].
    pose proof (agent_send_logged_ticks (ban_event "ip_unbanned" (_canonicalize_ip ip) "unbanned" "dynamic_rule_whitelist"
      [("action", "unban")]) "Failed to send unban event to agent" (s {{ ticks ::= S }})) as Hk.
    destruct (agent_send_logged _ _ _) as [r s']. cbn [snd] in Hk. intros [= _ <-]. cbn [fst snd].
    split; [done|]. unfold same_ticks in Hk. destruct s; simpl in *. lia. }
  destruct (query_start (_canonicalize_ip ip) s2 (snd w1)) as (s3 & b3 & Ht3 & _ & [Hr3 Hn3] & Hq).
  unfold is_ip_banned. unfold bind at 1 in Hq. unfold bind at 1.
  destruct (sys time_time (s2, snd w1)) as [[t|e] w3]; [|discriminate].
  unfold bind at 1 in Hq. unfold bind at 1. destruct (banned_ips_get (_canonicalize_ip ip) w3) as [[v|e] w4] eqn:Eg; [|discriminate].
  unfold ret in Hq. injection Hq as -> -> ->.
  rewrite Hw1. replace (banned_ips _) with (ttl_del (monotonic (ticks s)) (_canonicalize_ip ip) (banned_ips b)) by (by destruct b).
  rewrite ttl_del_get by (apply Hm; lia). rewrite Ha.
  assert (banned_networks b3 = banned_networks b /\ bm_redis b3 = None) as [Hn4 Hr4]
    by (rewrite Hn3, Hr3, Hw1; by destruct b).
  unfold bind, _check_network_cache, on_ban, gets. cbn [fst snd]. rewrite Hn4.
  pose proof (scan_networks_miss addr (clock (ticks s2)) _ Hn) as Hmiss.
  destruct (scan_networks addr _ (banned_networks b)) as [hit act]. cbn [fst snd] in *. rewrite Hmiss.
  replace (bm_redis _) with (bm_redis b3) by (by destruct b3). by rewrite Hr4.
Qed.
End refusal.

(** * Witnesses *)

Section witness.

#[local] Instance env : Env := sample_env (ticking 1000) redis_up.
#[local] Instance cache : TTLCache string Z BAN_CACHE_SIZE (seconds LOCAL_CACHE_TTL_CAP_SECONDS) := assoc_ttl _ _.

Definition ban_config : SecurityConfig := default_config {{ trusted_proxies := ["10.0.0.0/8"] }}.

Definition ban_sample (redis : option (RedisHandle SecurityConfig)) : Sys * BanManager :=
  (sample_sys (ticking 1000) redis_up, BanManager_new {{ bm_config := Some ban_config; bm_redis := redis }}).

Definition with_redis : option (RedisHandle SecurityConfig) := Some (mkRedisHandle default_config false).

Lemma ban_is_enforced_witness :
  fst (is_ip_banned "::ffff:198.51.100.7"
         (run_ops [OpBan "198.51.100.8" 60 "test"; OpUnban "198.51.100.9"; OpQuery "198.51.100.7"]
            (snd (ban_ip "198.51.100.7" 600 "test" (ban_sample with_redis))))) = Ok true.
Proof.
  apply (ban_is_enforced "198.51.100.7" "::ffff:198.51.100.7" 600 "test"
    [OpBan "198.51.100.8" 60 "test"; OpUnban "198.51.100.9"; OpQuery "198.51.100.7"] (ban_sample with_redis)).
  - intros i j. apply ticking_mono.
  - intros i j. apply ticking_mono.
  - vm_compute. reflexivity.
  - vm_compute. reflexivity.
  - repeat constructor; vm_compute; discriminate.
  - vm_compute. reflexivity.
  - vm_compute. discriminate.
  - vm_compute. reflexivity.
  - vm_compute. reflexivity.
Defined.

Lemma unban_lifts_witness :
  fst (is_ip_banned "198.51.100.7"
         (snd (unban_ip "198.51.100.7" (snd (ban_ip "198.51.100.7" 600 "test" (ban_sample None)))))) = Ok false.
Proof.
  pose (w := snd (unban_ip "198.51.100.7" (snd (ban_ip "198.51.100.7" 600 "test" (ban_sample None))))).
  change (fst (is_ip_banned "198.51.100.7" (fst w, snd w)) = Ok false).
  apply (unban_lifts "198.51.100.7" (snd (ban_ip "198.51.100.7" 600 "test" (ban_sample None))) (fst w) (V4 3325256711)).
  - intros i j. apply ticking_mono.
  - vm_compute. reflexivity.
  - vm_compute. reflexivity.
  - vm_compute. reflexivity.
  - replace (banned_networks _) with (@nil (net * Z)) by (vm_compute; reflexivity). constructor.
  - apply Nat.le_refl.
Defined.

(** A network ban accepted with a working Redis does not ban the addresses of the
    network: it is written where no query looks. *)
Example cidr_ban_with_redis_is_not_enforced :
  let '(accepted, w) := ban_ip "198.51.100.0/24" 600 "test" (ban_sample with_redis) in
  accepted = Ok true /\ banned_networks (snd w) = [] /\
  fst (is_ip_banned "198.51.100.7" w) = Ok false.
Proof. vm_compute. auto. Qed.

(** Without Redis it does. *)
Example cidr_ban_without_redis_is_enforced :
  let '(accepted, w) := ban_ip "198.51.100.0/24" 600 "test" (ban_sample None) in
  accepted = Ok true /\ fst (is_ip_banned "198.51.100.7" w) = Ok true.
Proof. vm_compute. auto. Qed.
End witness.
