(* ===== verification/RateLimit.v ===== *)
(** Rate limiting: the counting part of [guard_core/handlers/ratelimit_handler.py]
    and the script of [guard_core/scripts/rate_lua.py].

    Hits are counted in a sliding window, kept in memory per process or in a
    sorted set of Redis.  The part of the handler that builds the response is in
    [Middleware]; the request-free primitive [check_rate_limit_by_ip] is in
    [RateLimitByIp]. *)
From S2P Require Import Prelude PyStr PyDict Sys Sample Config Redis.

Definition _MAX_TRACKED_RATE_LIMIT_KEYS : nat := Z.to_nat 10000.

(** [defaultdict(deque)]: per key, the times of its hits, oldest first *)
Abbreviation hit_store := (list (string * list Z)).

Section counting.
Context `{E : Env}.

(** [_hash_identity_segment] ([guard_core/_utils/identity_hash.py]) *)
Definition _hash_identity_segment (value : string) : string := sha256_hex value.

(** ** In memory *)

Definition memory_key (client_ip endpoint_path : string) : string :=
  if truthy endpoint_path then client_ip +:+ ":" +:+ _hash_identity_segment endpoint_path else client_ip.

(** Counting a hit in the window that starts at [window_start]. *)
Definition _in_memory_request_count (client_ip : string) (window_start current_time : Z)
  (endpoint_path : string) : M hit_store Z := fun request_timestamps =>
  let key := memory_key client_ip endpoint_path in
  match _lru_pop_or_create request_timestamps key _MAX_TRACKED_RATE_LIMIT_KEYS [] with
  | Raise e => (Raise e, request_timestamps)
  | Ok (timestamps, request_timestamps) =>
      let timestamps := drop_while (fun t => (t <=? window_start)%Z) timestamps in
      let request_count := Z.of_nat (length timestamps) in
      let timestamps := timestamps ++ [current_time] in
      (Ok request_count, dset key timestamps request_timestamps)
  end.

(** ** In Redis *)

(** [RATE_LIMIT_SCRIPT]: [ZADD], [ZREMRANGEBYSCORE], [ZCARD], [EXPIRE] *)
Definition RATE_LIMIT_SCRIPT : string := "rate_lua.RATE_LIMIT_SCRIPT".

Definition run_rate_limit_script (key : string) (now window : Z) (st : redis_state) : Z * redis_state :=
  let window_start := (now - seconds window)%Z in
  let '(_, st) := srv_zadd key (str_time now) now st in
  let '(_, st) := srv_zremrangebyscore key (Incl 0) (Incl window_start) st in
  let '(count, st) := srv_zcard key st in
  let '(_, st) := srv_expire key (window * 2) st in
  (count, st).

(** [EVALSHA] on the server: [None] is the [NOSCRIPT] reply. *)
Definition evalsha_command (sha key : string) (now window : Z) (st : redis_state) : option Z * redis_state :=
  if srv_script_cached sha st
  then let '(n, st) := run_rate_limit_script key now window st in (Some n, st)
  else (None, st).

(** [conn.evalsha(sha, 1, key, now, window, limit)]; the script ignores [limit] *)
Definition evalsha (sha key : string) (now window limit : Z) : M Sys Z :=
  let* r := redis_call (evalsha_command sha key now window) in
  match r with
  | Some n => ret n
  | None => raise (NoScriptError "NOSCRIPT No matching script")
  end.

(** The pipeline, executed as one transaction. *)
Definition rate_limit_pipeline (key : string) (now window_start window : Z) (st : redis_state)
  : Z * redis_state :=
  let '(_, st) := srv_zadd key (str_time now) now st in
  let '(_, st) := srv_zremrangebyscore key (Incl 0) (Incl window_start) st in
  let '(count, st) := srv_zcard key st in
  let '(_, st) := srv_expire key (window * 2) st in
  (count, st).

Definition _warn_redis_fail_open_in_memory_fallback : M Sys unit :=
  warn_once "_redis_fail_open_warned" (log WARNING "Redis unavailable for rate limiting; using the in-memory window").

Definition _resolve_redis_rate_limit_failure (error : exn) (redis_fail_open : bool) (context : string)
  : M Sys unit :=
  if redis_fail_open then _warn_redis_fail_open_in_memory_fallback
  else log ERROR (context +:+ ": " +:+ exn_message error) ;;;
       raise (GuardRedisError 503 "Redis rate limiting unavailable").

(** A local variable that the body of a [try] assigns. *)
Definition with_local {L A} (l0 : L) (m : M (Sys * L) A) : M Sys (A * L) := fun s =>
  let '(r, (s', l)) := m (s, l0) in
  (match r with Ok a => Ok (a, l) | Raise e => Raise e end, s').

Definition rate_key (client_ip endpoint_path : string) : string :=
  if truthy endpoint_path
  then "rate:" +:+ client_ip +:+ ":" +:+ _hash_identity_segment endpoint_path
  else "rate:" +:+ client_ip.

Definition key_name (h : RedisHandle SecurityConfig) (client_ip endpoint_path : string) : string :=
  redis_prefix (rh_config h) +:+ "rate_limit:" +:+ rate_key client_ip endpoint_path.

Definition set_local {L} (l : L) : M (Sys * L) unit := modify (fun w => (fst w, l)).

(** The count, or [None] when the in-memory window must be used, and the digest
    of the script. *)
Definition _redis_request_count (redis_handler : option (RedisHandle SecurityConfig))
  (client_ip : string) (current_time window_start rate_limit_window rate_limit : Z)
  (rate_limit_script_sha : option string) (on_script_reloaded : M Sys unit)
  (endpoint_path : string) (redis_fail_open : bool) : M Sys (option Z * option string) :=
  match redis_handler with
  | None => ret (None, rate_limit_script_sha)
  | Some h =>
      let key_name := key_name h client_ip endpoint_path in
      let connected (body : M (Sys * option string) Z) :=
        get_connection_in (fun B (m : M Sys B) => sys m) (rh_config h) (rh_agent h) body in
      with_local rate_limit_script_sha
        (catch any_exn
           (match rate_limit_script_sha with
            | Some (String _ _ as sha) =>
                let* count := connected
                  (catch (fun e => match e with NoScriptError _ => true | _ => false end)
                     (sys (evalsha sha key_name current_time rate_limit_window rate_limit))
                     (fun _ =>
                        let* sha := sys (redis_call (srv_script_load RATE_LIMIT_SCRIPT)) in
                        set_local (Some sha) ;;;
                        sys (log INFO "Rate limit Lua script reloaded after NOSCRIPT") ;;;
                        sys on_script_reloaded ;;;
                        sys (evalsha sha key_name current_time rate_limit_window rate_limit))) in
                ret (Some count)
            | _ =>
                let* count := connected (sys (redis_call
                  (rate_limit_pipeline key_name current_time window_start rate_limit_window))) in
                ret (Some count)
            end)
           (fun e =>
              sys (_resolve_redis_rate_limit_failure e redis_fail_open
                     (if is_redis_error e then "Redis rate limiting error"
                      else "Unexpected error in rate limiting")) ;;;
              ret None))
  end.
End counting.

(** * The in-memory window *)

(** A hit: the key it is counted under, and its time. *)
Abbreviation hit := (string * Z)%type.

(** The hits of a key after [window_start]: the specification of a count. *)
Definition hits_in_window (h : list hit) (key : string) (window_start : Z) : Z :=
  Z.of_nat (length (List.filter (fun p => (fst p =? key)%string && (window_start <? snd p)%Z) h)).

(** The counts a sequence of hits must give, with a window of [w]. *)
Fixpoint spec_counts (w : Z) (h : list hit) (calls : list hit) : list Z :=
  match calls with
  | [] => []
  | (key, now) :: calls' => hits_in_window h key (now - w) :: spec_counts w (h ++ [(key, now)]) calls'
  end.

(** Times do not go back. *)
Fixpoint in_order (last : Z) (calls : list hit) : Prop :=
  match calls with
  | [] => True
  | (_, now) :: calls' => (last <= now)%Z /\ in_order now calls'
  end.

Definition times_of (h : list hit) (key : string) : list Z :=
  map snd (List.filter (fun p => (fst p =? key)%string) h).

Lemma hits_in_window_times h key ws :
  hits_in_window h key ws = Z.of_nat (length (List.filter (fun t => (ws <? t)%Z) (times_of h key))).
Proof.
  unfold hits_in_window, times_of. f_equal. induction h as [|[k t] h IH]; [done|]. cbn [List.filter fst snd].
  destruct (k =? key)%string; cbn [andb map List.filter snd]; [|done].
  destruct (ws <? t)%Z; cbn [length]; by rewrite IH.
Qed.

Lemma times_of_snoc h key k now :
  times_of (h ++ [(k, now)]) key = times_of h key ++ (if (k =? key)%string then [now] else []).
Proof.
  unfold times_of. rewrite List.filter_app, map_app. cbn [List.filter fst]. by destruct (k =? key)%string.
Qed.

Definition mono (l : list Z) : Prop :=
  forall (i j : nat) x y, (i <= j)%nat -> l !! i = Some x -> l !! j = Some y -> (x <= y)%Z.

Lemma mono_suffix d l : mono (d ++ l) -> mono l.
Proof.
  intros H i j x y Hij Hx Hy. apply (H (length d + i)%nat (length d + j)%nat); [lia|..];
    rewrite lookup_app_r by lia; [replace (length d + i - length d)%nat with i by lia
                                 |replace (length d + j - length d)%nat with j by lia]; done.
Qed.

Lemma mono_snoc l x : mono l -> Forall (fun t => (t <= x)%Z) l -> mono (l ++ [x]).
Proof.
  intros H Hl i j a b Hij Ha Hb. rewrite Forall_lookup in Hl.
  apply lookup_app_Some in Hb as [Hb|[Hj Hb]].
  - rewrite lookup_app_l in Ha by (apply lookup_lt_Some in Hb; lia). by eapply H.
  - assert (j = length l) as -> by (apply lookup_lt_Some in Hb; simpl in Hb; lia).
    rewrite Nat.sub_diag in Hb. injection Hb as <-.
    apply lookup_app_Some in Ha as [Ha|[Hi Ha]]; [by eapply Hl|].
    assert (i = length l) as -> by (apply lookup_lt_Some in Ha; simpl in Ha; lia).
    rewrite Nat.sub_diag in Ha. injection Ha as <-. lia.
Qed.

(** Dropping the old hits of an ordered deque is filtering. *)
Lemma prune_filter l ws :
  mono l -> drop_while (fun t => (t <=? ws)%Z) l = List.filter (fun t => (ws <? t)%Z) l.
Proof.
  intros Hm. rewrite drop_while_filter.
  - apply List.filter_ext. intros t. destruct (Z.leb_spec t ws), (Z.ltb_spec ws t); done || lia.
  - intros i j x y Hij Hx Hy Hp. bool_prop. apply Z.leb_le. specialize (Hm i j x y Hij Hx Hy). lia.
Qed.

Lemma filter_none d ws : Forall (fun t => (t <= ws)%Z) d -> List.filter (fun t => (ws <? t)%Z) d = [].
Proof. induction 1 as [|t d Ht Hd IH]; [done|]. cbn [List.filter]. by destruct (Z.ltb_spec ws t); [lia|]. Qed.

Section window.
Context `{E : Env} (w : Z) (K : list string) (HK : (length K <= _MAX_TRACKED_RATE_LIMIT_KEYS)%nat).

(** The deque of a key. *)
Definition deque (st : hit_store) (key : string) : list Z := default [] (dget key st).

(** The store holds, for every key, its hits but for some that have left every
    window that can still be asked for. *)
Definition store_inv (last : Z) (st : hit_store) (h : list hit) : Prop :=
  dict_wf st /\ dkeys st ⊆ K /\
  forall key, mono (times_of h key) /\ Forall (fun t => (t <= last)%Z) (times_of h key) /\
    exists d, times_of h key = d ++ deque st key /\ Forall (fun t => (t <= last - w)%Z) d.

(** One hit: the count is the specified one, and the invariant is kept. *)
Lemma in_memory_step ip ep last now st h :
  let key := memory_key ip ep in
  store_inv last st h -> key ∈ K -> (last <= now)%Z ->
  exists st', _in_memory_request_count ip (now - w) now ep st = (Ok (hits_in_window h key (now - w)), st') /\
    store_inv now st' (h ++ [(key, now)]).
Proof using HK.
  cbv zeta. set (key := memory_key ip ep). intros (Hw & Hs & Hinv) Hk Hnow.
  destruct (Hinv key) as (Hm & Hb & d & Hd & Hdb).
  assert (exists st0, _lru_pop_or_create st key _MAX_TRACKED_RATE_LIMIT_KEYS [] = Ok (deque st key, st0) /\
    st0 = ddel key st) as (st0 & Hpop & ->).
  { exists (ddel key st). split; [|done]. by apply (lru_pop_room K). }
  assert (mono (deque st key)) as Hmd by (rewrite Hd in Hm; by eapply mono_suffix).
  assert (List.filter (fun t => (now - w <? t)%Z) (times_of h key) =
    List.filter (fun t => (now - w <? t)%Z) (deque st key)) as Hfil.
  { rewrite Hd, List.filter_app, filter_none; [done|]. eapply Forall_impl; [exact Hdb|]. simpl. lia. }
  unfold _in_memory_request_count. fold key. rewrite Hpop, prune_filter by done. rewrite <- Hfil.
  eexists. split; [by rewrite hits_in_window_times|].
  set (l := List.filter _ (times_of h key)).
  split; [by apply dset_wf, ddel_wf|]. split.
  { by apply dkeys_store_subset. }
  intros k. destruct (Hinv k) as (Hmk & Hbk & dk & Hdk & Hdbk). rewrite times_of_snoc.
  assert (Forall (fun t => (t <= now)%Z) (times_of h k)) as Hbn by (eapply Forall_impl; [exact Hbk|]; simpl; lia).
  unfold deque. destruct (String.eqb_spec key k) as [<-|Hne].
  - split; [by apply mono_snoc|]. split; [apply Forall_app; split; [done|by repeat constructor]|].
    rewrite dget_dset_eq. cbn [default].
    destruct (drop_while_suffix (fun t => (t <=? now - w)%Z) (deque st key)) as [d' Hd'].
    rewrite prune_filter, <- Hfil in Hd' by done. fold l in Hd'.
    exists (d ++ d'). split; [by rewrite Hd, Hd', <- !app_assoc|].
    apply Forall_app. split; [eapply Forall_impl; [exact Hdb|]; simpl; lia|].
    apply Forall_forall. intros t Ht. destruct (Z.ltb_spec (now - w) t) as [Hlt|]; [|done]. exfalso.
    assert (length (List.filter (fun t => (now - w <? t)%Z) (deque st key)) = length l) as Hlen by (by rewrite <- Hfil).
    rewrite Hd', List.filter_app, length_app in Hlen.
    assert (List.filter (fun t => (now - w <? t)%Z) l = l) as Hll.
    { unfold l. rewrite Hfil. generalize (deque st key). intros q. induction q as [|x q IH]; [done|].
      cbn [List.filter]. destruct (now - w <? x)%Z eqn:Ex; cbn [List.filter]; rewrite ?Ex, ?IH; done. }
    rewrite Hll in Hlen. assert (List.In t (List.filter (fun t => (now - w <? t)%Z) d')) as Hin.
    { apply List.filter_In. split; [by apply list_elem_of_In|by apply Z.ltb_lt]. }
    destruct (List.filter _ d'); [done|simpl in Hlen; lia].
  - rewrite app_nil_r. split; [done|]. split; [done|]. exists dk.
    rewrite dget_dset_ne, dget_ddel_ne by done. split; [exact Hdk|].
    eapply Forall_impl; [exact Hdbk|]. simpl. lia.
Qed.

(** Counting a sequence of hits. *)
Fixpoint run_hits (calls : list (string * string * Z)) (st : hit_store) : list (res Z) * hit_store :=
  match calls with
  | [] => ([], st)
  | (ip, ep, now) :: calls' =>
      let '(r, st) := _in_memory_request_count ip (now - w) now ep st in
      let '(rs, st) := run_hits calls' st in
      (r :: rs, st)
  end.

Definition hit_of (call : string * string * Z) : hit :=
  let '(ip, ep, now) := call in (memory_key ip ep, now).

Lemma run_hits_spec calls last st h :
  store_inv last st h -> Forall (fun c => fst (hit_of c) ∈ K) calls -> in_order last (map hit_of calls) ->
  fst (run_hits calls st) = map Ok (spec_counts w h (map hit_of calls)).
Proof using HK.
  revert last st h. induction calls as [|[[ip ep] now] calls IH]; intros last st h Hinv Hk Ho; [done|].
  apply Forall_cons in Hk as [Hk Hks]. destruct Ho as [Ho Hos].
  destruct (in_memory_step ip ep last now st h Hinv Hk Ho) as (st' & Hr & Hinv').
  cbn [run_hits map spec_counts hit_of]. rewrite Hr. specialize (IH now st' _ Hinv' Hks Hos).
  destruct (run_hits calls st') as [rs st2]. cbn [fst] in *. by rewrite IH.
Qed.
End window.

(** ** Properties of the in-memory window *)

Section window_properties.
Context `{E : Env}.

Lemma store_inv_empty w K last : store_inv w K last [] [].
Proof.
  split; [apply NoDup_nil_2|]. split; [apply list_subseteq_nil|]. intros key. split; [by intros i j x y _ Hx|].
  split; [constructor|]. exists []. by split.
Qed.

Lemma spec_counts_snoc w h calls key now :
  spec_counts w h (calls ++ [(key, now)]) =
  spec_counts w h calls ++ [hits_in_window (h ++ calls) key (now - w)].
Proof.
  revert h. induction calls as [|[k t] calls IH]; intros h; cbn [app spec_counts].
  - by rewrite app_nil_r.
  - rewrite IH. by rewrite <- app_assoc.
Qed.

Lemma length_spec_counts w h calls : length (spec_counts w h calls) = length calls.
Proof. revert h. induction calls as [|[k t] calls IH]; intros h; simpl; [done|]. by rewrite IH. Qed.

(** The hits of [key] in the window [(from, upto]] that were let through, given
    the counts. *)
Definition admitted (limit : Z) (key : string) (from upto : Z) (calls : list hit) (counts : list (res Z)) : Z :=
  Z.of_nat (length (List.filter
    (fun p => (fst (fst p) =? key)%string && (from <? snd (fst p))%Z && (snd (fst p) <=? upto)%Z &&
              match snd p with Ok n => (n <? limit)%Z | Raise _ => false end)
    (combine calls counts))).

Lemma combine_app {A B} (l1 l2 : list A) (k1 k2 : list B) :
  length l1 = length k1 -> combine (l1 ++ l2) (k1 ++ k2) = combine l1 k1 ++ combine l2 k2.
Proof. revert k1. induction l1 as [|x l1 IH]; intros [|y k1]; simpl; try done. intros [= H]. by rewrite IH. Qed.

(** What was let through in a window is at most what was hit in it. *)
Lemma admitted_le_hits limit key from upto calls counts ws :
  (ws <= from)%Z -> (admitted limit key from upto calls counts <= hits_in_window calls key ws)%Z.
Proof.
  intros Hws. unfold admitted, hits_in_window. apply inj_le.
  revert counts. induction calls as [|[k t] calls IH]; intros counts; [simpl; lia|].
  destruct counts as [|r counts]; [simpl; lia|]. cbn [combine List.filter fst snd].
  specialize (IH counts). destruct (k =? key)%string; cbn [andb]; [|done].
  destruct (Z.ltb_spec from t), (Z.ltb_spec ws t); cbn [andb length]; try lia.
  destruct ((t <=? upto)%Z && _); cbn [length]; lia.
Qed.

Lemma admitted_spec_le w limit key T calls :
  (0 <= limit)%Z ->
  (admitted limit key (T - w) T calls (map Ok (spec_counts w [] calls)) <= limit)%Z.
Proof.
  intros Hlim. induction calls as [|[k t] calls IH] using rev_ind; [done|].
  unfold admitted in *. rewrite spec_counts_snoc, map_app, combine_app by (by rewrite length_map, length_spec_counts).
  rewrite List.filter_app, length_app. cbn [map combine List.filter app fst snd].
  destruct (String.eqb_spec k key) as [->|]; cbn [andb]; [|simpl; lia].
  destruct (Z.ltb_spec (T - w) t); cbn [andb]; [|simpl; lia].
  destruct (Z.leb_spec t T); cbn [andb]; [|simpl; lia].
  destruct (Z.ltb_spec (hits_in_window calls key (t - w)) limit) as [Hc|]; [|simpl; lia].
  pose proof (admitted_le_hits limit key (T - w) T calls (map Ok (spec_counts w [] calls)) (t - w) ltac:(lia)) as Hle.
  unfold admitted in Hle. simpl. lia.
Qed.

(** C28: the in-memory limiter implements a sliding window.  For hits whose times
    do not go back, over no more keys than the store tracks, every call returns
    exactly the number of earlier hits of its key inside its window, blocked
    hits included. *)
Theorem in_memory_counts_exact w K last calls :
  (length K <= _MAX_TRACKED_RATE_LIMIT_KEYS)%nat ->
  Forall (fun c => fst (hit_of c) ∈ K) calls -> in_order last (map hit_of calls) ->
  fst (run_hits w calls []) = map Ok (spec_counts w [] (map hit_of calls)).
Proof.
  intros HK Hk Ho. apply (run_hits_spec w K HK calls last [] []); [apply store_inv_empty|done|done].
Qed.

(** C27: For hits that come in the order of time, over at most the 10,000 keys the
    limiter tracks (so that none is evicted), no window of the configured length
    admits more hits of one key than the limit in the in-memory limiter, wherever the
    window lies. *)
Theorem window_admits_at_most_limit w K last calls limit key T :
  (length K <= _MAX_TRACKED_RATE_LIMIT_KEYS)%nat ->
  Forall (fun c => fst (hit_of c) ∈ K) calls -> in_order last (map hit_of calls) -> (0 <= limit)%Z ->
  (admitted limit key (T - w) T (map hit_of calls) (fst (run_hits w calls [])) <= limit)%Z.
Proof.
  intros HK Hk Ho Hlim. rewrite (run_hits_spec w K HK calls last [] []) by (apply store_inv_empty || done).
  by apply admitted_spec_le.
Qed.

Lemma in_memory_bounded ip ws now ep (st : hit_store) :
  dict_wf st -> (length st <= _MAX_TRACKED_RATE_LIMIT_KEYS)%nat ->
  exists n st', _in_memory_request_count ip ws now ep st = (Ok n, st') /\
    dict_wf st' /\ (length st' <= _MAX_TRACKED_RATE_LIMIT_KEYS)%nat.
Proof.
  intros Hw Hl. unfold _in_memory_request_count. set (key := memory_key ip ep).
  destruct (lru_pop_or_create_ok st key _MAX_TRACKED_RATE_LIMIT_KEYS []) as (v & st0 & Hp).
  { unfold _MAX_TRACKED_RATE_LIMIT_KEYS. lia. }
  rewrite Hp. destruct (lru_pop_store _ _ _ _ _ _ Hw Hl Hp) as (Hw0 & Hn0 & Hl0).
  eexists _, _. split; [reflexivity|]. split; [by apply dset_wf|]. rewrite length_dset.
  apply dget_None in Hn0. rewrite decide_False by done. lia.
Qed.

(** Memory is bounded: whatever the callers' addresses, paths and clocks, the
    store never tracks more than its maximum of keys and no call raises. *)
Theorem in_memory_store_bounded w calls :
  let '(counts, st) := run_hits w calls [] in
  dict_wf st /\ (length st <= _MAX_TRACKED_RATE_LIMIT_KEYS)%nat /\ Forall (fun r => exists n, r = Ok n) counts.
Proof.
  assert (forall (st : hit_store), dict_wf st -> (length st <= _MAX_TRACKED_RATE_LIMIT_KEYS)%nat ->
    let '(counts, st') := run_hits w calls st in dict_wf st' /\
    (length st' <= _MAX_TRACKED_RATE_LIMIT_KEYS)%nat /\ Forall (fun r => exists n, r = Ok n) counts) as H.
  { induction calls as [|[[ip ep] now] cs IH]; intros st Hw Hl; [by simpl|]. cbn [run_hits].
    destruct (in_memory_bounded ip (now - w) now ep st Hw Hl) as (n & st1 & -> & Hw1 & Hl1).
    specialize (IH st1 Hw1 Hl1). destruct (run_hits w cs st1) as [rs st2].
    destruct IH as (? & ? & ?). split; [done|]. split; [done|]. constructor; [by exists n|done]. }
  apply (H []); [apply NoDup_nil_2|simpl; lia].
Qed.
End window_properties.

(** * The window in Redis *)

(** What the limiter relies on of the sorted sets of the server: [zview] is the
    sorted set under a key, as members with their scores. *)
Class ZSetLaws `{E : Env} : Type := {
  zview : string -> redis_state -> list (string * Z);
  zadd_view : forall key m s st, zview key (snd (srv_zadd key m s st)) ≡ₚ dset m s (zview key st);
  zrem_view : forall key lo hi st, zview key (snd (srv_zremrangebyscore key lo hi st)) ≡ₚ
    List.filter (fun p => negb (above lo (snd p) && below hi (snd p))) (zview key st);
  zcard_count : forall key st, fst (srv_zcard key st) = Z.of_nat (length (zview key st));
  zcard_view : forall key k st, zview k (snd (srv_zcard key st)) ≡ₚ zview k st;
  expire_view : forall key k t st, zview k (snd (srv_expire key t st)) ≡ₚ zview k st;
  zadd_other : forall key k m s st, k <> key -> zview k (snd (srv_zadd key m s st)) ≡ₚ zview k st;
  zrem_other : forall key k lo hi st, k <> key -> zview k (snd (srv_zremrangebyscore key lo hi st)) ≡ₚ zview k st
}.

Section redis_window.
Context `{E : Env} `{ZL : !ZSetLaws} (prefix : string) (window : Z).

#[local] Abbreviation w := (seconds window).

(** The sorted set of a key agrees with its hits on every window that can still
    be asked for, its members being the texts of the times. *)
Definition zset_inv (last : Z) (st : redis_state) (h : list hit) : Prop :=
  forall key,
    dict_wf (zview (prefix +:+ key) st) /\
    Forall (fun p => fst p = str_time (snd p) /\ (0 <= snd p <= last)%Z) (zview (prefix +:+ key) st) /\
    Forall (fun t => (0 <= t <= last)%Z) (times_of h key) /\
    List.filter (fun t => (last - w <? t)%Z) (map snd (zview (prefix +:+ key) st)) ≡ₚ
    List.filter (fun t => (last - w <? t)%Z) (times_of h key).

Lemma dict_wf_perm {K V} (d d' : list (K * V)) : d ≡ₚ d' -> dict_wf d -> dict_wf d'.
Proof. unfold dict_wf, dkeys. intros Hp. by rewrite Hp. Qed.

(** The transaction leaves the members after [window_start], with the new one. *)
Lemma pipeline_view key now ws win st :
  (0 <= now)%Z -> Forall (fun p => fst p = str_time (snd p) /\ (0 <= snd p < now)%Z) (zview key st) ->
  let '(n, st') := rate_limit_pipeline key now ws win st in
  zview key st' ≡ₚ List.filter (fun p => (ws <? snd p)%Z) (zview key st ++ [(str_time now, now)]) /\
  n = Z.of_nat (length (zview key st')) /\
  forall k, k <> key -> zview k st' ≡ₚ zview k st.
Proof.
  intros Hnow Hm. unfold rate_limit_pipeline.
  pose proof (zadd_view key (str_time now) now st) as H1. pose proof (fun k => zadd_other key k (str_time now) now st) as O1.
  destruct (srv_zadd key (str_time now) now st) as [u1 st1]. cbn [snd] in *.
  pose proof (zrem_view key (Incl 0) (Incl ws) st1) as H2. pose proof (fun k => zrem_other key k (Incl 0) (Incl ws) st1) as O2.
  destruct (srv_zremrangebyscore key (Incl 0) (Incl ws) st1) as [u2 st2]. cbn [snd] in *.
  pose proof (zcard_count key st2) as H3. pose proof (fun k => zcard_view key k st2) as O3.
  destruct (srv_zcard key st2) as [n st3]. cbn [fst snd] in *.
  pose proof (fun k => expire_view key k (win * 2) st3) as O4.
  destruct (srv_expire key (win * 2) st3) as [u4 st4]. cbn [snd] in *.
  assert (dset (str_time now) now (zview key st) = zview key st ++ [(str_time now, now)]) as Hset.
  { apply dset_absent, dget_None. intros Hin. apply list_elem_of_fmap in Hin as ([m t] & Ek & Hin).
    rewrite Forall_forall in Hm. specialize (Hm _ Hin) as [Em Ht]. cbn [fst snd] in *. rewrite Em in Ek.
    unfold str_time in Ek. apply string_of_Z_inj in Ek. lia. }
  rewrite Hset in H1. split; [|split].
  - rewrite (O4 key), (O3 key), H2, H1. apply Permutation_refl'. apply List.filter_ext_in. intros [m t] Hin.
    cbn [snd above below]. apply in_app_or in Hin as [Hin|[[= <- <-]|[]]].
    + apply list_elem_of_In in Hin. rewrite Forall_forall in Hm. specialize (Hm _ Hin) as [_ Ht]. cbn [snd] in Ht.
      destruct (Z.leb_spec 0 t), (Z.leb_spec t ws), (Z.ltb_spec ws t); done || lia.
    + destruct (Z.leb_spec 0 now), (Z.leb_spec now ws), (Z.ltb_spec ws now); done || lia.
  - by rewrite H3, (O4 key), (O3 key).
  - intros k Hk. by rewrite (O4 k), (O3 k), (O2 k Hk), (O1 k Hk).
Qed.

Lemma filter_filter_le ws ws' (l : list Z) :
  (ws <= ws')%Z ->
  List.filter (fun t => (ws' <? t)%Z) (List.filter (fun t => (ws <? t)%Z) l) = List.filter (fun t => (ws' <? t)%Z) l.
Proof.
  intros Hle. induction l as [|t l IH]; [done|]. cbn [List.filter].
  destruct (Z.ltb_spec ws t); cbn [List.filter]; rewrite IH; [done|].
  by destruct (Z.ltb_spec ws' t); [lia|].
Qed.

Lemma filter_perm_later ws ws' (l l' : list Z) :
  (ws <= ws')%Z -> List.filter (fun t => (ws <? t)%Z) l ≡ₚ List.filter (fun t => (ws <? t)%Z) l' ->
  List.filter (fun t => (ws' <? t)%Z) l ≡ₚ List.filter (fun t => (ws' <? t)%Z) l'.
Proof.
  intros Hle Hp. rewrite <- (filter_filter_le ws ws' l), <- (filter_filter_le ws ws' l') by done.
  by apply filter_perm.
Qed.

Context (Hwin : (0 < window)%Z).

Lemma zset_step last now key st h :
  zset_inv last st h -> (0 <= last < now)%Z ->
  let '(n, st') := rate_limit_pipeline (prefix +:+ key) now (now - w) window st in
  n = (1 + hits_in_window h key (now - w))%Z /\ zset_inv now st' (h ++ [(key, now)]).
Proof using Hwin.
  intros Hinv Hnow. destruct (Hinv key) as (Hw & Hm & Ht & Hp).
  assert (Forall (fun p => fst p = str_time (snd p) /\ (0 <= snd p < now)%Z) (zview (prefix +:+ key) st)) as Hm'.
  { eapply Forall_impl; [exact Hm|]. intros [m t] [Hmt ?]. split; [done|]. simpl in *. lia. }
  pose proof (pipeline_view (prefix +:+ key) now (now - w) window st ltac:(lia) Hm') as Hv.
  destruct (rate_limit_pipeline _ _ _ _ _) as [n st']. destruct Hv as (Hv & Hn & Ho).
  assert (0 < w)%Z as Hw0 by (unfold seconds; lia).
  pose proof (filter_perm_later (last - w) (now - w) _ _ ltac:(lia) Hp) as Hp'.
  assert (List.filter (fun p => (now - w <? snd p)%Z) (zview (prefix +:+ key) st ++ [(str_time now, now)]) =
    List.filter (fun p => (now - w <? snd p)%Z) (zview (prefix +:+ key) st) ++ [(str_time now, now)]) as Hf.
  { rewrite List.filter_app. cbn [List.filter snd]. by destruct (Z.ltb_spec (now - w) now); [|lia]. }
  rewrite Hf in Hv. split.
  - rewrite Hn, Hv, length_app, hits_in_window_times, <- Hp', filter_map, length_map. simpl. lia.
  - intros k. rewrite times_of_snoc. destruct (String.eqb_spec key k) as [<-|Hne].
    + split; [|split; [|split]].
      * eapply dict_wf_perm; [symmetry; exact Hv|]. unfold dict_wf, dkeys. rewrite map_app.
        apply NoDup_app. split; [|split; [|apply NoDup_singleton]].
        -- unfold dict_wf, dkeys in Hw. clear -Hw. induction (zview (prefix +:+ key) st) as [|p l IH]; [done|].
           cbn [map List.filter] in *. apply NoDup_cons in Hw as [Hp Hw]. destruct (_ <? _)%Z; [|auto].
           cbn [map]. apply NoDup_cons. split; [|auto]. intros Hin. apply Hp.
           apply list_elem_of_fmap in Hin as (q & -> & Hq). apply list_elem_of_In, List.filter_In in Hq as [Hq _].
           apply list_elem_of_fmap. exists q. split; [done|]. by apply list_elem_of_In.
        -- intros m Hin Hin'. apply list_elem_of_singleton in Hin'. cbn [fst] in Hin'. subst m.
           apply list_elem_of_fmap in Hin as ([m t] & Em & Hq). apply list_elem_of_In, List.filter_In in Hq as [Hq _].
           apply list_elem_of_In in Hq. rewrite Forall_forall in Hm'. destruct (Hm' _ Hq) as [Em' ?]. cbn [fst snd] in *.
           unfold str_time in *. rewrite Em' in Em. apply string_of_Z_inj in Em. lia.
      * rewrite Hv. apply Forall_app. split; [|repeat constructor; cbn [snd]; lia].
        apply Forall_forall. intros p Hq. apply list_elem_of_In, List.filter_In in Hq as [Hq _].
        apply list_elem_of_In in Hq. rewrite Forall_forall in Hm'. destruct (Hm' _ Hq). split; [done|lia].
      * apply Forall_app. split; [eapply Forall_impl; [exact Ht|]; simpl; lia|repeat constructor; lia].
      * rewrite Hv, map_app, !List.filter_app, <- Hp', <- !filter_map.
        rewrite filter_filter_le by lia. done.
    + rewrite app_nil_r. destruct (Hinv k) as (Hw2 & Hm2 & Ht2 & Hp2).
      assert (prefix +:+ k <> prefix +:+ key) as Hk by (intros Heq%(inj (String.append prefix)); congruence).
      specialize (Ho _ Hk). split; [|split; [|split]].
      * eapply dict_wf_perm; [symmetry; exact Ho|done].
      * rewrite Ho. eapply Forall_impl; [exact Hm2|]. intros p [? ?]. split; [done|lia].
      * eapply Forall_impl; [exact Ht2|]. simpl. lia.
      * rewrite Ho. by apply (filter_perm_later (last - w)); [lia|].
Qed.

(** A sequence of hits, each one transaction. *)
Fixpoint run_redis (calls : list hit) (st : redis_state) : list Z :=
  match calls with
  | [] => []
  | (key, now) :: calls' =>
      let '(n, st) := rate_limit_pipeline (prefix +:+ key) now (now - w) window st in
      n :: run_redis calls' st
  end.

Fixpoint strictly_in_order (last : Z) (calls : list hit) : Prop :=
  match calls with
  | [] => True
  | (_, now) :: calls' => (last < now)%Z /\ strictly_in_order now calls'
  end.

Lemma run_redis_spec last st h calls :
  zset_inv last st h -> (0 <= last)%Z -> strictly_in_order last calls ->
  run_redis calls st = map (Z.add 1) (spec_counts w h calls).
Proof using Hwin.
  revert last st h. induction calls as [|[key now] calls IH]; intros last st h Hinv Hl Ho; [done|].
  destruct Ho as [Hlt Ho]. cbn [run_redis spec_counts map].
  pose proof (zset_step last now key st h Hinv ltac:(lia)) as Hs.
  destruct (rate_limit_pipeline _ _ _ _ _) as [n st']. destruct Hs as [-> Hinv'].
  f_equal. apply (IH now); [done|lia|done].
Qed.
End redis_window.

(** * The manager's event, and the outcome of a Redis count *)

Section outcome.
Context `{E : Env}.

(** [_emit_script_reloaded_event] *)
Definition _emit_script_reloaded_event (agent_handler : bool) : M Sys unit :=
  if negb agent_handler then ret tt
  else agent_send_logged
         {| ev_type := "rate_limit_script_reloaded"; ev_ip := "system"; ev_action := "script_reloaded";
            ev_reason := "NOSCRIPT recovery: Lua script re-cached on Redis"; ev_handler := "rate_limit";
            ev_country := None; ev_meta := [] |}
         "Failed to send script-reload event".

Lemma emit_script_reloaded_run ah s : exists s', _emit_script_reloaded_event ah s = (Ok tt, s') /\ same_clock s s'.
Proof.
  enough (wp (_emit_script_reloaded_event ah) (fun r s' => r = Ok tt /\ same_clock s s') s) as [H1 H2].
  { destruct (_emit_script_reloaded_event ah s) as [r s']. cbn [fst snd] in *. subst. eauto. }
  unfold _emit_script_reloaded_event. destruct ah; cbn [negb]; [|by apply wp_ret].
  apply wp_agent_send_logged. by intros s' Hs _.
Qed.

(** The script and the pipeline do the same. *)
Lemma script_is_pipeline key now window st :
  run_rate_limit_script key now window st = rate_limit_pipeline key now (now - seconds window) window st.
Proof. reflexivity. Qed.

Lemma redis_call_up {A} (command : redis_state -> A * redis_state) s :
  (forall n, redis_outcome n = None) -> exists s',
  redis_call command s = (Ok (fst (command (redis s))), s') /\ redis s' = snd (command (redis s)) /\
  redis_client s' = redis_client s /\ redis_closed s' = redis_closed s.
Proof.
  intros Hup. unfold redis_call. rewrite Hup. destruct (command (redis s)) as [a r]. eexists.
  split; [reflexivity|]. by destruct s.
Qed.

Lemma connected_open {A} (h : RedisHandle SecurityConfig) (body : M (Sys * option string) A) s l :
  redis_closed s = false -> redis_client s = true ->
  get_connection_in (fun B (m : M Sys B) => sys m) (rh_config h) (rh_agent h) body (s, l) =
  catch is_connection_error body (fun e =>
    sys (log ERROR ("Redis operation failed: " +:+ exn_message e)) ;;;
    sys (_send_redis_event (rh_agent h) "redis_error" "operation_failed"
      ("Redis operation failed: " +:+ exn_message e) [("error_type", "operation_error")]) ;;;
    raise (GuardRedisError 503 "Redis connection failed")) (s, l).
Proof.
  intros Hc Hr. unfold get_connection_in, catch at 1. unfold bind at 1, sys at 1, zoom at 1, gets at 1.
  cbn [fst snd]. rewrite Hc. cbn [when]. unfold bind at 1, ret at 1.
  unfold bind at 1, sys at 1, zoom at 1, gets at 1. cbn [fst snd]. rewrite Hr. cbn [negb when].
  unfold bind at 1, ret at 1. unfold bind at 1, sys at 1, zoom at 1, gets at 1. cbn [fst snd].
  rewrite Hr. cbn [negb when]. unfold bind at 1, ret at 1. reflexivity.
Qed.

(** The server the count runs on: with the script loaded where it was missing. *)
Definition script_ready (sha : option string) (st : redis_state) : redis_state :=
  match sha with
  | Some (String _ _ as d) =>
      if srv_script_cached d st then st else snd (srv_script_load RATE_LIMIT_SCRIPT st)
  | _ => st
  end.

Lemma evalsha_cached sha key now window limit s :
  (forall n, redis_outcome n = None) -> srv_script_cached sha (redis s) = true -> exists s',
  evalsha sha key now window limit s =
  (Ok (fst (rate_limit_pipeline key now (now - seconds window) window (redis s))), s') /\
  redis s' = snd (rate_limit_pipeline key now (now - seconds window) window (redis s)).
Proof.
  intros Hup Hc. unfold evalsha.
  destruct (redis_call_up (evalsha_command sha key now window) s Hup) as (s' & Hr & Hs & _).
  rewrite (bind_ok _ _ _ _ _ Hr). unfold evalsha_command in *. rewrite Hc, script_is_pipeline in *.
  destruct (rate_limit_pipeline _ _ _ _ _) as [n st]. cbn [fst snd] in *. by exists s'.
Qed.

Lemma evalsha_missing sha key now window limit s :
  (forall n, redis_outcome n = None) -> srv_script_cached sha (redis s) = false -> exists s',
  evalsha sha key now window limit s = (Raise (NoScriptError "NOSCRIPT No matching script"), s') /\
  redis s' = redis s.
Proof.
  intros Hup Hc. unfold evalsha.
  destruct (redis_call_up (evalsha_command sha key now window) s Hup) as (s' & Hr & Hs & _).
  rewrite (bind_ok _ _ _ _ _ Hr). unfold evalsha_command in *. rewrite Hc in *. cbn [fst snd] in *. by exists s'.
Qed.

Lemma sys_run {St A} (m : M Sys A) s (l : St) r s' : m s = (r, s') -> sys m (s, l) = (r, (s', l)).
Proof. intros H. unfold sys, zoom. cbn [fst snd]. by rewrite H. Qed.

Lemma catch_ok {S A} p (m : M S A) h s a s' : m s = (Ok a, s') -> catch p m h s = (Ok a, s').
Proof. intros H. unfold catch. by rewrite H. Qed.

(** With a working Redis, the count is that of the sliding-window transaction
    on the caller's key, whether the script is cached, has been flushed from the
    server (it is loaded again and run), or was never loaded (the pipeline). *)
Theorem redis_request_count_up h ip now window limit sha ah ep fail_open s :
  (forall n, redis_outcome n = None) -> redis_closed s = false -> redis_client s = true ->
  (let '(d, st) := srv_script_load RATE_LIMIT_SCRIPT (redis s) in srv_script_cached d st = true) ->
  let '(r, s') := _redis_request_count (Some h) ip now (now - seconds window) window limit sha
                    (_emit_script_reloaded_event ah) ep fail_open s in
  let '(n, st) := rate_limit_pipeline (key_name h ip ep) now (now - seconds window) window
                    (script_ready sha (redis s)) in
  (exists sha', r = Ok (Some n, sha')) /\ redis s' = st.
Proof.
  intros Hup Hc Hr Hload. unfold _redis_request_count. set (key := key_name h ip ep).
  assert (forall sha, match sha with Some (String _ _) => False | _ => True end ->
    let '(r, s') := with_local sha
      (catch any_exn
        (let* count := get_connection_in (fun B (m : M Sys B) => sys m) (rh_config h) (rh_agent h)
           (sys (redis_call (rate_limit_pipeline key now (now - seconds window) window))) in ret (Some count))
        (fun e => sys (_resolve_redis_rate_limit_failure e fail_open
                         (if is_redis_error e then "Redis rate limiting error" else "Unexpected error in rate limiting")) ;;;
                  ret None)) s in
    let '(n, st) := rate_limit_pipeline key now (now - seconds window) window (redis s) in
    (exists sha', r = Ok (Some n, sha')) /\ redis s' = st) as Hpipe.
  { intros sha0 _. unfold with_local.
    destruct (redis_call_up (rate_limit_pipeline key now (now - seconds window) window) s Hup) as (s' & Hs & Hst & _).
    erewrite catch_ok.
    2: { erewrite bind_ok; [reflexivity|]. rewrite connected_open by done.
         apply catch_ok, sys_run, Hs. }
    destruct (rate_limit_pipeline _ _ _ _ (redis s)). cbn [fst snd] in *. eauto. }
  destruct sha as [[|a d]|]; [by apply Hpipe| |by apply Hpipe].
  cbv zeta. unfold script_ready, with_local. set (sha := String a d).
  destruct (srv_script_cached sha (redis s)) eqn:Hcached.
  - destruct (evalsha_cached sha key now window limit s Hup Hcached) as (s' & He & Hs).
    erewrite catch_ok.
    2: { erewrite bind_ok; [reflexivity|]. rewrite connected_open by done. apply catch_ok, catch_ok, sys_run, He. }
    destruct (rate_limit_pipeline _ _ _ _ (redis s)). cbn [fst snd] in *. eauto.
  - destruct (evalsha_missing sha key now window limit s Hup Hcached) as (s1 & He1 & Hs1).
    destruct (redis_call_up (srv_script_load RATE_LIMIT_SCRIPT) s1 Hup) as (s2 & Hl & Hs2 & _).
    rewrite Hs1 in Hl, Hs2.
    assert (exists s3, log INFO "Rate limit Lua script reloaded after NOSCRIPT" s2 = (Ok tt, s3) /\ redis s3 = redis s2)
      as (s3 & Hg & Hs3) by (eexists; split; [reflexivity|by destruct s2]).
    destruct (emit_script_reloaded_run ah s3) as (s4 & He4 & _ & Hs4 & _).
    destruct (srv_script_load RATE_LIMIT_SCRIPT (redis s)) as [d' st'] eqn:Eload. cbn [fst snd] in *.
    destruct (evalsha_cached d' key now window limit s4 Hup) as (s5 & He5 & Hs5); [congruence|].
    erewrite catch_ok.
    2: { erewrite bind_ok; [reflexivity|]. rewrite connected_open by done. apply catch_ok.
         unfold catch. rewrite (sys_run _ _ _ _ _ He1). cbv iota beta.
         erewrite bind_ok by (apply sys_run, Hl). unfold set_local. erewrite bind_ok by reflexivity. cbn [fst].
         erewrite bind_ok by (apply sys_run, Hg). erewrite bind_ok by (apply sys_run, He4).
         apply sys_run, He5. }
    rewrite <- Hs4, Hs3, Hs2 in Hs5 |- *. destruct (rate_limit_pipeline _ _ _ _ st'). cbn [fst snd] in *. eauto.
Qed.

(** A Redis failure never silently lets a request through uncounted.  With
    [redis_fail_open] the caller is told to use the in-memory window; without it
    [GuardRedisError(503)] is raised; no other outcome exists. *)
Theorem redis_request_count_outcome h ip now ws window limit sha reloaded ep fail_open s :
  match fst (_redis_request_count (Some h) ip now ws window limit sha reloaded ep fail_open s) with
  | Ok (Some _, _) => True
  | Ok (None, _) => fail_open = true
  | Raise e => fail_open = false /\ e = GuardRedisError 503 "Redis rate limiting unavailable"
  end.
Proof.
  unfold _redis_request_count. cbv zeta. unfold with_local, catch at 1.
  assert (forall (body : M (Sys * option string) (option Z)),
    (forall w, match fst (body w) with Ok None => False | _ => True end) ->
    match fst (let '(r, (s', l)) :=
      match body (s, sha) with
      | (Raise e, s') =>
          if any_exn e
          then (sys (_resolve_redis_rate_limit_failure e fail_open
                  (if is_redis_error e then "Redis rate limiting error" else "Unexpected error in rate limiting")) ;;;
                ret None) s'
          else (Raise e, s')
      | (Ok _, _) as r => r
      end in
      (match r with Ok a => Ok (a, l) | Raise e => Raise e end, s')) with
    | Ok (Some _, _) => True
    | Ok (None, _) => fail_open = true
    | Raise e => fail_open = false /\ e = GuardRedisError 503 "Redis rate limiting unavailable"
    end) as Hgen.
  { intros body Hb. specialize (Hb (s, sha)). destruct (body (s, sha)) as [[[n|]|e] [s1 l]]; cbn [fst] in *; try done.
    cbn [any_exn]. unfold _resolve_redis_rate_limit_failure. destruct fail_open.
    - unfold _warn_redis_fail_open_in_memory_fallback, warn_once, sys, zoom, bind, gets. cbn [fst snd].
      by destruct (bool_decide _).
    - unfold bind, sys, zoom, log, modify, raise. cbn [fst snd]. done. }
  assert (forall (m : M (Sys * option string) Z) w,
    match fst ((let* count := m in ret (Some count)) w) with Ok None => False | _ => True end) as Hsome.
  { intros m w. unfold bind. by destruct (m w) as [[n|e] w']. }
  apply Hgen. intros w. destruct sha as [[|a d]|]; apply Hsome.
Qed.
End outcome.

(** * Memory and Redis decide alike *)

Section agree.
Context `{E : Env} `{ZL : !ZSetLaws}.

Lemma strictly_in_order_in_order last calls : strictly_in_order last calls -> in_order last calls.
Proof.
  revert last. induction calls as [|[k t] calls IH]; intros last; [done|]. intros [H1 H2].
  split; [lia|auto].
Qed.

(** C29: Starting from nothing, for hits at strictly increasing times over at most the
    10,000 keys that the in-memory limiter tracks, the sliding-window transaction in
    Redis and the in-memory window allow and refuse the same hits, for every limit. *)
Theorem redis_and_memory_agree prefix window K last calls limit st :
  (0 < window)%Z -> (0 <= last)%Z -> (length K <= _MAX_TRACKED_RATE_LIMIT_KEYS)%nat ->
  Forall (fun c => fst (hit_of c) ∈ K) calls -> strictly_in_order last (map hit_of calls) ->
  (forall key, zview (prefix +:+ key) st = []) ->
  map (fun n => (n <=? limit)%Z) (run_redis prefix window (map hit_of calls) st) =
  map (fun r => match r with Ok n => (n <? limit)%Z | Raise _ => false end)
    (fst (run_hits (seconds window) calls [])).
Proof.
  intros Hw Hl HK Hk Ho Hempty.
  rewrite (run_hits_spec (seconds window) K HK calls last [] []);
    [|apply store_inv_empty|done|by apply strictly_in_order_in_order].
  rewrite (run_redis_spec prefix window Hw last st []); [| |done|done].
  - rewrite !map_map. apply map_ext. intros n. destruct (Z.leb_spec (1 + n) limit), (Z.ltb_spec n limit); done || lia.
  - intros key. rewrite Hempty. repeat split; constructor.
Qed.
End agree.

(** * Witnesses *)

#[export] Program Instance sample_zset_laws clk outcome : @ZSetLaws (sample_env clk outcome) := {|
  zview := fun key (r : sample_redis) => sr_zset key r
|}.
Next Obligation. intros. unfold sr_zset. simpl. by rewrite dget_dset_eq. Qed.
Next Obligation. intros. unfold sr_zset. simpl. by rewrite dget_dset_eq. Qed.
Next Obligation. done. Qed.
Next Obligation. done. Qed.
Next Obligation. done. Qed.
Next Obligation. intros. unfold sr_zset. simpl. by rewrite dget_dset_ne. Qed.
Next Obligation. intros. unfold sr_zset. simpl. by rewrite dget_dset_ne. Qed.

Section witness.

#[local] Instance env : Env := sample_env (ticking 1000) redis_up.
#[local] Instance laws : ZSetLaws := sample_zset_laws (ticking 1000) redis_up.

Definition sample_calls : list (string * string * Z) :=
  [("198.51.100.7", "", seconds 1); ("198.51.100.7", "", seconds 2); ("198.51.100.8", "/a", seconds 3);
   ("198.51.100.7", "", seconds 4); ("198.51.100.7", "", seconds 12)].

Definition sample_hit_keys : list string := ["198.51.100.7"; "198.51.100.8:#/a"].

Lemma sample_keys_ok : Forall (fun c => fst (hit_of c) ∈ sample_hit_keys) sample_calls.
Proof. repeat (constructor; [vm_compute; (apply list_elem_of_here || (apply list_elem_of_further, list_elem_of_here))|]). constructor. Qed.

Lemma sample_keys_few : (length sample_hit_keys <= _MAX_TRACKED_RATE_LIMIT_KEYS)%nat.
Proof. apply Nat.leb_le. vm_compute. reflexivity. Qed.

Lemma sample_in_order : in_order 0 (map hit_of sample_calls).
Proof. vm_compute. repeat split; discriminate. Qed.

Lemma in_memory_counts_exact_witness :
  fst (run_hits (seconds 10) sample_calls []) = [Ok 0; Ok 1; Ok 0; Ok 2; Ok 1]%Z.
Proof.
  rewrite (in_memory_counts_exact (seconds 10) sample_hit_keys 0 sample_calls sample_keys_few sample_keys_ok sample_in_order).
  vm_compute. reflexivity.
Defined.

Lemma window_admits_at_most_limit_witness :
  (admitted 2 "198.51.100.7" (seconds 5 - seconds 10) (seconds 5) (map hit_of sample_calls)
     (fst (run_hits (seconds 10) sample_calls [])) <= 2)%Z.
Proof.
  apply (window_admits_at_most_limit (seconds 10) sample_hit_keys 0 sample_calls 2 "198.51.100.7" (seconds 5)).
  - apply sample_keys_few.
  - apply sample_keys_ok.
  - apply sample_in_order.
  - lia.
Defined.

Lemma redis_and_memory_agree_witness :
  map (fun n => (n <=? 2)%Z) (@run_redis env "p:" 10 (map hit_of sample_calls) sample_redis_empty) =
  map (fun r => match r with Ok n => (n <? 2)%Z | Raise _ => false end) (fst (run_hits (seconds 10) sample_calls [])).
Proof.
  apply (@redis_and_memory_agree env laws "p:" 10 sample_hit_keys 0 sample_calls 2 sample_redis_empty).
  - lia.
  - lia.
  - apply sample_keys_few.
  - apply sample_keys_ok.
  - vm_compute. auto 10.
  - reflexivity.
Defined.

Lemma redis_request_count_up_witness :
  let s := sample_sys (ticking 1000) redis_up in
  let '(r, s') := _redis_request_count (Some (mkRedisHandle default_config false)) "198.51.100.7" (seconds 100)
                    (seconds 100 - seconds 10) 10 2 (Some "flushed") (_emit_script_reloaded_event false) "" false s in
  let '(n, st) := rate_limit_pipeline (key_name (mkRedisHandle default_config false) "198.51.100.7" "") (seconds 100)
                    (seconds 100 - seconds 10) 10 (script_ready (Some "flushed") (redis s)) in
  (exists sha', r = Ok (Some n, sha')) /\ redis s' = st.
Proof.
  apply (redis_request_count_up (mkRedisHandle default_config false) "198.51.100.7" (seconds 100) 10 2
    (Some "flushed") false "" false (sample_sys (ticking 1000) redis_up)); reflexivity.
Defined.
End witness.
