(* ===== verification/Cloud.v ===== *)
(** Cloud provider ranges: [guard_core/handlers/cloud_handler.py],
    [_cloud_provider_registry.py] and the in-memory store of
    [cloud_ip_stores.py].

    Sets are lists, read through membership; the order in which Python iterates
    them is not specified and decides only which network a report names.  The
    downloads are a parameter, [CloudFeeds]. *)
From S2P Require Import Prelude PyStr PyDict IpAddr IpAddrText Sys.

Definition _ALL_PROVIDERS : list string := ["AWS"; "GCP"; "Azure"; "DigitalOcean"; "Linode"; "Vultr"].

(** * Selectors ([_cloud_provider_registry.py]) *)

(** [s.partition(":!")]: the part before the marker, and the part after it when
    the marker occurs. *)
Fixpoint partition_marker (s : string) : string * option string :=
  if startswith s ":!" then ("", Some (sdrop 2 s))
  else match s with
       | EmptyString => ("", None)
       | String c s' => let '(a, b) := partition_marker s' in (String c a, b)
       end.

(** The regions let through for a provider. *)
Definition carveouts_of (selectors : list string) (provider : string) : list string :=
  omap (fun selector =>
    match partition_marker selector with
    | (p, Some region) => if (p =? provider)%string && truthy region then Some region else None
    | (_, None) => None
    end) selectors.

(** The blocked providers, and the regions let through per provider. *)
Definition _parse_cloud_selectors (selectors : list string) : list string * (string -> list string) :=
  (remove_dups (map (fun selector => fst (partition_marker selector)) selectors), carveouts_of selectors).

Definition _bare_provider_names (providers : list string) : list string :=
  remove_dups (map (fun provider => fst (partition_marker provider)) providers).

(** * The cached text of a range set *)

(** [ip_network(s)], strict: no host bits may be set *)
Definition ip_network_strict (s : string) : option net :=
  match ip_network s with
  | Some n =>
      match ip_address (hd "" (split_on "/" s)) with
      | Some a => if (ip_int a =? net_int n)%Z then Some n else None
      | None => None
      end
  | None => None
  end.

Definition _encode_cached (ranges : list net) (regions : list (string * string)) : list string :=
  map (fun network =>
    let key := string_of_net network in
    match dget key regions with
    | Some (String _ _ as region) => key +:+ String "|" region
    | _ => key
    end) ranges.

(** The loop of [_decode_cached]; [ip_network] may raise. *)
Fixpoint decode_entries (entries : list string) (networks : list net) (regions : list (string * string))
  : res (list net * list (string * string)) :=
  match entries with
  | [] => Ok (networks, regions)
  | entry :: entries' =>
      let '(prefix, region) := match partition_char "|" entry with
                               | Some (p, r) => (p, r)
                               | None => (entry, "")
                               end in
      match ip_network_strict prefix with
      | None => Raise (ValueError prefix)
      | Some network =>
          decode_entries entries' (networks ++ [network])
            (if truthy region then dset (string_of_net network) region regions else regions)
      end
  end.

Definition _decode_cached (entries : list string) : res (list net * list (string * string)) :=
  decode_entries entries [] [].

(** * The manager *)

(** [_fetch_provider_ranges]: the download of a provider's list. *)
Class CloudFeeds `{E : Env} : Type := {
  _fetch_provider_ranges : string -> M Sys (list net * list (string * string))
}.

Record CloudManager : Type := mkCloud {
  ip_ranges : list (string * list net);
  network_regions : list (string * list (string * string));
  last_updated : list (string * option Z);
  _refresh_in_flight : bool;
  _empty_ranges_warned_at : list (string * Z);
  (** [InMemoryCloudIpStore]: the entries and when they expire *)
  store_data : list (string * list string);
  store_expires_at : list (string * Z);
  cloud_agent : bool
}.

Definition CloudManager_new : CloudManager :=
  {| ip_ranges := map (fun p => (p, [])) _ALL_PROVIDERS;
     network_regions := map (fun p => (p, [])) _ALL_PROVIDERS;
     last_updated := map (fun p => (p, None)) _ALL_PROVIDERS;
     _refresh_in_flight := false; _empty_ranges_warned_at := [];
     store_data := []; store_expires_at := []; cloud_agent := false |}.

Definition _EMPTY_RANGES_WARNING_COOLDOWN : Z := seconds 300.

Section cloud.
Context `{E : Env} `{F : !CloudFeeds}.

Abbreviation CM := (M (Sys * CloudManager)).

Definition cloud_get {A} (f : CloudManager -> A) : CM A := gets (fun w => f (snd w)).
Definition cloud_modify (f : CloudManager -> CloudManager) : CM unit := modify (fun w => (fst w, f (snd w))).

(** ** Lookups *)

Definition _warn_empty_ranges (provider : string) : CM unit :=
  let* now := sys time_monotonic in
  let* warned_at := cloud_get (fun c => dget provider (_empty_ranges_warned_at c)) in
  if match warned_at with
     | Some t => (now - t <? _EMPTY_RANGES_WARNING_COOLDOWN)%Z
     | None => false
     end
  then ret tt
  else
    cloud_modify (fun c => c {{ _empty_ranges_warned_at := dset provider now (_empty_ranges_warned_at c) }}) ;;;
    sys (log WARNING ("Cloud IP ranges for " +:+ provider +:+ " are not populated yet")).

(** A network that blocks the address: it contains it, and its region is not
    carved out. *)
Definition network_blocks (ip_obj : ip) (allowed_regions : list string) (provider_regions : list (string * string))
  (network : net) : bool :=
  ip_in_net ip_obj network &&
  negb (nonempty allowed_regions &&
        match dget (string_of_net network) provider_regions with
        | Some region => bool_decide (region ∈ allowed_regions)
        | None => false
        end).

Fixpoint is_cloud_ip_loop (ip_obj : ip) (carveouts : string -> list string) (blocked : list string) : CM bool :=
  match blocked with
  | [] => ret false
  | provider :: blocked' =>
      let* ranges := cloud_get (fun c => dget provider (ip_ranges c)) in
      match ranges with
      | None => is_cloud_ip_loop ip_obj carveouts blocked'
      | Some ranges =>
          when (negb (nonempty ranges)) (_warn_empty_ranges provider) ;;;
          let* provider_regions := cloud_get (fun c => default [] (dget provider (network_regions c))) in
          if existsb (network_blocks ip_obj (carveouts provider) provider_regions) ranges
          then ret true
          else is_cloud_ip_loop ip_obj carveouts blocked'
      end
  end.

Definition is_cloud_ip (ip : string) (providers : list string) : CM bool :=
  match ip_address ip with
  | None => sys (log ERROR ("Invalid IP address: " +:+ ip)) ;;; ret false
  | Some ip_obj =>
      let '(blocked, carveouts) := _parse_cloud_selectors providers in
      is_cloud_ip_loop ip_obj carveouts blocked
  end.

Fixpoint details_loop (ip_obj : ip) (providers : list string) (ranges : list (string * list net))
  : option (string * string) :=
  match providers with
  | [] => None
  | provider :: providers' =>
      match List.find (ip_in_net ip_obj) (default [] (dget provider ranges)) with
      | Some network => Some (provider, string_of_net network)
      | None => details_loop ip_obj providers' ranges
      end
  end.

Definition get_cloud_provider_details (ip : string) (providers : list string) : CM (option (string * string)) :=
  match ip_address ip with
  | None => sys (log ERROR ("Invalid IP address: " +:+ ip)) ;;; ret None
  | Some ip_obj => let* ranges := cloud_get ip_ranges in
                   ret (details_loop ip_obj (_bare_provider_names providers) ranges)
  end.

(** ** Refreshing *)

Definition _log_range_changes (provider : string) (old_ranges new_ranges : list net) : CM unit :=
  let subset a b := forallb (fun n => bool_decide (n ∈ b)) a in
  if subset old_ranges new_ranges && subset new_ranges old_ranges then ret tt
  else sys (log INFO ("Cloud IP range update for " +:+ provider)).

(** Installing freshly fetched ranges. *)
Definition install_ranges (provider : string) (ranges : list net) (regions : list (string * string)) : CM unit :=
  let* old_ranges := cloud_get (fun c => default [] (dget provider (ip_ranges c))) in
  _log_range_changes provider old_ranges ranges ;;;
  cloud_modify (fun c => c {{ ip_ranges := dset provider ranges (ip_ranges c);
                              network_regions := dset provider regions (network_regions c) }}) ;;;
  let* now := sys time_time in
  cloud_modify (fun c => c {{ last_updated := dset provider (Some now) (last_updated c) }}).

Definition _refresh_providers (providers : list string) : CM unit :=
  for_each (_bare_provider_names providers) (fun provider =>
    catch any_exn
      (let* (ranges, regions) := sys (_fetch_provider_ranges provider) in
       when (nonempty ranges) (install_ranges provider ranges regions))
      (fun e =>
         sys (log ERROR ("Failed to fetch " +:+ provider +:+ " IP ranges: " +:+ exn_message e)) ;;;
         cloud_modify (fun c => c {{ ip_ranges := dset provider [] (ip_ranges c);
                                     network_regions := dset provider [] (network_regions c) }}))).

(** [InMemoryCloudIpStore.get] and [set] *)
Definition store_get (provider : string) : CM (option (list string)) :=
  let* expires_at := cloud_get (fun c => dget provider (store_expires_at c)) in
  let* expired := match expires_at with
                  | Some t => let* now := sys time_monotonic in ret (t <=? now)%Z
                  | None => ret false
                  end in
  if expired then
    cloud_modify (fun c => c {{ store_data := ddel provider (store_data c);
                                store_expires_at := ddel provider (store_expires_at c) }}) ;;;
    ret None
  else cloud_get (fun c => dget provider (store_data c)).

Definition store_set (provider : string) (ranges : list string) (ttl : option Z) : CM unit :=
  cloud_modify (fun c => c {{ store_data := dset provider ranges (store_data c) }}) ;;;
  match ttl with
  | None => cloud_modify (fun c => c {{ store_expires_at := ddel provider (store_expires_at c) }})
  | Some ttl =>
      let* now := sys time_monotonic in
      cloud_modify (fun c => c {{ store_expires_at := dset provider (now + seconds ttl)%Z (store_expires_at c) }})
  end.

(** [refresh_async], with the in-memory store *)
Definition refresh_async (providers : list string) (ttl : Z) : CM unit :=
  for_each (_bare_provider_names providers) (fun provider =>
    catch any_exn
      (let* cached := store_get provider in
       match cached with
       | Some cached =>
           let* (nets, regions) := lift_res (_decode_cached cached) in
           cloud_modify (fun c => c {{ ip_ranges := dset provider nets (ip_ranges c);
                                       network_regions := dset provider regions (network_regions c) }})
       | None =>
           let* (ranges, regions) := sys (_fetch_provider_ranges provider) in
           when (nonempty ranges)
             (store_set provider (_encode_cached ranges regions) (Some ttl) ;;;
              install_ranges provider ranges regions)
       end)
      (fun e =>
         sys (log ERROR ("Failed to refresh " +:+ provider +:+ " IP ranges: " +:+ exn_message e)) ;;;
         cloud_modify (fun c => if dmem provider (ip_ranges c) then c
                                else c {{ ip_ranges := dset provider [] (ip_ranges c) }}))).

(** [schedule_refresh]: the refresh itself runs later, in the background
    ([run_refresh]); the result is whether a task was started. *)
Definition schedule_refresh : CM bool :=
  let* in_flight := cloud_get _refresh_in_flight in
  if in_flight then ret false
  else cloud_modify (fun c => c {{ _refresh_in_flight := true }}) ;;; ret true.

(** [_run_refresh]: the background task *)
Definition run_refresh (refresh : CM unit) : CM unit :=
  catch any_exn refresh (fun _ => sys (log ERROR "Background cloud IP refresh failed")) ;;;
  cloud_modify (fun c => c {{ _refresh_in_flight := false }}).

(** [send_cloud_detection_event] *)
Definition send_cloud_detection_event (ip provider network action_taken : string) : CM unit :=
  let* agent_handler := cloud_get cloud_agent in
  if negb agent_handler then ret tt
  else sys (agent_send_logged
    {| ev_type := "cloud_blocked"; ev_ip := ip; ev_action := action_taken;
       ev_reason := "IP belongs to blocked cloud provider: " +:+ provider; ev_handler := "cloud";
       ev_country := None; ev_meta := [("cloud_provider", provider); ("network", network)] |}
    "Failed to send cloud event to agent").
End cloud.

(** * Lookups *)

Section lookup.
Context `{E : Env}.

(** Does a provider of the tables block the address? *)
Definition provider_blocks (c : CloudManager) (a : ip) (carveouts : string -> list string) (provider : string) : bool :=
  match dget provider (ip_ranges c) with
  | Some ranges => existsb (network_blocks a (carveouts provider) (default [] (dget provider (network_regions c)))) ranges
  | None => false
  end.

Lemma warn_empty_ranges_run provider s c : exists s' c',
  _warn_empty_ranges provider (s, c) = (Ok tt, (s', c')) /\
  ip_ranges c' = ip_ranges c /\ network_regions c' = network_regions c.
Proof.
  unfold _warn_empty_ranges. erewrite bind_ok by reflexivity. erewrite bind_ok by reflexivity. cbn [fst snd].
  destruct (match dget provider (_empty_ranges_warned_at c) with Some _ => _ | None => _ end).
  - eexists _, _. split; [reflexivity|done].
  - eexists _, _. split; [reflexivity|]. by destruct c.
Qed.

Lemma is_cloud_ip_loop_run a carveouts blocked : forall s c, exists w',
  is_cloud_ip_loop a carveouts blocked (s, c) = (Ok (existsb (provider_blocks c a carveouts) blocked), w').
Proof.
  induction blocked as [|p blocked IH]; intros s c; [by eexists|]. cbn [is_cloud_ip_loop existsb].
  erewrite bind_ok by reflexivity. cbn [snd]. unfold provider_blocks at 1.
  destruct (dget p (ip_ranges c)) as [ranges|] eqn:Er; [|by destruct (IH s c) as [w' ->]; eexists].
  assert (exists s' c', when (negb (nonempty ranges)) (_warn_empty_ranges p) (s, c) = (Ok tt, (s', c')) /\
    ip_ranges c' = ip_ranges c /\ network_regions c' = network_regions c) as (s' & c' & Hr & H1 & H2).
  { destruct (negb (nonempty ranges)); [apply warn_empty_ranges_run|]. by eexists _, _. }
  erewrite bind_ok by exact Hr. erewrite bind_ok by reflexivity. cbn [snd]. rewrite H2.
  destruct (existsb _ ranges); [by eexists|]. destruct (IH s' c') as [w' ->].
  eexists. f_equal. f_equal. cbn [orb]. clear IH. induction blocked as [|q l IHl]; [done|]. cbn [existsb].
  rewrite IHl. unfold provider_blocks. by rewrite H1, H2.
Qed.

(** The cloud lookup decides exactly this: the address is valid and lies in a
    network of a selected, loaded provider whose region no selector of that
    provider carves out.  It never raises. *)
Theorem is_cloud_ip_spec ip providers s c :
  exists b, fst (is_cloud_ip ip providers (s, c)) = Ok b /\
  (b = true <->
   exists a provider ranges network,
     ip_address ip = Some a /\
     (exists selector, selector ∈ providers /\ fst (partition_marker selector) = provider) /\
     dget provider (ip_ranges c) = Some ranges /\ network ∈ ranges /\ ip_in_net a network = true /\
     ~ (exists region, dget (string_of_net network) (default [] (dget provider (network_regions c))) = Some region /\
          exists selector, selector ∈ providers /\ partition_marker selector = (provider, Some region) /\
                           truthy region = true)).
Proof.
  unfold is_cloud_ip. destruct (ip_address ip) as [a|] eqn:Ea.
  2: { exists false. split; [reflexivity|]. split; [done|]. by intros (a & p & r & n & [=] & _). }
  unfold _parse_cloud_selectors. destruct (is_cloud_ip_loop_run a (carveouts_of providers)
    (remove_dups (map (fun selector => fst (partition_marker selector)) providers)) s c) as [w' ->].
  eexists. split; [reflexivity|].
  assert (forall p region, region ∈ carveouts_of providers p <->
    exists selector, selector ∈ providers /\ partition_marker selector = (p, Some region) /\ truthy region = true) as Hcarve.
  { intros p region. unfold carveouts_of. rewrite list_elem_of_omap. split.
    - intros (sel & Hin & Hm). exists sel. destruct (partition_marker sel) as [p' [r'|]]; [|done].
      destruct (String.eqb_spec p' p) as [->|]; [|done]. cbn [andb] in Hm. destruct (truthy r') eqn:Ht; [|done].
      by injection Hm as ->.
    - intros (sel & Hin & Hm & Ht). exists sel. rewrite Hm, String.eqb_refl, Ht. done. }
  rewrite List.existsb_exists. split.
  - intros (p & Hp & Hb). apply list_elem_of_In, elem_of_remove_dups, list_elem_of_fmap in Hp as (sel & -> & Hsel).
    unfold provider_blocks in Hb. destruct (dget _ (ip_ranges c)) as [ranges|] eqn:Er; [|done].
    apply List.existsb_exists in Hb as (n & Hn & Hb). apply list_elem_of_In in Hn.
    unfold network_blocks in Hb. apply andb_true_iff in Hb as [Hb1 Hb2].
    exists a, (fst (partition_marker sel)), ranges, n. split_and!; try done; [by exists sel|].
    intros (region & Hreg & Hc). apply Hcarve in Hc. rewrite Hreg in Hb2.
    rewrite bool_decide_eq_true_2 in Hb2 by done. destruct (carveouts_of providers _); [by apply not_elem_of_nil in Hc|done].
  - intros (a' & p & ranges & n & [= <-] & (sel & Hsel & Hp) & Er & Hn & Hin & Hno). exists p. split.
    { apply list_elem_of_In, elem_of_remove_dups, list_elem_of_fmap. by exists sel. }
    unfold provider_blocks. rewrite Er. apply List.existsb_exists. exists n. split; [by apply list_elem_of_In|].
    unfold network_blocks. rewrite Hin. cbn [andb]. apply negb_true_iff.
    destruct (nonempty _) eqn:Hne; [|done]. cbn [andb].
    destruct (dget (string_of_net n) _) as [region|] eqn:Hreg; [|done].
    apply bool_decide_eq_false_2. intros Hc. apply Hno. exists region. split; [done|]. by apply Hcarve.
Qed.
End lookup.

(** * The cache round trip *)

Lemma ip_network_strict_text n : net_wf n -> net_unscoped n -> ip_network_strict (string_of_net n) = Some n.
Proof.
  intros Hw Hu. destruct (net_text n Hw Hu) as (t & p & Et & Ht & Hp & _ & Hn & a & Ha & Hai).
  unfold ip_network_strict. rewrite Hn, Et, split_on_app by done. cbn [hd]. rewrite Ha, Hai. by rewrite Z.eqb_refl.
Qed.

(** The region of a network that is worth storing. *)
Definition region_of (regions : list (string * string)) (n : net) : option string :=
  match dget (string_of_net n) regions with
  | Some (String _ _ as region) => Some region
  | _ => None
  end.

Lemma string_of_net_inj n m :
  net_wf n -> net_wf m -> net_unscoped n -> net_unscoped m -> string_of_net n = string_of_net m -> n = m.
Proof.
  intros Hn Hm Hun Hum Heq. apply ip_network_strict_text in Hn; [|done]. apply ip_network_strict_text in Hm; [|done].
  rewrite Heq, Hm in Hn. by injection Hn.
Qed.

Lemma decode_encoded ranges regions nets acc :
  Forall (fun n => net_wf n /\ net_unscoped n) ranges ->
  exists acc', decode_entries (_encode_cached ranges regions) nets acc = Ok (nets ++ ranges, acc') /\
    forall k, dget k acc' = match List.find (fun n => (string_of_net n =? k)%string && 
                                  match region_of regions n with Some _ => true | None => false end) ranges with
                            | Some n => region_of regions n
                            | None => dget k acc
                            end.
Proof.
  intros Hr. revert nets acc. induction Hr as [|n ranges [Hw Hu] Hr IH]; intros nets acc.
  { exists acc. by rewrite app_nil_r. }
  cbn [_encode_cached map decode_entries List.find]. fold (_encode_cached ranges regions).
  destruct (net_text n Hw Hu) as (_ & _ & _ & _ & _ & Hbar & _).
  unfold region_of at 1. destruct (dget (string_of_net n) regions) as [[|c region]|] eqn:Hreg.
  1, 3: rewrite partition_char_None, ip_network_strict_text by done; cbn [truthy];
    destruct (IH (nets ++ [n]) acc) as (acc' & Hd & Hk); exists acc';
    (split; [by rewrite Hd, <- app_assoc|]); intros k; rewrite Hk; by rewrite andb_false_r.
  rewrite partition_char_app, ip_network_strict_text by done. cbn [truthy].
  destruct (IH (nets ++ [n]) (dset (string_of_net n) (String c region) acc)) as (acc' & Hd & Hk).
  exists acc'. split; [by rewrite Hd, <- app_assoc|]. intros k. rewrite Hk.
  destruct (String.eqb_spec (string_of_net n) k) as [<-|Hne]; cbn [andb].
  - assert (Hn : region_of regions n = Some (String c region)) by (unfold region_of; by rewrite Hreg).
    rewrite !Hn. destruct (List.find _ ranges) as [m|] eqn:Hf; [|by rewrite dget_dset_eq].
    apply List.find_some in Hf as [_ Hf]. bool_prop. rewrite <- Hn. unfold region_of. by rewrite H.
  - destruct (List.find _ ranges); [done|]. by rewrite dget_dset_ne.
Qed.

(** What is cached is what is read back: decoding an encoded range set gives
    the same networks in the same order, each with its region. *)
Theorem decode_encode_cached ranges regions :
  Forall (fun n => net_wf n /\ net_unscoped n) ranges ->
  exists regions', _decode_cached (_encode_cached ranges regions) = Ok (ranges, regions') /\
    forall n, n ∈ ranges -> dget (string_of_net n) regions' = region_of regions n.
Proof.
  intros Hr. destruct (decode_encoded ranges regions [] [] Hr) as (acc' & Hd & Hk).
  exists acc'. split; [exact Hd|]. intros n Hn. rewrite Hk. destruct (List.find _ ranges) as [m|] eqn:Hf.
  - apply List.find_some in Hf as [_ Hf]. bool_prop. unfold region_of. by rewrite H.
  - destruct (region_of regions n) eqn:Hreg; [|done]. exfalso.
    apply list_elem_of_In in Hn. pose proof (List.find_none _ _ Hf n Hn) as Hno. cbv beta in Hno.
    by rewrite String.eqb_refl, Hreg in Hno.
Qed.

Lemma decode_encode_cached_witness :
  exists regions', _decode_cached (_encode_cached [net4 10 0 0 0 8; net4 192 168 0 0 16] [("10.0.0.0/8", "eu")]) =
    Ok ([net4 10 0 0 0 8; net4 192 168 0 0 16], regions') /\
    forall n, n ∈ [net4 10 0 0 0 8; net4 192 168 0 0 16] ->
      dget (string_of_net n) regions' = region_of [("10.0.0.0/8", "eu")] n.
Proof.
  apply (decode_encode_cached [net4 10 0 0 0 8; net4 192 168 0 0 16] [("10.0.0.0/8", "eu")]).
  repeat constructor; vm_compute; discriminate.
Defined.
