(* ===== verification/AccessControl.v ===== *)
(** Access by address: [guard_core/_utils/access_control.py].

    The global lists, the country rules and the cloud provider rules, in this
    order.  The geolocation handler, an object of the embedding application, is the [GeoHandler] of
    [Config]. *)
From S2P Require Import Prelude PyStr PyDict IpAddr IpAddrText Sys Sample Config Request IpExtraction Cloud.

(** [IpAccessResult] *)
Record IpAccessResult : Type := mkAccess {
  allowed : bool;
  ac_reason : string;
  ac_cloud_provider : option string;
  ac_network : option string
}.

Definition access_granted : IpAccessResult := mkAccess true "" None None.

Definition _GENERIC_LIST_BLOCK_REASON (ip : string) : string :=
  "IP " +:+ ip +:+ " not in global allowlist/blocklist".

Definition access_denied (ip : string) : IpAccessResult :=
  mkAccess false (_GENERIC_LIST_BLOCK_REASON ip) None None.

(** ** Address lists *)

(** One entry; [ip_network(entry, strict=False)] may raise. *)
Definition entry_matches (ip_addr : ip) (canonical_ip entry : string) : res bool :=
  if has_char "/" entry then
    match ip_network entry with
    | Some n => Ok (ip_in_net ip_addr n)
    | None => Raise (ValueError entry)
    end
  else Ok (canonical_ip =? _canonicalize_ip entry)%string.

Definition _ip_in_list (ip_addr : ip) (ip : string) (entries : option (list string)) : res bool :=
  if negb (truthy_list entries) then Ok false
  else any_res (entry_matches ip_addr (_canonicalize_ip ip)) (default [] entries).

Definition negate (r : res bool) : res bool :=
  match r with Ok b => Ok (negb b) | Raise e => Raise e end.

Definition _check_blacklist (ip_addr : ip) (ip : string) (config : SecurityConfig) : res bool :=
  negate (_ip_in_list ip_addr ip (Some (blacklist config))).

Definition _check_whitelist (ip_addr : ip) (ip : string) (config : SecurityConfig) : res bool :=
  if truthy_list (whitelist config) then _ip_in_list ip_addr ip (whitelist config) else Ok true.

(** The denial, or [None]. *)
Definition _check_ip_lists_detail (ip_addr : ip) (ip : string) (config : SecurityConfig)
  : res (option IpAccessResult) :=
  match (if truthy_list (whitelist config) then _check_whitelist ip_addr ip config
         else _check_blacklist ip_addr ip config) with
  | Ok true => Ok None
  | Ok false => Ok (Some (access_denied ip))
  | Raise e => Raise e
  end.

(** ** Unknown identities *)

Definition _check_unknown_identity_access (ip : string) (config : SecurityConfig)
  (skip_ip_lists skip_countries : bool) : option IpAccessResult :=
  if negb (ip =? UNKNOWN_CLIENT_IDENTITY)%string then None
  else
    let whitelist_blocks := negb skip_ip_lists && truthy_list (whitelist config) in
    let country_whitelist_blocks := negb skip_countries && nonempty (whitelist_countries config) in
    if whitelist_blocks || country_whitelist_blocks then Some (access_denied ip)
    else Some access_granted.

(** ** Countries *)

Definition _has_country_rules (config : SecurityConfig) : bool :=
  nonempty (blocked_countries config) || nonempty (whitelist_countries config).

Definition _is_loopback (ip : string) : bool :=
  match ip_address ip with Some a => is_loopback a | None => false end.

Inductive country_result : Type :=
| Rule_none | Rule_no_geolocation | Rule_loopback_exempt | Rule_blocked | Rule_whitelisted | Rule_not_affected.

(** Blocked or not, and why. *)
Definition _evaluate_country_access (country : string) (config : SecurityConfig) : bool * country_result :=
  if nonempty (whitelist_countries config) then
    if in_list country (whitelist_countries config) then (false, Rule_whitelisted) else (true, Rule_blocked)
  else if nonempty (blocked_countries config) && in_list country (blocked_countries config) then (true, Rule_blocked)
  else (false, Rule_not_affected).

Section access.
Context `{E : Env}.

Definition log_if_level (l : option level) (msg : string) : M Sys unit :=
  match l with Some l => log l msg | None => ret tt end.

Definition _log_country_check_result (ip : string) (country : option string) (result_type : country_result)
  (config : SecurityConfig) : M Sys unit :=
  match result_type with
  | Rule_none => log DEBUG ("No countries blocked or whitelisted " +:+ ip)
  | Rule_no_geolocation => log DEBUG ("IP not geolocated " +:+ ip +:+ " - IP geolocation failed")
  | Rule_loopback_exempt => log DEBUG ("Loopback IP exempt from country allowlist check " +:+ ip)
  | Rule_blocked => log_if_level (log_suspicious_level config)
      ("IP from blocked country " +:+ ip +:+ " - " +:+ default "None" country +:+ " - IP from blocked country")
  | Rule_whitelisted => log_if_level (log_country_check_level config)
      ("IP from whitelisted country " +:+ ip +:+ " - " +:+ default "None" country +:+
       " - IP from whitelisted country")
  | Rule_not_affected => log_if_level (log_country_check_level config)
      ("IP not from blocked or whitelisted country " +:+ ip +:+ " - " +:+ default "None" country +:+
       " - IP not from blocked or whitelisted country")
  end.

Definition _resolve_country_verdict (ip : string) (config : SecurityConfig) (geo : GeoHandler)
  : M Sys (bool * option string) :=
  if negb (_has_country_rules config) then
    _log_country_check_result ip None Rule_none config ;;; ret (false, None)
  else if _is_loopback ip then
    _log_country_check_result ip None Rule_loopback_exempt config ;;; ret (false, None)
  else
    (if geo_is_initialized geo then ret tt else lift_res (geo_initialize geo)) ;;;
    let* country := lift_res (geo_get_country geo ip) in
    match country with
    | Some (String _ _ as c) =>
        let '(is_blocked, result_type) := _evaluate_country_access c config in
        _log_country_check_result ip country result_type config ;;;
        ret (is_blocked, country)
    | _ =>
        _log_country_check_result ip None Rule_no_geolocation config ;;;
        ret (nonempty (whitelist_countries config), None)
    end.

Definition _check_blocked_countries_detail (ip : string) (config : SecurityConfig) (geo : option GeoHandler)
  : M Sys (option IpAccessResult) :=
  match geo with
  | Some geo =>
      if negb (_has_country_rules config) then ret None
      else
        let* (is_blocked, country) := _resolve_country_verdict ip config geo in
        if negb is_blocked then ret None
        else ret (Some match country with
                       | Some (String _ _ as c) => mkAccess false ("IP from blocked country: " +:+ c) None None
                       | _ => access_denied ip
                       end)
  | None => ret None
  end.

(** ** Cloud providers *)

Abbreviation A := (M (Sys * CloudManager)).

Definition _check_cloud_providers_detail (ip : string) (config : SecurityConfig) : A (option IpAccessResult) :=
  match block_cloud_providers config with
  | Some ((_ :: _) as providers) =>
      let* hit := is_cloud_ip ip providers in
      if negb hit then ret None
      else
        let* details := get_cloud_provider_details ip providers in
        match details with
        | None => ret (Some (access_denied ip))
        | Some (provider, network) =>
            ret (Some (mkAccess false ("IP belongs to blocked cloud provider: " +:+ provider)
                         (Some provider) (Some network)))
        end
  | _ => ret None
  end.

(** ** The decision *)

Definition check_ip_access (ip : string) (config : SecurityConfig) (geo : option GeoHandler)
  (skip_ip_lists skip_countries : bool) : A IpAccessResult :=
  match _check_unknown_identity_access ip config skip_ip_lists skip_countries with
  | Some result => ret result
  | None =>
      catch any_exn
        (match ip_address ip with
         | None => raise (ValueError (ip +:+ " does not appear to be an IPv4 or IPv6 address"))
         | Some ip_addr =>
             let* list_result := if skip_ip_lists then ret None
                                 else lift_res (_check_ip_lists_detail ip_addr ip config) in
             match list_result with
             | Some result => ret result
             | None =>
                 let* in_whitelist := if skip_ip_lists then ret false
                                      else lift_res (_ip_in_list ip_addr ip (whitelist config)) in
                 let* country_result := if skip_countries || in_whitelist then ret None
                                        else sys (_check_blocked_countries_detail ip config geo) in
                 match country_result with
                 | Some result => ret result
                 | None =>
                     let* cloud_result := _check_cloud_providers_detail ip config in
                     match cloud_result with
                     | Some result => ret result
                     | None => ret access_granted
                     end
                 end
             end
         end)
        (fun e =>
           if is_value_error e then ret (access_denied ip)
           else sys (log ERROR ("Error checking IP " +:+ ip +:+ ": " +:+ exn_message e)) ;;;
                ret access_granted)
  end.

Definition is_ip_allowed (ip : string) (config : SecurityConfig) (geo : option GeoHandler)
  (skip_ip_lists skip_countries : bool) : A bool :=
  let* result := check_ip_access ip config geo skip_ip_lists skip_countries in
  ret (allowed result).
End access.

(** * What the decision is *)

(** An entry that is an address, or a network that parses. *)
Definition entry_ok (entry : string) : Prop := has_char "/" entry = true -> is_Some (ip_network entry).

(** The address is on a list. *)
Definition listed (a : ip) (ip : string) (entries : list string) : Prop :=
  exists entry, entry ∈ entries /\ entry_matches a (_canonicalize_ip ip) entry = Ok true.

(** The handler answers for the address: nothing raises. *)
Definition geo_answers (geo : GeoHandler) (ip : string) (country : option string) : Prop :=
  (geo_is_initialized geo = true \/ geo_initialize geo = Ok tt) /\ geo_get_country geo ip = Ok country.

(** The country rules let the address through. *)
Definition country_ok (config : SecurityConfig) (ip : string) (country : option string) : Prop :=
  _has_country_rules config = false \/ _is_loopback ip = true \/
  match country with
  | Some (String _ _ as c) =>
      if nonempty (whitelist_countries config) then c ∈ whitelist_countries config
      else c ∉ blocked_countries config
  | _ => whitelist_countries config = []
  end.

(** The cloud rules block the address. *)
Definition cloud_blocks (config : SecurityConfig) (c : CloudManager) (a : ip) : bool :=
  match block_cloud_providers config with
  | Some ((_ :: _) as providers) =>
      let '(blocked, carveouts) := _parse_cloud_selectors providers in
      existsb (provider_blocks c a carveouts) blocked
  | _ => false
  end.

(** Global access, for an identity that is an address. *)
Definition access_ok (config : SecurityConfig) (c : CloudManager) (geo : option (GeoHandler * option string))
  (skip_ip_lists skip_countries : bool) (a : ip) (ip : string) : Prop :=
  let listed_in := listed a ip (default [] (whitelist config)) in
  (skip_ip_lists = true \/
   if truthy_list (whitelist config) then listed_in else ~ listed a ip (blacklist config)) /\
  (skip_countries = true \/ (skip_ip_lists = false /\ listed_in) \/
   match geo with Some (_, country) => country_ok config ip country | None => True end) /\
  cloud_blocks config c a = false.

Lemma any_res_spec {A} (f : A -> res bool) l :
  (forall x, x ∈ l -> exists b, f x = Ok b) ->
  exists b, any_res f l = Ok b /\ (b = true <-> exists x, x ∈ l /\ f x = Ok true).
Proof.
  induction l as [|x l IH]; intros H.
  { exists false. split; [done|]. split; [done|]. by intros (x & Hx%elem_of_nil & _). }
  destruct IH as (b & Hb & Hs); [intros y Hy; apply H; by right|].
  destruct (H x) as [c Hc]; [left|]. cbn [any_res]. rewrite Hc. destruct c.
  - exists true. split; [done|]. split; [|done]. intros _. exists x. split; [left|done].
  - exists b. split; [done|]. rewrite Hs. split; intros (y & Hy & Hf).
    + exists y. split; [by right|done].
    + apply elem_of_cons in Hy as [->|Hy]; [congruence|]. by exists y.
Qed.

Lemma entry_matches_ok a ip entry : entry_ok entry -> exists b, entry_matches a ip entry = Ok b.
Proof.
  unfold entry_ok, entry_matches. destruct (has_char "/" entry); [|by eexists].
  intros [n ->]; [done|]. by eexists.
Qed.

Lemma ip_in_list_spec a ip entries :
  Forall entry_ok (default [] entries) ->
  exists b, _ip_in_list a ip entries = Ok b /\ (b = true <-> listed a ip (default [] entries)).
Proof.
  intros Hok. unfold _ip_in_list. destruct entries as [[|e l]|]; cbn [truthy_list nonempty negb default] in *.
  1, 3: exists false; split; [done|]; split; [done|]; by intros (x & Hx%elem_of_nil & _).
  rewrite Forall_forall in Hok. apply any_res_spec. intros x Hx. by apply entry_matches_ok, Hok.
Qed.

Section access_spec.
Context `{E : Env}.

#[local] Hint Extern 1 (_ = _) => reflexivity : core.

Lemma log_country_run ip country t config s : exists s',
  _log_country_check_result ip country t config s = (Ok tt, s').
Proof. destruct t; cbn; unfold log_if_level; try destruct (_ config); eexists; reflexivity. Qed.

(** What [_resolve_country_verdict] returns. *)
Definition country_verdict (config : SecurityConfig) (ip : string) (country : option string) : bool * option string :=
  if negb (_has_country_rules config) || _is_loopback ip then (false, None)
  else match country with
       | Some (String _ _ as c) => (fst (_evaluate_country_access c config), country)
       | _ => (nonempty (whitelist_countries config), None)
       end.

Lemma country_verdict_run ip config geo country s :
  geo_answers geo ip country ->
  exists s', _resolve_country_verdict ip config geo s = (Ok (country_verdict config ip country), s').
Proof.
  intros [Hi Hg]. unfold _resolve_country_verdict, country_verdict.
  destruct (_has_country_rules config); cbn [negb orb].
  2: { destruct (log_country_run ip None Rule_none config s) as [s' Hs]. rewrite (bind_ok _ _ _ _ _ Hs). by eexists. }
  destruct (_is_loopback ip).
  { destruct (log_country_run ip None Rule_loopback_exempt config s) as [s' Hs]. rewrite (bind_ok _ _ _ _ _ Hs). by eexists. }
  assert ((if geo_is_initialized geo then ret tt else lift_res (geo_initialize geo)) s = (Ok tt, s)) as Hinit.
  { destruct Hi as [->| ->]; [done|]. by destruct (geo_is_initialized geo). }
  rewrite (bind_ok _ _ _ _ _ Hinit).
  assert (lift_res (geo_get_country geo ip) s = (Ok country, s)) as Hget by (unfold lift_res; by rewrite Hg).
  rewrite (bind_ok _ _ _ _ _ Hget). destruct country as [[|ch c]|].
  1, 3: destruct (log_country_run ip None Rule_no_geolocation config s) as [s' Hs];
    rewrite (bind_ok _ _ _ _ _ Hs); by eexists.
  destruct (_evaluate_country_access _ config) as [b t].
  destruct (log_country_run ip (Some (String ch c)) t config s) as [s' Hs]. rewrite (bind_ok _ _ _ _ _ Hs). by eexists.
Qed.

Lemma evaluate_country_ok c config :
  fst (_evaluate_country_access c config) = false <->
  if nonempty (whitelist_countries config) then c ∈ whitelist_countries config else c ∉ blocked_countries config.
Proof.
  unfold _evaluate_country_access, in_list. destruct (nonempty (whitelist_countries config)); [by case_bool_decide|].
  destruct (blocked_countries config); cbn [nonempty andb]; [split; [intros _; apply not_elem_of_nil|done]|].
  by case_bool_decide.
Qed.

Lemma country_verdict_ok config ip country : fst (country_verdict config ip country) = false <-> country_ok config ip country.
Proof.
  unfold country_verdict, country_ok. destruct (_has_country_rules config); cbn [negb orb fst]; [|tauto].
  destruct (_is_loopback ip); cbn [fst]; [tauto|]. destruct country as [[|ch c]|]; cbn [fst].
  1, 3: destruct (whitelist_countries config); cbn [nonempty]; intuition congruence.
  rewrite evaluate_country_ok. intuition congruence.
Qed.

Lemma country_detail_spec ip config geo country s :
  geo_answers geo ip country ->
  exists r s', _check_blocked_countries_detail ip config (Some geo) s = (Ok r, s') /\
    (r = None <-> country_ok config ip country) /\ (forall x, r = Some x -> allowed x = false).
Proof.
  intros Hg. destruct (country_verdict_run ip config geo country s Hg) as [s' Hs].
  setoid_rewrite <- country_verdict_ok. unfold _check_blocked_countries_detail.
  destruct (_has_country_rules config) eqn:Hr; cbn [negb].
  2: { exists None, s. split; [done|]. unfold country_verdict. by rewrite Hr. }
  rewrite (bind_ok _ _ _ _ _ Hs). destruct (country_verdict config ip country) as [[] cc]; cbn [negb fst].
  - eexists _, s'. split; [reflexivity|]. split; [done|]. intros x [= <-]. by destruct cc as [[]|].
  - by exists None, s'.
Qed.

Lemma cloud_detail_spec ip config s c a :
  ip_address ip = Some a ->
  exists r w', _check_cloud_providers_detail ip config (s, c) = (Ok r, w') /\
    (r = None <-> cloud_blocks config c a = false) /\ (forall x, r = Some x -> allowed x = false).
Proof.
  intros Ha. unfold _check_cloud_providers_detail, cloud_blocks.
  destruct (block_cloud_providers config) as [[|p ps]|]; [by eexists None, _| |by eexists None, _].
  set (providers := p :: ps). unfold is_cloud_ip. rewrite Ha. unfold _parse_cloud_selectors.
  destruct (is_cloud_ip_loop_run a (carveouts_of providers)
    (remove_dups (map (fun selector => fst (partition_marker selector)) providers)) s c) as [w' Hw].
  erewrite bind_ok by exact Hw. destruct (existsb _ _) eqn:Hx; cbn [negb].
  - unfold get_cloud_provider_details. rewrite Ha. erewrite bind_ok by (erewrite bind_ok by reflexivity; reflexivity).
    destruct (details_loop _ _ _) as [[pr nw]|]; eexists _, w'; (split; [reflexivity|]);
      (split; [done|]); by intros x [= <-].
  - by eexists None, w'.
Qed.

(** C26: For an identity that is an address, lists whose entries are addresses or
    networks, as validation leaves them, and a geolocation handler that answers,
    check_ip_access allows exactly the addresses that pass the global lists, the
    country rules and the cloud rules. *)
Theorem check_ip_access_spec ip a config geo skip_ip_lists skip_countries s c :
  ip_address ip = Some a ->
  Forall entry_ok (default [] (whitelist config)) -> Forall entry_ok (blacklist config) ->
  match geo with Some (g, country) => geo_answers g ip country | None => True end ->
  exists r w', check_ip_access ip config (option_map fst geo) skip_ip_lists skip_countries (s, c) = (Ok r, w') /\
    (allowed r = true <-> access_ok config c geo skip_ip_lists skip_countries a ip).
Proof.
  intros Ha Hw Hb Hg.
  assert (_check_unknown_identity_access ip config skip_ip_lists skip_countries = None) as Hu.
  { unfold _check_unknown_identity_access. destruct (String.eqb_spec ip UNKNOWN_CLIENT_IDENTITY) as [->|]; [|done].
    vm_compute in Ha. done. }
  destruct (ip_in_list_spec a ip (whitelist config) Hw) as (bw & Hbw & Hlw).
  destruct (ip_in_list_spec a ip (Some (blacklist config)) Hb) as (bb & Hbb & Hlb). cbn [default] in Hlb.
  unfold check_ip_access, access_ok. rewrite Hu, Ha.
  set (lists := if skip_ip_lists then ret None else _ ).
  assert (exists r, lists (s, c) = (Ok r, (s, c)) /\ (forall x, r = Some x -> allowed x = false) /\
    (r = None <-> skip_ip_lists = true \/
      (if truthy_list (whitelist config) then listed a ip (default [] (whitelist config))
       else ~ listed a ip (blacklist config)))) as (rl & Hrl & Hdl & Hil).
  { subst lists. destruct skip_ip_lists; [eexists; split; [reflexivity|]; split; [done|]; split; [by left|done]|].
    unfold lift_res, _check_ip_lists_detail, _check_whitelist, _check_blacklist.
    destruct (truthy_list (whitelist config)); [rewrite Hbw|rewrite Hbb; cbn [negate]].
    - destruct bw; (eexists; split; [reflexivity|]); (split; [by intros x [= <-]|]);
        (split; [try done; intros _; right; by apply Hlw|]); [done|intros [?|Hl]; [done|by apply Hlw in Hl]].
    - destruct bb; cbn [negb]; (eexists; split; [reflexivity|]); (split; [by intros x [= <-]|]);
        (split; [try done; intros _; right; by rewrite <- Hlb|]); [|done].
      intros [?|Hl]; [done|]. exfalso. by apply Hl, Hlb. }
  unfold catch at 1. erewrite bind_ok by exact Hrl. clear Hrl lists.
  destruct rl as [x|].
  { exists x, (s, c). split; [done|]. rewrite (Hdl x) by done. split; [done|].
    intros (Hl & _). apply Hil in Hl. done. }
  destruct Hil as [Hil _]. specialize (Hil eq_refl).
  set (white := if skip_ip_lists then ret false else _).
  assert (exists b, white (s, c) = (Ok b, (s, c)) /\
    (b = true <-> skip_ip_lists = false /\ listed a ip (default [] (whitelist config)))) as (b & Hwh & Hbs).
  { subst white. destruct skip_ip_lists; [exists false; split; [done|]; split; [done|by intros []]|].
    exists bw. unfold lift_res. rewrite Hbw. split; [done|]. rewrite Hlw. tauto. }
  erewrite bind_ok by exact Hwh. clear Hwh white.
  set (countries := if skip_countries || b then ret None else _).
  assert (exists r s', countries (s, c) = (Ok r, (s', c)) /\ (forall x, r = Some x -> allowed x = false) /\
    (r = None <-> skip_countries = true \/ skip_ip_lists = false /\ listed a ip (default [] (whitelist config)) \/
      match geo with Some (_, country) => country_ok config ip country | None => True end))
    as (rc & s' & Hrc & Hdc & Hic).
  { subst countries. destruct skip_countries; cbn [orb]; [exists None, s; split; [done|]; split; [done|]; tauto|].
    destruct b; [exists None, s; split; [done|]; split; [done|]; tauto|].
    assert (~ (skip_ip_lists = false /\ listed a ip (default [] (whitelist config)))) as Hno
      by (intros Hx; by apply Hbs in Hx).
    destruct geo as [[g country]|]; cbn [option_map fst].
    - destruct (country_detail_spec ip config g country s Hg) as (r & s' & Hr & Hi & Hd).
      exists r, s'. unfold sys, zoom. cbn [fst snd]. rewrite Hr. split; [done|]. split; [done|]. rewrite Hi.
      split; [tauto|]. intros [?|[?|?]]; done.
    - exists None, s. split; [done|]. split; [done|]. tauto. }
  erewrite bind_ok by exact Hrc. clear Hrc countries.
  destruct rc as [x|].
  { exists x, (s', c). split; [done|]. rewrite (Hdc x) by done. split; [done|].
    intros (_ & Hl & _). apply Hic in Hl. done. }
  destruct Hic as [Hic _]. specialize (Hic eq_refl).
  destruct (cloud_detail_spec ip config s' c a Ha) as (r & w' & Hr & Hi & Hd). erewrite bind_ok by exact Hr.
  destruct r as [x|].
  - exists x, w'. split; [done|]. rewrite (Hd x) by done. split; [done|]. intros (_ & _ & Hl). apply Hi in Hl. done.
  - exists access_granted, w'. split; [done|]. split; [|done]. intros _. split; [exact Hil|]. split; [exact Hic|by apply Hi].
Qed.
(** The access decision always is one: whatever the lists hold and the
    geolocation handler raises, [check_ip_access] returns; an identity that does
    not parse is denied, and the identity "unknown" is denied exactly when an
    allow list that is not skipped is set. *)
Theorem check_ip_access_total ip config geo skip_ip_lists skip_countries w :
  exists r w', check_ip_access ip config geo skip_ip_lists skip_countries w = (Ok r, w') /\
    (ip <> UNKNOWN_CLIENT_IDENTITY -> ip_address ip = None -> allowed r = false) /\
    (ip = UNKNOWN_CLIENT_IDENTITY ->
     (allowed r = false <-> skip_ip_lists = false /\ truthy_list (whitelist config) = true \/
                            skip_countries = false /\ whitelist_countries config <> [])).
Proof.
  unfold check_ip_access, _check_unknown_identity_access.
  destruct (String.eqb_spec ip UNKNOWN_CLIENT_IDENTITY) as [Heq|Hne]; cbn [negb].
  { setoid_rewrite <- nonempty_true.
    destruct skip_ip_lists, (truthy_list _), skip_countries, (nonempty _); cbn [negb andb orb];
      (eexists _, w; split; [reflexivity|]); (split; [done|]); intros _; cbn [allowed access_denied access_granted];
      intuition congruence. }
  unfold catch. destruct (ip_address ip) as [a|].
  - destruct (bind _ _ w) as [[r|e] w1]; [by exists r, w1|]. unfold any_exn. destruct (is_value_error e).
    + by exists (access_denied ip), w1.
    + destruct w1 as [s1 c1]. exists access_granted. eexists. split; [reflexivity|]. done.
  - exists (access_denied ip), w. by split.
Qed.
End access_spec.

(** An address of the whitelist is let through whatever the blacklist and the
    blocked countries say. *)
Definition listing_config : SecurityConfig :=
  default_config {{ whitelist := Some ["198.51.100.0/24"]; blacklist := ["198.51.100.7"];
                    blocked_countries := ["XX"] }}.

Definition xx_geo : GeoHandler := mkGeo true (Ok tt) (fun _ => Ok (Some "XX")).

Lemma check_ip_access_spec_witness :
  let E := sample_env (ticking 0) redis_up in
  exists r w', check_ip_access "198.51.100.7" listing_config (Some xx_geo) false false
    (sample_sys (ticking 0) redis_up, CloudManager_new) = (Ok r, w') /\ allowed r = true.
Proof.
  intros E.
  destruct (check_ip_access_spec "198.51.100.7" (V4 3325256711) listing_config (Some (xx_geo, Some "XX"))
    false false (sample_sys (ticking 0) redis_up) CloudManager_new) as (r & w' & Hr & Hs).
  - by vm_compute.
  - constructor; [intros _; by eexists|constructor].
  - constructor; [intros [=]|constructor].
  - split; [by left|done].
  - exists r, w'. split; [exact Hr|]. apply Hs. split; [|split; [|done]].
    + right. exists "198.51.100.0/24". split; [left|by vm_compute].
    + right. left. split; [done|]. exists "198.51.100.0/24". split; [left|by vm_compute].
Defined.

Lemma check_ip_access_total_witness :
  let E := sample_env (ticking 0) redis_up in
  exists r w', check_ip_access "not an address" default_config (Some xx_geo) false false
    (sample_sys (ticking 0) redis_up, CloudManager_new) = (Ok r, w') /\ allowed r = false.
Proof.
  intros E.
  destruct (check_ip_access_total "not an address" default_config (Some xx_geo) false false
    (sample_sys (ticking 0) redis_up, CloudManager_new)) as (r & w' & Hr & Hm & _).
  exists r, w'. split; [exact Hr|]. apply Hm; [done|by vm_compute].
Defined.
