(* ===== verification/DetectionConfig.v ===== *)
(** What the scan of a request is parameterised by
    ([guard_core/_utils/detection_config.py]): the settings of the configuration and
    of the route, which headers are looked at how, and the findings the scan reports
    ([_utils/detection_result_builders.py]). *)
From S2P Require Import Prelude PyStr PyDict IpAddr Sys Config Redaction Request IpExtraction.

(** * Settings *)

(** A setting of the route, else of the configuration, else a default. *)
Definition resolve {A} (of_route : RouteConfig -> option A) (of_config : SecurityConfig -> A) (dflt : A)
  (config : option SecurityConfig) (route_config : option RouteConfig) : A :=
  match route_config ≫= of_route, config with
  | Some a, _ => a
  | None, Some c => of_config c
  | None, None => dflt
  end.

Definition _resolve_excluded_params (config : option SecurityConfig) (route_config : option RouteConfig) : list string :=
  lowered (resolve rc_excluded_detection_params excluded_detection_params [] config route_config).

Definition _resolve_excluded_body_fields (config : option SecurityConfig) (route_config : option RouteConfig) : list string :=
  lowered (resolve rc_excluded_detection_body_fields excluded_detection_body_fields [] config route_config).

Definition _resolve_enabled_categories (config : option SecurityConfig) (route_config : option RouteConfig)
  : option (list string) :=
  resolve (fun rc => Some <$> rc_enabled_detection_categories rc) (fun c => Some (enabled_detection_categories c)) None
    config route_config.

Definition _resolve_scan_body (config : option SecurityConfig) (route_config : option RouteConfig) : bool :=
  resolve rc_detection_scan_body detection_scan_body true config route_config.

Definition _DEFAULT_EXCLUDED_HEADERS : list string :=
  ["host"; "user-agent"; "accept"; "accept-encoding"; "connection"; "origin"; "referer"; "sec-fetch-site";
   "sec-fetch-mode"; "sec-fetch-dest"; "sec-ch-ua"; "sec-ch-ua-mobile"; "sec-ch-ua-platform"; "forwarded";
   "x-forwarded-for"; "x-forwarded-host"; "x-forwarded-proto"; "x-real-ip"; "x-client-ip"; "x-cluster-client-ip";
   "cf-connecting-ip"; "true-client-ip"; "fly-client-ip"; "x-envoy-external-address"].

Definition _resolve_excluded_headers (config : option SecurityConfig) (route_config : option RouteConfig) : list string :=
  _DEFAULT_EXCLUDED_HEADERS ++
  (match config with Some c => lowered (excluded_detection_headers c) | None => [] end) ++
  lowered (default [] (route_config ≫= rc_excluded_detection_headers)).

Definition _resolve_log_level (config : option SecurityConfig) : option level :=
  match config with Some c => log_suspicious_level c | None => Some WARNING end.

Definition _resolve_sensitive_log_headers (config : option SecurityConfig) : list string :=
  _merge_sensitive_log_headers (log_sensitive_headers <$> config).
Definition _resolve_sensitive_log_params (config : option SecurityConfig) : list string :=
  _merge_sensitive_names _DEFAULT_SENSITIVE_LOG_FIELDS (log_sensitive_params <$> config).
Definition _resolve_sensitive_log_body_fields (config : option SecurityConfig) : list string :=
  _merge_sensitive_names _DEFAULT_SENSITIVE_LOG_FIELDS (log_sensitive_body_fields <$> config).

Definition _DEFAULT_MAX_SCAN_VALUES : Z := 512.
Definition _DEFAULT_MAX_SCAN_CHARS : Z := 65536.
Definition _DEFAULT_BINARY_MIN_RUN_LENGTH : Z := 16.

Definition of_config (field : SecurityConfig -> Z) (dflt : Z) (config : option SecurityConfig) : Z :=
  match config with Some c => field c | None => dflt end.

Definition _resolve_max_scan_values : option SecurityConfig -> Z := of_config detection_max_scan_values _DEFAULT_MAX_SCAN_VALUES.
Definition _resolve_max_scan_chars : option SecurityConfig -> Z := of_config detection_max_scan_chars _DEFAULT_MAX_SCAN_CHARS.
Definition _resolve_max_json_depth : option SecurityConfig -> Z := of_config detection_max_json_depth _DEFAULT_MAX_JSON_DEPTH.
Definition _resolve_binary_min_run_length : option SecurityConfig -> Z :=
  of_config detection_binary_min_run_length _DEFAULT_BINARY_MIN_RUN_LENGTH.

(** * Headers that are looked at in part *)

Definition _ADDRESS_HEADER_SKIP_CATEGORIES : list string := ["ssrf"].
Definition _GENERIC_EXCLUDED_HEADER_SKIP_CATEGORIES : list string := [].

Definition _HEADER_CATEGORY_EXCLUSIONS : list (string * list string) :=
  map (fun h => (h, _ADDRESS_HEADER_SKIP_CATEGORIES))
    ["host"; "origin"; "x-forwarded-for"; "x-forwarded-host"; "x-real-ip"; "x-client-ip"; "x-cluster-client-ip";
     "cf-connecting-ip"; "true-client-ip"; "fly-client-ip"; "x-envoy-external-address"; "via"].

Definition _address_chain_token_is_address (token : string) : bool := is_some (ip_address (_strip_forwarded_entry_port token)).

Definition _value_looks_like_address_chain (value : string) : bool :=
  let tokens := List.filter truthy (map strip (split_on "," value)) in
  nonempty tokens && forallb _address_chain_token_is_address tokens.

Definition _excluded_header_skip_categories (key value : string) : list string :=
  match dget (lower (strip key)) _HEADER_CATEGORY_EXCLUSIONS with
  | Some mapped => mapped
  | None =>
      if _value_looks_like_address_chain value then _ADDRESS_HEADER_SKIP_CATEGORIES
      else _GENERIC_EXCLUDED_HEADER_SKIP_CATEGORIES
  end.

Definition _excluded_header_effective_categories (key value : string) (enabled_categories : option (list string))
  : option (list string) :=
  let skip := _excluded_header_skip_categories key value in
  if negb (nonempty skip) then enabled_categories
  else Some (set_minus (default ALL_DETECTION_CATEGORIES enabled_categories) skip).

(** * Findings *)

(** A threat, by the type of its dictionary.  Weights and scores are counted in
    millionths; the time a search took is left out, and reported texts are as they
    are found: they have no surrogates to escape here. *)
Inductive threat : Type :=
| RegexThreat (pattern matched : string) (position : Z) (category : string) (weight : option Z)
| TimeoutThreat (pattern category : string) (weight : Z)
| SemanticThreat (attack_type : string) (score : Z).

#[export] Instance threat_eq_dec : EqDecision threat.
Proof. solve_decision. Defined.

Definition millionths (n : Z) : Z := (n * 1000000)%Z.

Definition _threat_category (t : threat) : option string :=
  match t with
  | RegexThreat _ _ _ category _ => Some category
  | SemanticThreat attack_type _ => Some attack_type
  | TimeoutThreat _ _ _ => None
  end.

Definition _threat_score (t : threat) : Z :=
  match t with SemanticThreat _ score => score | _ => millionths 1 end.

(** One threat of [_build_detection_hit]. *)
Definition count_threat (acc : list string * list (string * Z)) (t : threat) : list string * list (string * Z) :=
  let '(categories, scores) := acc in
  match _threat_category t with
  | None => acc
  | Some category =>
      (if in_list category categories then categories else categories ++ [category],
       dset category (Z.max (default 0%Z (dget category scores)) (_threat_score t)) scores)
  end.

Definition _build_detection_hit (trigger : string) (threats : list threat) : DetectionResult :=
  let '(categories, scores) := fold_left count_threat threats ([], []) in
  {| is_threat := true; trigger_info := trigger; threat_categories := categories; threat_scores := scores |}.

Definition _build_detection_miss : DetectionResult :=
  {| is_threat := false; trigger_info := ""; threat_categories := []; threat_scores := [] |}.

(** The categories of a finding are those of its threats, each once. *)
Lemma count_threats_categories threats acc :
  NoDup (fst acc) ->
  let categories := fst (fold_left count_threat threats acc) in
  NoDup categories /\ forall c, c ∈ categories <-> c ∈ fst acc \/ Some c ∈ map _threat_category threats.
Proof.
  revert acc. induction threats as [|t threats IH]; intros [cs ss] Hn; cbn [fold_left map fst].
  { split; [done|]. intros c. rewrite elem_of_nil. tauto. }
  assert (NoDup (fst (count_threat (cs, ss) t)) /\
    forall c, c ∈ fst (count_threat (cs, ss) t) <-> c ∈ cs \/ _threat_category t = Some c) as [Hn' Hc].
  { unfold count_threat. destruct (_threat_category t) as [k|]; cbn [fst]; [|by split; [|naive_solver]].
    unfold in_list. case_bool_decide as Hk.
    - split; [done|]. intros c. split; [tauto|]. by intros [|[= <-]].
    - split; [apply NoDup_app; split; [done|]; split; [set_solver|apply NoDup_singleton]|].
      intros c. rewrite elem_of_app, list_elem_of_singleton. naive_solver. }
  destruct (IH _ Hn') as [H1 H2]. split; [done|]. intros c. rewrite H2, Hc, elem_of_cons. naive_solver.
Qed.

Lemma detection_hit_categories trigger threats :
  NoDup (threat_categories (_build_detection_hit trigger threats)) /\
  forall c, c ∈ threat_categories (_build_detection_hit trigger threats) <-> Some c ∈ map _threat_category threats.
Proof.
  unfold _build_detection_hit. destruct (fold_left count_threat threats ([], [])) as [cs ss] eqn:Hf.
  pose proof (count_threats_categories threats ([], []) (NoDup_nil_2)) as [Hn Hc]. rewrite Hf in Hn, Hc.
  cbn [fst threat_categories] in *. split; [done|]. intros c. rewrite Hc, elem_of_nil. tauto.
Qed.
