(* ===== verification/BodyReader.v ===== *)
(** Reading the body of a request for the scan
    ([guard_core/_utils/body_reader.py]): never more of it than the configuration
    allows, and nothing at all when the adapter cannot stop in time.  Bytes are byte
    strings. *)
From S2P Require Import Prelude PyStr PyDict Json Sys Sample Config Request DetectionConfig.

(** [int] refuses a text of too many digits, and nothing catches that. *)
Definition _parse_content_length (value : string) : res (option Z) :=
  let stripped := strip value in
  if negb (truthy stripped && sforall is_decimal stripped) then Ok None
  else match py_int stripped with
       | Some parsed => Ok (if (0 <? parsed)%Z then Some parsed else None)
       | None => Raise TooManyDigits
       end.

(** The body of a request, as the adapters give it: [await request.body()], and
    [read_body_prefix] of the requests that have it; [None] for a result that is not
    [bytes].  A timeout is one of their exceptions. *)
Class RequestBody `{E : Env} : Type := {
  request_body : Request -> M Sys (option string);
  read_request_prefix : Request -> option (Z -> M Sys (option string))
}.

(** The pattern handler as the scan of a request uses it. *)
Class Detector `{E : Env} : Type := {
  (** [_ensure_detection_singleton_configured] *)
  ensure_configured : SecurityConfig -> M Sys unit;
  (** [detect(content, ip_address, context, correlation_id, enabled_categories,
      content_preview)]: [is_threat], and the threats *)
  detect : string -> string -> string -> string -> option (list string) -> option string -> M Sys (bool * list threat);
  (** the sources and categories of the patterns *)
  get_all_compiled_patterns : M Sys (list (string * string));
  (** [_check_regex_pattern(pattern, content, ip_address, pattern_start, category, context)] *)
  check_regex_pattern : string -> string -> string -> Z -> string -> string -> M Sys (option threat * bool)
}.

Section reader.
Context `{RB : RequestBody} `{!Detector}.

(** [None] for an exception of the reader. *)
Definition _safe_read {A} (reader : M Sys A) : M Sys (option A) :=
  catch any_exn (let* a := reader in ret (Some a)) (fun _ => ret None).

Definition _MAX_STRADDLE_OVERLAP_BYTES : Z := 256.

Definition _straddle_overlap_bytes : M Sys Z :=
  let* patterns := catch any_exn get_all_compiled_patterns (fun _ => ret []) in
  ret (Z.min (fold_right (fun p n => Z.max (Z.of_nat (slen (fst p))) n) 0%Z patterns) _MAX_STRADDLE_OVERLAP_BYTES).

(** [request.state._guard_capped_body_prefix_cache]: how much was asked for, and
    what came. *)
Abbreviation PrefixCache := (option (Z * string)).

#[local] Abbreviation R := (M (Sys * PrefixCache)).
Definition r_io {A} (m : M Sys A) : R A := zoom fst (fun s p => (s, snd p)) m.

Definition bytes_prefix (max_bytes : Z) (body : string) : string := stake (Z.to_nat max_bytes) body.

Definition _read_and_cache_body (max_bytes : Z) (reader : M Sys (option string)) (accessor : string) : R (option string) :=
  let* cached := gets snd in
  match match cached with Some (n, bytes) => if (max_bytes <=? n)%Z then Some bytes else None | None => None end with
  | Some bytes => ret (Some (bytes_prefix max_bytes bytes))
  | None =>
      let* prefix := r_io (_safe_read reader) in
      match prefix with
      | None => ret None
      | Some None =>
          r_io (log WARNING ("GuardRequest." +:+ accessor +:+
            " returned no bytes; treating the body as unavailable for detection")) ;;;
          ret None
      | Some (Some bytes) =>
          let capped := bytes_prefix max_bytes bytes in
          modify (fun p => (fst p, Some (max_bytes, capped))) ;;;
          ret (Some capped)
      end
  end.

Definition _capped_body_fetch_size (max_bytes : Z) : R Z :=
  let* overlap := r_io _straddle_overlap_bytes in
  ret (max_bytes + overlap)%Z.

Definition _read_capped_body_prefix (request : Request) (max_bytes : Z) : R (option string) :=
  match read_request_prefix request with
  | None => ret None
  | Some read =>
      let* fetch_bytes := _capped_body_fetch_size max_bytes in
      _read_and_cache_body fetch_bytes (read fetch_bytes) "read_body_prefix"
  end.

Definition _warn_body_inspect_bytes_cap_reached (max_bytes : Z) (client_ip : string) : M Sys unit :=
  log WARNING ("detection_max_body_inspect_bytes (" +:+ string_of_Z max_bytes +:+ ") reached for client " +:+ client_ip +:+
    "; only the first " +:+ string_of_Z max_bytes +:+ " bytes of the request body are scanned").

Definition _warn_body_inspect_bytes_cap_reached_no_bounded_reader (max_bytes : Z) (client_ip : string) : M Sys unit :=
  log WARNING ("detection_max_body_inspect_bytes (" +:+ string_of_Z max_bytes +:+ ") reached for client " +:+ client_ip +:+
    "; the request body is not read because the adapter does not implement a bounded reader (read_body_prefix)").

Definition _read_oversized_declared_body (request : Request) (max_bytes : Z) (client_ip : string) : R (option string) :=
  match read_request_prefix request with
  | None =>
      r_io (_warn_body_inspect_bytes_cap_reached_no_bounded_reader max_bytes client_ip) ;;;
      ret None
  | Some read =>
      r_io (_warn_body_inspect_bytes_cap_reached max_bytes client_ip) ;;;
      let* fetch_bytes := _capped_body_fetch_size max_bytes in
      _read_and_cache_body fetch_bytes (read fetch_bytes) "read_body_prefix"
  end.

Definition _read_capped_body (request : Request) (config : option SecurityConfig) (client_ip : string) : R (option string) :=
  match config with
  | None =>
      let* body := r_io (_safe_read (request_body request)) in
      ret (match body with Some bytes => bytes | None => None end)
  | Some config =>
      let max_bytes := detection_max_body_inspect_bytes config in
      let* parsed :=
        match header request "content-length" with
        | Some value => lift_res (_parse_content_length value)
        | None => ret None
        end in
      match parsed with
      | Some parsed =>
          if (max_bytes <? parsed)%Z then _read_oversized_declared_body request max_bytes client_ip
          else _read_and_cache_body max_bytes (request_body request) "body"
      | None => _read_capped_body_prefix request max_bytes
      end
  end.
End reader.

(** * How much is read *)

Section bounds.
Context `{RB : RequestBody} `{!Detector}.

Lemma bytes_prefix_length n body : (Z.of_nat (slen (bytes_prefix n body)) <= Z.max 0 n)%Z.
Proof.
  unfold bytes_prefix. assert (forall k s, slen (stake k s) <= k)%nat as Hs.
  { induction k as [|k IH]; intros [|c s]; simpl; try lia. specialize (IH s). lia. }
  specialize (Hs (Z.to_nat n) body). lia.
Qed.

Lemma straddle_bound s n s' : _straddle_overlap_bytes s = (Ok n, s') -> (0 <= n <= 256)%Z.
Proof.
  unfold _straddle_overlap_bytes. intros (patterns & s1 & _ & [= <- _])%bind_ok_inv.
  unfold _MAX_STRADDLE_OVERLAP_BYTES. assert (0 <= fold_right (fun p n => Z.max (Z.of_nat (slen (fst p))) n) 0 patterns)%Z.
  { induction patterns as [|p l IH]; cbn [fold_right]; lia. }
  lia.
Qed.

(** What a read of [max_bytes] returns, from the cache or not. *)
Lemma read_and_cache_bound max_bytes reader accessor p body p' :
  _read_and_cache_body max_bytes reader accessor p = (Ok (Some body), p') ->
  (Z.of_nat (slen body) <= Z.max 0 max_bytes)%Z.
Proof.
  unfold _read_and_cache_body. intros (cached & p1 & [= <- <-] & Hc)%bind_ok_inv. revert Hc.
  destruct (match snd p with Some (n, bytes) => _ | None => None end).
  { intros [= <- _]. apply bytes_prefix_length. }
  intros (prefix & p2 & _ & Hp)%bind_ok_inv. revert Hp. destruct prefix as [[bytes|]|]; [|by intros (_ & ? & _ & [=])%bind_ok_inv|done].
  intros (_ & p3 & _ & [= <- _])%bind_ok_inv. apply bytes_prefix_length.
Qed.

(** C16: no more of a body than allowed.  Whatever the request declares, whatever the
    adapter returns and whatever was read before, the text that is scanned for an
    attack has at most [detection_max_body_inspect_bytes] bytes and the overlap of
    256. *)
Theorem capped_body_bounded request config client_ip p body p' :
  (0 <= detection_max_body_inspect_bytes config)%Z ->
  _read_capped_body request (Some config) client_ip p = (Ok (Some body), p') ->
  (Z.of_nat (slen body) <= detection_max_body_inspect_bytes config + _MAX_STRADDLE_OVERLAP_BYTES)%Z.
Proof.
  intros Hmax. unfold _read_capped_body, _MAX_STRADDLE_OVERLAP_BYTES.
  assert (forall reader q body q', (let* n := _capped_body_fetch_size (detection_max_body_inspect_bytes config) in
    _read_and_cache_body n (reader n) "read_body_prefix") q = (Ok (Some body), q') ->
    (Z.of_nat (slen body) <= detection_max_body_inspect_bytes config + 256)%Z) as Hprefix.
  { intros reader q b q' (n & q1 & Hn & Hr)%bind_ok_inv. apply read_and_cache_bound in Hr.
    unfold _capped_body_fetch_size in Hn. apply bind_ok_inv in Hn as (o & q2 & Ho & [= <- _]).
    unfold r_io, zoom in Ho. destruct (_straddle_overlap_bytes (fst q)) as [[o'|] s] eqn:Hs; [|done].
    injection Ho as -> _. apply straddle_bound in Hs. lia. }
  intros (parsed & p1 & _ & Hb)%bind_ok_inv. destruct parsed as [parsed|].
  - destruct (_ <? parsed)%Z; [|apply read_and_cache_bound in Hb; lia].
    unfold _read_oversized_declared_body in Hb. destruct (read_request_prefix request); [|by apply bind_ok_inv in Hb as (_ & ? & _ & [=])].
    apply bind_ok_inv in Hb as (_ & p2 & _ & Hb). by eapply Hprefix.
  - unfold _read_capped_body_prefix in Hb. destruct (read_request_prefix request); [|done]. by eapply Hprefix.
Qed.

(** An adapter that cannot read a part of a body is never asked for one that is too
    large, or whose length is not declared. *)
Lemma no_bounded_reader request config client_ip p :
  read_request_prefix request = None ->
  match header request "content-length" with
  | Some value => exists n, _parse_content_length value = Ok n /\
      match n with Some n => (detection_max_body_inspect_bytes config < n)%Z | None => True end
  | None => True
  end ->
  fst (_read_capped_body request (Some config) client_ip p) = Ok None.
Proof.
  intros Hr Hn. unfold _read_capped_body, _read_oversized_declared_body, _read_capped_body_prefix. rewrite Hr.
  destruct (header request "content-length") as [value|]; [|done]. destruct Hn as (n & Hv & Hn). rewrite Hv.
  unfold bind at 1, lift_res. destruct n as [n|]; [|done]. by rewrite (proj2 (Z.ltb_lt _ _)).
Qed.
End bounds.

(** * A witness *)

Section witness.
#[local] Instance reader_env : Env := sample_env (ticking 1000) redis_up.

(** An adapter that returns more than it is asked for, and a handler with one
    pattern. *)
#[local] Instance sample_request_body : RequestBody := {|
  request_body := fun _ => ret (Some "payload");
  read_request_prefix := fun _ => Some (fun _ => ret (Some "0123456789abcdef"))
|}.

#[local] Instance sample_detector : Detector := {|
  ensure_configured := fun _ => ret tt;
  detect := fun content _ _ _ _ _ => ret (contains "attack" content, []);
  get_all_compiled_patterns := ret [("evil", "xss")];
  check_regex_pattern := fun _ _ _ _ _ _ => ret (None, false)
|}.

Definition upload : Request :=
  {| rq_path := "/upload"; rq_scheme := "https"; rq_method := "POST"; rq_client_host := Some "198.51.100.7";
     rq_headers := [("Content-Length", " 900 ")]; rq_query_params := []; rq_https_url := "https://app.example/upload";
     rq_url_full := "https://app.example/upload" |}.

Definition small_bodies : SecurityConfig := default_config {{ detection_max_body_inspect_bytes := 8%Z }}.

Lemma capped_body_bounded_witness : (Z.of_nat (slen "0123456789ab") <= 8 + 256)%Z.
Proof.
  pose (run := _read_capped_body upload (Some small_bodies) "198.51.100.7" (sample_sys (ticking 1000) redis_up, None)).
  apply (capped_body_bounded upload small_bodies "198.51.100.7" (sample_sys (ticking 1000) redis_up, None) "0123456789ab" (snd run)).
  - vm_compute. discriminate.
  - apply run_pair. vm_compute. reflexivity.
Defined.

(** A length that is all digits, and too many of them, raises. *)
Example overlong_content_length :
  _parse_content_length (String.concat "" (repeat "9" 4301)) =
    Raise TooManyDigits /\
  _parse_content_length "4300" = Ok (Some 4300%Z) /\ _parse_content_length "-1" = Ok None /\ _parse_content_length "0" = Ok None.
Proof. vm_compute. repeat split; reflexivity. Qed.
End witness.
