(* ===== verification/Scan.v ===== *)
(** The scan of a request for attacks ([detect_penetration_attempt] of
    [guard_core/_utils/penetration_detection.py]): query parameters, path, headers and
    body ([body_content_scan.py], [body_json_scan.py], [body_form_scan.py],
    [embedded_json_scan.py]) are shown piece by piece to the pattern handler, within a
    budget of pieces and characters ([detection_scan.py]).

    The texts that are shown to people (previews) are redacted ([Redaction]), which may
    raise; the [email] parser and the decoding of bytes are parameters
    ([ScanServices]). *)
From S2P Require Import Prelude PyStr PyDict Json IpAddr Url Sys Config Redaction Request IpExtraction AccessControl JsonPattern DetectionConfig BodyReader.

#[local] Open Scope Z_scope.

(** * What the scan relies on *)

(** A part of a [multipart] message that is not one itself: its name and file name,
    its headers, and its payload when that is text. *)
Record mime_part : Type := mkPart {
  mp_name : option string;
  mp_filename : option string;
  mp_headers : list (string * string);
  mp_payload : option string
}.

Class ScanServices `{E : Env} : Type := {
  (** [bytes.decode("utf-8", errors="surrogateescape")] *)
  decode_surrogateescape : string -> string;
  (** the parts of a message, given its body and content type, or [None] when the
      [email] parser finds it is not multipart *)
  parse_multipart : string -> string -> option (list mime_part);
  (** the sensitive parameters, body fields and headers the pattern handler has been
      told of ([_sensitive_params_union] and the like) *)
  sensitive_unions : list string * list string * list string;
  (** [f"{score:.2f}"] *)
  show_score : Z -> string;
  (** the first match of [ALWAYS_SCAN_HEADER_PATTERNS]: pattern, text and position *)
  always_scan_match : string -> option (string * string * Z);
  scan_texts :: TextServices
}.

(** * The budget of a scan ([detection_scan.py]) *)

(** The context variables, and the prefix of the body kept with the request. *)
Record Budget : Type := mkBudget {
  _scanned_value_count : Z;
  _scan_value_cap : Z;
  _scanned_char_count : Z;
  _scan_char_cap : Z;
  _scan_char_cap_warned : bool;
  _json_depth_cap : Z;
  _json_depth_warned : bool;
  _binary_min_run : Z;
  body_prefix : option (Z * string)
}.

Definition Budget_default : Budget :=
  mkBudget 0 _DEFAULT_MAX_SCAN_VALUES 0 _DEFAULT_MAX_SCAN_CHARS false _DEFAULT_MAX_JSON_DEPTH false
    _DEFAULT_BINARY_MIN_RUN_LENGTH None.

#[local] Abbreviation D := (M (Sys * Budget)).

Section budget.
Context `{E : Env}.

Definition d_io {A} (m : M Sys A) : D A := zoom fst (fun s p => (s, snd p)) m.
Definition d_get {A} (f : Budget -> A) : D A := gets (fun p => f (snd p)).
Definition d_set (f : Budget -> Budget) : D unit := modify (fun p => (fst p, f (snd p))).

(** [with _scan_value_budget(...)]: the variables have their old values afterwards. *)
Definition _scan_value_budget {A} (max_values max_json_depth max_scan_chars binary_min_run_length : Z) (m : D A) : D A := fun p =>
  let '(r, (s, b)) := m (fst p, mkBudget 0 max_values 0 max_scan_chars false max_json_depth false binary_min_run_length
                                  (body_prefix (snd p))) in
  (r, (s, (snd p) {{ body_prefix := body_prefix b }})).

Definition _scan_value_budget_exhausted (client_ip : string) : D bool :=
  d_set (fun b => b {{ _scanned_value_count ::= Z.succ }}) ;;;
  let* count := d_get _scanned_value_count in
  let* cap := d_get _scan_value_cap in
  if count <=? cap then ret false
  else
    when (count =? cap + 1) (d_io (log WARNING ("detection_max_scan_values (" +:+ string_of_Z cap +:+
      ") reached for client " +:+ client_ip +:+ "; remaining request values are not scanned"))) ;;;
    ret true.

Definition _scan_char_budget_exhausted (client_ip : string) (value_length : Z) : D bool :=
  let* consumed_before := d_get _scanned_char_count in
  let* cap := d_get _scan_char_cap in
  if cap <=? consumed_before then
    let* already := d_get _scan_char_cap_warned in
    when (negb already)
      (d_set (fun b => b {{ _scan_char_cap_warned := true }}) ;;;
       d_io (log WARNING ("detection_max_scan_chars (" +:+ string_of_Z cap +:+ ") reached for client " +:+ client_ip +:+
         "; remaining request values are not scanned"))) ;;;
    ret true
  else
    d_set (fun b => b {{ _scanned_char_count := consumed_before + value_length }}) ;;;
    ret false.

Definition _scan_budget_exhausted (client_ip value : string) : D bool :=
  let* exhausted := _scan_value_budget_exhausted client_ip in
  if exhausted : bool then ret true
  else _scan_char_budget_exhausted client_ip (Z.of_nat (slen value)).

Definition _warn_json_depth_cap_reached_once (client_ip : string) : D unit :=
  let* already := d_get _json_depth_warned in
  if already : bool then ret tt
  else
    d_set (fun b => b {{ _json_depth_warned := true }}) ;;;
    let* cap := d_get _json_depth_cap in
    d_io (log WARNING ("detection_max_json_depth (" +:+ string_of_Z cap +:+ ") reached for client " +:+ client_ip +:+
      "; nested content below that depth is scanned as text")).
End budget.

(** * Findings *)

(** [(detected, trigger, threats)] *)
Definition finding : Type := bool * string * list threat.
Definition no_finding : finding := (false, "", []).
Definition detected (f : finding) : bool := fst (fst f).

(** A finding under a title: [True, f"{title}: {trigger}", threats]. *)
Definition titled (title : string) (f : finding) : finding := (true, title +:+ ": " +:+ snd (fst f), snd f).

(** The arguments of a check of one text. *)
Record probe : Type := mkProbe {
  pb_value : string;
  pb_context : string;
  pb_categories : option (list string);
  pb_scan_embedded_json : bool;
  pb_content_preview : option string;
  pb_sensitive_body_fields : list string;
  pb_excluded_body_fields : list string;
  pb_json_redact_all : option bool;
  pb_sensitive_params : list string
}.

Definition probe_of (value context : string) (enabled_categories : option (list string)) : probe :=
  mkProbe value context enabled_categories true None [] [] None [].

Section texts.
Context `{SS : ScanServices}.

(** Redaction reads the limit of depth of the scan in progress, the first argument of
    what redacts below. *)
Definition redacting {A} (f : Z -> res A) : D A := let* cap := d_get _json_depth_cap in lift_res (f cap).

Definition res_map {A B} (f : A -> B) (r : res A) : res B := match r with Ok a => Ok (f a) | Raise e => Raise e end.

(** [redact_blob_for_display] with sets of names *)
Definition redact_blob (cap : Z) (text : string) (sensitive_params sensitive_body_fields : list string)
  (sensitive_headers : option (list string)) : res string :=
  redact_blob_for_display cap text (Some sensitive_params) (Some sensitive_body_fields) sensitive_headers.

(** *** The sources of patterns *)

(** What is left of an escaped character when only names are: its lower case, unless it
    is beyond ASCII and its lower case is too. *)
Definition decoded_name_char (n : Z) : string :=
  if n <? 128 then String (chr n) "" else if n =? 304 then "i" else if n =? 8490 then "k" else "".

(** [_PATTERN_SOURCE_ESCAPE_RE] after the backslash: the code and its length. *)
Definition pattern_escape (s : string) : option (Z * nat) :=
  match s with
  | EmptyString => None
  | String c s' =>
      if one_of "xX" c then h ← hex_digits 2 s'; Some (hex_number h, 3%nat)
      else if Ascii.eqb c "u" then h ← hex_digits 4 s'; Some (hex_number h, 5%nat)
      else if Ascii.eqb c "U" then h ← hex_digits 8 s'; Some (hex_number h, 9%nat)
      else if in_range 48 55 c then let n := Nat.min 3 (span (in_range 48 55) s) in Some (octal_number (stake n s), n)
      else None
  end.

(** [_PATTERN_SOURCE_ESCAPE_RE.sub], with the characters of a match that are still to be
    skipped; a code beyond the last character stays as it is written. *)
Fixpoint decode_pattern_source (skip : nat) (s : string) : string :=
  match s, skip with
  | EmptyString, _ => ""
  | String _ s', S skip' => decode_pattern_source skip' s'
  | String c s', O =>
      match (if Ascii.eqb c backslash then pattern_escape s' else None) with
      | Some (n, k) =>
          (if n <=? 1114111 then decoded_name_char n else String c (stake k s')) +:+ decode_pattern_source k s'
      | None => String c (decode_pattern_source 0 s')
      end
  end.

(** [_PATTERN_SOURCE_NON_TOKEN_RE] *)
Definition is_token_char (c : ascii) : bool := in_range 97 122 c || is_decimal c || one_of "_-" c.

Definition _pattern_source_names_a_sensitive_field (pattern_source : string) (sensitive_names : list string) : bool :=
  let normalized := drop_chars (fun c => negb (is_token_char c)) (lower (decode_pattern_source 0 pattern_source)) in
  existsb (fun name => contains name normalized) sensitive_names.

Definition _redact_pattern_source (cap : Z) (pattern_source : string) : res string :=
  let '(sensitive_params, sensitive_body_fields, sensitive_headers) := sensitive_unions in
  let sensitive_names := _merged_sensitive_names (Some sensitive_params)
    (_merge_sensitive_log_body_fields (Some sensitive_body_fields)) (Some sensitive_headers) in
  if _pattern_source_names_a_sensitive_field pattern_source sensitive_names then Ok "[REDACTED]"
  else redact_blob cap pattern_source sensitive_params sensitive_body_fields (Some sensitive_headers).

Definition _build_threat_message (cap : Z) (t : threat) : res string :=
  match t with
  | RegexThreat pattern _ _ _ _ => res_map (fun shown => "Value matched pattern '" +:+ shown +:+ "'") (_redact_pattern_source cap pattern)
  | SemanticThreat attack_type score => Ok ("Semantic attack: " +:+ attack_type +:+ " (score: " +:+ show_score score +:+ ")")
  | TimeoutThreat pattern _ _ =>
      res_map (fun shown => "Pattern exceeded scan time budget: '" +:+ shown +:+ "'") (_redact_pattern_source cap pattern)
  end.

Definition _non_sensitive_display (cap : Z) (value : string) (sensitive_params sensitive_body_fields sensitive_headers : list string)
  : res (option string * option bool) :=
  res_map (fun redacted => if (redacted =? value)%string then (None, None) else (Some redacted, Some false))
    (redact_blob cap value sensitive_params sensitive_body_fields (Some sensitive_headers)).

Definition _MONGO_OPERATORS : list string :=
  ["ne"; "gt"; "gte"; "lt"; "lte"; "eq"; "in"; "nin"; "nor"; "and"; "or"; "not"; "all"; "size"; "exists"; "type"; "mod";
   "options"; "where"; "regex"; "expr"; "function"; "elemMatch"].

Definition _MONGO_OPERATOR_KEY_RE : string := "^\$(?:" +:+ join "|" _MONGO_OPERATORS +:+ ")$".

(** [_MONGO_OPERATOR_KEY_RE.match(key)]: the end is that of the text, or a final newline. *)
Definition mongo_operator_key (key : string) : bool :=
  existsb (fun op => (key =? "$" +:+ op)%string || (key =? "$" +:+ op +:+ String (chr 10) "")%string) _MONGO_OPERATORS.

Definition _mongo_operator_key_hit (key_str : string) : finding :=
  (true, "JSON operator key '" +:+ key_str +:+ "': matched pattern '" +:+ _MONGO_OPERATOR_KEY_RE +:+ "'",
   [RegexThreat _MONGO_OPERATOR_KEY_RE key_str 0 "nosql" None]).

Definition _check_always_scan_header (cap : Z) (value : string) : res finding :=
  match always_scan_match value with
  | Some (pattern, matched, position) =>
      res_map (fun shown => (true, "Value matched pattern '" +:+ shown +:+ "'",
        [RegexThreat pattern matched position "cmd_injection" None])) (_redact_pattern_source cap pattern)
  | None => Ok no_finding
  end.
End texts.

(** * One text ([detection_scan.py]) *)

Definition _KNOWN_CONTEXTS : list string := ["query_param"; "header"; "url_path"; "request_body"; "unknown"].

Definition _normalize_context (context : string) : string :=
  let normalized := match partition_char ":" context with Some (before, _) => before | None => context end in
  if in_list normalized _KNOWN_CONTEXTS then normalized else "unknown".

Definition _EMBEDDED_JSON_LEAF_CONTEXT_SUFFIX : string := ":embedded_json".

Section scan.
Context `{RB : RequestBody} `{DT : !Detector} `{SS : !ScanServices}.

(** The client, and the correlation identifier of the scan. *)
Context (client_ip correlation_id : string).

Fixpoint fallback_patterns (cap : Z) (value normalized_context : string) (patterns : list (string * string)) : M Sys (bool * string) :=
  match patterns with
  | [] => ret (false, "")
  | (pattern, category) :: patterns' =>
      let* pattern_start := time_monotonic in
      let* found := catch is_recursion_error
        (let* r := check_regex_pattern pattern value client_ip pattern_start category normalized_context in
         ret (is_some (fst r)))
        (fun _ =>
           let* shown := lift_res (_redact_pattern_source cap pattern) in
           log WARNING ("Fallback pattern search hit the regex engine's recursion limit on pattern " +:+
             repr_string shown +:+ "; skipping it and continuing the fallback scan") ;;;
           ret false) in
      if found : bool then ret (true, "Value matched pattern (fallback)")
      else fallback_patterns cap value normalized_context patterns'
  end.

Definition _fallback_pattern_check (cap : Z) (value context : string) : M Sys (bool * string) :=
  let normalized_context := _normalize_context context in
  let* all_compiled := get_all_compiled_patterns in
  fallback_patterns cap value normalized_context all_compiled.

Definition _log_detected_component (value component_name : string) (log_level : option level) : M Sys unit :=
  match log_level with
  | None => ret tt
  | Some _ =>
      let shown := if (100 <? slen value)%nat then stake 100 value +:+ "..." else value in
      log_if_level log_level ("Potential attack detected from " +:+ client_ip +:+ ": " +:+ shown +:+
        " - Suspicious pattern in " +:+ component_name)
  end.

(** The pattern handler's opinion, or that of the plain search when it fails. *)
Definition ask_detector (p : probe) : D (finding * option string) :=
  catch (fun e => negb (is_recursion_error e))
    (let* result := d_io (detect (pb_value p) client_ip (pb_context p) correlation_id (pb_categories p) (pb_content_preview p)) in
     let '(is_threat, threats) := result in
     if negb is_threat then ret (no_finding, None)
     else match threats with
          | t :: _ => let* message := redacting (fun cap => _build_threat_message cap t) in ret ((true, message, threats), None)
          | [] => ret ((true, "Threat detected", []), None)
          end)
    (fun e =>
       d_io (log ERROR ("Enhanced detection failed: " +:+ exn_message e +:+ ", falling back to basic check")) ;;;
       let* cap := d_get _json_depth_cap in
       let* result := d_io (_fallback_pattern_check cap (pb_value p) (pb_context p)) in
       ret ((fst result, snd result, []), None)).

(** The probe of a name; what is shown of a field of a body, if not its text; and the
    probe of the field. *)
Definition name_probe (name context : string) (enabled_categories : option (list string)) (content_preview : option string) : probe :=
  (probe_of name context enabled_categories) {{ pb_scan_embedded_json := false; pb_content_preview := content_preview }}.

Definition field_log_value (cap : Z) (value label : string) (sensitive_body_fields : list string) (display preview_override : option string)
  (sensitive_params : list string) : res (option string) :=
  match preview_override, display with
  | Some t, _ => Ok (Some t)
  | None, Some t => Ok (Some (if in_list (lower label) sensitive_body_fields then "[REDACTED]" else t))
  | None, None =>
      if in_list (lower label) sensitive_body_fields then Ok (Some "[REDACTED]")
      else res_map fst (_non_sensitive_display cap value sensitive_params sensitive_body_fields [])
  end.

Definition field_probe (value : string) (enabled_categories : option (list string)) (log_value : option string) (context : string)
  (sensitive_params : list string) : probe :=
  (probe_of value context enabled_categories) {{ pb_content_preview := log_value; pb_sensitive_params := sensitive_params }}.

(** Everything below checks texts through [check_value], which is
    [_check_value_enhanced] with less fuel. *)
Section components.
Context (check_value : probe -> D (finding * option string)).

Definition _check_request_component (p : probe) (component_name : string) (log_level : option level) : D finding :=
  let* r := check_value p in
  let '(f, log_override) := r in
  when (detected f)
    (d_io (_log_detected_component
      (match log_override, pb_content_preview p with Some t, _ => t | None, Some t => t | None, None => pb_value p end)
      component_name log_level)) ;;;
  ret f.

Definition _scan_component_name (name context label : string) (enabled_categories : option (list string))
  (log_level : option level) (content_preview : option string) : D finding :=
  _check_request_component (name_probe name context enabled_categories content_preview) label log_level.

Definition _scan_body_field (value label : string) (enabled_categories : option (list string)) (log_level : option level)
  (sensitive_body_fields : list string) (display : option string) (context : string) (preview_override : option string)
  (sensitive_params : list string) : D finding :=
  let* log_value := redacting (fun cap =>
    field_log_value cap value label sensitive_body_fields display preview_override sensitive_params) in
  let p := field_probe value enabled_categories log_value context sensitive_params in
  let* f := _check_request_component p label (match log_value with Some _ => None | None => log_level end) in
  if negb (detected f) then ret no_finding
  else
    match log_value with Some t => d_io (_log_detected_component t label log_level) | None => ret tt end ;;;
    ret (titled ("Request body field '" +:+ label +:+ "'") f).

(** ** JSON ([body_json_scan.py]) *)

(** An entry of an object, or a value under a label, to be looked at at a depth; and
    whether a sensitive field above it hides it. *)
Inductive frame : Type :=
| FEntry (key : string) (item : json) (depth : Z) (redact : bool)
| FValue (current : json) (label : string) (depth : Z) (redact : bool).

Section json_scan.
Context (excluded_body_fields : list string) (enabled_categories : option (list string)) (log_level : option level)
  (sensitive_body_fields : list string) (context : string) (preview_override : option string) (redact_keys : bool)
  (sensitive_params : list string).

(** [None] for a key that is excluded, with what is under it. *)
Definition _scan_json_dict_entry_key (key_str : string) : D (option finding) :=
  if in_list (lower key_str) excluded_body_fields then ret None
  else if mongo_operator_key key_str then ret (Some (_mongo_operator_key_hit key_str))
  else
    let key_display := if redact_keys then "[REDACTED]" else key_str in
    let title := "JSON key '" +:+ key_display +:+ "'" in
    let* f := _scan_component_name key_str (context +:+ ":" +:+ key_display) title enabled_categories log_level
      (if redact_keys then Some "[REDACTED]" else None) in
    ret (Some (if detected f then titled title f else no_finding)).

(** [json.dumps(_redact_sensitive_json(...))] *)
Definition redacted_dump (cap : Z) (value : json) : res string :=
  res_map dumps_compact (run_redaction (_redact_sensitive_json sensitive_body_fields cap value sensitive_params)).

Definition _scan_capped_json_subtree (value : json) (key_label : string) (preview : option string) : D finding :=
  _warn_json_depth_cap_reached_once client_ip ;;;
  let* display := redacting (fun cap => redacted_dump cap value) in
  _scan_body_field (dumps_compact value) key_label enabled_categories log_level sensitive_body_fields (Some display) context
    preview [].

(** [preview_override if preview_override is not None else ("[REDACTED]" if redact else None)] *)
Definition hidden_preview (redact : bool) : option string :=
  match preview_override with Some t => Some t | None => if redact then Some "[REDACTED]" else None end.

(** The frames of the parts of a container, the first on top. *)
Definition parts_of (current : json) (label : string) (depth : Z) (redact : bool) : list frame :=
  match current with
  | JObj members => map (fun m => FEntry (fst m) (snd m) depth redact) members
  | JArr items => map (fun item => FValue item label (depth + 1) redact) items
  | _ => []
  end.

(** What to do next after a frame: report a finding, or go on with more frames on
    the stack. *)
Definition _scan_json_container_frame (current : json) (label : string) (depth : Z) (redact : bool) (max_depth : Z)
  : D (finding + list frame) :=
  if max_depth <=? depth then
    let* hit := _scan_capped_json_subtree current label (hidden_preview redact) in
    ret (if detected hit then inl hit else inr [])
  else ret (inr (parts_of current label depth redact)).

Definition _scan_json_entry_frame (key : string) (item : json) (depth : Z) (redact : bool) : D (finding + list frame) :=
  let* key_result := _scan_json_dict_entry_key key in
  match key_result with
  | None => ret (inr [])
  | Some f =>
      if detected f then ret (inl f)
      else ret (inr [FValue item key (depth + 1) (redact || in_list (lower key) sensitive_body_fields)])
  end.

Definition scan_json_leaf (current : json) (label : string) (redact : bool) : D (finding + list frame) :=
  let* f := _scan_body_field (py_str float_repr current) label enabled_categories log_level sensitive_body_fields None
    context (hidden_preview redact) sensitive_params in
  ret (if detected f then inl f else inr []).

Definition scan_frame (max_depth : Z) (top : frame) : D (finding + list frame) :=
  match top with
  | FEntry key item depth redact => _scan_json_entry_frame key item depth redact
  | FValue current label depth redact =>
      if is_container current then _scan_json_container_frame current label depth redact max_depth
      else scan_json_leaf current label redact
  end.

(** [while stack] *)
Fixpoint scan_stack (fuel : nat) (max_depth : Z) (stack : list frame) : D finding :=
  match stack with
  | [] => ret no_finding
  | top :: stack' =>
      match fuel with
      | O => raise OutOfFuel
      | S fuel' =>
          let* r := scan_frame max_depth top in
          match r with
          | inl hit => ret hit
          | inr more => scan_stack fuel' max_depth (more ++ stack')
          end
      end
  end.

(** The frames a value gives rise to, itself included. *)
Fixpoint json_frames (j : json) : nat :=
  match j with
  | JArr items => S (fold_right (fun x n => json_frames x + n)%nat O items)
  | JObj members => S (fold_right (fun m n => S (json_frames (snd m)) + n)%nat O members)
  | _ => 1
  end.

Definition _scan_json_value (value : json) (key_label : string) : D finding :=
  let* max_depth := d_get _json_depth_cap in
  scan_stack (json_frames value) max_depth [FValue value key_label 1 false].
End json_scan.

Definition container (data : json) : option json := if is_container data then Some data else None.

(** Another [ValueError] than that of a text that is not JSON is not caught. *)
Definition _parse_embedded_json (value : string) : D (option json) :=
  match json_loads value with
  | Ok data => ret (container data)
  | Raise e =>
      if is_json_decode_error e then ret None
      else if is_recursion_error e then
        _warn_json_depth_cap_reached_once client_ip ;;;
        ret None
      else raise e
  end.

Definition _embedded_json_display (data : json) (sensitive_body_fields : list string) (redact_all : bool)
  (sensitive_params : list string) : D string :=
  if redact_all then ret "[REDACTED]"
  else redacting (fun cap => redacted_dump sensitive_body_fields sensitive_params cap data).

Definition _check_embedded_json (p : probe) (redact_all : bool) : D (option (finding * option string)) :=
  let* parsed := _parse_embedded_json (pb_value p) in
  match parsed with
  | None => ret None
  | Some data =>
      let* f := _scan_json_value (pb_excluded_body_fields p) (pb_categories p) None (pb_sensitive_body_fields p)
        (pb_context p +:+ _EMBEDDED_JSON_LEAF_CONTEXT_SUFFIX) (if redact_all then Some "[REDACTED]" else None) redact_all
        (pb_sensitive_params p) data "" in
      if negb (detected f) then ret (Some (no_finding, None))
      else
        let* display := _embedded_json_display data (pb_sensitive_body_fields p) redact_all (pb_sensitive_params p) in
        ret (Some (f, Some display))
  end.

Definition _resolve_json_redact_all (p : probe) : bool :=
  match pb_json_redact_all p with Some b => b | None => is_some (pb_content_preview p) end.

Definition _check_embedded_json_if_applicable (p : probe) : D (option (finding * option string)) :=
  if negb (pb_scan_embedded_json p) || (pb_context p =? "request_body")%string then ret None
  else
    let* json_result := _check_embedded_json p (_resolve_json_redact_all p) in
    match json_result with
    | Some (f, display) => ret (if detected f then Some (f, display) else None)
    | None => ret None
    end.
End components.

(** A JSON text may hold JSON texts, which are checked in turn; every check counts
    against the budget of values, so what is left of it is enough fuel. *)
Fixpoint _check_value_enhanced (fuel : nat) (p : probe) : D (finding * option string) :=
  match fuel with
  | O => raise OutOfFuel
  | S fuel' =>
      let* exhausted := _scan_budget_exhausted client_ip (pb_value p) in
      if exhausted : bool then ret (no_finding, None)
      else
        let* json_hit := _check_embedded_json_if_applicable (_check_value_enhanced fuel') p in
        match json_hit with
        | Some hit => ret hit
        | None => ask_detector p
        end
  end.

Definition check_value (p : probe) : D (finding * option string) :=
  let* cap := d_get _scan_value_cap in
  let* count := d_get _scanned_value_count in
  _check_value_enhanced (S (Z.to_nat (cap - count))) p.

Definition _scan_json_content (raw_body : string) (excluded_body_fields : list string) (enabled_categories : option (list string))
  (log_level : option level) (sensitive_body_fields sensitive_params : list string) : D (option finding) :=
  match json_loads raw_body with
  | Ok parsed_body =>
      if is_container parsed_body then
        let* f := _scan_json_value check_value excluded_body_fields enabled_categories log_level sensitive_body_fields
          "request_body" None false sensitive_params parsed_body "" in
        ret (Some f)
      else ret None
  | Raise e => if within_latin1 e then ret None else raise e
  end.

(** ** Forms ([body_form_scan.py]) *)

Definition _FORM_FIELD_CONTEXT : string := "request_body:form_field".
Definition _MULTIPART_FIELD_CONTEXT : string := "request_body:multipart_field".

(** [urllib.parse.unquote(text, errors="surrogateescape")] *)
Definition unquote_escaping (s : string) : string := unquote_with decode_surrogateescape s.

(** [parse_qsl(raw_body, keep_blank_values=True, errors="surrogateescape")] *)
Definition parse_qsl (qs : string) : list (string * string) :=
  omap (fun name_value =>
    if truthy name_value then
      let '(name, value) := match partition_char "=" name_value with Some p => p | None => (name_value, "") end in
      Some (unquote_escaping (replace_char "+" " " name), unquote_escaping (replace_char "+" " " value))
    else None) (split_on "&" qs).

Section body.
Context (excluded_body_fields : list string) (enabled_categories : option (list string)) (log_level : option level)
  (sensitive_body_fields sensitive_params : list string).

(** The name of a field, then its value. *)
Definition scan_field (name_label title label value context : string) : D (option finding) :=
  let* name_hit := _scan_component_name check_value label "request_body" name_label enabled_categories log_level None in
  if detected name_hit then ret (Some (titled title name_hit))
  else
    let* hit := _scan_body_field check_value value label enabled_categories log_level sensitive_body_fields None context None
      sensitive_params in
    ret (if detected hit then Some hit else None).

Definition excluded_field (exclusion_key : option string) : bool :=
  match exclusion_key with Some k => in_list (lower k) excluded_body_fields | None => false end.

Definition _scan_form_body (raw_body : string) : D finding :=
  let* hit := first_some (parse_qsl raw_body) (fun nv =>
    let '(name, value) := nv in
    if excluded_field (Some name) then ret None
    else scan_field ("form field name '" +:+ name +:+ "'") ("Form field name '" +:+ name +:+ "'") name value _FORM_FIELD_CONTEXT) in
  ret (default no_finding hit).

(** Characters that text does not have ([_BINARY_ARTIFACT_RE]), and those of
    [_ISLAND_RUN_RE]. *)
Definition is_binary_artifact (c : ascii) : bool :=
  in_range 0 8 c || in_range 11 12 c || in_range 14 31 c || (code c =? 127) || in_range 128 162 c || (code c =? 164) ||
  in_range 166 169 c || in_range 171 175 c || (code c =? 180) || in_range 182 184 c || in_range 187 191 c.

Definition is_island_char (c : ascii) : bool :=
  (code c =? 9) || (code c =? 10) || (code c =? 13) || in_range 32 126 c || (161 <=? code c).

Fixpoint artifact_count (s : string) : Z :=
  match s with EmptyString => 0 | String c s' => (if is_binary_artifact c then 1 else 0) + artifact_count s' end.

Definition value_is_binary_like (content : string) : bool :=
  truthy content && (Z.of_nat (slen content) <=? 5 * artifact_count content).

(** The maximal runs of island characters. *)
Fixpoint island_runs (s : string) : list string :=
  match s with
  | EmptyString => [""]
  | String c s' =>
      if is_island_char c then match island_runs s' with run :: rest => String c run :: rest | [] => [String c ""] end
      else "" :: island_runs s'
  end.

Definition extract_binary_islands (content : string) (min_run_length : Z) : list string :=
  if min_run_length <=? 1 then [content]
  else List.filter (fun run => min_run_length <=? Z.of_nat (slen run)) (island_runs content).

Definition mime_entry : Type := option string * string * string.

Definition _part_payload_entries (min_run_length : Z) (exclusion_key : option string) (label : string) (filename payload : option string)
  : list mime_entry :=
  match payload with
  | None => []
  | Some text =>
      if is_some filename && value_is_binary_like text
      then map (fun island => (exclusion_key, label, island)) (extract_binary_islands text min_run_length)
      else if truthy text then [(exclusion_key, label, text)] else []
  end.

Definition _multipart_part_entries (min_run_length : Z) (part : mime_part) : list mime_entry :=
  let exclusion_key := mp_name part in
  let label := default "file" exclusion_key in
  match mp_filename part with
  | Some filename =>
      let sanitized := String.concat "" (split_on apostrophe (String.concat "" (split_on quote filename))) in
      [(exclusion_key, label, "filename=" +:+ String quote (sanitized +:+ String quote ""))]
  | None => []
  end ++
  map (fun h => (exclusion_key, label, fst h +:+ ": " +:+ snd h)) (mp_headers part) ++
  _part_payload_entries min_run_length exclusion_key label (mp_filename part) (mp_payload part).

Definition _multipart_text_parts (min_run_length : Z) (raw_body content_type : string) : option (list mime_entry) :=
  match parse_multipart raw_body content_type with
  | Some parts => Some (mjoin (map (_multipart_part_entries min_run_length) parts))
  | None => None
  end.

Definition _scan_multipart_part (entry : mime_entry) : D (option finding) :=
  let '(exclusion_key, label, value) := entry in
  if excluded_field exclusion_key then ret None
  else scan_field ("multipart field name '" +:+ label +:+ "'") ("Multipart field name '" +:+ label +:+ "'") label value _MULTIPART_FIELD_CONTEXT.

Definition blob_preview (cap : Z) (raw_body : string) (sensitive_params sensitive_body_fields : list string) (force_redacted : bool) : res string :=
  if force_redacted then Ok "[REDACTED]" else redact_blob cap raw_body sensitive_params sensitive_body_fields None.

Definition blob_probe (raw_body content_preview : string) : probe :=
  (probe_of raw_body "request_body" enabled_categories) {{ pb_content_preview := Some content_preview }}.

Definition _scan_blob_body (raw_body : string) (sensitive_params sensitive_body_fields : list string) (force_redacted : bool) : D finding :=
  let* content_preview := redacting (fun cap => blob_preview cap raw_body sensitive_params sensitive_body_fields force_redacted) in
  let* f := _check_request_component check_value (blob_probe raw_body content_preview) "request body" log_level in
  ret (if detected f then titled "Request body" f else no_finding).

Definition _scan_multipart_body (raw_body content_type : string) : D finding :=
  let* min_run_length := d_get _binary_min_run in
  match _multipart_text_parts min_run_length raw_body content_type with
  | None => _scan_blob_body raw_body [] [] true
  | Some parts =>
      let* hit := first_some parts _scan_multipart_part in
      ret (default no_finding hit)
  end.

Definition _scan_request_body (raw_body content_type : string) : D finding :=
  let lowered := lower content_type in
  if contains "application/x-www-form-urlencoded" lowered then _scan_form_body raw_body
  else if contains "multipart/form-data" lowered then _scan_multipart_body raw_body content_type
  else
    let* json_hit :=
      if contains "json" lowered
      then _scan_json_content raw_body excluded_body_fields enabled_categories log_level sensitive_body_fields sensitive_params
      else ret None in
    match json_hit with
    | Some f => ret f
    | None => _scan_blob_body raw_body sensitive_params sensitive_body_fields false
    end.
End body.

(** ** Query parameters and headers ([body_content_scan.py]) *)

Section surface.
Context (excluded_body_fields sensitive_params sensitive_body_fields sensitive_headers : list string).

Definition sensitive_param (key : string) : bool :=
  let normalized_key := lower (strip key) in
  in_list normalized_key sensitive_params || in_list normalized_key sensitive_headers.

Definition query_value_preview (cap : Z) (is_sensitive : bool) (value : string) : res (option string * option bool) :=
  if is_sensitive then Ok (Some "[REDACTED]", None)
  else _non_sensitive_display cap value sensitive_params sensitive_body_fields sensitive_headers.

Definition query_value_probe (preview : option string * option bool) (key_preview value : string) (enabled_categories : option (list string))
  : probe :=
  mkProbe value ("query_param:" +:+ key_preview) enabled_categories true (fst preview) sensitive_body_fields
    excluded_body_fields (snd preview) sensitive_params.

Definition _scan_query_param_value (key key_preview value : string) (enabled_categories : option (list string))
  (log_level : option level) : D finding :=
  let is_sensitive := sensitive_param key in
  let* preview := redacting (fun cap => query_value_preview cap is_sensitive value) in
  let* f := _check_request_component check_value (query_value_probe preview key_preview value enabled_categories)
    ("query param '" +:+ key_preview +:+ "'") (if is_sensitive then None else log_level) in
  when (detected f && is_sensitive)
    (d_io (_log_detected_component "[REDACTED]" ("query param '" +:+ key_preview +:+ "'") log_level)) ;;;
  ret f.

Definition scan_query_param (enabled_categories : option (list string)) (log_level : option level) (excluded_params : list string)
  (param : string * string) : D (option finding) :=
  let '(key, value) := param in
  if in_list (lower key) excluded_params then ret None
  else
    let* key_preview := redacting (fun cap => redact_blob cap key sensitive_params sensitive_body_fields (Some sensitive_headers)) in
    let* f := _scan_component_name check_value key ("query_param:" +:+ key_preview) ("query param name '" +:+ key_preview +:+ "'")
      enabled_categories log_level (Some key_preview) in
    if detected f then ret (Some (titled ("Query param name '" +:+ key_preview +:+ "'") f))
    else
      let* f := _scan_query_param_value key key_preview value enabled_categories log_level in
      ret (if detected f then Some (titled ("Query param '" +:+ key_preview +:+ "'") f) else None).

Definition _scan_query_params (request : Request) (excluded_params : list string) (enabled_categories : option (list string))
  (log_level : option level) : D finding :=
  let* hit := first_some (rq_query_params request) (scan_query_param enabled_categories log_level excluded_params) in
  ret (default no_finding hit).
End surface.

Definition header_preview (cap : Z) (value : string) (content_preview : option string)
  (sensitive_body_fields sensitive_params sensitive_headers : list string) : res (option string * option bool) :=
  match content_preview with
  | None => _non_sensitive_display cap value sensitive_params sensitive_body_fields sensitive_headers
  | Some _ => Ok (content_preview, None)
  end.

Definition header_probe (key value : string) (enabled_categories : option (list string)) (preview : option string * option bool)
  (sensitive_body_fields excluded_body_fields sensitive_params : list string) : probe :=
  mkProbe value ("header:" +:+ key) enabled_categories true (fst preview) sensitive_body_fields excluded_body_fields
    (snd preview) sensitive_params.

(** The arguments [sensitive_*] are those of the call: a sensitive header is scanned
    without them. *)
Definition _scan_normal_header_component (key value : string) (enabled_categories : option (list string)) (log_level : option level)
  (content_preview : option string) (sensitive_body_fields excluded_body_fields sensitive_params sensitive_headers : list string)
  : D (option finding) :=
  let* f := _scan_component_name check_value key ("header:" +:+ key) ("header name '" +:+ key +:+ "'") enabled_categories log_level None in
  if detected f then ret (Some (titled ("Header name '" +:+ key +:+ "'") f))
  else
    let* preview := redacting (fun cap =>
      header_preview cap value content_preview sensitive_body_fields sensitive_params sensitive_headers) in
    let* f := _check_request_component check_value
      (header_probe key value enabled_categories preview sensitive_body_fields excluded_body_fields sensitive_params)
      ("header '" +:+ key +:+ "'") log_level in
    ret (if detected f then Some (titled ("Header '" +:+ key +:+ "'") f) else None).

Definition _scan_excluded_header_component (key value : string) (enabled_categories : option (list string)) (log_level : option level)
  (sensitive_params sensitive_body_fields excluded_body_fields sensitive_headers : list string) : D (option finding) :=
  let* always :=
    if match enabled_categories with None => true | Some l => in_list "cmd_injection" l end then
      let* f := redacting (fun cap => _check_always_scan_header cap key) in
      if detected f then
        d_io (_log_detected_component key ("header name '" +:+ key +:+ "'") log_level) ;;;
        ret (Some (titled ("Header name '" +:+ key +:+ "'") f))
      else
        let* f := redacting (fun cap => _check_always_scan_header cap value) in
        if detected f then
          let* display := redacting (fun cap => redact_blob cap value sensitive_params sensitive_body_fields (Some sensitive_headers)) in
          d_io (_log_detected_component display ("header '" +:+ key +:+ "'") log_level) ;;;
          ret (Some (titled ("Header '" +:+ key +:+ "'") f))
        else ret None
    else ret None in
  match always with
  | Some f => ret (Some f)
  | None =>
      match _excluded_header_effective_categories key value enabled_categories with
      | Some [] => ret None
      | effective_categories =>
          _scan_normal_header_component key value effective_categories log_level None sensitive_body_fields excluded_body_fields
            sensitive_params sensitive_headers
      end
  end.

Definition _scan_sensitive_header (key value : string) (excluded_headers : list string) (enabled_categories : option (list string))
  (log_level : option level) (sensitive_body_fields excluded_body_fields : list string) : D (option finding) :=
  let* hit :=
    if in_list (lower (strip key)) excluded_headers
    then _scan_excluded_header_component key value enabled_categories None [] sensitive_body_fields excluded_body_fields []
    else _scan_normal_header_component key value enabled_categories None (Some "[REDACTED]") sensitive_body_fields
      excluded_body_fields [] [] in
  when (is_some hit) (d_io (_log_detected_component "[REDACTED]" ("header '" +:+ key +:+ "'") log_level)) ;;;
  ret hit.

Definition scan_header (excluded_headers : list string) (enabled_categories : option (list string)) (log_level : option level)
  (sensitive_headers sensitive_body_fields excluded_body_fields sensitive_params : list string) (h : string * string) : D (option finding) :=
  let '(key, value) := h in
  let name := lower (strip key) in
  if in_list name sensitive_headers then
    _scan_sensitive_header key value excluded_headers enabled_categories log_level sensitive_body_fields excluded_body_fields
  else if in_list name excluded_headers then
    _scan_excluded_header_component key value enabled_categories log_level sensitive_params sensitive_body_fields
      excluded_body_fields sensitive_headers
  else
    _scan_normal_header_component key value enabled_categories log_level None sensitive_body_fields excluded_body_fields
      sensitive_params sensitive_headers.

Definition _scan_headers (request : Request) (excluded_headers : list string) (enabled_categories : option (list string))
  (log_level : option level) (sensitive_headers sensitive_body_fields excluded_body_fields sensitive_params : list string) : D finding :=
  let* hit := first_some (rq_headers request) (scan_header excluded_headers enabled_categories log_level sensitive_headers
    sensitive_body_fields excluded_body_fields sensitive_params) in
  ret (default no_finding hit).

(** ** The request ([penetration_detection.py]) *)

Definition hit_of (f : finding) : DetectionResult := _build_detection_hit (snd (fst f)) (snd f).

Definition path_probe (path redacted_url_path : string) (enabled_categories : option (list string))
  (sensitive_body_fields excluded_body_fields : list string) : probe :=
  mkProbe path "url_path" enabled_categories true (Some redacted_url_path) sensitive_body_fields excluded_body_fields (Some false) [].

Definition _scan_request_surface (request : Request) (excluded_params excluded_headers : list string)
  (enabled_categories : option (list string)) (log_level : option level)
  (sensitive_headers sensitive_params sensitive_body_fields excluded_body_fields : list string) : D (option DetectionResult) :=
  let* f := _scan_query_params excluded_body_fields sensitive_params sensitive_body_fields sensitive_headers request excluded_params
    enabled_categories log_level in
  if detected f then ret (Some (hit_of f))
  else
    let* redacted_url_path := redacting (fun cap =>
      redact_url_for_display cap (rq_path request) (Some sensitive_params) (Some sensitive_body_fields) (Some sensitive_headers)) in
    let* f := _check_request_component check_value
      (path_probe (rq_path request) redacted_url_path enabled_categories sensitive_body_fields excluded_body_fields) "URL path" log_level in
    if detected f then ret (Some (hit_of (titled "URL path" f)))
    else
      let* f := _scan_headers request excluded_headers enabled_categories log_level sensitive_headers sensitive_body_fields
        excluded_body_fields sensitive_params in
      ret (if detected f then Some (hit_of f) else None).

Definition _scan_body_surface (request : Request) (config : option SecurityConfig) (route_config : option RouteConfig)
  (excluded_body_fields : list string) (enabled_categories : option (list string)) (log_level : option level)
  (sensitive_body_fields sensitive_params : list string) : D DetectionResult :=
  if negb (_resolve_scan_body config route_config) then ret _build_detection_miss
  else
    let* body_bytes :=
      zoom (fun p => (fst p, body_prefix (snd p))) (fun q p => (fst q, (snd p) {{ body_prefix := snd q }}))
        (_read_capped_body request config client_ip) in
    match body_bytes with
    | None => ret _build_detection_miss
    | Some bytes =>
        let raw_body := decode_surrogateescape bytes in
        let content_type := header_or request "content-type" "" in
        let* f := _scan_request_body excluded_body_fields enabled_categories log_level sensitive_body_fields sensitive_params
          raw_body content_type in
        ret (if detected f then hit_of f else _build_detection_miss)
    end.
End scan.

(** [str(uuid.uuid4())] *)
Definition uuid_text (hex : string) : string :=
  join "-" [stake 8 hex; stake 4 (sdrop 8 hex); stake 4 (sdrop 12 hex); stake 4 (sdrop 16 hex); sdrop 20 hex].

Section request.
Context `{RB : RequestBody} `{DT : !Detector} `{SS : !ScanServices}.

(** Inside [with _scan_value_budget(...)]. *)
Definition scan_within_budget (client_ip correlation_id : string) (request : Request) (config : option SecurityConfig)
  (route_config : option RouteConfig) : D DetectionResult :=
  let excluded_body_fields := _resolve_excluded_body_fields config route_config in
  let enabled_categories := _resolve_enabled_categories config route_config in
  let log_level := _resolve_log_level config in
  let sensitive_params := _resolve_sensitive_log_params config in
  let sensitive_body_fields := _resolve_sensitive_log_body_fields config in
  _scan_value_budget (_resolve_max_scan_values config) (_resolve_max_json_depth config) (_resolve_max_scan_chars config)
    (_resolve_binary_min_run_length config)
    (let* surface_hit := _scan_request_surface client_ip correlation_id request (_resolve_excluded_params config route_config)
       (_resolve_excluded_headers config route_config) enabled_categories log_level (_resolve_sensitive_log_headers config)
       sensitive_params sensitive_body_fields excluded_body_fields in
     match surface_hit with
     | Some hit => ret hit
     | None =>
         _scan_body_surface client_ip correlation_id request config route_config excluded_body_fields enabled_categories log_level
           sensitive_body_fields sensitive_params
     end).

Definition detect_penetration_attempt (request : Request) (cached_ip : option string) (config : option SecurityConfig)
  (route_config : option RouteConfig) : D DetectionResult :=
  match config with Some c => d_io (ensure_configured c) | None => ret tt end ;;;
  let* client_ip :=
    match config with
    | Some c => d_io (extract_client_ip request cached_ip c false)
    | None => ret (match rq_client_host request with
                   | Some (String _ _ as host) => _canonicalize_ip host
                   | _ => UNKNOWN_CLIENT_IDENTITY
                   end)
    end in
  let* hex := d_io draw_uuid in
  scan_within_budget client_ip (uuid_text hex) request config route_config.
End request.
