(* ===== verification/ScanFacts.v ===== *)
(** What the scan of a request guarantees: it always comes to an end, and only
    errors that its surroundings raise leave it; it shows the pattern handler exactly
    the pieces of the request that are not excluded, and reports a threat exactly when
    one of them is dangerous. *)
From S2P Require Import Prelude PyStr PyDict Json IpAddr Sys Sample Config Redaction RedactionFacts Request IpExtraction AccessControl JsonPattern.
From S2P Require Import Url DetectionConfig BodyReader Scan.

#[local] Open Scope Z_scope.

#[local] Abbreviation D := (M (Sys * Budget)).

(** * Termination and errors *)

(** The frames of a stack, with all they give rise to. *)
Definition frame_size (f : frame) : nat :=
  match f with FEntry _ item _ _ => S (json_frames item) | FValue current _ _ _ => json_frames current end.

Definition stack_size (stack : list frame) : nat := fold_right (fun f n => (frame_size f + n)%nat) O stack.

Lemma stack_size_cons f a : stack_size (f :: a) = (frame_size f + stack_size a)%nat.
Proof. done. Qed.

Lemma stack_size_app a b : stack_size (a ++ b) = (stack_size a + stack_size b)%nat.
Proof. induction a as [|f a IH]; [done|]. cbn [app]. rewrite !stack_size_cons, IH. lia. Qed.

Lemma parts_size current label depth redact : is_container current = true ->
  (stack_size (parts_of current label depth redact) < json_frames current)%nat.
Proof.
  destruct current as [| | | | |items|members]; try done; intros _; cbn [parts_of json_frames]; unfold stack_size.
  - induction items as [|x items IH]; cbn [map fold_right frame_size]; lia.
  - induction members as [|m members IH]; cbn [map fold_right frame_size]; lia.
Qed.

Section safety.
Context `{RB : RequestBody} `{DT : !Detector} `{SS : !ScanServices}.

(** The errors that may leave the scan, and a count of what only [detect] does. *)
Context (Q : exn -> Prop) (cost : Sys -> Z).

(** The budget of values that is left, which only goes down; [slack] is what was done
    without counting it. *)
Definition remaining (p : Sys * Budget) : Z := _scan_value_cap (snd p) - _scanned_value_count (snd p).

Definition counted (p : Sys * Budget) : Z := Z.min (_scan_value_cap (snd p)) (_scanned_value_count (snd p)).

Definition budget_slack (slack : Z) (p q : Sys * Budget) : Prop :=
  _scan_value_cap (snd q) = _scan_value_cap (snd p) /\ _scanned_value_count (snd p) <= _scanned_value_count (snd q) /\
  cost (fst q) + counted p <= cost (fst p) + counted q + slack.

Definition budget_le : Sys * Budget -> Sys * Budget -> Prop := budget_slack 0.

#[export] Instance budget_le_preorder : PreOrder budget_le.
Proof. split; unfold budget_le, budget_slack; [intros p; lia|intros p q r; lia]. Qed.

Lemma slack_trans k p q r : budget_le p q -> budget_slack k q r -> budget_slack k p r.
Proof using Type. unfold budget_le, budget_slack. lia. Qed.

(** With [n] values left, at most, [m] uses up some and raises what it may. *)
Definition safe {A} (n : Z) (m : D A) : Prop :=
  forall p, remaining p <= n -> budget_le p (snd (m p)) /\ forall e, fst (m p) = Raise e -> Q e.

(** The same of a computation outside the budget. *)
Definition harmless {A} (m : M Sys A) : Prop := forall s, cost (snd (m s)) <= cost s /\ forall e, fst (m s) = Raise e -> Q e.

Lemma safe_le {A} n n' (m : D A) : n' <= n -> safe n m -> safe n' m.
Proof using Type. intros Hn H p Hp. apply H. lia. Qed.

Lemma safe_ret {A} n (a : A) : safe n (ret a).
Proof using Type. intros p _. split; [reflexivity|]. by intros e [=]. Qed.

Lemma safe_bind {A B} n (m : D A) (k : A -> D B) : safe n m -> (forall a, safe n (k a)) -> safe n (bind m k).
Proof using Type.
  intros Hm Hk p Hp. destruct (Hm p Hp) as [Hle Hr]. unfold bind. destruct (m p) as [[a|e] q]; cbn [fst snd] in *.
  2: { split; [done|]. intros e' [= <-]. by apply Hr. }
  destruct (Hk a q) as [Hle' Hr']; [unfold budget_le, budget_slack, remaining in *; lia|]. split; [by etransitivity|done].
Qed.

Lemma slack_same_budget s s' b k : cost s' <= cost s + k -> budget_slack k (s, b) (s', b).
Proof using Type. unfold budget_slack, counted. cbn. lia. Qed.

Lemma safe_io {A} n (m : M Sys A) : harmless m -> safe n (d_io m).
Proof using Type.
  intros H [s b] _. unfold d_io, zoom. cbn [fst snd]. destruct (H s) as [Hc Hr]. destruct (m s) as [r s'].
  split; [apply slack_same_budget; cbn in *; lia|exact Hr].
Qed.

Lemma safe_get {A} n (f : Budget -> A) : safe n (d_get f).
Proof using Type. intros p _. split; [reflexivity|]. by intros e [=]. Qed.

Lemma safe_set n f : (forall b, _scan_value_cap (f b) = _scan_value_cap b /\ _scanned_value_count b <= _scanned_value_count (f b)) ->
  safe n (d_set f).
Proof using Type.
  intros H [s b] _. split; [|by intros e [=]]. specialize (H b). unfold budget_le, budget_slack, counted. cbn. lia.
Qed.

Lemma safe_when n b (m : D unit) : safe n m -> safe n (when b m).
Proof using Type. destruct b; [done|]. intros _. apply safe_ret. Qed.

Lemma safe_first_some {A B} n (l : list A) (f : A -> D (option B)) : (forall x, safe n (f x)) -> safe n (first_some l f).
Proof using Type.
  intros Hf. induction l as [|x l IH]; [apply safe_ret|]. apply safe_bind; [apply Hf|]. intros [b|]; [apply safe_ret|exact IH].
Qed.

Lemma safe_redacting {A} n (f : Z -> res A) : (forall cap e, f cap = Raise e -> Q e) -> safe n (redacting f).
Proof using Type. intros H [s b] _. split; [reflexivity|]. unfold redacting, bind, d_get, gets, lift_res. cbn [fst]. apply H. Qed.

Context (Hdigits : Q TooManyDigits).
Context (Hlogs : forall s l, cost (s {{ logs := l }}) = cost s).

Lemma harmless_log l msg : harmless (log l msg).
Proof using Hlogs. intros s. split; [|by intros e [=]]. unfold log, modify. cbn [snd]. by rewrite Hlogs. Qed.

Lemma harmless_bind {A B} (m : M Sys A) (k : A -> M Sys B) : harmless m -> (forall a, harmless (k a)) -> harmless (bind m k).
Proof using Type.
  intros Hm Hk s. unfold bind. destruct (Hm s) as [Hc Hr]. destruct (m s) as [[a|e] s1]; cbn [fst snd] in *; [|split; [done|naive_solver]].
  destruct (Hk a s1) as [Hc' Hr']. split; [lia|done].
Qed.

Lemma harmless_ret {A} (a : A) : harmless (ret a).
Proof using Type. intros s. split; [done|]. by intros e [=]. Qed.

Lemma harmless_log_component ip v c l : harmless (_log_detected_component ip v c l).
Proof using Hlogs.
  unfold _log_detected_component, log_if_level. destruct l; [|apply harmless_ret]. apply harmless_log.
Qed.

#[local] Hint Resolve harmless_log harmless_log_component : safe.

(** What redaction may raise. *)
Context `{TL : !TextLaws}.
Context (Hrec : forall text, nested_too_deep text = true -> Q RecursionError)
  (Hwide : forall text, loads text = Raise BeyondLatin1 -> Q BeyondLatin1)
  (Hord : forall name l, unicode_lookup name = Some l -> length l <> 1%nat -> Q ord_error) (Hurl : forall e, url_error e -> Q e).

Lemma res_map_raises {A B} (f : A -> B) r e : (forall x, r = Raise x -> Q x) -> res_map f r = Raise e -> Q e.
Proof using Type. intros H. destruct r; [done|]. intros [= <-]. by apply H. Qed.

Lemma redact_blob_raises cap text p b h e : redact_blob cap text p b h = Raise e -> Q e.
Proof using Hrec Hwide Hord TL. by apply blob_only. Qed.

Lemma redact_source_raises cap source e : _redact_pattern_source cap source = Raise e -> Q e.
Proof using Hrec Hwide Hord TL.
  unfold _redact_pattern_source. destruct sensitive_unions as [[p b] h]. cbv zeta. destruct (_pattern_source_names_a_sensitive_field _ _); [done|].
  apply redact_blob_raises.
Qed.

Lemma message_raises cap t e : _build_threat_message cap t = Raise e -> Q e.
Proof using Hrec Hwide Hord TL. destruct t; cbn [_build_threat_message]; try done; apply res_map_raises; intros x; apply redact_source_raises. Qed.

Lemma display_raises cap v p b h e : _non_sensitive_display cap v p b h = Raise e -> Q e.
Proof using Hrec Hwide Hord TL. apply res_map_raises. intros x. apply redact_blob_raises. Qed.

Lemma log_value_raises cap v label sb display preview sp e : field_log_value cap v label sb display preview sp = Raise e -> Q e.
Proof using Hrec Hwide Hord TL.
  unfold field_log_value. destruct preview, display; try done. destruct (in_list _ _); [done|]. apply res_map_raises. intros x. apply display_raises.
Qed.

Lemma always_raises cap v e : _check_always_scan_header cap v = Raise e -> Q e.
Proof using Hrec Hwide Hord TL.
  unfold _check_always_scan_header. destruct (always_scan_match v) as [[[p m] pos]|]; [|done]. apply res_map_raises. intros x. apply redact_source_raises.
Qed.

Lemma dump_raises sb sp cap v e : redacted_dump sb sp cap v = Raise e -> Q e.
Proof using Hrec Hwide Hord TL. apply res_map_raises. intros x. by apply sensitive_json_only. Qed.

Lemma blob_preview_raises cap raw sp sb force e : blob_preview cap raw sp sb force = Raise e -> Q e.
Proof using Hrec Hwide Hord TL. unfold blob_preview. destruct force; [done|]. apply redact_blob_raises. Qed.

Lemma query_preview_raises sp sb sh cap sensitive v e : query_value_preview sp sb sh cap sensitive v = Raise e -> Q e.
Proof using Hrec Hwide Hord TL. unfold query_value_preview. destruct sensitive; [done|]. apply display_raises. Qed.

Lemma header_preview_raises cap v preview sb sp sh e : header_preview cap v preview sb sp sh = Raise e -> Q e.
Proof using Hrec Hwide Hord TL. unfold header_preview. destruct preview; [done|]. apply display_raises. Qed.

Lemma url_path_raises cap path p b h e : redact_url_for_display cap path p b h = Raise e -> Q e.
Proof using Hrec Hwide Hord Hurl TL. by apply url_only. Qed.

#[local] Hint Resolve redact_blob_raises redact_source_raises message_raises display_raises log_value_raises always_raises dump_raises
  blob_preview_raises query_preview_raises header_preview_raises url_path_raises : safe.

Ltac safe_step :=
  lazymatch goal with
  | |- safe _ (bind _ _) => apply safe_bind; [|intros ?]
  | |- safe _ (ret _) => apply safe_ret
  | |- safe _ (d_io _) => apply safe_io; eauto with safe
  | |- safe _ (redacting _) => apply safe_redacting; intros ? ?; eauto with safe
  | |- safe _ (d_get _) => apply safe_get
  | |- safe _ (d_set _) => apply safe_set; intros []; cbn; lia
  | |- safe _ (when _ _) => apply safe_when
  | |- safe _ (first_some _ _) => apply safe_first_some; intros ?
  | |- safe _ (let '(_, _) := ?x in _) => destruct x
  | |- safe _ (if ?b then _ else _) => destruct b
  | |- safe _ (match ?x with _ => _ end) => destruct x
  end.
Ltac safe_steps := repeat (cbv zeta; safe_step).

Section pieces.
Context (client_ip correlation_id : string) (check : probe -> D (finding * option string)) (n : Z).
Context (Hcheck : forall p, safe n (check p)).

Lemma component_safe p name l : safe n (_check_request_component client_ip check p name l).
Proof using Hcheck Hlogs Hrec Hwide Hord TL. unfold _check_request_component. safe_steps. apply Hcheck. Qed.

Lemma name_safe name ctx label cats l preview : safe n (_scan_component_name client_ip check name ctx label cats l preview).
Proof using Hcheck Hlogs Hrec Hwide Hord TL. apply component_safe. Qed.

Lemma field_safe v label cats l sb display ctx preview sp :
  safe n (_scan_body_field client_ip check v label cats l sb display ctx preview sp).
Proof using Hcheck Hlogs Hrec Hwide Hord TL. unfold _scan_body_field. safe_steps. apply component_safe. Qed.

#[local] Hint Resolve component_safe name_safe field_safe : safe.

Lemma frame_safe ex cats l sb ctx preview rk sp max_depth top :
  safe n (scan_frame client_ip check ex cats l sb ctx preview rk sp max_depth top).
Proof using Hcheck Hlogs Hrec Hwide Hord TL.
  unfold scan_frame, _scan_json_entry_frame, _scan_json_dict_entry_key, _scan_json_container_frame, _scan_capped_json_subtree,
    scan_json_leaf, _warn_json_depth_cap_reached_once. safe_steps; auto with safe.
Qed.

(** A frame gives rise to fewer frames than it stands for. *)
Lemma frame_shrinks ex cats l sb ctx preview rk sp max_depth top :
  returns (fun r => match r with inr more => (stack_size more < frame_size top)%nat | inl _ => True end)
    (scan_frame client_ip check ex cats l sb ctx preview rk sp max_depth top).
Proof using Type.
  assert (forall j, (0 < json_frames j)%nat) as Hpos by (intros []; cbn [json_frames]; lia).
  destruct top as [key item depth redact|current label depth redact]; cbn [scan_frame frame_size].
  - unfold _scan_json_entry_frame. apply returns_then. intros [f|]; [destruct (detected f)|]; apply returns_ret; cbn; try lia.
  - destruct (is_container current) eqn:Hc.
    + unfold _scan_json_container_frame. destruct (max_depth <=? depth).
      * apply returns_then. intros f. apply returns_ret. destruct (detected f); [done|apply Hpos].
      * apply returns_ret. by apply parts_size.
    + unfold scan_json_leaf. apply returns_then. intros f. apply returns_ret. destruct (detected f); [done|apply Hpos].
Qed.

(** The stack is empty before the fuel is used up. *)
Lemma stack_safe ex cats l sb ctx preview rk sp max_depth fuel stack :
  (stack_size stack <= fuel)%nat -> safe n (scan_stack client_ip check ex cats l sb ctx preview rk sp fuel max_depth stack).
Proof using Hcheck Hlogs Hrec Hwide Hord TL.
  revert stack. induction fuel as [|fuel IH]; intros [|top stack] Hs; cbn [scan_stack]; try apply safe_ret.
  - exfalso. rewrite stack_size_cons in Hs. assert (0 < frame_size top)%nat; [|lia].
    destruct top as [|[] ? ? ?]; cbn; lia.
  - intros p Hp. destruct (frame_safe ex cats l sb ctx preview rk sp max_depth top p Hp) as [Hle Hr].
    pose proof (frame_shrinks ex cats l sb ctx preview rk sp max_depth top p) as Hmore. unfold bind.
    destruct (scan_frame _ _ _ _ _ _ _ _ _ _ _ _ p) as [[r|e] q]; cbn [fst snd] in *.
    2: { split; [done|]. intros e' [= <-]. by apply Hr. }
    specialize (Hmore r eq_refl). destruct r as [hit|more]; [by split; [|intros e [=]]|].
    destruct (IH (more ++ stack)) with (p := q) as [Hle' Hr'].
    + rewrite stack_size_app. rewrite stack_size_cons in Hs. lia.
    + unfold budget_le, budget_slack, remaining in *. lia.
    + split; [by etransitivity|done].
Qed.

Lemma json_value_safe ex cats l sb ctx preview rk sp value label :
  safe n (_scan_json_value client_ip check ex cats l sb ctx preview rk sp value label).
Proof using Hcheck Hlogs Hrec Hwide Hord TL.
  unfold _scan_json_value. apply safe_bind; [apply safe_get|]. intros cap. apply stack_safe. cbn. lia.
Qed.

#[local] Hint Resolve json_value_safe : safe.

Lemma warn_depth_safe : safe n (_warn_json_depth_cap_reached_once client_ip).
Proof using Hlogs. unfold _warn_json_depth_cap_reached_once. safe_steps. Qed.

Lemma parse_embedded_safe v : safe n (_parse_embedded_json client_ip v).
Proof using Hlogs Hdigits Hrec Hwide.
  unfold _parse_embedded_json, json_loads. destruct (nested_too_deep v).
  { apply safe_bind; [apply warn_depth_safe|]. intros _. apply safe_ret. }
  destruct (loads v) as [data|e] eqn:Hl; [apply safe_ret|]. pose proof (loads_raises _ _ Hl) as [[->| ->]| ->]; [apply safe_ret|..];
    (intros p _; split; [reflexivity|]); intros e [= <-]; [done|by eapply Hwide].
Qed.

Lemma embedded_safe p : safe n (_check_embedded_json_if_applicable client_ip check p).
Proof using Hcheck Hlogs Hdigits Hrec Hwide Hord TL.
  unfold _check_embedded_json_if_applicable, _check_embedded_json, _embedded_json_display.
  safe_steps; auto using parse_embedded_safe with safe.
Qed.
End pieces.
#[local] Hint Resolve component_safe name_safe field_safe json_value_safe : safe.

Context (Hticks : forall s n, cost (s {{ ticks := n }}) = cost s).
Context (Hpatterns : forall s, cost (snd (get_all_compiled_patterns s)) <= cost s /\
  forall e, fst (get_all_compiled_patterns s) = Raise e -> Q e).
Context (Hregex : forall a b c d f g s, cost (snd (check_regex_pattern a b c d f g s)) <= cost s /\
  forall e, fst (check_regex_pattern a b c d f g s) = Raise e -> is_recursion_error e = false -> Q e).
Context (Hdetect : forall a b c d f g s, cost (snd (detect a b c d f g s)) <= cost s + 1 /\
  forall e, fst (detect a b c d f g s) = Raise e -> is_recursion_error e = true -> Q e).

Section checks.
Context (client_ip correlation_id : string).

Lemma fallback_patterns_harmless cap v ctx patterns : harmless (fallback_patterns client_ip cap v ctx patterns).
Proof using Hregex Hlogs Hticks Hrec Hwide Hord TL.
  induction patterns as [|[pattern category] patterns IH]; [apply harmless_ret|]. cbn [fallback_patterns].
  apply harmless_bind.
  { intros s. split; [|by intros e [=]]. exact (Z.eq_le_incl _ _ (Hticks s (S (ticks s)))). }
  intros start. apply harmless_bind; [|intros []; [apply harmless_ret|exact IH]].
  intros s. unfold catch, bind. destruct (Hregex pattern v client_ip start category ctx s) as [Hc Hr].
  destruct (check_regex_pattern _ _ _ _ _ _ s) as [[r|x] s2]; cbn [fst snd] in *; [by split; [|intros e [=]]|].
  destruct (is_recursion_error x) eqn:Hx; [|split; [done|intros e [= <-]; by apply Hr]].
  unfold lift_res. destruct (_redact_pattern_source cap pattern) as [shown|y] eqn:Hp; cbn [fst snd]; [|split; [done|intros e [= <-]; by eapply redact_source_raises]].
  unfold log, modify, ret. cbn [fst snd]. rewrite Hlogs. by split; [|intros e [=]].
Qed.

Lemma fallback_harmless cap v ctx : harmless (_fallback_pattern_check client_ip cap v ctx).
Proof using Hregex Hpatterns Hlogs Hticks Hrec Hwide Hord TL. apply harmless_bind; [exact Hpatterns|]. intros l. apply fallback_patterns_harmless. Qed.

(** The plain search, after a failure. *)
Lemma fall_back_safe n p x : safe n (
  d_io (log ERROR ("Enhanced detection failed: " +:+ exn_message x +:+ ", falling back to basic check")) ;;;
  let* cap := d_get _json_depth_cap in
  let* result := d_io (_fallback_pattern_check client_ip cap (pb_value p) (pb_context p)) in
  ret ((fst result, snd result, []) : finding, @None string)).
Proof using Hregex Hpatterns Hlogs Hticks Hrec Hwide Hord TL.
  apply safe_bind; [apply safe_io, harmless_log|]. intros _. apply safe_bind; [apply safe_get|]. intros cap.
  apply safe_bind; [apply safe_io, fallback_harmless|]. intros r. apply safe_ret.
Qed.

(** The handler's opinion costs one call. *)
Lemma ask_safe p q : budget_slack 1 q (snd (ask_detector client_ip correlation_id p q)) /\
  forall e, fst (ask_detector client_ip correlation_id p q) = Raise e -> Q e.
Proof using Hregex Hpatterns Hdetect Hlogs Hticks Hdigits Hrec Hwide Hord Hurl TL.
  destruct q as [s b]. unfold ask_detector. match goal with |- context [catch _ ?m ?h] => set (asked := m); set (handler := h) end.
  assert (exists s1, snd (asked (s, b)) = (s1, b) /\ cost s1 <= cost s + 1 /\
    forall e, fst (asked (s, b)) = Raise e -> is_recursion_error e = true -> Q e) as (s1 & Hs & Hc & Hr).
  { subst asked. unfold bind, d_io, zoom. cbn [fst snd].
    destruct (Hdetect (pb_value p) client_ip (pb_context p) correlation_id (pb_categories p) (pb_content_preview p) s) as [Hc Hd].
    destruct (detect _ _ _ _ _ _ s) as [[[threat threats]|x] s1]; cbn [fst snd] in *; exists s1;
      [|by (split; [|split; [exact Hc|intros e [= <-]; by apply Hd]])].
    split; [|split; [exact Hc|]]; destruct threat; cbn [negb]; try done; destruct threats as [|t threats]; try done;
      unfold redacting, bind, d_get, gets, lift_res; cbn [fst snd];
      destruct (_build_threat_message (_json_depth_cap b) t) as [message|x] eqn:Hm; try done.
    intros e [= <-] _. by eapply message_raises. }
  unfold catch. destruct (asked (s, b)) as [[r|x] q]; cbn [fst snd] in *; subst q; [by split; [apply slack_same_budget|intros e [=]]|].
  destruct (is_recursion_error x) eqn:Hx; cbn [negb fst snd].
  - split; [by apply slack_same_budget|]. intros e [= <-]. by apply Hr.
  - assert (safe (remaining (s1, b)) (handler x)) as Hs by apply fall_back_safe.
    destruct (Hs (s1, b)) as [Hle Hf]; [done|]. split; [|exact Hf].
    clearbody handler. unfold finding, budget_le, budget_slack, counted in *. cbn [fst snd] in *. lia.
Qed.

(** A check counts, or finds nothing left. *)
Lemma budget_exhausted_spec value s b : exists exhausted q, _scan_budget_exhausted client_ip value (s, b) = (Ok exhausted, q) /\
  budget_le (s, b) q /\ (exhausted = false -> 0 <= remaining q < remaining (s, b) /\ budget_slack (-1) (s, b) q).
Proof using Hlogs.
  unfold _scan_budget_exhausted, _scan_value_budget_exhausted, _scan_char_budget_exhausted, d_set, d_get, d_io, modify, gets, bind,
    when, budget_le, budget_slack, remaining, counted, log, zoom, modify.
  destruct b as [count cap n char_cap warned depth dwarned run cache]. cbn.
  destruct (Z.leb_spec (Z.succ count) cap); cbn; [destruct (char_cap <=? n); [destruct warned|]|destruct (Z.succ count =? cap + 1)];
    cbn; do 2 eexists; (split; [reflexivity|]); cbn;
    try match goal with |- context [cost ?x] => tryif unify x s then fail else replace (cost x) with (cost s) by (symmetry; apply (Hlogs s)) end; lia.
Qed.

(** What is left of the budget of values is enough fuel. *)
Lemma check_enhanced_safe fuel p : safe (Z.of_nat fuel) (_check_value_enhanced client_ip correlation_id (S fuel) p).
Proof using Hregex Hpatterns Hdetect Hlogs Hticks Hdigits Hrec Hwide Hord Hurl TL.
  revert p. induction fuel as [fuel IH] using lt_wf_ind. intros p [s b] Hp. cbn [_check_value_enhanced].
  destruct (budget_exhausted_spec (pb_value p) s b) as (exhausted & q & He & Hle & Hrem).
  rewrite (bind_ok _ _ _ _ _ He). destruct exhausted; [by split; [|intros e [=]]|]. destruct (Hrem eq_refl) as [Hr1 Hs1].
  destruct fuel as [|fuel]; [lia|].
  assert (safe (Z.of_nat fuel) (_check_embedded_json_if_applicable client_ip (_check_value_enhanced client_ip correlation_id (S fuel)) p)) as Hs
    by (apply embedded_safe; intros; apply IH; lia).
  destruct (Hs q) as [Hle' Hr]; [lia|]. unfold bind at 1 2.
  destruct (_check_embedded_json_if_applicable _ _ _ q) as [[[hit|]|x] q1]; cbn [fst snd] in *.
  - split; [by etransitivity|by intros e [=]].
  - destruct (ask_safe p q1) as [Ha Hra]. split; [|done]. unfold budget_le, budget_slack in *. lia.
  - split; [by etransitivity|]. intros e [= <-]. by apply Hr.
Qed.

Lemma check_value_safe n p : safe n (check_value client_ip correlation_id p).
Proof using Hregex Hpatterns Hdetect Hlogs Hticks Hdigits Hrec Hwide Hord Hurl TL.
  intros q _. unfold check_value, d_get, gets, bind. cbn [fst snd].
  apply check_enhanced_safe. unfold remaining. lia.
Qed.
#[local] Hint Resolve check_value_safe : safe.

Lemma scan_field_safe n cats l sb sp a b c d e : safe n (scan_field client_ip correlation_id cats l sb sp a b c d e).
Proof using Hregex Hpatterns Hdetect Hlogs Hticks Hdigits Hrec Hwide Hord Hurl TL. unfold scan_field. safe_steps; auto with safe. Qed.
#[local] Hint Resolve scan_field_safe : safe.

Lemma json_content_safe n raw ex cats l sb sp : safe n (_scan_json_content client_ip correlation_id raw ex cats l sb sp).
Proof using Hregex Hpatterns Hdetect Hlogs Hticks Hdigits Hrec Hwide Hord Hurl TL.
  unfold _scan_json_content. destruct (json_loads raw) as [j|e] eqn:Hj; [safe_steps; auto with safe|].
  apply (json_loads_raises _ Hrec Hwide) in Hj as [HQ|He].
  - destruct (within_latin1 e); [apply safe_ret|]. intros p _. split; [reflexivity|]. by intros x [= <-].
  - assert (within_latin1 e = true) as ->; [|apply safe_ret]. destruct e; try done. cbn in He |- *.
    apply orb_true_iff in He as [He|]; [|done]. apply String.eqb_eq in He as ->. reflexivity.
Qed.
#[local] Hint Resolve json_content_safe : safe.

Lemma body_safe n ex cats l sb sp raw ct : safe n (_scan_request_body client_ip correlation_id ex cats l sb sp raw ct).
Proof using Hregex Hpatterns Hdetect Hlogs Hticks Hdigits Hrec Hwide Hord Hurl TL.
  unfold _scan_request_body, _scan_form_body, _scan_multipart_body, _scan_multipart_part, _scan_blob_body.
  safe_steps; auto with safe.
Qed.

Lemma header_safe n k v cats l preview sb ex sp sh :
  safe n (_scan_normal_header_component client_ip correlation_id k v cats l preview sb ex sp sh).
Proof using Hregex Hpatterns Hdetect Hlogs Hticks Hdigits Hrec Hwide Hord Hurl TL. unfold _scan_normal_header_component. safe_steps; auto with safe. Qed.
#[local] Hint Resolve header_safe : safe.

Lemma excluded_header_safe n k v cats l sp sb ex sh :
  safe n (_scan_excluded_header_component client_ip correlation_id k v cats l sp sb ex sh).
Proof using Hregex Hpatterns Hdetect Hlogs Hticks Hdigits Hrec Hwide Hord Hurl TL. unfold _scan_excluded_header_component. safe_steps; auto with safe. Qed.
#[local] Hint Resolve excluded_header_safe : safe.

Lemma surface_safe n request ep eh cats l sh sp sb ex :
  safe n (_scan_request_surface client_ip correlation_id request ep eh cats l sh sp sb ex).
Proof using Hregex Hpatterns Hdetect Hlogs Hticks Hdigits Hrec Hwide Hord Hurl TL.
  unfold _scan_request_surface, _scan_query_params, scan_query_param, _scan_query_param_value, _scan_headers, scan_header,
    _scan_sensitive_header. safe_steps; auto with safe.
Qed.

End checks.

Context (Hbody : forall request s, cost (snd (request_body request s)) <= cost s).
Context (Hprefix : forall request read n s, read_request_prefix request = Some read -> cost (snd (read n s)) <= cost s).

(** Reading the body costs nothing, and raises for a length of too many digits alone. *)
Definition reads {A} (m : M (Sys * option (Z * string)) A) : Prop :=
  forall q, cost (fst (snd (m q))) <= cost (fst q) /\ forall e, fst (m q) = Raise e -> e = TooManyDigits.

Lemma reads_ret {A} (a : A) : reads (ret a).
Proof using Type. intros q. split; [done|]. by intros e [=]. Qed.

Lemma reads_bind {A B} (m : M (Sys * option (Z * string)) A) (k : A -> M (Sys * option (Z * string)) B) :
  reads m -> (forall a, reads (k a)) -> reads (bind m k).
Proof using Type.
  intros Hm Hk q. unfold bind. destruct (Hm q) as [Hc Hr]. destruct (m q) as [[a|e] q1]; cbn [fst snd] in *; [|split; [done|intros e' [= <-]; by apply Hr]].
  destruct (Hk a q1) as [Hc' Hr']. split; [by etransitivity|done].
Qed.

Lemma reads_log l msg : reads (r_io (log l msg)).
Proof using Hlogs. intros q. split; [|by intros e [=]]. unfold r_io, zoom, log, modify. cbn [fst snd]. by rewrite Hlogs. Qed.

Lemma reads_safe {A} (reader : M Sys A) : (forall s, cost (snd (reader s)) <= cost s) -> reads (r_io (_safe_read reader)).
Proof using Type.
  intros H [s prefix]. specialize (H s). unfold r_io, zoom, _safe_read, catch, any_exn, bind. cbn [fst snd].
  by destruct (reader s) as [[a|x] s1]; (split; [|intros e [=]]).
Qed.

Lemma reads_and_caches n reader accessor : (forall s, cost (snd (reader s)) <= cost s) -> reads (_read_and_cache_body n reader accessor).
Proof using Hlogs.
  intros H. unfold _read_and_cache_body. apply reads_bind; [intros q; split; [done|by intros e [=]]|]. intros cached.
  destruct (match cached with Some _ => _ | None => None end); [apply reads_ret|].
  apply reads_bind; [by apply reads_safe|]. intros [[bytes|]|].
  - apply reads_bind; [intros q; split; [done|by intros e [=]]|]. intros _. apply reads_ret.
  - apply reads_bind; [apply reads_log|]. intros _. apply reads_ret.
  - apply reads_ret.
Qed.

Lemma reads_fetch_size n : reads (_capped_body_fetch_size n).
Proof using Hpatterns.
  unfold _capped_body_fetch_size. apply reads_bind; [|intros m; apply reads_ret]. intros [s prefix]. destruct (Hpatterns s) as [Hc _].
  unfold r_io, zoom, _straddle_overlap_bytes, catch, any_exn, bind. cbn [fst snd].
  by destruct (get_all_compiled_patterns s) as [[l|x] s1]; (split; [|intros e [=]]).
Qed.

Lemma reads_prefix request read n : read_request_prefix request = Some read ->
  reads (let* m := _capped_body_fetch_size n in _read_and_cache_body m (read m) "read_body_prefix").
Proof using Hprefix Hpatterns Hlogs.
  intros Hr. apply reads_bind; [apply reads_fetch_size|]. intros m. apply reads_and_caches. intros s. by eapply Hprefix.
Qed.

Lemma reads_length value : reads (lift_res (_parse_content_length value)).
Proof using Type.
  intros q. split; [by unfold lift_res|]. unfold lift_res, _parse_content_length. cbn [fst]. intros e.
  destruct (negb _); [done|]. destruct (py_int _); [done|]. by intros [= <-].
Qed.

Lemma reads_body request config ip : reads (_read_capped_body request config ip).
Proof using Hbody Hprefix Hpatterns Hlogs.
  unfold _read_capped_body. destruct config as [c|].
  2: { apply reads_bind; [apply reads_safe; auto|]. intros v. apply reads_ret. }
  apply reads_bind; [destruct (header request "content-length"); [apply reads_length|apply reads_ret]|].
  intros [parsed|]; [destruct (_ <? parsed)|].
  - unfold _read_oversized_declared_body. destruct (read_request_prefix request) as [read|] eqn:Hr; apply reads_bind;
      [apply reads_log|intros _; by apply reads_prefix with (request := request)|apply reads_log|intros _; apply reads_ret].
  - apply reads_and_caches, Hbody.
  - unfold _read_capped_body_prefix. destruct (read_request_prefix request) as [read|] eqn:Hr; [by apply reads_prefix with (request := request)|apply reads_ret].
Qed.

Lemma body_surface_safe ip corr request config rc ex cats l sb sp n :
  safe n (_scan_body_surface ip corr request config rc ex cats l sb sp).
Proof using Hregex Hpatterns Hdetect Hlogs Hticks Hdigits Hrec Hwide Hord Hurl TL Hbody Hprefix.
  unfold _scan_body_surface. destruct (negb _); [apply safe_ret|]. apply safe_bind.
  - intros [s b] _. unfold zoom. cbn [fst snd]. destruct (reads_body request config ip (s, body_prefix b)) as [Hc Hr].
    destruct (_read_capped_body _ _ _ _) as [r q]. cbn [fst snd] in *.
    split; [unfold budget_le, budget_slack, counted; destruct b; cbn in *; lia|]. intros e He. by rewrite (Hr e He).
  - intros [bytes|]; [|apply safe_ret]. apply safe_bind; [apply body_safe|]. intros f. apply safe_ret.
Qed.

(** Everything inside the budget. *)
Lemma within_budget_safe ip corr request config rc s b (run := scan_within_budget ip corr request config rc (s, b)) :
  0 <= _resolve_max_scan_values config ->
  cost (fst (snd run)) <= cost s + _resolve_max_scan_values config /\ forall e, fst run = Raise e -> Q e.
Proof using Hregex Hpatterns Hdetect Hlogs Hticks Hdigits Hrec Hwide Hord Hurl TL Hbody Hprefix.
  intros Hcap. subst run. unfold scan_within_budget, _scan_value_budget. cbv zeta. cbn [fst snd].
  match goal with |- context [(?m : D DetectionResult) (s, ?b0)] => assert (safe (remaining (s, b0)) m) as Hs;
    [|destruct (Hs (s, b0) ltac:(lia)) as [Hle Hr]; destruct (m (s, b0)) as [r [s' b']]] end.
  { apply safe_bind; [apply surface_safe|]. intros [hit|]; [apply safe_ret|by apply body_surface_safe]. }
  split; [|exact Hr]. unfold budget_le, budget_slack, counted in Hle. cbn in *. lia.
Qed.
End safety.

Section properties.
Context `{RB : RequestBody} `{DT : !Detector} `{SS : !ScanServices}.

Lemma extract_client_ip_ok request cached c ah s : exists ip, fst (extract_client_ip request cached c ah s) = Ok ip.
Proof using Type.
  destruct (extract_client_ip_canonical request c ah s) as (ip & Hip & _).
  by destruct cached as [[|x cached]|]; eexists.
Qed.


(** C12: the budget holds.  However many values a request has and however they are
    nested, the pattern handler is asked at most [detection_max_scan_values] times: a
    count of whatever only [detect] does, and at most once a call, grows by no more
    than that over the whole scan. *)
Theorem scan_calls_bounded `{TL : !TextLaws} (cost : Sys -> Z) ip corr request config rc s b :
  0 <= _resolve_max_scan_values config ->
  (forall s l, cost (s {{ logs := l }}) = cost s) -> (forall s n, cost (s {{ ticks := n }}) = cost s) ->
  (forall s, cost (snd (get_all_compiled_patterns s)) <= cost s) ->
  (forall a b c d f g s, cost (snd (check_regex_pattern a b c d f g s)) <= cost s) ->
  (forall request s, cost (snd (request_body request s)) <= cost s) ->
  (forall request read n s, read_request_prefix request = Some read -> cost (snd (read n s)) <= cost s) ->
  (forall a b c d f g s, cost (snd (detect a b c d f g s)) <= cost s + 1) ->
  cost (fst (snd (scan_within_budget ip corr request config rc (s, b)))) <= cost s + _resolve_max_scan_values config.
Proof. intros. apply (within_budget_safe (fun _ => True) cost); auto. Qed.
End properties.
