(* ===== verification/ScanSpec.v ===== *)
(** What the scan of a request promises, without budgets, stacks and early ends: the
    list of the pieces of a request that are to be looked at, and that the scan reports
    a threat exactly when one of them is dangerous. *)
From S2P Require Import Prelude PyStr PyDict Json IpAddr Sys Sample Config Redaction Request IpExtraction AccessControl JsonPattern.
From S2P Require Import Url DetectionConfig BodyReader Scan ScanFacts.

#[local] Open Scope Z_scope.

#[local] Abbreviation D := (M (Sys * Budget)).

(** A pattern handler whose opinion of a text depends on the text, its context and the
    categories looked for, and that always has one; the threats it names can be shown. *)
Class Opinion `{SS : ScanServices} `{DT : !Detector} : Type := {
  dangerous : string -> string -> option (list string) -> bool;
  detect_opinion : forall value ip context corr cats preview s, exists threats s',
    detect value ip context corr cats preview s = (Ok (dangerous value context cats, threats), s') /\
    forall t cap, hd_error threats = Some t -> exists message, _build_threat_message cap t = Ok message
}.

(** * The pieces of a request *)

(** A text shown to the pattern handler, or something that is a threat by itself. *)
Inductive item : Type :=
| Shown (value context : string) (categories : option (list string))
| Found.

Definition item_values (i : item) : Z := match i with Shown _ _ _ => 1 | Found => 0 end.
Definition item_chars (i : item) : Z := match i with Shown value _ _ => Z.of_nat (slen value) | Found => 0 end.

Definition values (items : list item) : Z := fold_right (fun i n => item_values i + n) 0 items.
Definition chars (items : list item) : Z := fold_right (fun i n => item_chars i + n) 0 items.

Lemma values_app a b : values (a ++ b) = values a + values b.
Proof. induction a as [|i a IH]; [done|]. unfold values in *. cbn [app fold_right]. lia. Qed.

Lemma chars_app a b : chars (a ++ b) = chars a + chars b.
Proof. induction a as [|i a IH]; [done|]. unfold chars in *. cbn [app fold_right]. lia. Qed.

Lemma values_nonneg a : 0 <= values a.
Proof. induction a as [|[] a IH]; cbn in *; unfold values in *; lia. Qed.

Lemma chars_nonneg a : 0 <= chars a.
Proof. induction a as [|[] a IH]; cbn in *; unfold chars in *; lia. Qed.

#[local] Abbreviation pieces := (option (list item)).

Definition p_app (a b : pieces) : pieces := match a, b with Some x, Some y => Some (x ++ y) | _, _ => None end.
Definition p_all {A} (f : A -> pieces) (l : list A) : pieces := fold_right (fun x acc => p_app (f x) acc) (Some []) l.

Lemma p_app_inv a b items : p_app a b = Some items -> exists x y, a = Some x /\ b = Some y /\ items = x ++ y.
Proof. destruct a, b; try done. intros [= <-]. eauto. Qed.

(** What cannot be redacted has no pieces. *)
Definition p_res {A} (r : res A) (k : A -> pieces) : pieces := match r with Ok a => k a | Raise _ => None end.

Lemma p_res_inv {A} (r : res A) k items : p_res r k = Some items -> exists a, r = Ok a /\ k a = Some items.
Proof. destruct r; [eauto|done]. Qed.

Section spec.
Context `{SS : ScanServices}.
Context (max_depth min_run : Z).

Section json.
Context (check : probe -> pieces).
Context (excluded : list string) (cats : option (list string)) (sensitive_body_fields : list string) (context : string)
  (preview : option string) (redact_keys : bool) (sensitive_params : list string).

Definition body_field_items (value label : string) (sensitive_params : list string) (display preview : option string) : pieces :=
  p_res (field_log_value max_depth value label sensitive_body_fields display preview sensitive_params) (fun log_value =>
  check (field_probe value cats log_value context sensitive_params)).

Definition key_items (key : string) : pieces :=
  let display := if redact_keys then "[REDACTED]" else key in
  check (name_probe key (context +:+ ":" +:+ display) cats (if redact_keys then Some "[REDACTED]" else None)).

(** The keys and the leaves of a JSON value; what lies too deep is shown as a text. *)
Fixpoint json_items (current : json) (label : string) (depth : Z) (redact : bool) : pieces :=
  let leaf := body_field_items (py_str float_repr current) label sensitive_params None (hidden_preview preview redact) in
  let capped := p_res (redacted_dump sensitive_body_fields sensitive_params max_depth current) (fun display =>
    body_field_items (dumps_compact current) label [] (Some display) (hidden_preview preview redact)) in
  match current with
  | JObj members =>
      if max_depth <=? depth then capped
      else p_all (fun m =>
        let '(key, x) := m in
        if in_list (lower key) excluded then Some []
        else if mongo_operator_key key then Some [Found]
        else p_app (key_items key) (json_items x key (depth + 1) (redact || in_list (lower key) sensitive_body_fields))) members
  | JArr items =>
      if max_depth <=? depth then capped
      else p_all (fun x => json_items x label (depth + 1) redact) items
  | _ => leaf
  end.
End json.

(** The list or object a JSON text is. *)
Definition container_in (text : string) : option json := match json_loads text with Ok data => container data | Raise _ => None end.

(** A JSON text that raises out of the scan, or out of the model, has no pieces. *)
Definition beyond (text : string) : bool := match json_loads text with Raise e => negb (within_latin1 e) | Ok _ => false end.

Definition refused (text : string) : bool :=
  match json_loads text with Raise e => negb (is_json_decode_error e || is_recursion_error e) | Ok _ => false end.

(** What is shown of a JSON text when something in it is dangerous. *)
Definition embedded_display (p : probe) (data : json) : res string :=
  if _resolve_json_redact_all p then Ok "[REDACTED]" else redacted_dump (pb_sensitive_body_fields p) (pb_sensitive_params p) max_depth data.

(** A text, and the pieces of the JSON text it may be. *)
Fixpoint value_items (fuel : nat) (p : probe) : pieces :=
  match fuel with
  | O => None
  | S fuel' =>
      p_app (Some [Shown (pb_value p) (pb_context p) (pb_categories p)])
        (if negb (pb_scan_embedded_json p) || (pb_context p =? "request_body")%string then Some []
         else if refused (pb_value p) then None
         else match container_in (pb_value p) with
              | Some data =>
                  p_res (embedded_display p data) (fun _ =>
                  json_items (value_items fuel') (pb_excluded_body_fields p) (pb_categories p) (pb_sensitive_body_fields p)
                    (pb_context p +:+ _EMBEDDED_JSON_LEAF_CONTEXT_SUFFIX)
                    (if _resolve_json_redact_all p then Some "[REDACTED]" else None) (_resolve_json_redact_all p)
                    (pb_sensitive_params p) data "" 1 false)
              | None => Some []
              end)
  end.

Section parts.
Context (fuel : nat) (excluded : list string) (cats : option (list string)) (sensitive_params sensitive_body_fields sensitive_headers : list string).

Definition field_items (label value context : string) : pieces :=
  p_app (value_items fuel (name_probe label "request_body" cats None))
    (body_field_items (value_items fuel) cats sensitive_body_fields context value label sensitive_params None None).

Definition form_items (raw_body : string) : pieces :=
  p_all (fun nv => if excluded_field excluded (Some (fst nv)) then Some [] else field_items (fst nv) (snd nv) _FORM_FIELD_CONTEXT)
    (parse_qsl raw_body).

Definition blob_items (raw_body : string) (sensitive_params sensitive_body_fields : list string) (force_redacted : bool) : pieces :=
  p_res (blob_preview max_depth raw_body sensitive_params sensitive_body_fields force_redacted) (fun preview =>
  value_items fuel (blob_probe cats raw_body preview)).

Definition multipart_items (raw_body content_type : string) : pieces :=
  match _multipart_text_parts min_run raw_body content_type with
  | None => blob_items raw_body [] [] true
  | Some entries =>
      p_all (fun e => let '(exclusion_key, label, value) := e in
        if excluded_field excluded exclusion_key then Some [] else field_items label value _MULTIPART_FIELD_CONTEXT) entries
  end.

Definition body_items (raw_body content_type : string) : pieces :=
  let lowered := lower content_type in
  if contains "application/x-www-form-urlencoded" lowered then form_items raw_body
  else if contains "multipart/form-data" lowered then multipart_items raw_body content_type
  else if contains "json" lowered && beyond raw_body then None
  else match (if contains "json" lowered then container_in raw_body else None) with
       | Some data => json_items (value_items fuel) excluded cats sensitive_body_fields "request_body" None false sensitive_params data "" 1 false
       | None => blob_items raw_body sensitive_params sensitive_body_fields false
       end.

Definition query_items (excluded_params : list string) (params : list (string * string)) : pieces :=
  p_all (fun '(key, value) =>
    if in_list (lower key) excluded_params then Some []
    else
      p_res (redact_blob max_depth key sensitive_params sensitive_body_fields (Some sensitive_headers)) (fun key_preview =>
      p_app (value_items fuel (name_probe key ("query_param:" +:+ key_preview) cats (Some key_preview)))
        (p_res (query_value_preview sensitive_params sensitive_body_fields sensitive_headers max_depth
                  (sensitive_param sensitive_params sensitive_headers key) value) (fun preview =>
         value_items fuel (query_value_probe excluded sensitive_params sensitive_body_fields preview key_preview value cats))))) params.
End parts.

Definition plain_header_items fuel key value cats preview sensitive_body_fields excluded sensitive_params sensitive_headers : pieces :=
  p_app (value_items fuel (name_probe key ("header:" +:+ key) cats None))
    (p_res (header_preview max_depth value preview sensitive_body_fields sensitive_params sensitive_headers) (fun preview =>
     value_items fuel (header_probe key value cats preview sensitive_body_fields excluded sensitive_params))).

(** What a value that is a command is reported with: the pattern and the value, if
    they can be shown. *)
Definition command_items (key value : string) (sensitive_params sensitive_body_fields sensitive_headers : list string) : option pieces :=
  match _check_always_scan_header max_depth key with
  | Raise _ => Some None
  | Ok f =>
      if detected f then Some (Some [Found])
      else
        match _check_always_scan_header max_depth value with
        | Raise _ => Some None
        | Ok f =>
            if detected f
            then Some (p_res (redact_blob max_depth value sensitive_params sensitive_body_fields (Some sensitive_headers)) (fun _ => Some [Found]))
            else None
        end
  end.

(** An excluded header is still looked at for commands, and for the categories that
    its name leaves. *)
Definition excluded_header_items fuel key value cats sensitive_params sensitive_body_fields excluded sensitive_headers : pieces :=
  match (if match cats with None => true | Some l => in_list "cmd_injection" l end
         then command_items key value sensitive_params sensitive_body_fields sensitive_headers else None) with
  | Some commands => commands
  | None =>
      match _excluded_header_effective_categories key value cats with
      | Some [] => Some []
      | effective => plain_header_items fuel key value effective None sensitive_body_fields excluded sensitive_params sensitive_headers
      end
  end.

Definition header_items fuel excluded_headers cats sensitive_headers sensitive_body_fields excluded sensitive_params (h : string * string) : pieces :=
  let '(key, value) := h in
  let name := lower (strip key) in
  if in_list name sensitive_headers then
    if in_list name excluded_headers then excluded_header_items fuel key value cats [] sensitive_body_fields excluded []
    else plain_header_items fuel key value cats (Some "[REDACTED]") sensitive_body_fields excluded [] []
  else if in_list name excluded_headers then
    excluded_header_items fuel key value cats sensitive_params sensitive_body_fields excluded sensitive_headers
  else plain_header_items fuel key value cats None sensitive_body_fields excluded sensitive_params sensitive_headers.

Definition surface_items fuel (request : Request) excluded_params excluded_headers cats sensitive_headers sensitive_params
  sensitive_body_fields excluded : pieces :=
  p_app (query_items fuel excluded cats sensitive_params sensitive_body_fields sensitive_headers excluded_params (rq_query_params request))
    (p_app
      (p_res (redact_url_for_display max_depth (rq_path request) (Some sensitive_params) (Some sensitive_body_fields) (Some sensitive_headers))
        (fun path => value_items fuel (path_probe (rq_path request) path cats sensitive_body_fields excluded)))
      (p_all (header_items fuel excluded_headers cats sensitive_headers sensitive_body_fields excluded sensitive_params) (rq_headers request))).
End spec.

(** The pieces of a request whose body, if it is read, is [body]. *)
Definition request_items `{SS : ScanServices} (fuel : nat) (request : Request) (config : option SecurityConfig)
  (rc : option RouteConfig) (body : option string) : pieces :=
  let cats := _resolve_enabled_categories config rc in
  let sensitive_params := _resolve_sensitive_log_params config in
  let sensitive_body_fields := _resolve_sensitive_log_body_fields config in
  let excluded := _resolve_excluded_body_fields config rc in
  p_app
    (surface_items (_resolve_max_json_depth config) fuel request (_resolve_excluded_params config rc)
       (_resolve_excluded_headers config rc) cats (_resolve_sensitive_log_headers config) sensitive_params sensitive_body_fields excluded)
    (if _resolve_scan_body config rc
     then match body with
          | Some bytes =>
              body_items (_resolve_max_json_depth config) (_resolve_binary_min_run_length config) fuel excluded cats sensitive_params
                sensitive_body_fields (decode_surrogateescape bytes) (header_or request "content-type" "")
          | None => Some []
          end
     else Some []).

(** * What a computation looks at *)

Section shows.
Context `{RB : RequestBody} `{DT : !Detector} `{SS : !ScanServices} `{OP : !Opinion}.

Definition threatening (i : item) : bool :=
  match i with Shown value context cats => dangerous value context cats | Found => true end.

Definition hit (items : list item) : bool := existsb threatening items.

Context (max_depth min_run : Z).

(** The budget has room for the pieces, and for no more than [N] values. *)
Definition room (N : Z) (items : list item) (b : Budget) : Prop :=
  _json_depth_cap b = max_depth /\ _binary_min_run b = min_run /\ _scan_value_cap b - _scanned_value_count b <= N /\
  _scanned_value_count b + values items <= _scan_value_cap b /\ _scanned_char_count b + chars items < _scan_char_cap b.

Definition spent (items : list item) (b b' : Budget) : Prop :=
  _json_depth_cap b' = _json_depth_cap b /\ _binary_min_run b' = _binary_min_run b /\
  _scan_value_cap b' = _scan_value_cap b /\ _scan_char_cap b' = _scan_char_cap b /\ body_prefix b' = body_prefix b /\
  _scanned_value_count b' = _scanned_value_count b + values items /\ _scanned_char_count b' = _scanned_char_count b + chars items.

(** Given room, [m] returns; [post] relates its result to whether one of the pieces is
    dangerous, and when none is, [m] has used up the budget of all of them.  The limit of
    depth stays what it was. *)
Definition shows {A} (N : Z) (m : D A) (post : bool -> A -> Prop) (items : list item) : Prop :=
  forall s b, room N items b -> exists a s' b', m (s, b) = (Ok a, (s', b')) /\ post (hit items) a /\
    _json_depth_cap b' = max_depth /\ (hit items = false -> spent items b b').

(** [m] returns, with a result that satisfies [P], when it need not see all pieces. *)
Definition finishes {A} (m : D A) (P : A -> Prop) : Prop := forall p, _json_depth_cap (snd p) = max_depth ->
  exists a q, m p = (Ok a, q) /\ P a /\ _json_depth_cap (snd q) = max_depth.

Lemma hit_app a b : hit (a ++ b) = hit a || hit b.
Proof using Type. apply existsb_app. Qed.

Lemma spent_nil b : spent [] b b.
Proof using Type. unfold spent, values, chars. cbn. split_and!; (done || lia). Qed.

Lemma spent_app a b c i j : spent i a b -> spent j b c -> spent (i ++ j) a c.
Proof using Type.
  unfold spent. rewrite values_app, chars_app. intros (? & ? & ? & ? & ? & ? & ?) (? & ? & ? & ? & ? & ? & ?).
  split_and!; (lia || congruence).
Qed.

Lemma room_left N i j b : room N (i ++ j) b -> room N i b.
Proof using Type. unfold room. rewrite values_app, chars_app. pose proof (values_nonneg j). pose proof (chars_nonneg j). lia. Qed.

Lemma room_right N i j b b' : room N (i ++ j) b -> spent i b b' -> room N j b'.
Proof using Type. unfold room, spent. rewrite values_app, chars_app. pose proof (values_nonneg i). lia. Qed.

Lemma shows_mono {A} N m (post post' : bool -> A -> Prop) items :
  (forall d a, post d a -> post' d a) -> shows N m post items -> shows N m post' items.
Proof using Type. intros H Hm s b Hb. destruct (Hm s b Hb) as (a & s' & b' & ? & ? & ? & ?). exists a, s', b'. auto. Qed.

Lemma shows_ret {A} N (a : A) (post : bool -> A -> Prop) : post false a -> shows N (ret a) post [].
Proof using Type. intros H s b [Hb _]. exists a, s, b. split_and!; [done..|]. intros _. apply spent_nil. Qed.

Lemma shows_found {A} N (m : D A) (post : bool -> A -> Prop) : finishes m (post true) -> shows N m post [Found].
Proof using Type. intros H s b [Hb _]. destruct (H (s, b) Hb) as (a & [s' b'] & He & Hp & Hd). by exists a, s', b'. Qed.

Lemma shows_bind {A B} N (m : D A) (k : A -> D B) (post1 : bool -> A -> Prop) (post2 : bool -> B -> Prop) i j :
  shows N m post1 i ->
  (forall a, post1 true a -> finishes (k a) (post2 true)) ->
  (forall a, post1 false a -> shows N (k a) post2 j) ->
  shows N (bind m k) post2 (i ++ j).
Proof using Type.
  intros Hm Hhit Hk s b Hb. destruct (Hm s b) as (a & s1 & b1 & He & Hp & Hd & Hs); [by eapply room_left|].
  rewrite hit_app. rewrite (bind_ok _ _ _ _ _ He). destruct (hit i).
  - destruct (Hhit a Hp (s1, b1) Hd) as (c & [s2 b2] & Hc & Hpc & Hd2). by exists c, s2, b2.
  - specialize (Hs eq_refl). destruct (Hk a Hp s1 b1) as (c & s2 & b2 & Hc & Hpc & Hd2 & Hs2); [by eapply room_right|].
    exists c, s2, b2. split_and!; [done..|]. intros H. eapply spent_app; eauto.
Qed.

(** Nothing is looked at first. *)
Lemma shows_after {A B} N (m : D A) (k : A -> D B) (post : bool -> B -> Prop) (P : A -> Prop) j :
  shows N m (fun d a => d = false /\ P a) [] -> (forall a, P a -> shows N (k a) post j) -> shows N (bind m k) post j.
Proof using Type. intros Hm Hk. apply (shows_bind N m k _ _ [] j Hm); [by intros a []|]. intros a [_ Ha]. by apply Hk. Qed.

Lemma shows_then {A B} N (m : D A) (k : A -> D B) (post1 : bool -> A -> Prop) (post2 : bool -> B -> Prop) i :
  shows N m post1 i -> (forall a, post1 true a -> finishes (k a) (post2 true)) ->
  (forall a, post1 false a -> shows N (k a) post2 []) -> shows N (bind m k) post2 i.
Proof using Type. intros. rewrite <- (app_nil_r i). by eapply shows_bind. Qed.

Lemma shows_depth {B} N (k : Z -> D B) post j :
  shows N (k max_depth) post j -> shows N (let* cap := d_get _json_depth_cap in k cap) post j.
Proof using Type. intros Hk s b Hb. unfold bind, d_get, gets. cbn [snd]. destruct Hb as (Hd & Hb). rewrite Hd. by apply Hk. Qed.

Lemma shows_min_run {B} N (k : Z -> D B) post j :
  shows N (k min_run) post j -> shows N (let* r := d_get _binary_min_run in k r) post j.
Proof using Type. intros Hk s b Hb. unfold bind, d_get, gets. cbn [snd]. destruct Hb as (Hd & Hr & Hb). rewrite Hr. by apply Hk. Qed.

(** A text that can be redacted is. *)
Lemma shows_redacting {A B} N (f : Z -> res A) (k : A -> D B) post j a : f max_depth = Ok a ->
  shows N (k a) post j -> shows N (let* x := redacting f in k x) post j.
Proof using Type.
  intros Ha Hk s b Hb. unfold redacting, bind, d_get, gets, lift_res. cbn [snd]. destruct Hb as (Hd & Hb). rewrite Hd, Ha. by apply Hk.
Qed.

Lemma finishes_redacting {A} (f : Z -> res A) a (P : A -> Prop) : f max_depth = Ok a -> P a -> finishes (redacting f) P.
Proof using Type. intros Ha HP [s b] Hb. unfold redacting, bind, d_get, gets, lift_res. cbn [snd] in *. rewrite Hb, Ha. by exists a, (s, b). Qed.

Lemma finishes_ret {A} (a : A) (P : A -> Prop) : P a -> finishes (ret a) P.
Proof using Type. intros H p Hp. by exists a, p. Qed.

Lemma finishes_then {A B} (m : D A) (k : A -> D B) P R : finishes m P -> (forall a, P a -> finishes (k a) R) -> finishes (bind m k) R.
Proof using Type.
  intros Hm Hk p Hp. destruct (Hm p Hp) as (a & q & He & Ha & Hq). rewrite (bind_ok _ _ _ _ _ He). by apply Hk.
Qed.

Lemma finishes_bind {A B} (m : D A) (k : A -> D B) P : finishes m (fun _ => True) -> (forall a, finishes (k a) P) -> finishes (bind m k) P.
Proof using Type. intros Hm Hk. by eapply finishes_then; [exact Hm|]. Qed.

Lemma finishes_log ip v c l : finishes (d_io (_log_detected_component ip v c l)) (fun _ => True).
Proof using Type. intros [s b] Hb. unfold d_io, zoom, _log_detected_component, log_if_level. destruct l; by do 2 eexists. Qed.

Lemma finishes_when b m : finishes m (fun _ => True) -> finishes (when b m) (fun _ => True).
Proof using Type. destruct b; [done|]. intros _ p Hp. by exists tt, p. Qed.

Lemma shows_warn_depth N ip : shows N (_warn_json_depth_cap_reached_once ip) (fun d _ => d = false /\ True) [].
Proof using Type.
  intros s b [Hd _]. destruct b. unfold _warn_json_depth_cap_reached_once, bind, d_get, d_set, d_io, gets, modify, zoom, log. cbn.
  case_match; do 3 eexists; (split; [reflexivity|]); (split; [done|]); (split; [cbn; apply Hd|]); intros _; unfold spent; cbn; split_and!; (done || lia).
Qed.

Lemma shows_first_some {A B} N (f : A -> D (option B)) (g : A -> option (list item)) l items :
  (forall x i, g x = Some i -> shows N (f x) (fun d r => is_some r = d) i) -> p_all g l = Some items ->
  shows N (first_some l f) (fun d r => is_some r = d) items.
Proof using Type.
  intros Hf. revert items. induction l as [|x l IH]; intros items; cbn [p_all fold_right first_some].
  - intros [= <-]. by apply shows_ret.
  - intros (i & j & Hx & Hl & ->)%p_app_inv. eapply shows_bind; [by apply Hf| |].
    + intros [b|]; [|done]. intros _. by apply finishes_ret.
    + intros [b|]; [done|]. intros _. by apply IH.
Qed.
End shows.

(** * The parts of the scan *)

Section refinement.
Context `{RB : RequestBody} `{DT : !Detector} `{SS : !ScanServices} `{OP : !Opinion}.
Context (max_depth min_run : Z) (client_ip correlation_id : string).

#[local] Abbreviation shows := (shows max_depth min_run).

Ltac finish :=
  repeat lazymatch goal with
  | |- finishes _ (bind _ _) _ => apply finishes_bind; [|intros ?]
  | |- finishes _ (when _ _) _ => apply finishes_when
  | |- finishes _ (d_io (_log_detected_component _ _ _ _)) _ => apply finishes_log
  | |- finishes _ (match ?x with Some _ => _ | None => _ end) _ => destruct x
  | |- finishes _ (ret _) _ => apply finishes_ret
  end.

Section pieces.
Context (check : probe -> D (finding * option string)) (spec : probe -> option (list item)) (N : Z).
Context (Hcheck : forall p i, spec p = Some i -> shows N (check p) (fun d r => detected (fst r) = d) i).

Lemma shows_component p name l i : spec p = Some i ->
  shows N (_check_request_component client_ip check p name l) (fun d f => detected f = d) i.
Proof using Hcheck.
  intros Hp. eapply shows_then; [by apply Hcheck| |]; intros [f o] Hf; cbn [fst] in Hf.
  - by finish.
  - rewrite Hf. cbn [when]. by apply shows_ret.
Qed.

Lemma shows_name name ctx label cats l preview i : spec (name_probe name ctx cats preview) = Some i ->
  shows N (_scan_component_name client_ip check name ctx label cats l preview) (fun d f => detected f = d) i.
Proof using Hcheck. apply shows_component. Qed.

Lemma shows_field v label cats l sb display ctx preview sp i :
  body_field_items max_depth spec cats sb ctx v label sp display preview = Some i ->
  shows N (_scan_body_field client_ip check v label cats l sb display ctx preview sp) (fun d f => detected f = d) i.
Proof using Hcheck.
  intros (shown & Hs & Hp)%p_res_inv. unfold _scan_body_field. eapply shows_redacting; [exact Hs|]. cbv zeta.
  eapply shows_then; [by apply shows_component| |]; cbn beta; intros f Hf; rewrite Hf; cbn [negb].
  - by finish.
  - by apply shows_ret.
Qed.

Section json.
Context (ex : list string) (cats : option (list string)) (l : option level) (sb : list string) (ctx : string)
  (preview : option string) (rk : bool) (sp : list string).

#[local] Abbreviation items_of := (json_items max_depth spec ex cats sb ctx preview rk sp).

Definition frame_items (f : frame) : option (list item) :=
  match f with
  | FEntry key x depth redact =>
      if in_list (lower key) ex then Some []
      else if mongo_operator_key key then Some [Found]
      else p_app (key_items spec cats ctx rk key) (items_of x key (depth + 1) (redact || in_list (lower key) sb))
  | FValue current label depth redact => items_of current label depth redact
  end.

Lemma p_all_map {A B} (f : B -> option (list item)) (g : A -> B) xs : p_all f (map g xs) = p_all (fun x => f (g x)) xs.
Proof using Type. induction xs as [|x xs IH]; [done|]. cbn [map p_all fold_right]. f_equal. exact IH. Qed.

Lemma p_all_ext {A} (f g : A -> option (list item)) xs : (forall x, f x = g x) -> p_all f xs = p_all g xs.
Proof using Type. intros H. induction xs as [|x xs IH]; [done|]. cbn [p_all fold_right]. rewrite H. f_equal. exact IH. Qed.

Lemma p_all_app {A} (f : A -> option (list item)) xs ys i j :
  p_all f xs = Some i -> p_all f ys = Some j -> p_all f (xs ++ ys) = Some (i ++ j).
Proof using Type.
  revert i. induction xs as [|x xs IH]; cbn [app p_all fold_right]; [by intros i [= <-]|].
  intros ? (a & b & Hx & Hxs & ->)%p_app_inv Hys. unfold p_all in *. rewrite Hx, (IH b Hxs Hys). cbn. by rewrite app_assoc.
Qed.

Lemma items_container current label depth redact : is_container current = true ->
  items_of current label depth redact =
    if max_depth <=? depth
    then p_res (redacted_dump sb sp max_depth current) (fun display =>
      body_field_items max_depth spec cats sb ctx (dumps_compact current) label [] (Some display) (hidden_preview preview redact))
    else p_all frame_items (parts_of current label depth redact).
Proof using Type.
  destruct current as [| | | | |xs|members]; try done; intros _; cbn [json_items parts_of]; destruct (max_depth <=? depth); try done;
    rewrite p_all_map; [done|]. apply p_all_ext. by intros [key x].
Qed.

(** A frame is looked at in part; the rest of it are frames. *)
Lemma shows_frame top i : frame_items top = Some i -> exists j more k,
  i = j ++ k /\ p_all frame_items more = Some k /\
  shows N (scan_frame client_ip check ex cats l sb ctx preview rk sp max_depth top)
    (fun d r => match r with inl f => detected f = true /\ d = true | inr more' => d = false /\ more' = more end) j.
Proof using Hcheck.
  destruct top as [key x depth redact|current label depth redact]; cbn [frame_items scan_frame].
  - unfold _scan_json_entry_frame, _scan_json_dict_entry_key. destruct (in_list (lower key) ex).
    { intros [= <-]. exists [], [], []. split_and!; [done..|]. rewrite bind_ret_l. by apply shows_ret. }
    destruct (mongo_operator_key key).
    { intros [= <-]. exists [Found], [], []. split_and!; [done..|]. rewrite bind_ret_l. apply shows_found. by apply (finishes_ret _ (inl (_mongo_operator_key_hit key))). }
    intros (a & b & Ha & Hb & ->)%p_app_inv. exists a, [FValue x key (depth + 1) (redact || in_list (lower key) sb)], b.
    split_and!; [done|cbn [p_all fold_right frame_items]; rewrite Hb; cbn [p_app]; by rewrite app_nil_r|].
    eapply shows_then with (post1 := fun d r => match r with Some f => detected f = d | None => False end);
      [eapply shows_then; [by apply shows_name| |]| |].
    + cbn beta. intros f Hf. rewrite Hf. by finish.
    + cbn beta. intros f Hf. rewrite Hf. by apply shows_ret.
    + intros [f|] Hf; [|done]. rewrite Hf. by finish.
    + intros [f|] Hf; [|done]. rewrite Hf. by apply shows_ret.
  - destruct (is_container current) eqn:Hc.
    + rewrite (items_container _ _ _ _ Hc). unfold _scan_json_container_frame. destruct (max_depth <=? depth).
      * intros Hi. exists i, [], []. rewrite app_nil_r. split_and!; [done..|].
        eapply shows_then with (post1 := fun d f => detected f = d); [|cbn beta; intros f Hf; rewrite Hf; by finish|cbn beta; intros f Hf; rewrite Hf; by apply shows_ret].
        unfold _scan_capped_json_subtree. eapply shows_after; [apply shows_warn_depth|]. intros _ _.
        apply p_res_inv in Hi as (display & Hd & Hi). eapply shows_redacting; [exact Hd|]. by apply shows_field.
      * intros Hi. exists [], (parts_of current label depth redact), i. split_and!; [done..|]. by apply shows_ret.
    + intros Hi. exists i, [], []. rewrite app_nil_r. split_and!; [done..|]. unfold scan_json_leaf.
      eapply shows_then with (post1 := fun d f => detected f = d); [apply shows_field|cbn beta; intros f Hf; rewrite Hf; by finish|cbn beta; intros f Hf; rewrite Hf; by apply shows_ret].
      by destruct current.
Qed.

(** The stack machine looks at what the recursion on the values says. *)
Lemma shows_stack fuel stack i : (stack_size stack <= fuel)%nat -> p_all frame_items stack = Some i ->
  shows N (scan_stack client_ip check ex cats l sb ctx preview rk sp fuel max_depth stack) (fun d f => detected f = d) i.
Proof using Hcheck.
  revert stack i. induction fuel as [|fuel IH]; intros [|top stack] i Hs; cbn [scan_stack].
  - intros [= <-]. by apply shows_ret.
  - exfalso. rewrite stack_size_cons in Hs. destruct top as [|[] ? ? ?]; cbn in Hs; lia.
  - intros [= <-]. by apply shows_ret.
  - rewrite stack_size_cons in Hs. cbn [p_all fold_right]. intros (a & b & Ha & Hb & ->)%p_app_inv.
    destruct (shows_frame top a Ha) as (j & more & k & -> & Hk & Hm). rewrite <- app_assoc.
    intros s bu Hroom. destruct (Hm s bu) as (r & s1 & b1 & He & Hp & Hcap & Hsp); [by eapply room_left|].
    pose proof (frame_shrinks client_ip check ex cats l sb ctx preview rk sp max_depth top (s, bu) r) as Hsize.
    rewrite He in Hsize. specialize (Hsize eq_refl). rewrite (bind_ok _ _ _ _ _ He), hit_app. destruct r as [f|more'].
    + destruct Hp as [Hf Hd]. rewrite Hd. cbn [orb]. exists f, s1, b1. split_and!; [done..|]. by intros.
    + destruct Hp as [Hd ->]. rewrite Hd. cbn [orb]. specialize (Hsp Hd).
      destruct (IH (more ++ stack) (k ++ b)) with (s := s1) (b := b1) as (f & s2 & b2 & Hf & Hpf & Hcap2 & Hs2).
      * rewrite stack_size_app. lia.
      * by apply p_all_app.
      * by eapply room_right.
      * exists f, s2, b2. split_and!; [done..|]. intros H. eapply spent_app; eauto.
Qed.

Lemma shows_json value label i : items_of value label 1 false = Some i ->
  shows N (_scan_json_value client_ip check ex cats l sb ctx preview rk sp value label) (fun d f => detected f = d) i.
Proof using Hcheck.
  intros Hi. unfold _scan_json_value. apply (shows_depth _ _ _ (fun cap => _)). apply shows_stack; [cbn; lia|].
  cbn. unfold frame_items. rewrite Hi. cbn. by rewrite app_nil_r.
Qed.
End json.

(** The JSON text in a text, which is checked before the text. *)
Lemma shows_parse v : refused v = false ->
  shows N (_parse_embedded_json client_ip v) (fun d r => d = false /\ r = container_in v) [].
Proof using Type.
  unfold refused, _parse_embedded_json, container_in. destruct (json_loads v) as [data|e]; [intros _; by apply shows_ret|].
  destruct (is_json_decode_error e); [intros _; by apply shows_ret|]. destruct (is_recursion_error e); [intros _|done].
  eapply shows_after; [apply shows_warn_depth|]. intros _ _. by apply shows_ret.
Qed.

Lemma shows_embedded p i :
  (if negb (pb_scan_embedded_json p) || (pb_context p =? "request_body")%string then Some []
   else if refused (pb_value p) then None
   else match container_in (pb_value p) with
        | Some data =>
            p_res (embedded_display max_depth p data) (fun _ =>
            json_items max_depth spec (pb_excluded_body_fields p) (pb_categories p) (pb_sensitive_body_fields p)
              (pb_context p +:+ _EMBEDDED_JSON_LEAF_CONTEXT_SUFFIX)
              (if _resolve_json_redact_all p then Some "[REDACTED]" else None) (_resolve_json_redact_all p)
              (pb_sensitive_params p) data "" 1 false)
        | None => Some []
        end) = Some i ->
  shows N (_check_embedded_json_if_applicable client_ip check p)
    (fun d r => match r with Some x => detected (fst x) = true /\ d = true | None => d = false end) i.
Proof using Hcheck.
  unfold _check_embedded_json_if_applicable. destruct (negb _ || _); [by intros [= <-]; apply shows_ret|].
  destruct (refused (pb_value p)) eqn:Hr; [done|]. intros Hi. unfold _check_embedded_json.
  eapply shows_then with (post1 := fun d r => match r with Some x => detected (fst x) = d | None => d = false end).
  - eapply shows_after; [by apply shows_parse|]. cbn beta. intros parsed ->.
    destruct (container_in (pb_value p)) as [data|]; [|injection Hi as <-; by apply shows_ret].
    apply p_res_inv in Hi as (shown & Hshown & Hi).
    eapply shows_then; [by apply shows_json| |]; cbn beta; intros f Hf; rewrite Hf; cbn [negb].
    + revert Hshown. unfold _embedded_json_display, embedded_display. destruct (_resolve_json_redact_all p); intros Hshown;
        (eapply finishes_then with (P := fun _ => True); [|intros; by finish]); [by finish|by eapply finishes_redacting].
    + by apply shows_ret.
  - intros [[f o]|] Hf; [|done]. cbn [fst] in Hf. rewrite Hf. by finish.
  - intros [[f o]|] Hf; [cbn [fst] in Hf; rewrite Hf|]; by apply shows_ret.
Qed.
End pieces.

(** ** One text *)

Lemma ask_opinion p s b : exists r s', ask_detector client_ip correlation_id p (s, b) = (Ok r, (s', b)) /\
  detected (fst r) = dangerous (pb_value p) (pb_context p) (pb_categories p).
Proof using Type.
  destruct (detect_opinion (pb_value p) client_ip (pb_context p) correlation_id (pb_categories p) (pb_content_preview p) s)
    as (threats & s' & Hd & Hshown).
  unfold ask_detector, catch, bind, d_io, zoom. cbn [fst snd]. rewrite Hd.
  destruct (dangerous _ _ _); cbn [negb]; [|by do 2 eexists]. destruct threats as [|t threats]; [by do 2 eexists|].
  destruct (Hshown t (_json_depth_cap b) eq_refl) as [message Hm]. unfold redacting, bind, d_get, gets, lift_res. cbn [snd].
  rewrite Hm. by do 2 eexists.
Qed.

Lemma budget_left value s b :
  _scanned_value_count b + 1 <= _scan_value_cap b -> _scanned_char_count b < _scan_char_cap b ->
  exists b', _scan_budget_exhausted client_ip value (s, b) = (Ok false, (s, b')) /\
    forall context cats, spent [Shown value context cats] b b'.
Proof using Type.
  destruct b as [count cap n char_cap warned depth dwarned run cache]. cbn. intros Hv Hc.
  unfold _scan_budget_exhausted, _scan_value_budget_exhausted, _scan_char_budget_exhausted, d_set, d_get, d_io, modify, gets, bind.
  cbn. destruct (Z.leb_spec (Z.succ count) cap); [|lia]. cbn. destruct (Z.leb_spec char_cap n); [lia|]. cbn.
  eexists. split; [reflexivity|]. intros. unfold spent, values, chars. cbn. split_and!; (done || lia).
Qed.

Lemma shows_enhanced fuel sfuel p i : value_items max_depth sfuel p = Some i ->
  shows (Z.of_nat fuel) (_check_value_enhanced client_ip correlation_id (S fuel) p) (fun d r => detected (fst r) = d) i.
Proof using OP.
  revert sfuel p i. induction fuel as [fuel IH] using lt_wf_ind. intros [|sfuel] p i; [done|]. cbn [value_items].
  intros (own & sub & [= <-] & Hsub & ->)%p_app_inv s b Hroom.
  destruct (room_left _ _ _ _ _ _ Hroom) as (_ & _ & HN & Hv & Hc). cbn in Hv, Hc.
  destruct (budget_left (pb_value p) s b) as (b1 & He & Hsp); [lia|lia|]. specialize (Hsp (pb_context p) (pb_categories p)).
  cbn [_check_value_enhanced]. rewrite (bind_ok _ _ _ _ _ He). destruct fuel as [|fuel]; [lia|].
  assert (shows (Z.of_nat fuel) (_check_embedded_json_if_applicable client_ip (_check_value_enhanced client_ip correlation_id (S fuel)) p)
    (fun d r => match r with Some x => detected (fst x) = true /\ d = true | None => d = false end) sub) as Hembedded.
  { apply shows_embedded with (spec := value_items max_depth sfuel); [|done]. intros q j Hj. apply (IH fuel ltac:(lia) sfuel q j Hj). }
  destruct (Hembedded s b1) as (r & s2 & b2 & Hr & Hp & Hcap & Hsp2).
  { pose proof (room_right _ _ _ _ _ _ _ Hroom Hsp) as (? & ? & _ & ? & ?). unfold spent in Hsp. cbn in Hsp. by repeat split; try lia. }
  rewrite (bind_ok _ _ _ _ _ Hr), hit_app. cbn [hit existsb threatening]. rewrite orb_false_r. destruct r as [x|].
  - destruct Hp as [Hx Hd]. exists x, s2, b2. rewrite Hd, orb_true_r. split_and!; [done..|]. by intros.
  - rewrite Hp, orb_false_r. destruct (ask_opinion p s2 b2) as (r & s3 & Hr3 & Hd). exists r, s3, b2. split_and!; [done..|].
    intros _. eapply spent_app; [exact Hsp|by apply Hsp2].
Qed.

Lemma shows_value N sfuel p i : value_items max_depth sfuel p = Some i ->
  shows N (check_value client_ip correlation_id p) (fun d r => detected (fst r) = d) i.
Proof using OP.
  intros Hi s b (? & ? & _ & Hroom). unfold check_value, d_get, gets, bind. cbn [fst snd].
  apply (shows_enhanced _ _ _ _ Hi). unfold room. by repeat split; try lia.
Qed.

(** ** The surfaces of a request *)

Section surfaces.
Context (N : Z) (fuel : nat) (ex : list string) (cats : option (list string)) (l : option level) (sb sp sh : list string).

#[local] Abbreviation component := (shows_component _ _ _ (shows_value N fuel)).
#[local] Abbreviation name := (shows_name _ _ _ (shows_value N fuel)).
#[local] Abbreviation field := (shows_field _ _ _ (shows_value N fuel)).

Lemma shows_default (m : D (option finding)) i :
  shows N m (fun d r => match r with Some f => detected f = true /\ d = true | None => d = false end) i ->
  shows N (let* h := m in ret (default no_finding h)) (fun d f => detected f = d) i.
Proof using Type.
  intros Hm. eapply shows_then; [exact Hm| |]; cbn beta; (intros [f|]; [intros [Hf Hd]|intros Hd]); try done.
  - by finish.
  - by apply shows_ret.
Qed.

Lemma shows_first_hit {A} (f : A -> D (option finding)) (g : A -> option (list item)) xs items :
  (forall x i, g x = Some i ->
     shows N (f x) (fun d r => match r with Some f => detected f = true /\ d = true | None => d = false end) i) ->
  p_all g xs = Some items ->
  shows N (first_some xs f) (fun d r => match r with Some f => detected f = true /\ d = true | None => d = false end) items.
Proof using Type.
  intros Hf. revert items. induction xs as [|x xs IH]; intros items; cbn [p_all fold_right first_some].
  - intros [= <-]. by apply shows_ret.
  - intros (i & j & Hx & Hl & ->)%p_app_inv. eapply shows_bind; [by apply Hf| |]; cbn beta;
      (intros [h|]; [intros [Hh Hd]|intros Hd]); try done.
    + by finish.
    + by apply IH.
Qed.

(** A finding that is only reported when it is one. *)
Lemma shows_reported (m : D finding) (g : finding -> finding) i : (forall f, detected f = true -> detected (g f) = true) ->
  shows N m (fun d f => detected f = d) i ->
  shows N (let* f := m in ret (if detected f then Some (g f) else None))
    (fun d r => match r with Some f => detected f = true /\ d = true | None => d = false end) i.
Proof using Type.
  intros Hg Hm. eapply shows_then; [exact Hm| |]; cbn beta; intros f Hf; rewrite Hf.
  - finish. by split; [apply Hg|].
  - by apply shows_ret.
Qed.

(** A finding under a name, then one under a value. *)
Lemma shows_name_value (m : D finding) (k : D (option finding)) title i j :
  shows N m (fun d f => detected f = d) i ->
  shows N k (fun d r => match r with Some f => detected f = true /\ d = true | None => d = false end) j ->
  shows N (let* f := m in if detected f then ret (Some (titled title f)) else k)
    (fun d r => match r with Some f => detected f = true /\ d = true | None => d = false end) (i ++ j).
Proof using Type.
  intros Hm Hk. eapply shows_bind; [exact Hm| |]; cbn beta; intros f Hf; rewrite Hf; [by finish|done].
Qed.

Lemma shows_scan_field nl title label value ctx i : field_items max_depth fuel cats sp sb label value ctx = Some i ->
  shows N (scan_field client_ip correlation_id cats l sb sp nl title label value ctx)
    (fun d r => match r with Some f => detected f = true /\ d = true | None => d = false end) i.
Proof using OP.
  unfold field_items. intros (a & b & Ha & Hb & ->)%p_app_inv. unfold scan_field. apply shows_name_value; [by apply name|].
  apply (shows_reported _ (fun f => f)); [done|]. by apply field.
Qed.

Lemma shows_blob raw sp' sb' force i : blob_items max_depth fuel cats raw sp' sb' force = Some i ->
  shows N (_scan_blob_body client_ip correlation_id cats l raw sp' sb' force) (fun d f => detected f = d) i.
Proof using OP.
  intros (preview & Hpreview & Hi)%p_res_inv. unfold _scan_blob_body. eapply shows_redacting; [exact Hpreview|].
  eapply shows_then; [by apply component| |]; cbn beta; intros f Hf; rewrite Hf; [by finish|by apply shows_ret].
Qed.

Lemma shows_body raw ct i : body_items max_depth min_run fuel ex cats sp sb raw ct = Some i ->
  shows N (_scan_request_body client_ip correlation_id ex cats l sb sp raw ct) (fun d f => detected f = d) i.
Proof using OP.
  unfold body_items, _scan_request_body. destruct (contains "application/x-www-form-urlencoded" (lower ct)).
  { intros Hi. apply shows_default. eapply shows_first_hit; [|exact Hi]. intros [n v] j. cbn [fst snd].
    destruct (excluded_field ex (Some n)); [by intros [= <-]; apply shows_ret|apply shows_scan_field]. }
  destruct (contains "multipart/form-data" (lower ct)).
  { unfold multipart_items, _scan_multipart_body. intros Hi. apply (shows_min_run _ _ _ (fun r => _)).
    destruct (_multipart_text_parts min_run raw ct) as [entries|]; [|by apply shows_blob].
    apply shows_default. eapply shows_first_hit; [|exact Hi]. intros [[key label] v] j. unfold _scan_multipart_part.
    destruct (excluded_field ex key); [by intros [= <-]; apply shows_ret|apply shows_scan_field]. }
  destruct (contains "json" (lower ct)); [|intros Hi; rewrite bind_ret_l; by apply shows_blob].
  unfold beyond, container_in, _scan_json_content, container. destruct (json_loads raw) as [data|e]; [destruct (is_container data)|];
    cbn [andb]; [|by intros Hi; rewrite bind_ret_l; apply shows_blob|
      by destruct (within_latin1 e); [intros Hi; rewrite bind_ret_l; apply shows_blob|]].
  intros Hi. eapply shows_then with (post1 := fun d r => match r with Some f => detected f = d | None => False end).
  - eapply shows_then; [apply (shows_json _ _ _ (shows_value N fuel)); exact Hi| |]; cbn beta; intros f Hf; [by finish|by apply shows_ret].
  - intros [f|] Hf; [|done]. by finish.
  - intros [f|] Hf; [|done]. by apply shows_ret.
Qed.

Lemma shows_query excluded_params request i : query_items max_depth fuel ex cats sp sb sh excluded_params (rq_query_params request) = Some i ->
  shows N (_scan_query_params client_ip correlation_id ex sp sb sh request excluded_params cats l) (fun d f => detected f = d) i.
Proof using OP.
  intros Hi. apply shows_default. eapply shows_first_hit; [|exact Hi]. intros [key value] j. unfold scan_query_param.
  destruct (in_list (lower key) excluded_params); [by intros [= <-]; apply shows_ret|].
  intros (shown & Hshown & (a & b & Ha & (preview & Hpreview & Hb)%p_res_inv & ->)%p_app_inv)%p_res_inv.
  eapply shows_redacting; [exact Hshown|]. apply shows_name_value; [by apply name|].
  apply (shows_reported _ (titled _)); [done|]. unfold _scan_query_param_value. eapply shows_redacting; [exact Hpreview|].
  eapply shows_then; [by apply component| |]; cbn beta; intros f Hf.
  - by finish.
  - rewrite Hf. by apply shows_ret.
Qed.
End surfaces.

Lemma shows_plain_header N fuel key value cats l preview sb ex sp sh i :
  plain_header_items max_depth fuel key value cats preview sb ex sp sh = Some i ->
  shows N (_scan_normal_header_component client_ip correlation_id key value cats l preview sb ex sp sh)
    (fun d r => match r with Some f => detected f = true /\ d = true | None => d = false end) i.
Proof using OP.
  unfold plain_header_items. intros (a & b & Ha & (shown & Hshown & Hb)%p_res_inv & ->)%p_app_inv. apply shows_name_value.
  - apply (shows_name _ _ _ (shows_value N fuel)). exact Ha.
  - eapply shows_redacting; [exact Hshown|]. apply (shows_reported _ _ (titled _)); [done|].
    by apply (shows_component _ _ _ (shows_value N fuel)).
Qed.

Lemma shows_excluded_header N fuel key value cats l sp sb ex sh i :
  excluded_header_items max_depth fuel key value cats sp sb ex sh = Some i ->
  shows N (_scan_excluded_header_component client_ip correlation_id key value cats l sp sb ex sh)
    (fun d r => match r with Some f => detected f = true /\ d = true | None => d = false end) i.
Proof using OP.
  unfold excluded_header_items, _scan_excluded_header_component.
  assert (match _excluded_header_effective_categories key value cats with
    | Some [] => Some [] | effective => plain_header_items max_depth fuel key value effective None sb ex sp sh end = Some i ->
    shows N (match _excluded_header_effective_categories key value cats with
      | Some [] => ret None
      | effective => _scan_normal_header_component client_ip correlation_id key value effective l None sb ex sp sh end)
      (fun d r => match r with Some f => detected f = true /\ d = true | None => d = false end) i) as Hrest.
  { destruct (_excluded_header_effective_categories key value cats) as [[|c cs]|];
      [by intros [= <-]; apply shows_ret|apply shows_plain_header..]. }
  destruct (match cats with None => true | Some cs => _ end); [|rewrite bind_ret_l; exact Hrest].
  unfold command_items. destruct (_check_always_scan_header max_depth key) as [f|e] eqn:Hkey; [|done].
  assert (forall (m : D (option finding)) k, finishes max_depth m (fun r => match r with Some f => detected f = true | None => False end) ->
    shows N (let* always := m in match always with Some f => ret (Some f) | None => k end)
      (fun d r => match r with Some f => detected f = true /\ d = true | None => d = false end) [Found]) as Hfound.
  { intros m k Hm. apply shows_found. eapply finishes_then; [exact Hm|]. intros [h|] Hh; [|done]. by finish. }
  destruct (detected f) eqn:Hf.
  { intros [= <-]. apply Hfound. eapply finishes_then with (P := fun x => x = f); [by eapply finishes_redacting|].
    intros ? ->. rewrite Hf. by finish. }
  destruct (_check_always_scan_header max_depth value) as [g|e] eqn:Hvalue; [|done]. destruct (detected g) eqn:Hg.
  { intros (shown & Hshown & [= <-])%p_res_inv. apply Hfound. eapply finishes_then with (P := fun x => x = f); [by eapply finishes_redacting|].
    intros ? ->. rewrite Hf. eapply finishes_then with (P := fun x => x = g); [by eapply finishes_redacting|].
    intros ? ->. rewrite Hg. eapply finishes_then with (P := fun _ => True); [by eapply finishes_redacting|]. intros. by finish. }
  intros Hi. eapply shows_after with (P := fun r => r = None); [|intros ? ->; by apply Hrest].
  eapply shows_redacting; [exact Hkey|]. rewrite Hf. eapply shows_redacting; [exact Hvalue|]. rewrite Hg. by apply shows_ret.
Qed.

Lemma shows_header N fuel excluded_headers cats l sh sb ex sp h i :
  header_items max_depth fuel excluded_headers cats sh sb ex sp h = Some i ->
  shows N (scan_header client_ip correlation_id excluded_headers cats l sh sb ex sp h)
    (fun d r => match r with Some f => detected f = true /\ d = true | None => d = false end) i.
Proof using OP.
  destruct h as [key value]. unfold header_items, scan_header. destruct (in_list _ sh).
  2: { destruct (in_list _ excluded_headers); [apply shows_excluded_header|apply shows_plain_header]. }
  intros Hi. unfold _scan_sensitive_header.
  eapply shows_then with (post1 := fun d r => match r with Some f => detected f = true /\ d = true | None => d = false end).
  - destruct (in_list _ excluded_headers); [by apply shows_excluded_header with (fuel := fuel)|by apply shows_plain_header with (fuel := fuel)].
  - intros [f|] Hf; [|done]. by finish.
  - intros [f|] Hf; [by destruct Hf|]. cbn [is_some when]. rewrite bind_ret_l. by apply shows_ret.
Qed.

Lemma hit_is_threat f : is_threat (hit_of f) = true.
Proof using Type. unfold hit_of, _build_detection_hit. by destruct (fold_left _ _ _). Qed.

(** What the scan of a surface reports. *)
Definition reports (d : bool) (r : option DetectionResult) : Prop :=
  match r with Some result => is_threat result = true /\ d = true | None => d = false end.

Lemma shows_surface N fuel request ep eh cats l sh sp sb ex i :
  surface_items max_depth fuel request ep eh cats sh sp sb ex = Some i ->
  shows N (_scan_request_surface client_ip correlation_id request ep eh cats l sh sp sb ex) reports i.
Proof using OP.
  unfold surface_items. intros (a & bc & Ha & (b & c & Hb & Hc & ->)%p_app_inv & ->)%p_app_inv. unfold _scan_request_surface.
  eapply shows_bind; [by apply shows_query with (fuel := fuel)| |]; cbn beta; intros f Hf; rewrite Hf; [finish; by split; [apply hit_is_threat|]|].
  apply p_res_inv in Hb as (shown & Hshown & Hb). eapply shows_redacting; [exact Hshown|].
  eapply shows_bind; [by apply (shows_component _ _ _ (shows_value N fuel))| |]; cbn beta; intros f' Hf'; rewrite Hf'; [finish; by split; [apply hit_is_threat|]|].
  eapply shows_then with (post1 := fun d f => detected f = d).
  - apply shows_default. eapply shows_first_hit; [|exact Hc]. intros h j Hj. by apply shows_header with (fuel := fuel).
  - intros g Hg. rewrite Hg. finish. by split; [apply hit_is_threat|].
  - intros g Hg. rewrite Hg. by apply shows_ret.
Qed.
End refinement.

(** * The scan of a request *)

Section verdict.
Context `{RB : RequestBody} `{DT : !Detector} `{SS : !ScanServices} `{OP : !Opinion}.

(** The body, when reading it neither depends on what happened before nor raises. *)
Definition body_is (request : Request) (config : option SecurityConfig) (prefix : option (Z * string)) (body : option string) : Prop :=
  forall ip s, fst (_read_capped_body request config ip (s, prefix)) = Ok body.

Lemma shows_body_surface ip corr request config rc fuel ex cats l sb sp s b body i :
  body_is request config (body_prefix b) body ->
  (if _resolve_scan_body config rc
   then match body with
        | Some bytes => body_items (_json_depth_cap b) (_binary_min_run b) fuel ex cats sp sb (decode_surrogateescape bytes) (header_or request "content-type" "")
        | None => Some []
        end
   else Some []) = Some i ->
  room (_json_depth_cap b) (_binary_min_run b) (_scan_value_cap b - _scanned_value_count b) i b ->
  exists r p, _scan_body_surface ip corr request config rc ex cats l sb sp (s, b) = (Ok r, p) /\ is_threat r = hit i.
Proof using Type.
  intros Hbody Hi Hroom. unfold _scan_body_surface. destruct (_resolve_scan_body config rc); cbn [negb].
  2: { injection Hi as <-. by do 2 eexists. }
  specialize (Hbody ip s). unfold bind at 1, zoom. cbn [fst snd].
  destruct (_read_capped_body request config ip (s, body_prefix b)) as [r [s1 prefix]]. cbn [fst snd] in *. subst r.
  destruct body as [bytes|]; [|injection Hi as <-; by do 2 eexists].
  eapply shows_body in Hi. destruct (Hi s1 (b {{ body_prefix := prefix }})) as (f & s2 & b2 & He & Hf & _ & _); [exact Hroom|].
  rewrite (bind_ok _ _ _ _ _ He). do 2 eexists. split; [reflexivity|]. rewrite <- Hf.
  destruct (detected f); [apply hit_is_threat|done].
Qed.

Lemma within_budget_verdict ip corr request config rc fuel body items s b :
  body_is request config (body_prefix b) body ->
  request_items fuel request config rc body = Some items ->
  values items <= _resolve_max_scan_values config -> chars items < _resolve_max_scan_chars config ->
  exists r p, scan_within_budget ip corr request config rc (s, b) = (Ok r, p) /\ is_threat r = hit items.
Proof using Type.
  intros Hbody (i & j & Hi & Hj & ->)%p_app_inv Hv Hc. unfold scan_within_budget, _scan_value_budget. cbv zeta. cbn [fst snd].
  set (b0 := mkBudget _ _ _ _ _ _ _ _ _).
  assert (room (_json_depth_cap b0) (_binary_min_run b0) (_resolve_max_scan_values config) (i ++ j) b0) as Hroom.
  { unfold room. cbn. repeat split; try done; lia. }
  eapply shows_surface with (min_run := _binary_min_run b0) in Hi.
  destruct (Hi s b0) as (r & s1 & b1 & He & Hr & _ & Hsp); [by eapply room_left|].
  rewrite (bind_ok _ _ _ _ _ He), hit_app. destruct r as [r|]; cbn [reports] in Hr.
  - destruct Hr as [Hr ->]. by do 2 eexists.
  - rewrite Hr. specialize (Hsp Hr). pose proof (room_right _ _ _ _ _ _ _ Hroom Hsp) as Hroom1.
    destruct Hsp as (Hd & Hm & _ & _ & Hprefix & _).
    edestruct (shows_body_surface ip corr request config rc fuel) with (s := s1) (b := b1) as (r & q & Hq & Ht).
    + by rewrite Hprefix.
    + rewrite Hd, Hm. exact Hj.
    + rewrite Hd, Hm. destruct Hroom1 as (? & ? & _ & ?). by repeat split; try lia.
    + rewrite Hq. destruct q as [s2 b2]. by do 2 eexists.
Qed.

Lemma detect_verdict request cached config rc fuel body items s b :
  match config with Some c => forall s', fst (ensure_configured c s') = Ok tt | None => True end ->
  body_is request config (body_prefix b) body ->
  request_items fuel request config rc body = Some items ->
  values items <= _resolve_max_scan_values config -> chars items < _resolve_max_scan_chars config ->
  exists r p, detect_penetration_attempt request cached config rc (s, b) = (Ok r, p) /\ is_threat r = hit items.
Proof.
  intros Hconf Hbody Hitems Hv Hc. unfold detect_penetration_attempt.
  assert (exists ip s1, (match config with Some c => d_io (ensure_configured c) | None => ret tt end ;;;
    match config with
    | Some c => d_io (extract_client_ip request cached c false)
    | None => ret (match rq_client_host request with Some (String _ _ as host) => _canonicalize_ip host | _ => UNKNOWN_CLIENT_IDENTITY end)
    end) (s, b) = (Ok ip, (s1, b))) as (ip & s1 & Hip).
  { destruct config as [c|]; [|by do 2 eexists]. specialize (Hconf s). unfold bind, d_io, zoom. cbn [fst snd].
    destruct (ensure_configured c s) as [r s1]. cbn [fst] in Hconf. subst r. cbn [fst snd].
    destruct (extract_client_ip_ok request cached c false s1) as [ip Hip]. exists ip.
    destruct (extract_client_ip request cached c false s1) as [r s2]. cbn [fst] in Hip. subst r. by eexists. }
  apply bind_ok_inv in Hip as ([] & p & Hc1 & Hip). rewrite (bind_ok _ _ _ _ _ Hc1), (bind_ok _ _ _ _ _ Hip).
  unfold bind, d_io, zoom, draw_uuid. cbn [fst snd]. by eapply within_budget_verdict.
Qed.

(** C10: the scan is right.  When the pattern handler's opinion depends on the text, its
    context and the categories alone, and the budget is enough for the pieces of the
    request, and what is shown of them can be redacted, the scan returns, and it reports a threat exactly when one of the pieces is
    dangerous: every parameter, header, field and JSON leaf that is not excluded is
    looked at, none that is excluded is, and the search through JSON texts in texts with
    a stack, the budgets and the early ends lose nothing. *)
Theorem scan_verdict request cached config rc fuel body items s b :
  match config with Some c => forall s', fst (ensure_configured c s') = Ok tt | None => True end ->
  body_is request config (body_prefix b) body ->
  request_items fuel request config rc body = Some items ->
  values items <= _resolve_max_scan_values config -> chars items < _resolve_max_scan_chars config ->
  exists r p, detect_penetration_attempt request cached config rc (s, b) = (Ok r, p) /\ is_threat r = hit items.
Proof. apply detect_verdict. Qed.
End verdict.
