(* ===== verification/SampleScan.v ===== *)
(** A pattern handler, an adapter and a redactor to run the scan with, and the scan of
    some requests. *)
From S2P Require Import Prelude PyStr PyDict Json IpAddr Sys Sample Config Redaction RedactionFacts RedactionSpec Request IpExtraction AccessControl JsonPattern.
From S2P Require Import Url DetectionConfig BodyReader Scan ScanFacts ScanSpec.

#[local] Open Scope Z_scope.

#[export] Instance scan_env : Env := sample_env (ticking 1000) redis_up.

(** The body of every request. *)
Definition sample_body : string := "{'user': {'name': 'eve', 'bio': '<script>alert(1)</script>'}}".

(** Double quotes for the single ones. *)
Definition quoted (s : string) : string := replace_char apostrophe quote s.

#[export] Instance scan_body : RequestBody := {|
  request_body := fun _ => ret (Some (quoted sample_body));
  read_request_prefix := fun _ => Some (fun n => ret (Some (bytes_prefix n (quoted sample_body))))
|}.

(** It counts how often it is asked in [redis_calls]. *)
Definition markup (content : string) (categories : option (list string)) : bool :=
  contains "<script" content && match categories with None => true | Some l => in_list "xss" l end.

#[export] Instance scan_detector : Detector := {|
  ensure_configured := fun _ => ret tt;
  detect := fun content _ _ _ cats _ s => (Ok (markup content cats, []), s {{ redis_calls ::= S }});
  get_all_compiled_patterns := ret [("<script", "xss")];
  check_regex_pattern := fun pattern content _ _ _ _ => ret (if contains pattern content then Some (RegexThreat pattern pattern 0 "xss" None) else None, false)
|}.

#[export] Instance scan_services : ScanServices := {|
  decode_surrogateescape := id;
  parse_multipart := fun _ _ => None;
  sensitive_unions := ([], [], []);
  show_score := string_of_Z;
  always_scan_match := fun s => if contains "() {" s then Some ("shellshock", "() {", 0) else None;
  scan_texts := sample_texts
|}.

#[export] Instance sample_text_laws : TextLaws := sample_texts_laws.

#[export] Instance scan_opinion : Opinion.
Proof.
  refine {| dangerous := fun content _ cats => markup content cats |}. intros. exists [], (s {{ redis_calls ::= S }}). by split.
Defined.

Definition profile_post : Request :=
  {| rq_path := "/profile"; rq_scheme := "https"; rq_method := "POST"; rq_client_host := Some "198.51.100.7";
     rq_headers := [("Content-Type", "application/json"); ("X-Trace", "1")]; rq_query_params := [("next", "/home")];
     rq_https_url := "https://app.example/profile"; rq_url_full := "https://app.example/profile?next=/home" |}.

(** The biography is the leaf that is dangerous, unless its field is excluded. *)
Definition markup_only : SecurityConfig := default_config {{ enabled_detection_categories := ["xss"] }}.
Definition bios_allowed : SecurityConfig := markup_only {{ excluded_detection_body_fields := ["bio"] }}.

Definition scanned (config : SecurityConfig) : option (list item) :=
  request_items 5 profile_post (Some config) None (Some (quoted sample_body)).

Definition xss_only (texts : list (string * string)) : list item := map (fun p => Shown (fst p) (snd p) (Some ["xss"])) texts.

Definition until_the_bio : list (string * string) :=
  [("next", "query_param:next"); ("/home", "query_param:next"); ("/profile", "url_path");
   ("Content-Type", "header:Content-Type"); ("application/json", "header:Content-Type");
   ("X-Trace", "header:X-Trace"); ("1", "header:X-Trace");
   ("user", "request_body:user"); ("name", "request_body:name"); ("eve", "request_body")].

Example profile_items :
  scanned markup_only = Some (xss_only (until_the_bio ++ [("bio", "request_body:bio"); ("<script>alert(1)</script>", "request_body")])) /\
  scanned bios_allowed = Some (xss_only until_the_bio).
Proof. vm_compute. split; reflexivity. Qed.

Definition fresh : Sys * Budget := (sample_sys (ticking 1000) redis_up, Budget_default).

(** The scan finds the biography. *)
Lemma scan_verdict_witness :
  exists r p, detect_penetration_attempt profile_post None (Some markup_only) None fresh = (Ok r, p) /\ is_threat r = true.
Proof.
  pose (items := xss_only (until_the_bio ++ [("bio", "request_body:bio"); ("<script>alert(1)</script>", "request_body")])).
  replace true with (hit items) by (vm_compute; reflexivity).
  apply (scan_verdict profile_post None (Some markup_only) None 5 (Some (quoted sample_body)) items (fst fresh) (snd fresh)).
  - intros s. reflexivity.
  - intros ip s. vm_compute. reflexivity.
  - vm_compute. reflexivity.
  - vm_compute. discriminate.
  - vm_compute. reflexivity.
Defined.

(** A parameter of many digits is a JSON text that raises: the scan of the request ends
    before the dangerous parameter after it. *)
Definition many_digits : Request :=
  profile_post {{ rq_query_params := [("n", String.concat "" (repeat "9" 4301)); ("q", "<script>")] }}.

(** A path of one bracket is no URL that can be shown. *)
Definition bracket_path : Request := profile_post {{ rq_path := "//[" }} {{ rq_query_params := [] }}.

Definition scan_error (e : exn) : Prop := json_error e \/ e = BeyondLatin1 \/ e = RecursionError \/ e = ord_error \/ url_error e.


Definition times_asked (s : Sys) : Z := Z.of_nat (redis_calls s).

Lemma scan_calls_bounded_witness :
  times_asked (fst (snd (scan_within_budget "198.51.100.7" "" profile_post (Some markup_only) None fresh))) = 12 /\
  times_asked (fst (snd (scan_within_budget "198.51.100.7" "" profile_post (Some markup_only) None fresh))) <= 0 + 512.
Proof.
  split; [vm_compute; reflexivity|].
  apply (scan_calls_bounded times_asked "198.51.100.7" "" profile_post (Some markup_only) None); try done.
  - intros request read n s [= <-]. reflexivity.
  - intros a b c d f g s. change (Z.of_nat (S (redis_calls s)) <= Z.of_nat (redis_calls s) + 1). lia.
Defined.

(** ** A depth of one

    With [detection_max_json_depth = 1], which the configuration allows, the root of a
    JSON text is already too deep, and is scanned as a text, which is that JSON text
    again: a single parameter uses up the whole budget of values. *)
Definition depth_one : SecurityConfig := markup_only {{ detection_max_json_depth := 1 }} {{ detection_max_scan_values := 20 }}.

Definition parameter (value : string) : Request :=
  profile_post {{ rq_headers := [] }} {{ rq_query_params := [("q", value); ("r", "<script>")] }}.

Definition verdict_of (config : SecurityConfig) (request : Request) : option bool :=
  match fst (detect_penetration_attempt request None (Some config) None fresh) with
  | Ok r => Some (is_threat r)
  | Raise _ => None
  end.

Example depth_one_spends_the_budget :
  verdict_of depth_one (parameter "{}") = Some false /\
  verdict_of depth_one (parameter "ok") = Some true /\
  verdict_of (depth_one {{ detection_max_json_depth := 2 }}) (parameter "{}") = Some true.
Proof. vm_compute. repeat split; reflexivity. Qed.
