(* ===== verification/LiveConfig.v ===== *)
(** The live configuration ([guard_core/models.py] with [_config_field_revalidators.py],
    [_security_config_field_validators.py] and [_security_config_geo_validators.py]):
    assignment to a field of a [SecurityConfig] in use, the validators that run
    again at each assignment, and the revision counter the pipeline watches.

    Values have the types of their fields, so the type tests of the validators do
    not appear, and a field whose assignment is tested for its type alone has no
    constructor below, unless the dynamic rules assign it.  Python warnings
    ([warnings.warn]) are not part of the state. *)
From S2P Require Import Prelude PyStr PyDict IpAddr IpAddrText Sys Sample Config Redaction PathMatching Cloud AccessControl.
From S2P Require Import Json Url Request JsonPattern DetectionConfig BodyReader Scan SampleScan.

(** * Validators *)

(** [_validate_ip_or_cidr_list] *)
Definition _validate_ip_or_cidr (invalid_message : string) (allow_unix : bool) (entry : string) : res string :=
  if allow_unix && (entry =? "unix")%string then Ok "unix"
  else
    match (if has_char "/" entry then option_map string_of_net (ip_network entry)
           else option_map string_of_ip (ip_address entry)) with
    | Some text => Ok text
    | None => Raise (ValueError (invalid_message +:+ ": " +:+ entry))
    end.

(** [for entry in v: validated.append(...)] *)
Fixpoint res_each {A B} (f : A -> res B) (l : list A) : res (list B) :=
  match l with
  | [] => Ok []
  | x :: l' =>
      match f x with
      | Raise e => Raise e
      | Ok y => match res_each f l' with Ok l'' => Ok (y :: l'') | Raise e => Raise e end
      end
  end.

Definition _validate_ip_or_cidr_list (invalid_message : string) (allow_unix : bool) (v : list string)
  : res (list string) :=
  res_each (_validate_ip_or_cidr invalid_message allow_unix) v.

Definition _validate_whitelist_value (v : option (list string)) : res (option (list string)) :=
  match v with
  | None => Ok None
  | Some v => match _validate_ip_or_cidr_list "Invalid IP or CIDR range" false v with
              | Ok v => Ok (Some v)
              | Raise e => Raise e
              end
  end.

Definition _validate_blacklist_value (v : list string) : res (list string) :=
  _validate_ip_or_cidr_list "Invalid IP or CIDR range" false v.

Definition _validate_trusted_proxies_value (v : list string) : res (list string) :=
  _validate_ip_or_cidr_list "Invalid proxy IP or CIDR range" true v.

(** Sets are lists without repetition. *)
Definition frozenset (l : list string) : list string := remove_dups l.

Definition _validate_country_set_value (v : list string) : list string := frozenset (map upper v).

Definition VALID_CLOUD_PROVIDERS : list string := _ALL_PROVIDERS.

Definition known_provider (selector : string) : bool :=
  in_list (fst (partition_marker selector)) VALID_CLOUD_PROVIDERS.

Definition _validate_block_cloud_providers_value (v : option (list string)) : res (option (list string)) :=
  match v with
  | None => Ok None
  | Some v =>
      let result := frozenset v in
      if forallb known_provider result then Ok (Some result)
      else Raise (ValueError ("Unknown cloud providers in block_cloud_providers: " +:+
             join ", " (List.filter (fun sel => negb (known_provider sel)) result)))
  end.

Definition _validate_positive_int_field_value (field_name : string) (v : Z) : res Z :=
  if (v <? 1)%Z then Raise (ValueError (field_name +:+ " must be >= 1, got " +:+ string_of_Z v)) else Ok v.

(** One entry of [_validate_exclude_paths_value] *)
Definition _validate_exclude_path (entry : string) : res string :=
  match normalize_url_path (ustr_of entry) with
  | None => Raise (ValueError ("exclude_paths entry " +:+ entry +:+ " could not be normalized"))
  | Some normalized =>
      if negb (bool_decide (normalized = [u_slash])) then Ok entry
      else if negb (entry =? "/")%string
      then Raise (ValueError ("exclude_paths entry " +:+ entry +:+ " normalizes to the root path '/'"))
      else Ok entry
  end.

Definition _validate_exclude_paths_value (v : list string) : res (list string) := res_each _validate_exclude_path v.

(** [_validate_muted_check_logs_value], [CHECK_NAME_VALUES] *)
Definition CHECK_NAME_VALUES : list string :=
  ["authentication"; "cloud_ip_refresh"; "cloud_provider"; "custom_request"; "custom_validators"; "emergency_mode";
   "https_enforcement"; "ip_security"; "rate_limit"; "referrer"; "request_logging"; "request_size_content";
   "required_headers"; "route_config"; "suspicious_activity"; "time_window"; "user_agent"].

Definition _validate_muted_check_logs_value (v : list string) : res (list string) :=
  let result := frozenset v in
  if forallb (fun n => in_list n CHECK_NAME_VALUES) result then Ok result
  else Raise (ValueError ("Unknown check names in muted_check_logs: " +:+
         join ", " (List.filter (fun n => negb (in_list n CHECK_NAME_VALUES)) result))).

Definition EVENT_TYPE_VALUES : list string :=
  ["penetration_attempt"; "ip_blocked"; "ip_banned"; "ip_ban_failed"; "ip_unbanned"; "cloud_blocked";
   "https_enforced"; "decorator_violation"; "behavioral_violation"; "pattern_detected"; "dynamic_rule_updated";
   "dynamic_rule_applied"; "dynamic_rule_violation"; "emergency_mode_activated"; "access_denied";
   "authentication_failed"; "content_filtered"; "country_blocked"; "csp_violation"; "custom_request_check";
   "decoding_error"; "emergency_mode_block"; "geo_lookup_failed"; "path_excluded"; "pattern_added";
   "pattern_removed"; "rate_limited"; "rate_limit_script_reloaded"; "redis_connection"; "redis_error";
   "route_unresolved"; "security_bypass"; "security_headers_applied"; "user_agent_blocked"; "suspicious_request";
   "detection_engine_callback_error"; "pattern_anomaly_timeout"; "pattern_anomaly_slow_execution";
   "pattern_anomaly_statistical_anomaly"].

Definition _validate_muted_event_types_value (v : list string) : res (list string) :=
  let result := frozenset v in
  if forallb (fun n => in_list n EVENT_TYPE_VALUES) result then Ok result
  else Raise (ValueError ("Unknown event types in muted_event_types: " +:+
         join ", " (List.filter (fun n => negb (in_list n EVENT_TYPE_VALUES)) result))).

Definition METRIC_TYPE_VALUES : list string := ["response_time"; "request_count"; "error_rate"].

Definition THREAT_BAN_CONFIG_CATEGORIES : list string := ALL_DETECTION_CATEGORIES ++ ["rate_limit"].

Definition unknown_names (v known : list string) : list string := List.filter (fun n => negb (in_list n known)) v.

Definition _validate_muted_metric_types_value (v : list string) : res (list string) :=
  let result := frozenset v in
  if forallb (fun n => in_list n METRIC_TYPE_VALUES) result then Ok result
  else Raise (ValueError ("Unknown metric types in muted_metric_types: " +:+ join ", " (unknown_names result METRIC_TYPE_VALUES))).

Definition _validate_enabled_detection_categories_value (v : list string) : res (list string) :=
  let result := frozenset v in
  if forallb (fun n => in_list n ALL_DETECTION_CATEGORIES) result then Ok result
  else Raise (ValueError ("Unknown detection categories: " +:+ join ", " (unknown_names result ALL_DETECTION_CATEGORIES))).

Definition _validate_threat_ban_config_value (v : list (string * ThreatBanConfig)) : res (list (string * ThreatBanConfig)) :=
  if forallb (fun n => in_list n THREAT_BAN_CONFIG_CATEGORIES) (map fst v) then Ok v
  else Raise (ValueError ("Unknown threat categories in threat_ban_config: " +:+
         join ", " (unknown_names (map fst v) THREAT_BAN_CONFIG_CATEGORIES))).

(** [_validate_sensitive_name_set_value] *)
Definition _validate_sensitive_name_set_value (v : list string) : list string := frozenset v.

Definition _validate_dynamic_rules_cache_path_value (v : option string) : res (option string) :=
  match v with
  | None => Ok None
  | Some path => if truthy (strip path) then Ok (Some path)
                 else Raise (ValueError "dynamic_rules_cache_path must not be empty or whitespace-only")
  end.

Definition return_pattern_requires_response_body (pattern : string) : bool := negb (startswith pattern "status:").

Definition _validate_return_pattern_requires_scan `{SS : ScanServices} (pattern : string) (scan_response_body : bool) : res unit :=
  if negb (return_pattern_requires_response_body pattern) || scan_response_body then Ok tt
  else
    match _redact_pattern_source _DEFAULT_MAX_JSON_DEPTH pattern with
    | Raise e => Raise e
    | Ok shown =>
        Raise (ValueError ("return_pattern rule with pattern " +:+ repr_string shown +:+
          " requires reading the response body, but behavior_scan_response_body is False. This rule would never match: set " +:+
          "behavior_scan_response_body=True to enable response-body inspection, or use a status: pattern instead."))
    end.

(** [rule.rule_type != "return_pattern" or not rule.pattern] *)
Definition body_pattern (rule : BehaviorRuleConfig) : option string :=
  match cfg_kind rule, cfg_pattern rule with ReturnPattern, Some (String _ _ as pattern) => Some pattern | _, _ => None end.

(** * Assignment *)

(** [config.<field> = value], for the fields whose assignment does more than test the
    type of the value and store it, and those the dynamic rules assign. *)
Inductive assignment : Type :=
| Set_whitelist (v : option (list string))
| Set_blacklist (v : list string)
| Set_exempt_ips (v : list string)
| Set_trusted_proxies (v : list string)
| Set_exclude_paths (v : list string)
| Set_muted_check_logs (v : list string)
| Set_muted_event_types (v : list string)
| Set_blocked_countries (v : list string)
| Set_whitelist_countries (v : list string)
| Set_block_cloud_providers (v : option (list string))
| Set_blocked_user_agents (v : list string)
| Set_rate_limit (v : Z)
| Set_rate_limit_window (v : Z)
| Set_endpoint_rate_limits (v : list (string * (Z * Z)))
| Set_enable_penetration_detection (v : bool)
| Set_enable_ip_banning (v : bool)
| Set_enable_rate_limiting (v : bool)
| Set_enable_rate_limit_auto_ban (v : bool)
| Set_emergency_mode (v : bool)
| Set_emergency_whitelist (v : list string)
| Set_auto_ban_threshold (v : Z)
| Set_auto_ban_duration (v : Z)
| Set_geo_ip_handler (v : option GeoHandler)
| Set_ipinfo_token (v : option string)
| Set_threat_ban_config (v : list (string * ThreatBanConfig))
| Set_enabled_detection_categories (v : list string)
| Set_muted_metric_types (v : list string)
| Set_log_sensitive_headers (v : list string)
| Set_log_sensitive_params (v : list string)
| Set_log_sensitive_body_fields (v : list string)
| Set_dynamic_rules_cache_path (v : option string)
| Set_global_behavior_rules (v : list BehaviorRuleConfig)
| Set_behavior_scan_response_body (v : bool).

(** The name of the field. *)
Definition field_name (a : assignment) : string :=
  match a with
  | Set_whitelist _ => "whitelist" | Set_blacklist _ => "blacklist" | Set_exempt_ips _ => "exempt_ips"
  | Set_trusted_proxies _ => "trusted_proxies" | Set_exclude_paths _ => "exclude_paths"
  | Set_muted_check_logs _ => "muted_check_logs" | Set_muted_event_types _ => "muted_event_types"
  | Set_blocked_countries _ => "blocked_countries" | Set_whitelist_countries _ => "whitelist_countries"
  | Set_block_cloud_providers _ => "block_cloud_providers" | Set_blocked_user_agents _ => "blocked_user_agents"
  | Set_rate_limit _ => "rate_limit" | Set_rate_limit_window _ => "rate_limit_window"
  | Set_endpoint_rate_limits _ => "endpoint_rate_limits"
  | Set_enable_penetration_detection _ => "enable_penetration_detection" | Set_enable_ip_banning _ => "enable_ip_banning"
  | Set_enable_rate_limiting _ => "enable_rate_limiting" | Set_enable_rate_limit_auto_ban _ => "enable_rate_limit_auto_ban"
  | Set_emergency_mode _ => "emergency_mode" | Set_emergency_whitelist _ => "emergency_whitelist"
  | Set_auto_ban_threshold _ => "auto_ban_threshold" | Set_auto_ban_duration _ => "auto_ban_duration"
  | Set_geo_ip_handler _ => "geo_ip_handler" | Set_ipinfo_token _ => "ipinfo_token"
  | Set_threat_ban_config _ => "threat_ban_config" | Set_enabled_detection_categories _ => "enabled_detection_categories"
  | Set_muted_metric_types _ => "muted_metric_types" | Set_log_sensitive_headers _ => "log_sensitive_headers"
  | Set_log_sensitive_params _ => "log_sensitive_params" | Set_log_sensitive_body_fields _ => "log_sensitive_body_fields"
  | Set_dynamic_rules_cache_path _ => "dynamic_rules_cache_path" | Set_global_behavior_rules _ => "global_behavior_rules"
  | Set_behavior_scan_response_body _ => "behavior_scan_response_body"
  end.

(** The three that are no fields of [SecurityConfig] here are written by [write_live]. *)
Definition write (a : assignment) (c : SecurityConfig) : SecurityConfig :=
  match a with
  | Set_whitelist v => c {{ whitelist := v }}
  | Set_blacklist v => c {{ blacklist := v }}
  | Set_exempt_ips v => c {{ exempt_ips := v }}
  | Set_trusted_proxies v => c {{ trusted_proxies := v }}
  | Set_exclude_paths v => c {{ exclude_paths := v }}
  | Set_muted_check_logs v => c {{ muted_check_logs := v }}
  | Set_muted_event_types v => c {{ muted_event_types := v }}
  | Set_blocked_countries v => c {{ blocked_countries := v }}
  | Set_whitelist_countries v => c {{ whitelist_countries := v }}
  | Set_block_cloud_providers v => c {{ block_cloud_providers := v }}
  | Set_blocked_user_agents v => c {{ blocked_user_agents := v }}
  | Set_rate_limit v => c {{ rate_limit := v }}
  | Set_rate_limit_window v => c {{ rate_limit_window := v }}
  | Set_endpoint_rate_limits v => c {{ endpoint_rate_limits := v }}
  | Set_enable_penetration_detection v => c {{ enable_penetration_detection := v }}
  | Set_enable_ip_banning v => c {{ enable_ip_banning := v }}
  | Set_enable_rate_limiting v => c {{ enable_rate_limiting := v }}
  | Set_enable_rate_limit_auto_ban v => c {{ enable_rate_limit_auto_ban := v }}
  | Set_emergency_mode v => c {{ emergency_mode := v }}
  | Set_emergency_whitelist v => c {{ emergency_whitelist := v }}
  | Set_auto_ban_threshold v => c {{ auto_ban_threshold := v }}
  | Set_auto_ban_duration v => c {{ auto_ban_duration := v }}
  | Set_threat_ban_config v => c {{ threat_ban_config := v }}
  | Set_enabled_detection_categories v => c {{ enabled_detection_categories := v }}
  | Set_muted_metric_types v => c {{ muted_metric_types := v }}
  | Set_log_sensitive_headers v => c {{ log_sensitive_headers := v }}
  | Set_log_sensitive_params v => c {{ log_sensitive_params := v }}
  | Set_log_sensitive_body_fields v => c {{ log_sensitive_body_fields := v }}
  | Set_global_behavior_rules v => c {{ global_behavior_rules := v }}
  | Set_behavior_scan_response_body v => c {{ behavior_scan_response_body := v }}
  | Set_geo_ip_handler _ | Set_ipinfo_token _ | Set_dynamic_rules_cache_path _ => c
  end.

(** The ReDoS validator ([PatternCompiler.validate_pattern_safety]) and the
    geolocation handler made from an ipinfo token ([IPInfoManager]). *)
Class ConfigServices `{E : Env} : Type := {
  validate_pattern_safety : string -> M Sys (bool * string);
  IPInfoManager : string -> GeoHandler
}.

Section live.
Context `{CS : ConfigServices} `{SS : !ScanServices}.

(** A configuration in use: its fields, the geolocation handler with the token it
    may be made from, where the last dynamic rules are kept, and [_revision]. *)
Record LiveConfig : Type := mkLive {
  lc_config : SecurityConfig;
  geo_ip_handler : option GeoHandler;
  ipinfo_token : option string;
  dynamic_rules_cache_path : option string;
  dynamic_rule_interval : Z;
  _revision : Z
}.

#[local] Abbreviation L := (M (Sys * LiveConfig)).

(** [super().__setattr__(name, value)] *)
Definition write_live (a : assignment) (lc : LiveConfig) : LiveConfig :=
  match a with
  | Set_geo_ip_handler v => lc {{ geo_ip_handler := v }}
  | Set_ipinfo_token v => lc {{ ipinfo_token := v }}
  | Set_dynamic_rules_cache_path v => lc {{ dynamic_rules_cache_path := v }}
  | _ => lc {{ lc_config ::= write a }}
  end.

Definition live_get {A} (f : LiveConfig -> A) : L A := gets (fun w => f (snd w)).
Definition live_modify (f : LiveConfig -> LiveConfig) : L unit := modify (fun w => (fst w, f (snd w))).

(** [for pattern in patterns: ...] of [_validate_blocked_user_agents_value] *)
Fixpoint validate_patterns (patterns : list string) : L unit :=
  match patterns with
  | [] => ret tt
  | pattern :: patterns' =>
      let* (is_safe, reason) := sys (validate_pattern_safety pattern) in
      if negb is_safe then
        let* shown := lift_res (_redact_pattern_source _DEFAULT_MAX_JSON_DEPTH pattern) in
        raise (ValueError ("blocked_user_agents pattern rejected by ReDoS validator: " +:+
                 repr_string shown +:+ " (" +:+ reason +:+ ")"))
      else validate_patterns patterns'
  end.

(** [_FIELD_REVALIDATORS\[name\](value)] *)
Definition revalidate (a : assignment) : L assignment :=
  match a with
  | Set_whitelist v => let* v := lift_res (_validate_whitelist_value v) in ret (Set_whitelist v)
  | Set_blacklist v => let* v := lift_res (_validate_blacklist_value v) in ret (Set_blacklist v)
  | Set_exempt_ips v =>
      let* v := lift_res (_validate_ip_or_cidr_list "Invalid IP or CIDR range" false v) in ret (Set_exempt_ips v)
  | Set_trusted_proxies v =>
      let* v := lift_res (_validate_trusted_proxies_value v) in ret (Set_trusted_proxies v)
  | Set_exclude_paths v => let* v := lift_res (_validate_exclude_paths_value v) in ret (Set_exclude_paths v)
  | Set_muted_check_logs v =>
      let* v := lift_res (_validate_muted_check_logs_value v) in ret (Set_muted_check_logs v)
  | Set_muted_event_types v =>
      let* v := lift_res (_validate_muted_event_types_value v) in ret (Set_muted_event_types v)
  | Set_blocked_countries v => ret (Set_blocked_countries (_validate_country_set_value v))
  | Set_whitelist_countries v => ret (Set_whitelist_countries (_validate_country_set_value v))
  | Set_block_cloud_providers v =>
      let* v := lift_res (_validate_block_cloud_providers_value v) in ret (Set_block_cloud_providers v)
  | Set_blocked_user_agents v => validate_patterns v ;;; ret a
  | Set_auto_ban_threshold v =>
      let* v := lift_res (_validate_positive_int_field_value "auto_ban_threshold" v) in
      ret (Set_auto_ban_threshold v)
  | Set_auto_ban_duration v =>
      let* v := lift_res (_validate_positive_int_field_value "auto_ban_duration" v) in
      ret (Set_auto_ban_duration v)
  | Set_threat_ban_config v => let* v := lift_res (_validate_threat_ban_config_value v) in ret (Set_threat_ban_config v)
  | Set_enabled_detection_categories v =>
      let* v := lift_res (_validate_enabled_detection_categories_value v) in ret (Set_enabled_detection_categories v)
  | Set_muted_metric_types v => let* v := lift_res (_validate_muted_metric_types_value v) in ret (Set_muted_metric_types v)
  | Set_log_sensitive_headers v => ret (Set_log_sensitive_headers (_validate_sensitive_name_set_value v))
  | Set_log_sensitive_params v => ret (Set_log_sensitive_params (_validate_sensitive_name_set_value v))
  | Set_log_sensitive_body_fields v => ret (Set_log_sensitive_body_fields (_validate_sensitive_name_set_value v))
  | Set_dynamic_rules_cache_path v =>
      let* v := lift_res (_validate_dynamic_rules_cache_path_value v) in ret (Set_dynamic_rules_cache_path v)
  | Set_rate_limit _ | Set_rate_limit_window _ | Set_endpoint_rate_limits _ | Set_enable_penetration_detection _
  | Set_enable_ip_banning _ | Set_enable_rate_limiting _ | Set_enable_rate_limit_auto_ban _ | Set_emergency_mode _
  | Set_emergency_whitelist _ | Set_geo_ip_handler _ | Set_ipinfo_token _ | Set_global_behavior_rules _
  | Set_behavior_scan_response_body _ => ret a
  end.

(** [_geo_state_candidates]: the country rules, the handler and the token as they would
    be. *)
Definition _geo_state_candidates (a : assignment) (lc : LiveConfig)
  : list string * list string * option GeoHandler * option string :=
  let lc := write_live a lc in
  (blocked_countries (lc_config lc), whitelist_countries (lc_config lc), geo_ip_handler lc, ipinfo_token lc).

Definition _resolve_geo_ip_handler (blocked whitelist : list string) (handler : option GeoHandler)
  (token : option string) : res (option GeoHandler) :=
  match handler with
  | None =>
      if nonempty blocked || nonempty whitelist then
        match token with
        | Some (String _ _ as token) => Ok (Some (IPInfoManager token))
        | _ => Raise (ValueError "geo_ip_handler is required if blocked_countries or whitelist_countries is set")
        end
      else Ok None
  | Some handler => Ok (Some handler)
  end.

(** [_GEO_STATE_FIELDS] *)
Definition is_geo_state (a : assignment) : bool :=
  match a with
  | Set_blocked_countries _ | Set_whitelist_countries _ | Set_geo_ip_handler _ | Set_ipinfo_token _ => true
  | _ => false
  end.

(** The handler asked for is the one that is written, when the handler is assigned, and
    otherwise replaces the one in use. *)
Definition _apply_geo_ip_handler_assignment (a : assignment) : L assignment :=
  let* lc := live_get id in
  let '(blocked, whitelist, handler, token) := _geo_state_candidates a lc in
  let* resolved := lift_res (_resolve_geo_ip_handler blocked whitelist handler token) in
  match a with
  | Set_geo_ip_handler _ => ret (Set_geo_ip_handler resolved)
  | _ => live_modify (fun lc => lc {{ geo_ip_handler := resolved }}) ;;; ret a
  end.

(** [_GLOBAL_BEHAVIOR_RULE_FIELDS] *)
Definition is_behavior_rule_field (a : assignment) : bool :=
  match a with Set_global_behavior_rules _ | Set_behavior_scan_response_body _ => true | _ => false end.

(** [_validate_global_behavior_rule_assignment]: the rules and the flag as they would be. *)
Definition _validate_global_behavior_rule_assignment (a : assignment) : L unit :=
  let* c := live_get (fun lc => write a (lc_config lc)) in
  for_each (global_behavior_rules c) (fun rule =>
    match body_pattern rule with
    | Some pattern => lift_res (_validate_return_pattern_requires_scan pattern (behavior_scan_response_body c))
    | None => ret tt
    end).

(** [SecurityConfig.__setattr__]; [skip] is the context variable that
    [_set_prevalidated] sets. *)
Definition config_setattr (skip : bool) (a : assignment) : L unit :=
  let* a := (if is_geo_state a then _apply_geo_ip_handler_assignment a else ret a) in
  let* a := (if skip then ret a else revalidate a) in
  when (is_behavior_rule_field a) (_validate_global_behavior_rule_assignment a) ;;;
  live_modify (fun lc => write_live a lc {{ _revision ::= Z.succ }}).

Definition config_set (a : assignment) : L unit := config_setattr false a.
Definition _set_prevalidated (a : assignment) : L unit := config_setattr true a.
End live.

(** * A configuration stays valid *)

(** The text of an address or of a network, as the validators leave it. *)
Definition entry_valid (allow_unix : bool) (entry : string) : Prop :=
  (allow_unix = true /\ entry = "unix") \/
  (exists n, ip_network entry = Some n /\ entry = string_of_net n) \/
  (exists a, ip_address entry = Some a /\ entry = string_of_ip a /\ has_char "/" entry = false).

(** The path of an exclusion normalises, and only ["/"] itself to the root. *)
Definition exclusion_valid (entry : string) : Prop :=
  exists p, normalize_url_path (ustr_of entry) = Some p /\ (p = [u_slash] -> entry = "/").

(** Rules that match the bodies of responses come with the flag that has them read. *)
Definition body_rules_fed (c : SecurityConfig) : Prop :=
  Forall (fun rule => match body_pattern rule with
                      | Some pattern => return_pattern_requires_response_body pattern = true -> behavior_scan_response_body c = true
                      | None => True
                      end) (global_behavior_rules c).

Record config_valid (c : SecurityConfig) : Prop := {
  cv_whitelist : Forall (entry_valid false) (default [] (whitelist c));
  cv_blacklist : Forall (entry_valid false) (blacklist c);
  cv_exempt : Forall (entry_valid false) (exempt_ips c);
  cv_proxies : Forall (entry_valid true) (trusted_proxies c);
  cv_exclusions : Forall exclusion_valid (exclude_paths c);
  cv_check_logs : Forall (fun n => n ∈ CHECK_NAME_VALUES) (muted_check_logs c);
  cv_event_types : Forall (fun n => n ∈ EVENT_TYPE_VALUES) (muted_event_types c);
  cv_blocked : Forall (fun country => upper country = country) (blocked_countries c);
  cv_allowed : Forall (fun country => upper country = country) (whitelist_countries c);
  cv_providers : Forall (fun sel => fst (partition_marker sel) ∈ VALID_CLOUD_PROVIDERS)
                   (default [] (block_cloud_providers c));
  cv_threshold : (1 <= auto_ban_threshold c)%Z;
  cv_duration : (1 <= auto_ban_duration c)%Z;
  cv_ban_config : Forall (fun entry => fst entry ∈ THREAT_BAN_CONFIG_CATEGORIES) (threat_ban_config c);
  cv_categories : Forall (fun n => n ∈ ALL_DETECTION_CATEGORIES) (enabled_detection_categories c);
  cv_metric_types : Forall (fun n => n ∈ METRIC_TYPE_VALUES) (muted_metric_types c);
  cv_behavior : body_rules_fed c
}.

(** Country rules come with a geolocation handler. *)
Definition live_valid (lc : LiveConfig) : Prop :=
  config_valid (lc_config lc) /\
  (forall path, dynamic_rules_cache_path lc = Some path -> truthy (strip path) = true) /\
  (blocked_countries (lc_config lc) <> [] \/ whitelist_countries (lc_config lc) <> [] -> is_Some (geo_ip_handler lc)).

Lemma validate_entry_valid msg unix entry text :
  _validate_ip_or_cidr msg unix entry = Ok text -> entry_valid unix text.
Proof.
  unfold _validate_ip_or_cidr. destruct (unix && _) eqn:Hu.
  - intros [= <-]. apply andb_true_iff in Hu as [-> _]. by left.
  - destruct (has_char "/" entry).
    + destruct (ip_network entry) as [n|] eqn:En; [|done]. intros [= <-]. right. left. exists n. split; [|done].
      apply ip_network_text; [by eapply ip_network_wf|by eapply ip_network_scope_wf].
    + destruct (ip_address entry) as [a|] eqn:Ea; [|done]. intros [= <-]. right. right. exists a.
      pose proof (ip_address_wf _ _ Ea). pose proof (ip_address_scope_wf _ _ Ea).
      split; [by apply ip_address_text|]. split; [done|by apply string_of_ip_no_slash].
Qed.

(** The entries of a validated list can be used by the access checks. *)
Lemma entry_valid_ok entry : entry_valid false entry -> entry_ok entry.
Proof. intros [[[=] _]|[(n & Hn & _)|(a & _ & _ & Ha)]]; intros H; [by eexists|congruence]. Qed.

Lemma res_each_Forall {A B} (f : A -> res B) (P : B -> Prop) l l' :
  (forall x y, f x = Ok y -> P y) -> res_each f l = Ok l' -> Forall P l'.
Proof.
  intros Hf. revert l'. induction l as [|x l IH]; intros l'; cbn [res_each]; [by intros [= <-]|].
  destruct (f x) as [y|] eqn:Hx; [|done]. destruct (res_each f l) as [l1|]; [|done]. intros [= <-].
  constructor; [by eapply Hf|by apply IH].
Qed.

Lemma validate_list_valid msg unix v v' :
  _validate_ip_or_cidr_list msg unix v = Ok v' -> Forall (entry_valid unix) v'.
Proof. apply res_each_Forall. apply validate_entry_valid. Qed.

Lemma frozenset_Forall (P : string -> Prop) l : Forall P l -> Forall P (frozenset l).
Proof.
  unfold frozenset. rewrite !Forall_forall. intros H x Hx. apply H. by rewrite elem_of_remove_dups in Hx.
Qed.

Lemma country_set_valid v : Forall (fun c => upper c = c) (_validate_country_set_value v).
Proof. apply frozenset_Forall, Forall_map, Forall_forall. intros x _. apply upper_upper. Qed.

Lemma forallb_in_list l known :
  forallb (fun n => in_list n known) l = true -> Forall (fun n => n ∈ known) l.
Proof.
  rewrite forallb_forall. intros H. apply Forall_forall. intros x Hx%list_elem_of_In.
  by apply (bool_decide_eq_true (x ∈ known)), (H x).
Qed.

Lemma exclude_path_valid entry entry' : _validate_exclude_path entry = Ok entry' -> exclusion_valid entry'.
Proof.
  unfold _validate_exclude_path. destruct (normalize_url_path (ustr_of entry)) as [p|] eqn:Hp; [|done].
  destruct (bool_decide (p = [u_slash])) eqn:Hr; bool_prop; cbn [negb].
  - destruct (String.eqb_spec entry "/") as [->|]; cbn [negb]; [|done]. intros [= <-]. by exists p.
  - intros [= <-]. exists p. by split.
Qed.

(** The fields an assignment may write, after its validators. *)
Definition assignable (a : assignment) : Prop :=
  match a with
  | Set_whitelist v => Forall (entry_valid false) (default [] v)
  | Set_blacklist v | Set_exempt_ips v => Forall (entry_valid false) v
  | Set_trusted_proxies v => Forall (entry_valid true) v
  | Set_exclude_paths v => Forall exclusion_valid v
  | Set_muted_check_logs v => Forall (fun n => n ∈ CHECK_NAME_VALUES) v
  | Set_muted_event_types v => Forall (fun n => n ∈ EVENT_TYPE_VALUES) v
  | Set_blocked_countries v | Set_whitelist_countries v => Forall (fun country => upper country = country) v
  | Set_block_cloud_providers v => Forall (fun sel => fst (partition_marker sel) ∈ VALID_CLOUD_PROVIDERS) (default [] v)
  | Set_auto_ban_threshold v | Set_auto_ban_duration v => (1 <= v)%Z
  | Set_threat_ban_config v => Forall (fun entry => fst entry ∈ THREAT_BAN_CONFIG_CATEGORIES) v
  | Set_enabled_detection_categories v => Forall (fun n => n ∈ ALL_DETECTION_CATEGORIES) v
  | Set_muted_metric_types v => Forall (fun n => n ∈ METRIC_TYPE_VALUES) v
  | Set_dynamic_rules_cache_path v => forall path, v = Some path -> truthy (strip path) = true
  | _ => True
  end.

Lemma write_valid a c : assignable a -> config_valid c -> (is_behavior_rule_field a = true -> body_rules_fed (write a c)) ->
  config_valid (write a c).
Proof. intros Ha [] Hb. destruct a; cbn [assignable write] in *; split; try done; by apply Hb. Qed.

Lemma config_write_live a lc : lc_config (write_live a lc) = write a (lc_config lc).
Proof. by destruct a, lc. Qed.

Lemma revised_write_live a lc : lc_config (write_live a lc {{ _revision ::= Z.succ }}) = write a (lc_config lc) /\
  _revision (write_live a lc {{ _revision ::= Z.succ }}) = Z.succ (_revision lc) /\
  geo_ip_handler (write_live a lc {{ _revision ::= Z.succ }}) = geo_ip_handler (write_live a lc) /\
  dynamic_rules_cache_path (write_live a lc {{ _revision ::= Z.succ }}) =
    match a with Set_dynamic_rules_cache_path v => v | _ => dynamic_rules_cache_path lc end.
Proof. by destruct a, lc. Qed.

(** Would the configuration have country rules? *)
Definition country_rules (c : SecurityConfig) : bool := nonempty (blocked_countries c) || nonempty (whitelist_countries c).

Lemma validate_country_nonempty v : nonempty (_validate_country_set_value v) = nonempty v.
Proof.
  destruct v as [|x v]; [done|]. apply nonempty_true. intros H.
  assert (upper x ∈ _validate_country_set_value (x :: v)) as Hin by (apply elem_of_remove_dups; left).
  rewrite H in Hin. by apply not_elem_of_nil in Hin.
Qed.

(** The fields that dynamic rules may assign. *)
Definition dynamic_field (a : assignment) : bool :=
  match a with
  | Set_blocked_countries _ | Set_whitelist_countries _ | Set_block_cloud_providers _ | Set_blocked_user_agents _ | Set_rate_limit _
  | Set_rate_limit_window _ | Set_endpoint_rate_limits _ | Set_enable_penetration_detection _ | Set_enable_ip_banning _
  | Set_enable_rate_limiting _ | Set_enable_rate_limit_auto_ban _ | Set_emergency_mode _ | Set_emergency_whitelist _
  | Set_auto_ban_threshold _ | Set_auto_ban_duration _ => true
  | _ => false
  end.

Lemma dynamic_write_live a lc : dynamic_field a = true -> write_live a lc = lc {{ lc_config ::= write a }}.
Proof. by destruct a. Qed.

Lemma write_other_rules a c : is_geo_state a = false -> country_rules (write a c) = country_rules c.
Proof. by destruct a. Qed.

(** With the value written, country rules come with a handler. *)
Definition handled (a : assignment) (lc : LiveConfig) : Prop :=
  country_rules (write a (lc_config lc)) = true -> is_Some (geo_ip_handler (write_live a lc)).

Section live_lemmas.
Context `{CS : ConfigServices} `{SS : !ScanServices}.

Lemma validate_patterns_pure patterns (w : Sys * LiveConfig) : snd (snd (validate_patterns patterns w)) = snd w.
Proof.
  revert w. induction patterns as [|p patterns IH]; intros w; [done|]. cbn [validate_patterns]. unfold bind, sys, zoom, lift_res.
  destruct (validate_pattern_safety p (fst w)) as [[[[] reason]|e] s1]; cbn [fst snd negb]; [by rewrite IH| |done].
  by destruct (_redact_pattern_source _ _).
Qed.

(** Validators read the configuration at most; what they return is assignable,
    and has country rules when the value had. *)
Lemma wp_revalidate a (w : Sys * LiveConfig) :
  wp (revalidate a) (fun r w' => snd w' = snd w /\
    match r with
    | Ok a' => assignable a' /\ field_name a' = field_name a /\
               (is_geo_state a' = is_geo_state a /\ dynamic_field a' = dynamic_field a /\
                is_behavior_rule_field a' = is_behavior_rule_field a) /\
               (forall c, country_rules (write a' c) = country_rules (write a c)) /\
               forall lc, geo_ip_handler (write_live a' lc) = geo_ip_handler (write_live a lc)
    | Raise _ => is_geo_state a = false
    end) w.
Proof.
  destruct a; cbn [revalidate]; try (apply wp_ret; done);
    try (apply wp_ret; split_and!; [done|apply country_set_valid|done..| |done];
         intros c; unfold country_rules; cbn; by rewrite validate_country_nonempty);
    apply wp_bind;
    lazymatch goal with |- wp (lift_res ?x) _ _ => apply wp_lift_res; destruct x as [v'|] eqn:Hv; [apply wp_ret|done] | _ => idtac end;
    (split; [done|]; split; [|done]) || idtac; cbn [assignable].
  - unfold _validate_whitelist_value in Hv. destruct v as [v|]; [|by simplify_eq].
    destruct (_validate_ip_or_cidr_list _ _ _) eqn:He; simplify_eq. by apply validate_list_valid in He.
  - by apply validate_list_valid in Hv.
  - by apply validate_list_valid in Hv.
  - by apply validate_list_valid in Hv.
  - eapply res_each_Forall; [|exact Hv]. apply exclude_path_valid.
  - unfold _validate_muted_check_logs_value in Hv. case_match eqn:He; simplify_eq. by apply forallb_in_list.
  - unfold _validate_muted_event_types_value in Hv. case_match eqn:He; simplify_eq. by apply forallb_in_list.
  - unfold _validate_block_cloud_providers_value in Hv. destruct v as [v|]; [|by simplify_eq].
    case_match eqn:He; simplify_eq. cbn [default]. rewrite forallb_forall in He. apply Forall_forall.
    intros x Hx. apply list_elem_of_In in Hx. by apply He, bool_decide_eq_true in Hx.
  - unfold wp. pose proof (validate_patterns_pure v w) as Hp.
    destruct (validate_patterns v w) as [[[]|e] w1]; cbn [fst snd] in *; [apply wp_ret|]; done.
  - unfold _validate_positive_int_field_value in Hv. case_match eqn:He; simplify_eq. bool_prop. lia.
  - unfold _validate_positive_int_field_value in Hv. case_match eqn:He; simplify_eq. bool_prop. lia.
  - unfold _validate_threat_ban_config_value in Hv. case_match eqn:He; simplify_eq. by apply forallb_in_list, Forall_map in He.
  - unfold _validate_enabled_detection_categories_value in Hv. case_match eqn:He; simplify_eq. by apply forallb_in_list.
  - unfold _validate_muted_metric_types_value in Hv. case_match eqn:He; simplify_eq. by apply forallb_in_list.
  - unfold _validate_dynamic_rules_cache_path_value in Hv. destruct v as [path|]; [|by simplify_eq].
    destruct (truthy (strip path)) eqn:He; [|done]. injection Hv as <-. by intros ? [= <-].
Qed.

(** The handler that the country rules ask for. *)
Lemma wp_geo_assignment a (w : Sys * LiveConfig) : is_geo_state a = true ->
  wp (_apply_geo_ip_handler_assignment a) (fun r w' => lc_config (snd w') = lc_config (snd w) /\
    _revision (snd w') = _revision (snd w) /\ dynamic_rules_cache_path (snd w') = dynamic_rules_cache_path (snd w) /\
    (is_Some (geo_ip_handler (snd w)) -> is_Some (geo_ip_handler (snd w'))) /\
    match r with
    | Ok a' => field_name a' = field_name a /\ (forall c, write a' c = write a c) /\ is_geo_state a' = true /\
               (dynamic_field a = true -> a' = a) /\ handled a' (snd w')
    | Raise _ => snd w' = snd w
    end) w.
Proof.
  intros Ha. unfold _apply_geo_ip_handler_assignment, live_get, live_modify, _geo_state_candidates. apply wp_bind, wp_gets.
  unfold id. apply wp_bind, wp_lift_res. set (lc := write_live a (snd w)).
  assert (forall g, (country_rules (write a (lc_config (snd w))) = true -> is_Some g) -> (is_Some (geo_ip_handler lc) -> is_Some g) ->
    wp (match a with Set_geo_ip_handler _ => ret (Set_geo_ip_handler g)
        | _ => modify (fun w => (fst w, (fun lc => lc {{ geo_ip_handler := g }}) (snd w))) ;;; ret a end)
      (fun r w' => lc_config (snd w') = lc_config (snd w) /\
        _revision (snd w') = _revision (snd w) /\ dynamic_rules_cache_path (snd w') = dynamic_rules_cache_path (snd w) /\
        (is_Some (geo_ip_handler (snd w)) -> is_Some (geo_ip_handler (snd w'))) /\
        match r with
        | Ok a' => field_name a' = field_name a /\ (forall c, write a' c = write a c) /\ is_geo_state a' = true /\
                   (dynamic_field a = true -> a' = a) /\ handled a' (snd w')
        | Raise _ => snd w' = snd w
        end) w) as Hgo.
  { intros g Hg Hk. unfold lc in Hk. destruct w as [ws []]. destruct a; try done; cbn [snd] in *; unfold handled;
      first [apply wp_ret|apply wp_bind, wp_modify, wp_ret]; split_and!; try done; cbn in *; first [exact Hg|exact Hk]. }
  unfold _resolve_geo_ip_handler. destruct (geo_ip_handler lc) as [h|]; [apply Hgo; by eexists|].
  assert (country_rules (write a (lc_config (snd w))) = nonempty (blocked_countries (lc_config lc)) || nonempty (whitelist_countries (lc_config lc))) as Hc.
  { unfold lc. by rewrite config_write_live. }
  destruct (nonempty _ || nonempty _).
  - destruct (ipinfo_token lc) as [[|]|]; [done|apply Hgo; by eexists|done].
  - apply Hgo; [by rewrite Hc|done].
Qed.

(** The rules that match bodies come with the flag, or the assignment raises. *)
Lemma wp_behavior_assignment a (w : Sys * LiveConfig) :
  wp (_validate_global_behavior_rule_assignment a) (fun r w' => w' = w /\
    match r with Ok _ => body_rules_fed (write a (lc_config (snd w))) | Raise _ => True end) w.
Proof.
  unfold _validate_global_behavior_rule_assignment, live_get, body_rules_fed. apply wp_bind, wp_gets.
  set (c := write a (lc_config (snd w))). set (flag := behavior_scan_response_body c). clearbody flag.
  induction (global_behavior_rules c) as [|rule rules IH]; cbn [for_each]; [by apply wp_ret|]. apply wp_bind.
  destruct (body_pattern rule) as [pattern|] eqn:Hb; cbv beta iota.
  - apply wp_lift_res. unfold _validate_return_pattern_requires_scan.
    destruct (negb (return_pattern_requires_response_body pattern) || flag) eqn:Hok; [|by destruct (_redact_pattern_source _ _)].
    eapply wp_mono; [apply IH|]. intros r w' [-> Hr]. split; [done|]. destruct r; [|done]. constructor; [|done]. rewrite Hb.
    intros Hneed. rewrite Hneed in Hok. exact Hok.
  - apply wp_ret. eapply wp_mono; [apply IH|]. intros r w' [-> Hr]. split; [done|]. destruct r; [|done]. constructor; [|done]. by rewrite Hb.
Qed.
End live_lemmas.

Section live_theorems.
Context `{CS : ConfigServices} `{SS : !ScanServices}.

Lemma country_rules_nonempty c :
  country_rules c = true <-> blocked_countries c <> [] \/ whitelist_countries c <> [].
Proof. unfold country_rules. rewrite orb_true_iff, !nonempty_true. done. Qed.

(** What an assignment comes to: a valid configuration with the field written and a new
    revision, or an exception and the configuration as it was. *)
Definition assigned (a : assignment) (lc : LiveConfig) (r : res unit) (lc' : LiveConfig) : Prop :=
  match r with
  | Ok _ => live_valid lc' /\ _revision lc' = Z.succ (_revision lc) /\
            exists a', assignable a' /\ field_name a' = field_name a /\ lc_config lc' = write a' (lc_config lc)
  | Raise _ => lc' = lc
  end.

End live_theorems.

(** * Witnesses *)

(** Patterns are safe. *)
Definition sample_config_services (clk : nat -> Z) (outcome : nat -> option (exn * bool))
  : @ConfigServices (sample_env clk outcome) := {|
  validate_pattern_safety := fun _ => ret (true, "");
  IPInfoManager := fun _ => xx_geo
|}.

Section witness.
#[local] Instance live_env : Env := sample_env (ticking 1000) redis_up.
#[local] Instance live_services : ConfigServices := sample_config_services (ticking 1000) redis_up.

Definition sample_live (config : SecurityConfig) : LiveConfig := mkLive config None None None 300 0.

Definition live_sample : Sys * LiveConfig := (sample_sys (ticking 1000) redis_up, sample_live default_config).

Lemma live_sample_valid : live_valid (snd live_sample).
Proof.
  split; [|split; [done|cbn; by intros []]]. split; try (cbn; repeat constructor; lia).
  cbn [snd live_sample sample_live lc_config default_config exclude_paths].
  repeat constructor; (eexists; split; [vm_compute; reflexivity|discriminate]).
Qed.

(** Taking the handler away from a configuration with country rules, and a token put in
    its place. *)
Definition guarded_live : LiveConfig :=
  (sample_live (default_config {{ blocked_countries := ["XX"] }})) {{ geo_ip_handler := Some xx_geo }}.


Example token_replaces_the_handler :
  let w := config_set (Set_ipinfo_token (Some "t")) (fst live_sample, guarded_live) in
  is_some (geo_ip_handler (snd (snd (config_set (Set_geo_ip_handler None) (snd w))))) = true.
Proof. vm_compute. reflexivity. Qed.

Example blind_rule_is_refused :
  match fst (config_set (Set_global_behavior_rules [mkRuleConfig ReturnPattern 3 60 (Some "denied") ActLog None false]) live_sample) with
  | Raise (ValueError _) => True
  | _ => False
  end /\
  fst (config_set (Set_global_behavior_rules [mkRuleConfig ReturnPattern 3 60 (Some "status:404") ActLog None false]) live_sample) = Ok tt.
Proof. vm_compute. split; reflexivity. Qed.

(** The validators normalise what they accept. *)
Example whitelist_normalised :
  whitelist (lc_config (snd (snd (config_set (Set_whitelist (Some ["198.51.100.77/24"; "FE80::1"])) live_sample)))) =
  Some ["198.51.100.0/24"; "fe80::1"].
Proof. vm_compute. reflexivity. Qed.
End witness.
