(* ===== verification/Preprocessor.v ===== *)
(** What the pattern handler looks at instead of the text itself: the text decoded
    until nothing more decodes ([guard_core/detection_engine/preprocessor.py],
    [encoding_decoders.py]), and cut to a maximum length around the places that look
    like attacks ([truncation.py]).

    The decoders that leave Latin-1, the [re] engine that finds the indicators, and
    the short base64 view are parameters ([Decoders]).  Positions are natural numbers:
    the configuration only accepts positive limits. *)
From Stdlib Require Import Sorting.Sorted.
From S2P Require Import Prelude PyStr PyDict Sys Sample.

#[local] Open Scope nat_scope.

Class Decoders : Type := {
  (** [normalize_unicode], [decode_overlong_utf8_percent_runs], [urllib.parse.unquote],
      [html.unescape], [decode_percent_u_escapes], [decode_unicode_escapes],
      [_strip_sql_comments] *)
  normalize_unicode : string -> string;
  decode_overlong : string -> string;
  url_unquote : string -> res string;
  html_unescape : string -> res string;
  decode_percent_u_escapes : string -> string;
  decode_unicode_escapes : string -> string;
  strip_sql_comments : string -> string;
  (** [decode_base64_candidates], with the decompressions that are left *)
  decode_base64_candidates : string -> nat -> string * nat;
  (** the decoded short base64 tokens of a text *)
  short_base64_fragments : string -> string;
  (** [pattern.finditer], per indicator, unless it takes too long *)
  indicators : list (string -> option (list (nat * nat)))
}.

(** [ContentPreprocessor] *)
Record ContentPreprocessor : Type := mkPreprocessor {
  max_content_length : nat;
  preserve_attack_patterns : bool;
  pp_agent : bool;
  pp_correlation_id : option string;
  _MAX_FULL_SCAN_BYTES : nat
}.

(** * Cutting a text ([truncation.py]) *)

(** [content[start:end]] *)
Definition slice (start stop : nat) (content : string) : string := stake (stop - start) (sdrop start content).

Definition _FULL_SCAN_TAIL_BYTES : nat := Z.to_nat 4096.

Section truncation.
Context `{DC : Decoders}.

Definition max_regions (p : ContentPreprocessor) : nat := Nat.min 100 (max_content_length p / 100).

Definition widen (size : nat) (m : nat * nat) : nat * nat := (fst m - 100, Nat.min size (snd m + 100)).

(** The first places of an indicator, each with its surroundings. *)
Definition _find_all (p : ContentPreprocessor) (content : string) (spans : list (nat * nat)) : list (nat * nat) :=
  map (widen (slen content)) (take (max_regions p) spans).

Fixpoint collect_regions (p : ContentPreprocessor) (content : string) (l : list (string -> option (list (nat * nat))))
  (regions : list (nat * nat)) : list (nat * nat) :=
  match l with
  | [] => regions
  | indicator :: l' =>
      match indicator content with
      | None => collect_regions p content l' regions
      | Some spans =>
          let regions := regions ++ _find_all p content spans in
          if max_regions p <=? length regions then regions else collect_regions p content l' regions
      end
  end.

(** [regions.sort()] *)
Definition span_le (a b : nat * nat) : bool := (fst a <? fst b) || ((fst a =? fst b) && (snd a <=? snd b)).

Fixpoint insert_span (a : nat * nat) (l : list (nat * nat)) : list (nat * nat) :=
  match l with [] => [a] | b :: l' => if span_le a b then a :: l else b :: insert_span a l' end.

Definition sort_spans (l : list (nat * nat)) : list (nat * nat) := fold_right insert_span [] l.

(** [merged], with its last element apart *)
Fixpoint merge_spans (last : nat * nat) (l : list (nat * nat)) : list (nat * nat) :=
  match l with
  | [] => [last]
  | (start, stop) :: l' =>
      if start <=? snd last then merge_spans (fst last, Nat.max (snd last) stop) l'
      else last :: merge_spans (start, stop) l'
  end.

Definition extract_attack_regions (p : ContentPreprocessor) (content : string) : list (nat * nat) :=
  match sort_spans (collect_regions p content indicators []) with
  | [] => []
  | first :: rest => take (max_regions p) (merge_spans first rest)
  end.

Fixpoint extract_and_concatenate (content : string) (regions : list (nat * nat)) (remaining : nat) : string :=
  match regions with
  | [] => ""
  | (start, stop) :: regions' =>
      let chunk_len := Nat.min (stop - start) remaining in
      slice start (start + chunk_len) content +:+
      (if remaining - chunk_len <=? 0 then "" else extract_and_concatenate content regions' (remaining - chunk_len))
  end.

Definition _consume_gap (content : string) (last_end start gap_budget : nat) : string * nat :=
  let gap_len := start - last_end in
  if gap_len <=? gap_budget then (slice last_end start content, gap_budget - gap_len)
  else
    let chunk_len := gap_budget - 1 in
    let piece := if 0 <? chunk_len then slice last_end (last_end + chunk_len) content else "" in
    (piece +:+ " ", 0).

(** The regions, with what lies between them as long as the budget of gaps lasts. *)
Fixpoint build_result (content : string) (regions : list (nat * nat)) (last_end gap_budget : nat) : string :=
  match regions with
  | [] =>
      if (last_end <? slen content) && (0 <? gap_budget)
      then slice last_end (last_end + Nat.min (slen content - last_end) gap_budget) content
      else ""
  | (start, stop) :: regions' =>
      let '(piece, gap_budget) :=
        if (last_end <? start) && (0 <? gap_budget) then _consume_gap content last_end start gap_budget else ("", gap_budget) in
      piece +:+ slice start stop content +:+ build_result content regions' stop gap_budget
  end.

Definition attack_length (regions : list (nat * nat)) : nat := list_sum (map (fun r => snd r - fst r) regions).

Definition build_result_with_attack_regions_and_context (content : string) (regions : list (nat * nat)) (budget : nat) : string :=
  build_result content regions 0 (budget - attack_length regions).

(** [content[-n:]]: the last characters, but the whole text for zero. *)
Definition from_end (n : nat) (content : string) : string :=
  match n with O => content | S _ => sdrop (slen content - n) content end.

Definition cap_with_tail (content : string) (max_full_scan_bytes : nat) : string :=
  let tail := Nat.min _FULL_SCAN_TAIL_BYTES max_full_scan_bytes in
  stake (max_full_scan_bytes - tail) content +:+ from_end tail content.

Definition truncate_safely (p : ContentPreprocessor) (content : string) : string :=
  let cap := _MAX_FULL_SCAN_BYTES p in
  if slen content <=? cap then content
  else if negb (preserve_attack_patterns p) then stake cap content
  else
    match extract_attack_regions p content with
    | [] => cap_with_tail content cap
    | regions =>
        if cap <=? attack_length regions then extract_and_concatenate content regions cap
        else build_result_with_attack_regions_and_context content regions cap
    end.
End truncation.

(** * Decoding ([preprocessor.py]) *)

(** [\\xHH], and the [\\HH] of LDAP *)
Fixpoint decode_hex_escapes (s : string) : string :=
  match s with
  | String b (String x (String h (String l rest) as t3) as t2) =>
      if Ascii.eqb b "\" && Ascii.eqb x "x" then
        match hex_value h, hex_value l with
        | Some a, Some c => String (chr (16 * a + c)) (decode_hex_escapes rest)
        | _, _ => String b (decode_hex_escapes t2)
        end
      else String b (decode_hex_escapes t2)
  | String b t => String b (decode_hex_escapes t)
  | EmptyString => ""
  end.

Fixpoint _decode_ldap_hex_escapes (s : string) : string :=
  match s with
  | String b (String h (String l rest) as t2) =>
      if Ascii.eqb b "\" then
        match hex_value h, hex_value l with
        | Some a, Some c => String (chr (16 * a + c)) (_decode_ldap_hex_escapes rest)
        | _, _ => String b (_decode_ldap_hex_escapes t2)
        end
      else String b (_decode_ldap_hex_escapes t2)
  | String b t => String b (_decode_ldap_hex_escapes t)
  | EmptyString => ""
  end.

(** [re.sub(r"\s+", " ", content).strip()] *)
Fixpoint collapse_spaces (after_space : bool) (s : string) : string :=
  match s with
  | EmptyString => ""
  | String c s' =>
      if is_space c then if after_space then collapse_spaces true s' else String " " (collapse_spaces true s')
      else String c (collapse_spaces false s')
  end.

Definition remove_excessive_whitespace (content : string) : string := strip (collapse_spaces false content).

Fixpoint keep_chars (p : ascii -> bool) (s : string) : string :=
  match s with EmptyString => "" | String c s' => if p c then String c (keep_chars p s') else keep_chars p s' end.

Definition is_control (c : ascii) : bool :=
  ((code c <? 32) && negb ((code c =? 9) || (code c =? 10) || (code c =? 13)))%Z.

Definition remove_null_bytes (content : string) : string := keep_chars (fun c => negb (is_control c)) content.

Definition max_decode_iterations : nat := 16.
Definition _MAX_GUNZIP_ATTEMPTS_PER_PASS : nat := 8.

Section decoding.
Context `{E : Env} `{DC : Decoders}.
Context (p : ContentPreprocessor).

Definition _send_preprocessor_event (event_type action_taken reason : string) (meta : list (string * string)) : M Sys unit :=
  when (pp_agent p)
    (catch any_exn
      (agent_send (AgentEvent event_type "system" action_taken reason "" None
        ([("component", "ContentPreprocessor"); ("correlation_id", default "None" (pp_correlation_id p))] ++ meta)))
      (fun e => log ERROR ("Failed to send preprocessor event to agent: " +:+ exn_message e))).

Definition decoded_or (decoded : res string) (content what error_type : string) : M Sys string :=
  match decoded with
  | Ok decoded => ret decoded
  | Raise e =>
      _send_preprocessor_event "decoding_error" "decode_failed" ("Failed to " +:+ what +:+ " decode content")
        [("error", exn_message e); ("error_type", error_type)] ;;;
      ret content
  end.

(** One round of [decode_common_encodings]. *)
Definition decode_round (content : string) (gunzip_attempts_left : nat) : M Sys (string * nat) :=
  let content := decode_overlong content in
  let* content := decoded_or (url_unquote content) content "URL" "url_decode" in
  let* content := decoded_or (html_unescape content) content "HTML" "html_decode" in
  let content := decode_percent_u_escapes content in
  let content := decode_hex_escapes content in
  let content := _decode_ldap_hex_escapes content in
  let content := decode_unicode_escapes content in
  let content := normalize_unicode content in
  ret (decode_base64_candidates content gunzip_attempts_left).

(** [while iterations < max_decode_iterations ... else]; the flag tells that the
    rounds were used up. *)
Fixpoint decode_rounds (iterations : nat) (content : string) (gunzip_attempts_left : nat) : M Sys (string * bool) :=
  match iterations with
  | O => ret (content, true)
  | S iterations' =>
      let* r := decode_round content gunzip_attempts_left in
      if (fst r =? content)%string then ret (fst r, false)
      else decode_rounds iterations' (fst r) (snd r)
  end.

Definition decode_common_encodings (content : string) : M Sys (string * bool) :=
  let* r := decode_rounds max_decode_iterations content _MAX_GUNZIP_ATTEMPTS_PER_PASS in
  ret (strip_sql_comments (fst r), snd r).

(** The processed text, the decoded text, and whether decoding did not come to an end. *)
Definition preprocess_with_decoded (content : string) : M Sys (string * string * bool) :=
  if negb (truthy content) then ret ("", "", false)
  else
    let* r := decode_common_encodings (normalize_unicode content) in
    let processed := remove_excessive_whitespace (remove_null_bytes (fst r)) in
    ret (truncate_safely p processed, fst r, snd r).

Definition preprocess_signal_preserving (content : string) : string :=
  if negb (truthy content) then "" else truncate_safely p (normalize_unicode content).

Definition preprocess_url_decoded_newline_preserving (content : string) : M Sys (string * bool) :=
  if negb (truthy content) then ret ("", false)
  else
    let* r := decode_common_encodings (normalize_unicode content) in
    ret (truncate_safely p (fst r), snd r).

Definition preprocess_short_base64_additive_view (content : string) : string :=
  if negb (truthy content) then "" else short_base64_fragments (truncate_safely p (normalize_unicode content)).
End decoding.

(** * The cut text *)

Lemma slen_stake n s : slen (stake n s) = Nat.min n (slen s).
Proof. revert n. induction s as [|c s IH]; intros [|n]; simpl; try done. by rewrite IH. Qed.

Lemma slen_slice a b s : slen (slice a b s) = Nat.min (b - a) (slen s - a).
Proof. unfold slice. by rewrite slen_stake, slen_sdrop. Qed.

(** [part] stands somewhere in [whole]. *)
Definition within (part whole : string) : Prop := exists before rest, whole = before +:+ part +:+ rest.

Lemma within_refl s : within s s.
Proof. exists "", "". by rewrite app_nil_r_string. Qed.

Lemma within_trans a b c : within a b -> within b c -> within a c.
Proof.
  intros (x & y & ->) (u & v & ->). exists (u +:+ x), (y +:+ v). by rewrite <- !app_assoc_string.
Qed.

Lemma within_app_l a b c : within a b -> within a (c +:+ b).
Proof. intros (x & y & ->). exists (c +:+ x), y. by rewrite <- !app_assoc_string. Qed.

Lemma within_app_r a b c : within a b -> within a (b +:+ c).
Proof. intros (x & y & ->). exists x, (y +:+ c). by rewrite <- !app_assoc_string. Qed.

Lemma sdrop_sdrop a b s : sdrop a (sdrop b s) = sdrop (b + a) s.
Proof. revert s. induction b as [|b IH]; intros s; [done|]. destruct s as [|c s]; [by destruct a|]. exact (IH s). Qed.

Lemma stake_stake a b s : stake a (stake b s) = stake (Nat.min a b) s.
Proof. revert a b. induction s as [|c s IH]; intros [|a] [|b]; try done. simpl. by rewrite IH. Qed.

Lemma sdrop_stake a b s : sdrop a (stake b s) = stake (b - a) (sdrop a s).
Proof.
  revert a b. induction s as [|c s IH]; intros [|a] [|b]; try done; [by destruct (S b - S a)|].
  exact (IH a b).
Qed.

Lemma slice_within a b u v s : u <= a -> b <= v -> within (slice a b s) (slice u v s).
Proof.
  intros Hu Hv. unfold slice. assert (stake (b - a) (sdrop a s) = stake (b - a) (sdrop (a - u) (stake (v - u) (sdrop u s)))) as ->.
  { rewrite sdrop_stake, sdrop_sdrop, stake_stake. f_equal; [lia|]. f_equal. lia. }
  set (t := stake (v - u) (sdrop u s)). exists (stake (a - u) t), (sdrop (b - a) (sdrop (a - u) t)).
  by rewrite !stake_sdrop.
Qed.

Lemma attack_length_cons r l : attack_length (r :: l) = (snd r - fst r) + attack_length l.
Proof. done. Qed.

Lemma build_result_length content regions last_end gap :
  slen (build_result content regions last_end gap) <= attack_length regions + gap.
Proof.
  revert last_end gap. induction regions as [|[start stop] regions IH]; intros last_end gap; cbn [build_result].
  - change (attack_length []) with 0. destruct (_ && _); [rewrite slen_slice; lia|]. change (slen "") with 0. lia.
  - assert (exists piece gap', (if (last_end <? start) && (0 <? gap) then _consume_gap content last_end start gap else ("", gap))
      = (piece, gap') /\ slen piece + gap' <= gap) as (piece & gap' & -> & Hg).
    { destruct (_ && _) eqn:Hc; [|by do 2 eexists]. apply andb_true_iff in Hc as [_ Hpos%Nat.ltb_lt]. unfold _consume_gap.
      destruct (Nat.leb_spec (start - last_end) gap); do 2 eexists; (split; [reflexivity|]); [rewrite slen_slice; lia|].
      rewrite slen_app. change (slen " ") with 1. destruct (0 <? gap - 1); [rewrite slen_slice; lia|]. change (slen "") with 0. lia. }
    rewrite attack_length_cons, !slen_app, slen_slice. cbn [fst snd]. specialize (IH stop gap'). lia.
Qed.

Lemma extract_length content regions remaining : slen (extract_and_concatenate content regions remaining) <= remaining.
Proof.
  revert remaining. induction regions as [|[start stop] regions IH]; intros remaining; cbn [extract_and_concatenate]; [cbn; lia|].
  rewrite slen_app, slen_slice. destruct (_ <=? 0); [cbn; lia|]. specialize (IH (remaining - Nat.min (stop - start) remaining)). lia.
Qed.

Lemma build_result_keeps content regions last_end gap r : In r regions ->
  within (slice (fst r) (snd r) content) (build_result content regions last_end gap).
Proof.
  revert last_end gap. induction regions as [|[start stop] regions IH]; intros last_end gap; [done|]. cbn [build_result].
  destruct (if _ && _ then _ else _) as [piece gap']. intros [<-|Hr]; apply within_app_l.
  - apply within_app_r, within_refl.
  - apply within_app_l. by apply IH.
Qed.

(** ** The regions *)

Lemma insert_span_in a b l : In b (insert_span a l) <-> b = a \/ In b l.
Proof.
  induction l as [|c l IH]; cbn [insert_span In]; [naive_solver|]. destruct (span_le a c); cbn [In]; [naive_solver|].
  rewrite IH. naive_solver.
Qed.

Lemma sort_spans_in b l : In b (sort_spans l) <-> In b l.
Proof. induction l as [|a l IH]; [done|]. cbn [sort_spans fold_right In]. rewrite insert_span_in, IH. naive_solver. Qed.

(** Every place is inside one of the merged ones. *)
Lemma merge_spans_cover last l a : In a (last :: l) -> (forall b, In b l -> fst last <= fst b) ->
  StronglySorted (fun x y => fst x <= fst y) l ->
  exists r, In r (merge_spans last l) /\ fst r <= fst a /\ snd a <= snd r.
Proof.
  revert last a. induction l as [|[start stop] l IH]; intros last a Ha Hle Hs; cbn [merge_spans].
  { destruct Ha as [->|[]]. exists a. by split; [left|]. }
  apply StronglySorted_inv in Hs as [Hs Hall]. rewrite List.Forall_forall in Hall.
  destruct (start <=? snd last) eqn:Hc.
  - assert (forall c, In c (last :: (start, stop) :: l) -> exists d, In d ((fst last, Nat.max (snd last) stop) :: l) /\
      fst d <= fst c /\ snd c <= snd d) as Hmerge.
    { intros c [<-|[<-|Hin]]; [..|exists c; by split; [right|]]; eexists; (split; [by left|]); cbn [fst snd]; [lia|].
      specialize (Hle (start, stop) (or_introl eq_refl)). cbn [fst] in Hle. lia. }
    destruct (Hmerge a Ha) as (d & Hd & H1 & H2). destruct (IH _ d Hd) with (2 := Hs) as (r & Hr & H3 & H4).
    { intros b Hb. apply Hle. by right. }
    exists r. split_and!; [done|lia|lia].
  - destruct Ha as [<-|Ha]; [exists last; by split; [left|]|].
    destruct (IH (start, stop) a Ha) with (2 := Hs) as (r & Hr & H1 & H2); [exact Hall|].
    exists r. split; [by right|done].
Qed.

Lemma insert_span_sorted a l : StronglySorted (fun x y => fst x <= fst y) l -> StronglySorted (fun x y => fst x <= fst y) (insert_span a l).
Proof.
  induction 1 as [|b l Hs IH Hall]; cbn [insert_span]; [by repeat constructor|]. rewrite List.Forall_forall in Hall.
  unfold span_le. destruct (_ || _) eqn:Hc.
  - assert (fst a <= fst b) as Hab.
    { apply orb_true_iff in Hc as [H%Nat.ltb_lt|[H%Nat.eqb_eq _]%andb_true_iff]; lia. }
    constructor; [by constructor; [|apply List.Forall_forall]|]. apply List.Forall_forall. intros x [<-|Hx]; [done|].
    specialize (Hall x Hx). lia.
  - constructor; [done|]. apply List.Forall_forall. intros x [->|Hx]%insert_span_in; [|by apply Hall].
    apply orb_false_iff in Hc as [H%Nat.ltb_ge _]. lia.
Qed.

Lemma sort_spans_sorted l : StronglySorted (fun x y => fst x <= fst y) (sort_spans l).
Proof. induction l as [|a l IH]; [constructor|]. by apply insert_span_sorted. Qed.

Section facts.
Context `{DC : Decoders}.

Lemma regions_cover p content a :
  In a (collect_regions p content indicators []) -> length (extract_attack_regions p content) < max_regions p ->
  exists r, In r (extract_attack_regions p content) /\ fst r <= fst a /\ snd a <= snd r.
Proof.
  intros Ha. rewrite <- sort_spans_in in Ha. pose proof (sort_spans_sorted (collect_regions p content indicators [])) as Hs.
  unfold extract_attack_regions. destruct (sort_spans _) as [|first rest]; [done|].
  rewrite length_take. intros Hlen. rewrite take_ge by lia.
  apply StronglySorted_inv in Hs as [Hs Hall]. rewrite List.Forall_forall in Hall. by apply merge_spans_cover.
Qed.

(** C22: A text cut for the scan is never longer than the cap and one within the cap
    is left alone; and when attack patterns are to be preserved, the regions taken
    together fit under the cap and they are fewer than the limit of their number after
    merging, every region that was collected - collecting stops at the limit - is in
    the cut text with a hundred characters around it. An attack behind the place where
    collecting stopped is outside this claim, and can be cut away. *)
Theorem truncation_keeps_attacks p content :
  (0 < _MAX_FULL_SCAN_BYTES p -> slen (truncate_safely p content) <= _MAX_FULL_SCAN_BYTES p) /\
  (slen content <= _MAX_FULL_SCAN_BYTES p -> truncate_safely p content = content) /\
  (preserve_attack_patterns p = true -> attack_length (extract_attack_regions p content) < _MAX_FULL_SCAN_BYTES p ->
   length (extract_attack_regions p content) < max_regions p ->
   forall a, In a (collect_regions p content indicators []) ->
   within (slice (fst a) (snd a) content) (truncate_safely p content)).
Proof.
  assert (forall a b, within (slice a b content) content) as Hslice.
  { intros a b. unfold slice. exists (stake a content), (sdrop (b - a) (sdrop a content)). by rewrite !stake_sdrop. }
  unfold truncate_safely. destruct (Nat.leb_spec (slen content) (_MAX_FULL_SCAN_BYTES p)) as [Hs|Hl]; split_and!.
  - done.
  - done.
  - intros _ _ _ a _. apply Hslice.
  - intros Hcap. destruct (preserve_attack_patterns p); cbn [negb]; [|rewrite slen_stake; lia].
    destruct (extract_attack_regions p content) as [|r rs].
    { unfold cap_with_tail. set (tail := Nat.min _ _). assert (0 < tail /\ tail <= _MAX_FULL_SCAN_BYTES p) as Ht
        by (unfold tail, _FULL_SCAN_TAIL_BYTES; lia).
      rewrite slen_app, slen_stake. unfold from_end. destruct tail; [lia|]. rewrite slen_sdrop. lia. }
    destruct (Nat.leb_spec (_MAX_FULL_SCAN_BYTES p) (attack_length (r :: rs))); [apply extract_length|].
    unfold build_result_with_attack_regions_and_context.
    pose proof (build_result_length content (r :: rs) 0 (_MAX_FULL_SCAN_BYTES p - attack_length (r :: rs))). lia.
  - lia.
  - intros -> Hfit Hfew a Ha. cbn [negb]. destruct (regions_cover p content a Ha Hfew) as (r & Hr & H1 & H2).
    destruct (extract_attack_regions p content) as [|r0 rs]; [done|]. destruct (Nat.leb_spec (_MAX_FULL_SCAN_BYTES p) (attack_length (r0 :: rs))); [lia|].
    eapply within_trans; [by apply slice_within|]. by apply build_result_keeps.
Qed.
End facts.

Example no_cap_no_cut : cap_with_tail "abc" 0 = "abc" /\ cap_with_tail "abc" 1 = "c".
Proof. split; reflexivity. Qed.

(** The agent has no part in the cutting. *)
Section agent.
Context `{DC : Decoders}.

Lemma truncate_agent p agent corr content :
  truncate_safely (p {{ pp_agent := agent }} {{ pp_correlation_id := corr }}) content = truncate_safely p content.
Proof.
  set (q := p {{ pp_agent := agent }} {{ pp_correlation_id := corr }}).
  assert (forall l regions, collect_regions q content l regions = collect_regions p content l regions) as Hr.
  { induction l as [|i l IH]; intros regions; cbn [collect_regions]; [done|]. destruct (i content); [|apply IH].
    cbv zeta. rewrite IH. reflexivity. }
  unfold truncate_safely, extract_attack_regions. by rewrite Hr.
Qed.
End agent.

(** * Decoding *)

Section decoded.
Context `{E : Env} `{DC : Decoders}.

Definition ok_or {A} (r : res A) (a : A) : A := match r with Ok b => b | Raise _ => a end.

(** What one round makes of a text. *)
Definition round_text (r : string * nat) : string * nat :=
  let content := decode_overlong (fst r) in
  let content := ok_or (url_unquote content) content in
  let content := ok_or (html_unescape content) content in
  let content := decode_percent_u_escapes content in
  let content := _decode_ldap_hex_escapes (decode_hex_escapes content) in
  decode_base64_candidates (normalize_unicode (decode_unicode_escapes content)) (snd r).

(** The text after some rounds. *)
Definition after_rounds (n : nat) (content : string) : string * nat :=
  Nat.iter n round_text (content, _MAX_GUNZIP_ATTEMPTS_PER_PASS).

Lemma decoded_or_ok p d content what kind s : exists s', decoded_or p d content what kind s = (Ok (ok_or d content), s').
Proof.
  destruct d as [d|e]; [by eexists|]. cbn [decoded_or ok_or]. unfold _send_preprocessor_event. destruct (pp_agent p); cbn [when]; [|by eexists].
  unfold bind, catch, any_exn. destruct (agent_send _ s) as [[[]|x] s1]; by eexists.
Qed.

Lemma decode_round_ok p r s : exists s', decode_round p (fst r) (snd r) s = (Ok (round_text r), s').
Proof.
  unfold decode_round, round_text. cbv zeta.
  destruct (decoded_or_ok p (url_unquote (decode_overlong (fst r))) (decode_overlong (fst r)) "URL" "url_decode" s) as [s1 H1].
  rewrite (bind_ok _ _ _ _ _ H1).
  match goal with |- context [decoded_or p (html_unescape ?c) ?c _ _] =>
    destruct (decoded_or_ok p (html_unescape c) c "HTML" "html_decode" s1) as [s2 H2] end.
  rewrite (bind_ok _ _ _ _ _ H2). by eexists.
Qed.

Lemma iter_shift n r : Nat.iter n round_text (round_text r) = round_text (Nat.iter n round_text r).
Proof. by rewrite <- Nat.iter_succ_r. Qed.

Lemma decode_rounds_spec p n r s : exists text flag s', decode_rounds p n (fst r) (snd r) s = (Ok (text, flag), s') /\
  if flag : bool then forall k, k < n -> fst (Nat.iter (S k) round_text r) <> fst (Nat.iter k round_text r)
  else exists k, k < n /\ text = fst (Nat.iter k round_text r) /\ text = fst (Nat.iter (S k) round_text r).
Proof.
  revert r s. induction n as [|n IH]; intros r s; cbn [decode_rounds]; [exists (fst r), true, s; split; [done|lia]|].
  destruct (decode_round_ok p r s) as [s1 Hr]. rewrite (bind_ok _ _ _ _ _ Hr).
  destruct (String.eqb_spec (fst (round_text r)) (fst r)) as [Heq|Hne].
  { do 3 eexists. split; [reflexivity|]. cbv iota. exists 0. split_and!; [lia|done|done]. }
  destruct (IH (round_text r) s1) as (text & flag & s2 & He & Hp). exists text, flag, s2. split; [done|].
  destruct flag.
  - intros [|k] Hk; [done|]. specialize (Hp k ltac:(lia)). by rewrite !iter_shift in Hp.
  - destruct Hp as (k & Hk & H1 & H2). exists (S k). rewrite !iter_shift in *. split_and!; [lia|done|done].
Qed.

(** C23: Decoding always ends, whatever decoders and agent do: unless the flag is set
    the text is what the strip of the SQL comments makes of a text that a further
    round of decoding leaves as it is, and the flag is set exactly when all sixteen
    rounds changed the text. The strip comes after the last round, and what it leaves
    is not decoded again. *)
Theorem decoding_reaches_the_bottom p content s : exists text flag s',
  decode_common_encodings p content s = (Ok (text, flag), s') /\
  (flag = false -> exists k, k < max_decode_iterations /\ text = strip_sql_comments (fst (after_rounds k content)) /\
     fst (after_rounds (S k) content) = fst (after_rounds k content)) /\
  (flag = true <-> forall k, k < max_decode_iterations -> fst (after_rounds (S k) content) <> fst (after_rounds k content)).
Proof.
  unfold decode_common_encodings.
  destruct (decode_rounds_spec p max_decode_iterations (content, _MAX_GUNZIP_ATTEMPTS_PER_PASS) s) as (text & flag & s' & He & Hp).
  cbn [fst snd] in He. rewrite (bind_ok _ _ _ _ _ He). exists (strip_sql_comments text), flag, s'. split; [done|].
  unfold after_rounds. destruct flag; split; try done.
  - intros _. destruct Hp as (k & Hk & H1 & H2). exists k. split_and!; [done|by rewrite <- H1|congruence].
  - split; [done|]. destruct Hp as (k & Hk & H1 & H2). intros H. exfalso. apply (H k Hk). congruence.
Qed.
End decoded.

(** A text that is encoded seventeen times is not decoded to the bottom; one that is
    encoded twice is. *)
Section example.
#[local] Instance preprocessor_env : Env := sample_env (ticking 1000) redis_up.

(** Percent signs in the manner of [%25], and one indicator. *)
Fixpoint unquote_percent (s : string) : string :=
  match s with
  | String "%" (String "2" (String "5" rest)) => String "%" (unquote_percent rest)
  | String c rest => String c (unquote_percent rest)
  | EmptyString => ""
  end.

#[local] Instance sample_decoders : Decoders := {|
  normalize_unicode := id; decode_overlong := id; url_unquote := fun s => Ok (unquote_percent s);
  html_unescape := fun s => Raise (ValueError "no entities"); decode_percent_u_escapes := id; decode_unicode_escapes := id;
  strip_sql_comments := id; decode_base64_candidates := fun s n => (s, n); short_base64_fragments := fun _ => "";
  indicators := [fun s => Some (if startswith (sdrop 300 s) "../" then [(300, 303)] else [])]
|}.

Definition small_window : ContentPreprocessor := mkPreprocessor 1000 true false None 256.

Definition nested_percent (n : nat) : string := "%" +:+ String.concat "" (repeat "25" n).

Example nested_decoding :
  let run n := fst (decode_common_encodings small_window (nested_percent n) (sample_sys (ticking 1000) redis_up)) in
  run 2 = Ok ("%", false) /\ run 16 = Ok ("%", true) /\ run 17 = Ok ("%25", true).
Proof. vm_compute. repeat split; reflexivity. Qed.

Definition long_text : string := String.concat "" (repeat "a" 300) +:+ "../etc/passwd" +:+ String.concat "" (repeat "b" 300).

Example long_text_is_cut :
  extract_attack_regions small_window long_text = [(200, 403)] /\
  slen (truncate_safely small_window long_text) = 256 /\
  contains "../etc/passwd" (truncate_safely small_window long_text) = true.
Proof. vm_compute. repeat split; reflexivity. Qed.
End example.
