(* ===== verification/Suspatterns.v ===== *)
(** The pattern handler ([guard_core/handlers/suspatterns_handler.py] and its mixins):
    the patterns it holds and how they are added, removed and stored
    ([_suspatterns_registry.py]), and what it says of a text ([_suspatterns_regex.py],
    [_suspatterns_views.py], [_suspatterns_enhanced.py]).

    The [re] engine, the hand-written matchers that bound it, the validators of its
    matches, the analysis that tells unsafe patterns, the semantic analyser and the
    performance monitor are parameters ([PatternEngine]), as is the table of built-in
    patterns.  The set of custom patterns is the list of its iteration order. *)
From S2P Require Import Prelude PyStr PyDict Json IpAddr Sys Sample Config Redaction Request Redis JsonPattern DetectionConfig BodyReader Scan Preprocessor.

#[local] Open Scope Z_scope.

(** A compiled pattern with its contexts and its category. *)
Record cpattern : Type := mkPattern {
  cp_source : string;
  cp_multiline : bool;
  cp_contexts : list string;
  cp_category : string
}.

#[export] Instance cpattern_eq_dec : EqDecision cpattern.
Proof. solve_decision. Defined.

(** A match: its text, where it starts and ends, and whether the text it stands for has
    no half of a surrogate pair in it.  The texts of the model have none, but a decoder
    may have put one into the view that is searched. *)
Record rmatch : Type := mkMatch { rm_text : string; rm_start : Z; rm_end : Z; rm_encodable : bool }.

Definition UnicodeEncodeError : exn := ValueError "'utf-8' codec can't encode character: surrogates not allowed".

(** [value.encode("utf-8", errors="surrogateescape").decode("utf-8", ...)] *)
Definition _sanitize_for_reporting (encodable : bool) (value : string) : res string :=
  if encodable then Ok value else Raise UnicodeEncodeError.

(** What a search in another thread comes to. *)
Inductive search_outcome (A : Type) : Type := Searched (found : A) | TimedOut | SearchFailed (message : string).
Arguments Searched {_} _.
Arguments TimedOut {_}.
Arguments SearchFailed {_} _.

Class PatternEngine `{E : Env} : Type := {
  (** [_PATTERN_DEFINITIONS]: source, contexts, category *)
  pattern_definitions : list (string * list string * string);
  (** [DETECTION_RAW_VIEW_PATTERN_SOURCES], [DETECTION_URL_DECODED_VIEW_PATTERN_SOURCES],
      [DETECTION_RECON_RAW_VIEW_PATTERN_SOURCES], [RECON_OPTIONAL_SEPARATOR_PATTERN_SOURCES],
      [NOISE_PRONE_PATTERN_SOURCES] *)
  raw_view_sources : list string;
  url_decoded_view_sources : list string;
  recon_raw_view_sources : list string;
  recon_optional_separator_sources : list string;
  noise_prone_sources : list string;
  (** [_CANDIDATE_REJECTION_VALIDATORS] *)
  candidate_validators : list (string * (rmatch -> string -> bool));
  (** [_WINDOWED_PATTERN_FINDERS], in their thread; [_PATTERN_SCAN_WINDOW_MATCHERS];
      [_SCAN_WINDOW_PATTERNS] *)
  windowed_finder : string -> option (string -> search_outcome (list rmatch));
  scan_window_matcher : string -> option (string -> list rmatch);
  scan_window_bounds : string -> option (string -> list rmatch);
  (** [create_async_safe_finditer_matcher(pattern, inline_safe)], and its timeout *)
  safe_finder : cpattern -> bool -> string -> list rmatch;
  default_timeout : Z;
  (** [pattern.search(content, from)] in a thread *)
  pattern_search : cpattern -> string -> Z -> search_outcome (option rmatch);
  (** [validate_pattern_safety(pattern, max_content_length)] *)
  validate_pattern_safety : string -> Z -> bool * string;
  (** the analysis of a text: its score and the probability of each attack *)
  semantic_analysis : string -> Z * list (string * Z);
  (** the compiler's cache, and the monitor *)
  clear_cache : M Sys unit;
  record_metric : string -> Z -> Z -> bool -> bool -> bool -> option string -> M Sys unit;
  remove_pattern_stats : string -> M Sys unit;
  clear_stats : M Sys unit
}.

(** [_DetectionState] *)
Record DetectionState : Type := mkState {
  ds_compiler : bool;
  ds_preprocessor : option ContentPreprocessor;
  ds_semantic_analyzer : bool;
  ds_performance_monitor : bool;
  semantic_threshold : Z;
  threat_score_threshold : Z
}.

Definition _LEGACY_DETECTION_STATE : DetectionState := mkState false None false false 700000 (millionths 1).

(** [SusPatternsManager] *)
Record SusPatterns : Type := mkSusPatterns {
  sp_patterns : list string;
  sp_custom_patterns : list string;
  sp_compiled_patterns : list cpattern;
  sp_compiled_custom_patterns : list cpattern;
  sp_redis : option (RedisHandle SecurityConfig);
  sp_agent : bool;
  sp_config : option SecurityConfig;
  sp_state : DetectionState
}.

#[local] Abbreviation P := (M (Sys * SusPatterns)).

Definition sp_get {A} `{E : Env} (f : SusPatterns -> A) : P A := gets (fun w => f (snd w)).
Definition sp_set `{E : Env} (f : SusPatterns -> SusPatterns) : P unit := modify (fun w => (fst w, f (snd w))).

Definition _CTX_ALL : list string := ["query_param"; "header"; "url_path"; "request_body"; "unknown"].
Definition _DEFAULT_MAX_BODY_INSPECT_BYTES : Z := 262144.
Definition _DEFAULT_MAX_SCAN_LENGTH : nat := Z.to_nat 10000.

(** * The registry *)

Section registry.
Context `{PE : PatternEngine} `{SS : !ScanServices}.

Definition builtin (d : string * list string * string) : cpattern :=
  let '(source, contexts, category) := d in mkPattern source false contexts category.

(** [_build_enhanced_detection_state] *)
Definition _build_enhanced_detection_state (config : SecurityConfig) : DetectionState :=
  {| ds_compiler := true;
     ds_preprocessor := Some {| max_content_length := Z.to_nat (detection_max_content_length config);
       preserve_attack_patterns := detection_preserve_attack_patterns config; pp_agent := false; pp_correlation_id := None;
       _MAX_FULL_SCAN_BYTES := Z.to_nat (detection_max_body_inspect_bytes config) |};
     ds_semantic_analyzer := true; ds_performance_monitor := true;
     semantic_threshold := detection_semantic_threshold config;
     threat_score_threshold := detection_threat_score_threshold config |}.

Definition SusPatterns_new (config : option SecurityConfig) : SusPatterns :=
  {| sp_patterns := map (fun d => fst (fst d)) pattern_definitions; sp_custom_patterns := [];
     sp_compiled_patterns := map builtin pattern_definitions; sp_compiled_custom_patterns := [];
     sp_redis := None; sp_agent := false; sp_config := config;
     sp_state := match config with Some c => _build_enhanced_detection_state c | None => _LEGACY_DETECTION_STATE end |}.

(** [set.add] *)
Definition set_add {A} `{EqDecision A} (x : A) (l : list A) : list A := if bool_decide (x ∈ l) then l else l ++ [x].

Definition _SUS_PATTERNS_HANDLER_NAME : string := "sus_patterns".

(** [_send_pattern_event], given whether there is an agent *)
Definition pattern_event (agent_handler : bool) (event_type ip_address action_taken reason : string) (kwargs : list (string * string))
  : M Sys unit :=
  when agent_handler
    (catch any_exn
      (agent_send (AgentEvent event_type ip_address action_taken reason _SUS_PATTERNS_HANDLER_NAME None kwargs))
      (fun e => log ERROR ("Failed to send pattern event to agent: " +:+ exn_message e))).

Definition _send_pattern_event (event_type ip_address action_taken reason : string) (kwargs : list (string * string)) : P unit :=
  let* agent_handler := sp_get sp_agent in
  sys (pattern_event agent_handler event_type ip_address action_taken reason kwargs).

Definition kind_of (custom : bool) : string := if custom then "Custom" else "Default".
Definition kind_name (custom : bool) : string := if custom then "custom" else "default".

(** [", ".join] of the set, stored *)
Definition store_custom : P unit :=
  let* redis_handler := sp_get sp_redis in
  match redis_handler with
  | Some h =>
      let* custom := sp_get sp_custom_patterns in
      let* _ := sys (set_key (rh_config h) (rh_agent h) "patterns" "custom" (join "," custom) None) in
      ret tt
  | None => ret tt
  end.

Definition clear_compiler_cache : P unit :=
  let* state := sp_get sp_state in
  when (ds_compiler state) (sys clear_cache).

(** [f"{_redact_pattern_source(pattern)[:50]}..."], with the depth of JSON the context has *)
Definition preview_of (json_depth : Z) (pattern : string) : res string :=
  res_map (fun shown => stake 50 shown +:+ "...") (_redact_pattern_source json_depth pattern).

Definition add_pattern (pattern : string) (custom : bool) : P bool :=
  let* config := sp_get sp_config in
  let max_content_length := match config with Some c => detection_max_body_inspect_bytes c | None => _DEFAULT_MAX_BODY_INSPECT_BYTES end in
  let '(is_safe, reason) := validate_pattern_safety pattern max_content_length in
  if negb is_safe then
    let* shown := lift_res (preview_of _DEFAULT_MAX_JSON_DEPTH pattern) in
    sys (log WARNING ("Rejected unsafe pattern (" +:+ reason +:+ "): " +:+ shown)) ;;;
    ret false
  else
    let compiled := mkPattern pattern true _CTX_ALL "custom" in
    (if custom then
       sp_set (fun m => m {{ sp_compiled_custom_patterns ::= set_add compiled }} {{ sp_custom_patterns ::= set_add pattern }}) ;;;
       store_custom
     else
       sp_set (fun m => m {{ sp_compiled_patterns ::= fun l => l ++ [compiled] }} {{ sp_patterns ::= fun l => l ++ [pattern] }})) ;;;
    clear_compiler_cache ;;;
    let* agent_handler := sp_get sp_agent in
    when agent_handler
      (let* shown := lift_res (_redact_pattern_source _DEFAULT_MAX_JSON_DEPTH pattern) in
       let* total := sp_get (fun m => length (if custom then sp_custom_patterns m else sp_patterns m)) in
       _send_pattern_event "pattern_added" "system" "pattern_added" (kind_of custom +:+ " pattern added to detection system")
         [("pattern", shown); ("pattern_type", kind_name custom); ("total_patterns", string_of_Z (Z.of_nat total))]) ;;;
    ret true.

Definition _remove_custom_pattern (pattern : string) : P bool :=
  let* custom := sp_get sp_custom_patterns in
  if negb (in_list pattern custom) then ret false
  else
    sp_set (fun m => m {{ sp_custom_patterns ::= List.filter (fun p => negb (p =? pattern)%string) }}
                       {{ sp_compiled_custom_patterns ::= List.filter (fun c => negb (cp_source c =? pattern)%string) }}) ;;;
    store_custom ;;;
    ret true.

(** [list.index] *)
Fixpoint index_of (x : string) (l : list string) : option nat :=
  match l with [] => None | y :: l' => if (x =? y)%string then Some O else option_map S (index_of x l') end.

Fixpoint pop {A} (n : nat) (l : list A) : list A :=
  match n, l with O, _ :: l' => l' | S n', x :: l' => x :: pop n' l' | _, [] => [] end.

Definition _remove_default_pattern (pattern : string) : P bool :=
  let* patterns := sp_get sp_patterns in
  match index_of pattern patterns with
  | None => ret false
  | Some index =>
      sp_set (fun m => m {{ sp_patterns ::= pop index }}) ;;;
      let* compiled := sp_get sp_compiled_patterns in
      if (index <? length compiled)%nat then
        sp_set (fun m => m {{ sp_compiled_patterns ::= pop index }}) ;;;
        ret true
      else ret false
  end.

Definition _clear_pattern_caches (pattern : string) : P unit :=
  clear_compiler_cache ;;;
  let* state := sp_get sp_state in
  when (ds_performance_monitor state) (sys (remove_pattern_stats pattern)).

Definition _send_pattern_removal_event (pattern : string) (custom : bool) (total_patterns : nat) : P unit :=
  let* agent_handler := sp_get sp_agent in
  when agent_handler
    (let* shown := lift_res (_redact_pattern_source _DEFAULT_MAX_JSON_DEPTH pattern) in
     _send_pattern_event "pattern_removed" "system" "pattern_removed" (kind_of custom +:+ " pattern removed from detection system")
       [("pattern", shown); ("pattern_type", kind_name custom); ("total_patterns", string_of_Z (Z.of_nat total_patterns))]).

Definition remove_pattern (pattern : string) (custom : bool) : P bool :=
  let* removed := if custom then _remove_custom_pattern pattern else _remove_default_pattern pattern in
  when removed
    (_clear_pattern_caches pattern ;;;
     let* total := sp_get (fun m => length (if custom then sp_custom_patterns m else sp_patterns m)) in
     _send_pattern_removal_event pattern custom total) ;;;
  ret removed.

Definition get_default_patterns : P (list string) := sp_get sp_patterns.
Definition get_custom_patterns : P (list string) := sp_get sp_custom_patterns.
Definition get_all_patterns : P (list string) := sp_get (fun m => sp_patterns m ++ sp_custom_patterns m).
Definition all_compiled (m : SusPatterns) : list cpattern := sp_compiled_patterns m ++ sp_compiled_custom_patterns m.

Definition sp_reset : P unit :=
  sp_set (fun m => m {{ sp_custom_patterns := [] }} {{ sp_compiled_custom_patterns := [] }} {{ sp_redis := None }} {{ sp_agent := false }}) ;;;
  clear_compiler_cache ;;;
  let* state := sp_get sp_state in
  when (ds_performance_monitor state) (sys clear_stats) ;;;
  sp_set (fun m => m {{ sp_config := None }}).

(** One of [cached_patterns.split(",")]. *)
Definition restore_pattern (pattern : string) : P unit :=
  let* custom := sp_get sp_custom_patterns in
  if in_list pattern custom then ret tt
  else
    let* restored := add_pattern pattern true in
    if restored : bool then ret tt
    else
      let* shown := lift_res (preview_of _DEFAULT_MAX_JSON_DEPTH pattern) in
      sys (log WARNING ("Skipped restoring persisted pattern: " +:+ shown)).

Definition sp_initialize_redis (redis_handler : option (RedisHandle SecurityConfig)) : P unit :=
  sp_set (fun m => m {{ sp_redis := redis_handler }}) ;;;
  match redis_handler with
  | None => ret tt
  | Some h =>
      catch any_exn
        (let* cached_patterns := sys (get_key (rh_config h) (rh_agent h) "patterns" "custom") in
         match cached_patterns with
         | Some (String _ _ as cached) => for_each (split_on "," cached) restore_pattern
         | _ => ret tt
         end)
        (fun e => sys (log WARNING ("Custom pattern restore skipped: " +:+ exn_message e)))
  end.

Definition sp_configure (config : SecurityConfig) : P unit :=
  sp_set (fun m => m {{ sp_config := Some config }} {{ sp_state := _build_enhanced_detection_state config }}).

Definition sp_initialize_agent (agent_handler : bool) : P unit := sp_set (fun m => m {{ sp_agent := agent_handler }}).
End registry.

(** * One pattern on one text ([_suspatterns_regex.py]) *)

Definition quoted_class : string := "[\w." +:+ String quote "]+".
Definition _SELECT_FROM_RE : string := "(?i)\bSELECT\b(?:(?!\bSELECT\b)[\w\s,\*().])*?\bFROM\b".
Definition _SELECT_STAR_RE : string := "(?i)SELECT\s+\*".
Definition _WHERE_CLAUSE_RE : string := "(?i)\bWHERE\s+" +:+ quoted_class +:+ "\s*(?:=|<|>|<=|>=|LIKE|IN)\b".

Definition DETECTION_PATTERN_WEIGHT_OVERRIDES : list string := [_SELECT_FROM_RE; _SELECT_STAR_RE; _WHERE_CLAUSE_RE].

(** In millionths; every category weighs the same. *)
Definition _resolve_pattern_weight (pattern category : string) : Z :=
  if in_list pattern DETECTION_PATTERN_WEIGHT_OVERRIDES then 500000 else millionths 1.

Definition _DECODE_BUDGET_EXHAUSTED_PATTERN : string := "decode_budget_exhausted".

Definition _decode_budget_exhausted_threat : threat :=
  RegexThreat _DECODE_BUDGET_EXHAUSTED_PATTERN _DECODE_BUDGET_EXHAUSTED_PATTERN 0 "custom"
    (Some (_resolve_pattern_weight _DECODE_BUDGET_EXHAUSTED_PATTERN "custom")).

Definition _RECON_BARE_PATH_CONTEXTS : list string := ["url_path"; "unknown"].

Definition before_colon (context : string) : string :=
  match partition_char ":" context with Some (before, _) => before | None => context end.

Definition _recon_path_value_is_probe (m : rmatch) (context : string) : bool :=
  in_list (before_colon context) _RECON_BARE_PATH_CONTEXTS || startswith (rm_text m) "/" || startswith (rm_text m) "\".

Definition _BINARY_DENSITY_RADIUS : Z := 64.
Definition _BINARY_DENSITY_LIMIT : Z := 4.

(** How many characters of a prefix are no text ([build_binary_prefix]). *)
Definition binary_prefix (content : string) (i : Z) : Z := artifact_count (stake (Z.to_nat i) content).

Definition match_is_binary_dense (content : string) (m : rmatch) : bool :=
  let high := Z.min (rm_end m + _BINARY_DENSITY_RADIUS) (Z.of_nat (slen content)) in
  let low := Z.max (rm_start m - _BINARY_DENSITY_RADIUS) 0 in
  _BINARY_DENSITY_LIMIT <=? binary_prefix content high - binary_prefix content low.

(** What is logged of a pattern goes through its redaction, in the context of the request:
    [json_depth] is the depth of JSON in it. *)
Section patterns.
Context `{PE : PatternEngine} `{SS : !ScanServices} (json_depth : Z).

(** The views: [raw_view_only] is [None] when nothing is configured. *)
Definition _pattern_excluded_from_view (source : string) (raw_view_only url_decoded_view_only : option bool) : bool :=
  let is_raw_view_pattern := in_list source raw_view_sources in
  let is_url_decoded_view_pattern := in_list source url_decoded_view_sources in
  let is_recon_raw_view_pattern := in_list source recon_raw_view_sources in
  match raw_view_only, url_decoded_view_only with
  | Some true, _ => is_url_decoded_view_pattern || negb (is_raw_view_pattern || is_recon_raw_view_pattern)
  | _, Some true => is_raw_view_pattern || negb is_url_decoded_view_pattern
  | Some false, _ => is_raw_view_pattern || is_url_decoded_view_pattern
  | None, _ => false
  end.

Definition _pattern_should_be_skipped (pattern : cpattern) (raw_view_only url_decoded_view_only : option bool) (skip_filter : bool)
  (normalized_context : string) (enabled_categories : option (list string)) : bool :=
  if _pattern_excluded_from_view (cp_source pattern) raw_view_only url_decoded_view_only then true
  else if negb skip_filter && negb (in_list normalized_context (cp_contexts pattern)) then true
  else match enabled_categories with
       | Some enabled => negb (cp_category pattern =? "custom")%string && negb (in_list (cp_category pattern) enabled)
       | None => false
       end.

Definition rejected_candidate (source : string) (m : rmatch) (context : string) : bool :=
  existsb (fun v => (source =? fst v)%string && negb (snd v m context)) candidate_validators.

Definition _build_regex_threat (pattern : cpattern) (m : rmatch) (category context content : string) : M Sys (option threat) :=
  let source := cp_source pattern in
  if rejected_candidate source m context then ret None
  else if in_list source recon_optional_separator_sources && negb (_recon_path_value_is_probe m context) then ret None
  else if in_list source noise_prone_sources && match_is_binary_dense content m then ret None
  else
    let* matched := lift_res (_sanitize_for_reporting (rm_encodable m) (rm_text m)) in
    let* _ := time_monotonic in
    ret (Some (RegexThreat source matched (rm_start m) category
      (Some (_resolve_pattern_weight source category)))).

Definition _build_timeout_threat (pattern : cpattern) (category : string) : M Sys threat :=
  let* _ := time_monotonic in
  ret (TimeoutThreat (cp_source pattern) category (_resolve_pattern_weight (cp_source pattern) category)).

Definition _first_accepted_regex_threat (matches : list rmatch) (pattern : cpattern) (category context content : string)
  : M Sys (option threat) :=
  first_some matches (fun m => _build_regex_threat pattern m category context content).

Definition slow_warning (pattern : cpattern) : M Sys unit :=
  let* shown := lift_res (preview_of json_depth (cp_source pattern)) in
  log WARNING ("Pattern timeout: " +:+ shown).

Definition _check_windowed_pattern (pattern : cpattern) (finder : string -> search_outcome (list rmatch)) (content category context : string)
  : M Sys (option threat * bool) :=
  match finder content with
  | TimedOut => slow_warning pattern ;;; ret (None, true)
  | SearchFailed e =>
      let* shown := lift_res (preview_of json_depth (cp_source pattern)) in
      log ERROR ("Error in windowed regex search for pattern " +:+ shown +:+ ": " +:+ e) ;;;
      ret (None, false)
  | Searched matches =>
      let* threat := _first_accepted_regex_threat matches pattern category context content in
      ret (threat, false)
  end.

Definition _check_pattern_with_timeout (pattern : cpattern) (content ip_address : string) (search_from : Z)
  : M Sys (option rmatch * bool) :=
  match pattern_search pattern content search_from with
  | Searched m => ret (m, false)
  | TimedOut =>
      let* shown := lift_res (preview_of json_depth (cp_source pattern)) in
      log WARNING ("Regex timeout exceeded for pattern: " +:+ shown +:+
        " Potential ReDoS attack blocked. IP: " +:+ ip_address) ;;;
      ret (None, true)
  | SearchFailed e =>
      let* shown := lift_res (preview_of json_depth (cp_source pattern)) in
      log ERROR ("Error in regex search for pattern " +:+ shown +:+ ": " +:+ e) ;;;
      ret (None, false)
  end.

(** [while True]: a match that is not accepted is followed by a search after it. *)
Fixpoint retry_loop (fuel : nat) (pattern : cpattern) (content ip_address category context : string) (search_from : Z)
  : M Sys (option threat * bool) :=
  match fuel with
  | O => raise OutOfFuel
  | S fuel' =>
      let* r := _check_pattern_with_timeout pattern content ip_address search_from in
      match r with
      | (Some m, false) =>
          let* threat := _build_regex_threat pattern m category context content in
          match threat with
          | Some _ => ret (threat, false)
          | None =>
              retry_loop fuel' pattern content ip_address category context
                (if rm_end m =? rm_start m then rm_end m + 1 else rm_end m)
          end
      | (_, occurred) => ret (None, occurred)
      end
  end.

Definition _check_regex_pattern_with_retry (pattern : cpattern) (content ip_address category context : string)
  : M Sys (option threat * bool) :=
  retry_loop (2 + slen content) pattern content ip_address category context 0.

Definition _check_regex_pattern (state : DetectionState) (pattern : cpattern) (content ip_address : string) (pattern_start : Z)
  (category context : string) : M Sys (option threat * bool) :=
  match windowed_finder (cp_source pattern) with
  | Some finder => _check_windowed_pattern pattern finder content category context
  | None =>
      match scan_window_matcher (cp_source pattern), scan_window_bounds (cp_source pattern) with
      | Some matcher, _ | None, Some matcher =>
          let* threat := _first_accepted_regex_threat (matcher content) pattern category context content in
          ret (threat, false)
      | None, None =>
          if ds_compiler state then
            let matches := safe_finder pattern (negb (category =? "custom")%string) content in
            let* timeout_occurred :=
              if nonempty matches then ret false
              else
                let* now := time_monotonic in
                if 9 * default_timeout <=? 10 * (now - pattern_start) then slow_warning pattern ;;; ret true
                else ret false in
            let* threat := _first_accepted_regex_threat matches pattern category context content in
            ret (threat, timeout_occurred)
          else _check_regex_pattern_with_retry pattern content ip_address category context
      end
  end.

(** ** All patterns on one text *)

Definition _results : Type := list threat * list string * list string.

Definition validator_context (context : string) : string :=
  let normalized := _normalize_context context in
  if endswith context _EMBEDDED_JSON_LEAF_CONTEXT_SUFFIX then normalized +:+ _EMBEDDED_JSON_LEAF_CONTEXT_SUFFIX else normalized.

(** The threat a pattern is reported for, and whether it took too long. *)
Definition check_one (m : SusPatterns) (pattern : cpattern) (content ip_address : string) (correlation_id : option string) (context : string)
  : M Sys (option threat * bool) :=
  let* pattern_start := time_monotonic in
  let* r := _check_regex_pattern (sp_state m) pattern content ip_address pattern_start (cp_category pattern) (validator_context context) in
  let '(threat, timeout_occurred) := r in
  let* threat :=
    match threat with
    | None => if timeout_occurred : bool then let* t := _build_timeout_threat pattern (cp_category pattern) in ret (Some t) else ret None
    | Some _ => ret threat
    end in
  when (ds_performance_monitor (sp_state m))
    (let* now := time_monotonic in
     record_metric (cp_source pattern) (now - pattern_start) (Z.of_nat (slen content)) (is_some threat) timeout_occurred (sp_agent m)
       correlation_id) ;;;
  ret (threat, timeout_occurred).

Fixpoint check_patterns (m : SusPatterns) (patterns : list cpattern) (content ip_address : string) (correlation_id : option string)
  (context : string) (enabled_categories : option (list string)) (raw_view_only url_decoded_view_only : option bool) : M Sys _results :=
  match patterns with
  | [] => ret ([], [], [])
  | pattern :: patterns' =>
      let normalized := _normalize_context context in
      let rest := check_patterns m patterns' content ip_address correlation_id context enabled_categories raw_view_only url_decoded_view_only in
      if _pattern_should_be_skipped pattern raw_view_only url_decoded_view_only (in_list normalized ["unknown"; "request_body"]) normalized
           enabled_categories
      then rest
      else
        let* r := check_one m pattern content ip_address correlation_id context in
        let* more := rest in
        let '(threats, matched, timeouts) := more in
        let timeouts := if snd r : bool then cp_source pattern :: timeouts else timeouts in
        ret (match fst r with
             | Some t => (t :: threats, cp_source pattern :: matched, timeouts)
             | None => (threats, matched, timeouts)
             end)
  end.

Definition _check_regex_patterns (m : SusPatterns) (content ip_address : string) (correlation_id : option string) (context : string)
  (enabled_categories : option (list string)) (raw_view_only url_decoded_view_only : option bool) : M Sys _results :=
  check_patterns m (all_compiled m) content ip_address correlation_id context enabled_categories raw_view_only url_decoded_view_only.
End patterns.
