(* ===== verification/SuspatternsDetect.v ===== *)
(** What the pattern handler says of a text: its views
    ([guard_core/handlers/_suspatterns_views.py]), the preprocessing and the semantic
    analysis of [_suspatterns_enhanced.py], and [SusPatternsManager.detect]
    ([suspatterns_handler.py]), which puts them together.

    A detection reads the handler and does not change it, so the handler is an argument
    here.  Scores, weights and thresholds are counted in millionths, and the execution
    time of a single threat is left out. *)
From S2P Require Import Prelude PyStr PyDict Json Sys Config Request JsonPattern DetectionConfig BodyReader Scan Preprocessor Suspatterns.

#[local] Open Scope Z_scope.

Definition _regex_anomaly (regex_threats : list threat) : Z :=
  fold_right (fun t n => match t with
                         | RegexThreat _ _ _ _ weight => default (millionths 1) weight
                         | TimeoutThreat _ _ weight => weight
                         | SemanticThreat _ _ => millionths 1
                         end + n) 0 regex_threats.

(** The result of a detection. *)
Record Detection : Type := mkDetection {
  dt_is_threat : bool;
  dt_threat_score : Z;
  dt_threats : list threat;
  dt_context : string;
  dt_original_length : nat;
  dt_processed_length : nat;
  dt_execution_time : Z;
  dt_detection_method : string;
  dt_timeouts : list string;
  dt_correlation_id : option string
}.

(** * The threats of several views *)

(** [threat.get("pattern"), threat.get("match")] *)
Definition threat_key (t : threat) : option string * option string :=
  match t with
  | RegexThreat pattern matched _ _ _ => (Some pattern, Some matched)
  | TimeoutThreat pattern _ _ => (Some pattern, Some "")
  | SemanticThreat _ _ => (None, None)
  end.

(** The loop of [_drop_view_duplicate_threats]; [zip(strict=True)] raises where one of
    the lists ends before the other. *)
Fixpoint drop_seen (seen : list (option string * option string)) (new_threats : list threat) (new_matched : list string)
  : res (list threat * list string) :=
  match new_threats, new_matched with
  | [], [] => Ok ([], [])
  | t :: threats, pattern :: matched =>
      if bool_decide (threat_key t ∈ seen) then drop_seen seen threats matched
      else match drop_seen (threat_key t :: seen) threats matched with
           | Ok (kept_threats, kept_matched) => Ok (t :: kept_threats, pattern :: kept_matched)
           | Raise e => Raise e
           end
  | _, _ => Raise (ValueError "zip() arguments have different lengths")
  end.

Definition _drop_view_duplicate_threats (seen_threats new_threats : list threat) (new_matched : list string)
  : res (list threat * list string) := drop_seen (map threat_key seen_threats) new_threats new_matched.

Definition _merge_raw_view_results (threats : list threat) (matched_patterns timeouts : list string) (raw_results : _results) : res _results :=
  let '(raw_threats, raw_matched, raw_timeouts) := raw_results in
  match _drop_view_duplicate_threats threats raw_threats raw_matched with
  | Ok (raw_threats, raw_matched) =>
      Ok (threats ++ raw_threats, matched_patterns ++ raw_matched,
          timeouts ++ List.filter (fun t => negb (in_list t timeouts)) raw_timeouts)
  | Raise e => Raise e
  end.

Definition SEMANTIC_ATTACK_TYPE_TO_CATEGORY : list (string * string) :=
  [("xss", "xss"); ("sql", "sqli"); ("command", "cmd_injection"); ("path", "path_traversal"); ("template", "template");
   ("suspicious", "custom")].

Definition reported_category (t : threat) : option string :=
  match _threat_category t with
  | Some category =>
      Some (match t with
            | SemanticThreat _ _ => default category (dget category SEMANTIC_ATTACK_TYPE_TO_CATEGORY)
            | _ => category
            end)
  | None => None
  end.

Definition _collect_threat_categories (threats : list threat) : list string :=
  fold_left (fun categories t => match reported_category t with
                                 | Some category => if in_list category categories then categories else categories ++ [category]
                                 | None => categories
                                 end) threats [].

(** * Texts *)

(** [str.isprintable] of a Latin-1 character *)
Definition isprintable (c : ascii) : bool :=
  let n := code c in ((32 <=? n) && (n <? 127)) || ((161 <=? n) && negb (n =? 173)).

Definition is_text_break (c : ascii) : bool := let n := code c in (n =? 9) || (n =? 10) || (n =? 13).

Fixpoint count_chars (p : ascii -> bool) (s : string) : Z :=
  match s with "" => 0 | String c s' => (if p c then 1 else 0) + count_chars p s' end.

(** A fifth of the text is not text. *)
Definition looks_like_binary_content (content : string) : bool :=
  truthy content && (Z.of_nat (slen content) <=? 5 * count_chars (fun c => negb (is_text_break c) && negb (isprintable c)) content).

Definition _PATH_TRAVERSAL_DECODED_SHAPE_RE : string := "\.\.[\\/]".

(** Its [finditer], where the text at [i] is to be read. *)
Fixpoint traversals (i : Z) (s : string) : list rmatch :=
  match s with
  | "" => []
  | String c0 s1 =>
      match s1 with
      | String c1 (String c2 s3) =>
          if (c0 =? ".")%char && (c1 =? ".")%char && ((c2 =? "/")%char || (c2 =? "\")%char)
          then mkMatch (".." +:+ String c2 "") i (i + 3) true :: traversals (i + 3) s3
          else traversals (i + 1) s1
      | _ => []
      end
  end.

Definition traversal_matches : string -> list rmatch := traversals 0.

Definition _LEGACY_PATH_TRAVERSAL_DECODE_MAX_ITERATIONS : nat := 8.

Section views.
Context `{PE : PatternEngine} `{DC : !Decoders} `{SS : !ScanServices}.
Context (json_depth : Z) (m : SusPatterns).

Fixpoint legacy_rounds (rounds : nat) (decoded : string) : res string :=
  match rounds with
  | O => Ok decoded
  | S rounds' =>
      match url_unquote (decode_overlong decoded) with
      | Raise e => Raise e
      | Ok unquoted =>
          let next := normalize_unicode (decode_percent_u_escapes unquoted) in
          if (next =? decoded)%string then Ok next else legacy_rounds rounds' next
      end
  end.

Definition _legacy_decode_path_traversal_view (normalized_content : string) : res string :=
  match legacy_rounds _LEGACY_PATH_TRAVERSAL_DECODE_MAX_ITERATIONS normalized_content with
  | Ok decoded => Ok (remove_null_bytes decoded)
  | Raise e => Raise e
  end.

(** [getattr(self._config, "detection_max_content_length", _DEFAULT_MAX_SCAN_LENGTH)] *)
Definition scan_length : nat :=
  match sp_config m with Some config => Z.to_nat (detection_max_content_length config) | None => _DEFAULT_MAX_SCAN_LENGTH end.

(** The processed text, whether decoding came to no end, and the decoded text. *)
Definition _preprocess_content (content : string) (correlation_id : option string) : M Sys (string * bool * option string) :=
  match ds_preprocessor (sp_state m) with
  | None => ret (stake scan_length content, false, None)
  | Some preprocessor =>
      let context_preprocessor := preprocessor {{ pp_agent := sp_agent m }} {{ pp_correlation_id := correlation_id }} in
      let* r := preprocess_with_decoded context_preprocessor content in
      ret (fst (fst r), snd r, Some (snd (fst r)))
  end.

Definition _check_raw_view_patterns (content ip_address context : string) (correlation_id : option string)
  (enabled_categories : option (list string)) : M Sys _results :=
  match ds_preprocessor (sp_state m) with
  | None => ret ([], [], [])
  | Some preprocessor =>
      _check_regex_patterns json_depth m (preprocess_signal_preserving preprocessor content) ip_address correlation_id context enabled_categories
        (Some true) None
  end.

Definition _check_decoded_view_path_traversal (processed_content content context : string) (enabled_categories : option (list string))
  : M Sys (option threat) :=
  if match enabled_categories with Some enabled => negb (in_list "path_traversal" enabled) | None => false end then ret None
  else
    let* _ := time_monotonic in
    let* views :=
      match ds_preprocessor (sp_state m) with
      | Some preprocessor => ret (preprocess_signal_preserving preprocessor content, processed_content)
      | None =>
          let raw := normalize_unicode (stake scan_length content) in
          let* decoded := lift_res (_legacy_decode_path_traversal_view raw) in
          ret (raw, decoded)
      end in
    let '(raw_view_content, decoded_view_content) := views in
    let decoded_matches := traversal_matches decoded_view_content in
    if (length decoded_matches <=? length (traversal_matches raw_view_content))%nat then ret None
    else match decoded_matches with
         | [] => ret None
         | found :: _ =>
             let* matched := lift_res (_sanitize_for_reporting (rm_encodable found) (rm_text found)) in
             let* _ := time_monotonic in
             ret (Some (RegexThreat _PATH_TRAVERSAL_DECODED_SHAPE_RE matched (rm_start found)
               "path_traversal" (Some (_resolve_pattern_weight _PATH_TRAVERSAL_DECODED_SHAPE_RE "path_traversal"))))
         end.

Definition _check_url_decoded_view_patterns (content ip_address context : string) (correlation_id : option string)
  (enabled_categories : option (list string)) (precomputed_decoded : option string) (precomputed_decode_budget_exhausted : bool)
  : M Sys (_results * bool) :=
  match ds_preprocessor (sp_state m) with
  | None => ret (([], [], []), false)
  | Some preprocessor =>
      let* view :=
        match precomputed_decoded with
        | Some decoded => ret (truncate_safely preprocessor decoded, precomputed_decode_budget_exhausted)
        | None => preprocess_url_decoded_newline_preserving preprocessor content
        end in
      let* results := _check_regex_patterns json_depth m (fst view) ip_address correlation_id context enabled_categories None (Some true) in
      ret (results, snd view)
  end.

Definition _check_short_base64_additive_view_patterns (content ip_address context : string) (correlation_id : option string)
  (enabled_categories : option (list string)) : M Sys _results :=
  match ds_preprocessor (sp_state m) with
  | None => ret ([], [], [])
  | Some preprocessor =>
      let additive_view_content := preprocess_short_base64_additive_view preprocessor content in
      if negb (truthy additive_view_content) then ret ([], [], [])
      else _check_regex_patterns json_depth m additive_view_content ip_address correlation_id context enabled_categories None None
  end.

Definition _check_semantic_threats (content raw_content : string) : M Sys (list threat * Z) :=
  let state := sp_state m in
  if negb (ds_semantic_analyzer state) then ret ([], 0)
  else if looks_like_binary_content raw_content then ret ([], 0)
  else
    let semantic_budget := match ds_preprocessor state with Some p => max_content_length p | None => slen content end in
    let '(semantic_score, attack_probs) := semantic_analysis (stake semantic_budget content) in
    if negb (semantic_threshold state <? semantic_score) then ret ([], semantic_score)
    else
      let threats :=
        flat_map (fun a => if semantic_threshold state <=? snd a then [SemanticThreat (fst a) (snd a)] else []) attack_probs in
      ret (if negb (nonempty threats) && (semantic_threshold state <=? semantic_score) then [SemanticThreat "suspicious" semantic_score]
           else threats,
           semantic_score).

Definition semantic_score_of (t : threat) : Z := match t with SemanticThreat _ score => score | _ => 0 end.

Definition _calculate_threat_score (regex_threats semantic_threats : list threat) : Z :=
  if negb (nonempty regex_threats || nonempty semantic_threats) then 0
  else
    let semantic_max :=
      match map semantic_score_of semantic_threats with [] => 0 | x :: l => fold_left Z.max l x end in
    Z.min (Z.max (_regex_anomaly regex_threats) semantic_max) (millionths 1).

Definition _LEGACY_DETECTION_WARNING : string :=
  "Detection is running without a SecurityConfig (legacy mode): pass a SecurityConfig so the preprocessor and the configured pattern set apply; running unconfigured is deprecated and will be removed in a future major release.".

Definition _warn_if_legacy_detection (compiler : bool) : M Sys unit :=
  when (negb compiler) (warn_once "_legacy_detection_warned" (log WARNING _LEGACY_DETECTION_WARNING)).

(** The pattern an event names: the first that matched. *)
Definition event_pattern (matched_patterns : list string) (semantic_threats : list threat) : string :=
  match matched_patterns, semantic_threats with
  | pattern :: _, _ => pattern
  | [], SemanticThreat attack_type _ :: _ => "semantic:" +:+ attack_type
  | [], _ => "unknown"
  end.

Definition _send_threat_event (matched_patterns : list string) (semantic_threats : list threat) (ip_address context content : string)
  (threat_score : Z) (threats regex_threats : list threat) (timeouts : list string) (execution_time : Z) (correlation_id : option string)
  (detection_method : string) (content_preview : option string) : M Sys unit :=
  let capped_preview := stake 100 (default content content_preview) in
  let threat_categories := _collect_threat_categories threats in
  let* pattern_matched := lift_res (_redact_pattern_source json_depth (event_pattern matched_patterns semantic_threats)) in
  let* shown_preview := lift_res (_sanitize_for_reporting true capped_preview) in
  let count {A} (l : list A) := string_of_Z (Z.of_nat (length l)) in
  pattern_event (sp_agent m) "pattern_detected" ip_address "threat_detected" ("Threat detected in " +:+ context)
    [("pattern_matched", pattern_matched); ("pattern", pattern_matched); ("context", context);
     ("content_preview", shown_preview); ("threat_score", string_of_Z threat_score);
     ("threats", count threats); ("regex_threats", count regex_threats); ("semantic_threats", count semantic_threats);
     ("timeouts", count timeouts); ("detection_method", detection_method);
     ("execution_time_ms", string_of_Z (execution_time / 1000)); ("correlation_id", default "None" correlation_id);
     ("threat_categories", join "," threat_categories);
     ("category", match threat_categories with category :: _ => category | [] => "None" end)].

(** The threats of the patterns on every view, before the semantic analysis: the
    processed text comes first. *)
Definition regex_views (content ip_address context : string) (correlation_id : option string) (enabled_categories : option (list string))
  : M Sys (string * _results) :=
  let* pre := _preprocess_content content correlation_id in
  let '(processed_content, decode_budget_exhausted, precomputed_decoded) := pre in
  let* processed := _check_regex_patterns json_depth m processed_content ip_address correlation_id context enabled_categories
    (if is_some (ds_preprocessor (sp_state m)) then Some false else None) None in
  let '(regex_threats, matched_patterns, timeouts) := processed in
  let* raw_view_results := _check_raw_view_patterns content ip_address context correlation_id enabled_categories in
  let* merged := lift_res (_merge_raw_view_results regex_threats matched_patterns timeouts raw_view_results) in
  let '(regex_threats, matched_patterns, timeouts) := merged in
  let* decoded_view_threat := _check_decoded_view_path_traversal processed_content content context enabled_categories in
  let '(regex_threats, matched_patterns) :=
    match decoded_view_threat with
    | Some t => (regex_threats ++ [t], matched_patterns ++ [_PATH_TRAVERSAL_DECODED_SHAPE_RE])
    | None => (regex_threats, matched_patterns)
    end in
  let* url_decoded := _check_url_decoded_view_patterns content ip_address context correlation_id enabled_categories precomputed_decoded
    decode_budget_exhausted in
  let '((url_decoded_threats, url_decoded_matched, url_decoded_timeouts), url_decoded_budget_exhausted) := url_decoded in
  let regex_threats := regex_threats ++ url_decoded_threats in
  let matched_patterns := matched_patterns ++ url_decoded_matched in
  let timeouts := timeouts ++ url_decoded_timeouts in
  let '(regex_threats, matched_patterns) :=
    if decode_budget_exhausted || url_decoded_budget_exhausted
    then (regex_threats ++ [_decode_budget_exhausted_threat], matched_patterns ++ [_DECODE_BUDGET_EXHAUSTED_PATTERN])
    else (regex_threats, matched_patterns) in
  let* short_base64 := _check_short_base64_additive_view_patterns content ip_address context correlation_id enabled_categories in
  let '(short_base64_threats, short_base64_matched, short_base64_timeouts) := short_base64 in
  ret (processed_content,
       (regex_threats ++ short_base64_threats, matched_patterns ++ short_base64_matched, timeouts ++ short_base64_timeouts)).

(** [SusPatternsManager.detect] *)
Definition sp_detect (content ip_address context : string) (correlation_id : option string) (enabled_categories : option (list string))
  (content_preview : option string) : M Sys Detection :=
  let state := sp_state m in
  let* execution_start := time_monotonic in
  _warn_if_legacy_detection (ds_compiler state) ;;;
  let* views := regex_views content ip_address context correlation_id enabled_categories in
  let '(processed_content, (regex_threats, matched_patterns, timeouts)) := views in
  let* semantic := _check_semantic_threats processed_content content in
  let semantic_threats := fst semantic in
  let threats := regex_threats ++ semantic_threats in
  let is_threat := (threat_score_threshold state <=? _regex_anomaly regex_threats) || nonempty semantic_threats in
  let threat_score := _calculate_threat_score regex_threats semantic_threats in
  let* now := time_monotonic in
  let total_execution_time := now - execution_start in
  when (ds_performance_monitor state)
    (record_metric "overall_detection" total_execution_time (Z.of_nat (slen content)) is_threat false (sp_agent m) correlation_id) ;;;
  let detection_method := if ds_compiler state then "enhanced" else "legacy" in
  when is_threat
    (_send_threat_event matched_patterns semantic_threats ip_address context content threat_score threats regex_threats timeouts
      total_execution_time correlation_id detection_method content_preview) ;;;
  ret {| dt_is_threat := is_threat; dt_threat_score := threat_score; dt_threats := threats; dt_context := context;
         dt_original_length := slen content; dt_processed_length := slen processed_content;
         dt_execution_time := total_execution_time; dt_detection_method := detection_method; dt_timeouts := timeouts;
         dt_correlation_id := correlation_id |}.

Definition detect_pattern_match (content ip_address context : string) (correlation_id : option string) : M Sys (bool * option string) :=
  let* result := sp_detect content ip_address context correlation_id None None in
  if negb (dt_is_threat result) then ret (false, None)
  else match dt_threats result with
       | RegexThreat pattern _ _ _ _ :: _ =>
           let* shown := lift_res (_redact_pattern_source json_depth pattern) in
           ret (true, Some shown)
       | SemanticThreat attack_type _ :: _ => ret (true, Some ("semantic:" +:+ attack_type))
       | TimeoutThreat _ _ _ :: _ | [] => ret (true, Some "unknown")
       end.

(** The handler as the scan of a request uses it, when it is configured with the
    configuration of the scan: [_ensure_detection_singleton_configured] then leaves it
    alone. *)
Definition sus_detector : Detector := {|
  ensure_configured := fun _ => ret tt;
  detect := fun content ip_address context correlation_id enabled_categories content_preview =>
    let* result := sp_detect content ip_address context (Some correlation_id) enabled_categories content_preview in
    ret (dt_is_threat result, dt_threats result);
  get_all_compiled_patterns := ret (map (fun c => (cp_source c, cp_category c)) (all_compiled m));
  check_regex_pattern := fun source content ip_address pattern_start category context =>
    match List.find (fun c => (cp_source c =? source)%string && (cp_category c =? category)%string) (all_compiled m) with
    | Some pattern => _check_regex_pattern json_depth (sp_state m) pattern content ip_address pattern_start category context
    | None => ret (None, false)
    end
|}.
End views.
