(* ===== verification/SuspatternsFacts.v ===== *)
(** Theorems about the pattern handler: that a detection always comes to an answer and
    only reports what it is asked to look for, that its answer is the one the patterns
    give on the views of the text, and that no pattern is left out by the views. *)
From S2P Require Import Prelude PyStr PyDict Json Sys Sample Config Request JsonPattern DetectionConfig BodyReader Scan Preprocessor Suspatterns SuspatternsDetect.

#[local] Open Scope Z_scope.

Definition pattern_of (t : threat) : string :=
  match t with RegexThreat pattern _ _ _ _ | TimeoutThreat pattern _ _ => pattern | SemanticThreat attack_type _ => attack_type end.

(** What a pattern may be reported as, given the categories looked for. *)
Definition permitted (enabled_categories : option (list string)) (t : threat) : Prop :=
  match t with
  | RegexThreat _ _ _ category _ | TimeoutThreat _ category _ =>
      category = "custom" \/ match enabled_categories with Some enabled => category ∈ enabled | None => True end
  | SemanticThreat _ _ => False
  end.

(** The patterns reported are those of the threats, in their order. *)
Definition sound (enabled_categories : option (list string)) (r : _results) : Prop :=
  snd (fst r) = map pattern_of (fst (fst r)) /\ Forall (permitted enabled_categories) (fst (fst r)).

Lemma sound_nil cats : sound cats ([], [], []).
Proof. by split. Qed.

Lemma drop_seen_sound cats seen threats :
  Forall (permitted cats) threats ->
  exists kept, drop_seen seen threats (map pattern_of threats) = Ok (kept, map pattern_of kept) /\ Forall (permitted cats) kept.
Proof.
  intros Hall. revert seen. induction Hall as [|t threats Ht Hall IH]; intros seen; cbn [drop_seen map]; [by exists []|].
  case_bool_decide as Hs; [apply IH|]. destruct (IH (threat_key t :: seen)) as (kept & -> & Hk). exists (t :: kept). by split; [|constructor].
Qed.

Lemma merge_sound cats threats matched timeouts raw :
  sound cats (threats, matched, timeouts) -> sound cats raw ->
  exists r, _merge_raw_view_results threats matched timeouts raw = Ok r /\ sound cats r.
Proof.
  destruct raw as [[rt rm] rx]. intros [Hm Ht] [Hrm Hrt]. cbn [fst snd] in *. subst matched rm. unfold _merge_raw_view_results, _drop_view_duplicate_threats.
  destruct (drop_seen_sound cats (map threat_key threats) rt Hrt) as (kept & -> & Hk). eexists. split; [reflexivity|].
  split; cbn [fst snd]; [by rewrite map_app|by apply Forall_app].
Qed.

Lemma sound_app cats threats matched timeouts threats' matched' timeouts' :
  sound cats (threats, matched, timeouts) -> sound cats (threats', matched', timeouts') ->
  sound cats (threats ++ threats', matched ++ matched', timeouts ++ timeouts').
Proof. intros [H H1] [H' H2]. cbn [fst snd] in *. subst matched matched'. split; cbn [fst snd]; [by rewrite map_app|by apply Forall_app]. Qed.

Lemma settles_log P l msg `{E : Env} : P tt -> settles P (log l msg).
Proof. intros H. by apply settles_modify. Qed.

Lemma settles_time `{E : Env} : settles (fun _ => True) time_monotonic.
Proof. intros s. by do 2 eexists. Qed.

(** ** What a detection comes to

    [Q] holds of what may be raised: the error of a match that cannot be encoded, the
    errors of the redaction of patterns, and what the monitor raises. *)
Section total.
Context `{PE : PatternEngine} `{DC : !Decoders} `{SS : !ScanServices} (json_depth : Z).
Context (Q : exn -> Prop) (Henc : Q UnicodeEncodeError)
  (Hsource : forall source e, _redact_pattern_source json_depth source = Raise e -> Q e)
  (Hmetric : forall a b c d e f g, ends (fun _ => True) Q (record_metric a b c d e f g)).

Lemma ends_time : ends (fun _ => True) Q time_monotonic.
Proof using Type. apply ends_settles, settles_time. Qed.

Lemma ends_logged P source (f : string -> string) l : P tt ->
  ends P Q (let* shown := lift_res (preview_of json_depth source) in log l (f shown)).
Proof using Hsource.
  intros HP. eapply ends_then; [|intros shown; by apply ends_settles, settles_log]. apply ends_lift. unfold preview_of.
  destruct (_redact_pattern_source json_depth source) eqn:Hr; [done|]. by eapply Hsource.
Qed.

Lemma ends_sanitized encodable text : ends (fun _ => True) Q (lift_res (S := Sys) (_sanitize_for_reporting encodable text)).
Proof using Henc. apply ends_lift. by destruct encodable. Qed.

(** A threat of a pattern. *)
Definition threat_for (pattern : cpattern) (category : string) (t : threat) : Prop :=
  pattern_of t = cp_source pattern /\ exists matched position weight,
    t = RegexThreat (cp_source pattern) matched position category weight \/
    exists w, t = TimeoutThreat (cp_source pattern) category w.

Definition for_pattern (pattern : cpattern) (category : string) (o : option threat) : Prop :=
  match o with Some t => threat_for pattern category t | None => True end.

Lemma build_for p m category context content : ends (for_pattern p category) Q (_build_regex_threat p m category context content).
Proof using Henc.
  unfold _build_regex_threat. repeat (case_match; [by apply ends_ret|]).
  eapply ends_then; [apply ends_sanitized|]. intros matched. eapply ends_then; [apply ends_time|]. intros _.
  apply ends_ret. split; [done|]. do 3 eexists. by left.
Qed.

Lemma accepted_for l p category context content :
  ends (for_pattern p category) Q (_first_accepted_regex_threat l p category context content).
Proof using Henc.
  unfold _first_accepted_regex_threat. induction l as [|m l IH]; [by apply ends_ret|]. cbn [first_some].
  eapply ends_bind; [apply build_for|]. intros [t|] Ht; [by apply ends_ret|exact IH].
Qed.

Lemma check_for state p content ip start category context : ds_compiler state = true ->
  ends (fun r => for_pattern p category (fst r)) Q (_check_regex_pattern json_depth state p content ip start category context).
Proof using Henc Hsource.
  intros Hc. assert (forall l (o : bool), ends (fun r => for_pattern p category (fst r)) Q
    (let* threat := _first_accepted_regex_threat l p category context content in ret (threat, o))) as Hwin.
  { intros l o. eapply ends_bind; [apply accepted_for|]. intros a Ha. by apply ends_ret. }
  unfold _check_regex_pattern. destruct (windowed_finder _) as [finder|].
  { unfold _check_windowed_pattern. destruct (finder content); [apply Hwin|..].
    - eapply ends_then; [by apply (ends_logged (fun _ => True) _ (fun shown => _))|]. intros _. by apply ends_ret.
    - eapply ends_then; [apply ends_lift|intros shown; eapply ends_then; [by apply ends_settles, settles_log|intros _; by apply ends_ret]].
      unfold preview_of. destruct (_redact_pattern_source _ _) eqn:Hr; [done|]. by eapply Hsource. }
  destruct (scan_window_matcher _); [apply Hwin|]. destruct (scan_window_bounds _); [apply Hwin|].
  rewrite Hc. cbv zeta. eapply ends_then; [|intros o; apply Hwin].
  case_match; [by apply ends_ret|]. eapply ends_then; [apply ends_time|]. intros now.
  case_match; [|by apply ends_ret]. eapply ends_then; [by apply (ends_logged (fun _ => True) _ (fun shown => _))|].
  intros _. by apply ends_ret.
Qed.

Lemma permitted_for cats p t : cp_category p = "custom" \/ match cats with Some enabled => cp_category p ∈ enabled | None => True end ->
  threat_for p (cp_category p) t -> permitted cats t.
Proof. intros Hp (_ & matched & position & weight & [->|[w ->]]); exact Hp. Qed.

Context (m : SusPatterns) (Hcompiler : ds_compiler (sp_state m) = true).

Lemma check_one_sound p content ip corr context :
  ends (fun r => for_pattern p (cp_category p) (fst r)) Q (check_one json_depth m p content ip corr context).
Proof using All.
  unfold check_one. eapply ends_then; [apply ends_time|]. intros start.
  eapply ends_bind; [by apply check_for|]. intros [t o] Ht. cbn [fst] in Ht.
  eapply (ends_bind Q (for_pattern p (cp_category p))).
  { destruct t as [t|]; [by apply ends_ret|]. destruct o; [|by apply ends_ret]. unfold _build_timeout_threat.
    eapply (ends_bind Q (threat_for p (cp_category p))); [|intros t' Ht'; by apply ends_ret].
    eapply ends_then; [apply ends_time|]. intros t'. apply ends_ret. split; [done|]. exists "", 0, None. right. by eexists. }
  intros t' Ht'. eapply ends_then; [|intros _; by apply ends_ret].
  apply ends_when; [done|]. intros _. eapply ends_then; [apply ends_time|]. intros now. apply Hmetric.
Qed.

Lemma check_patterns_sound ps content ip corr context cats rv uv :
  ends (sound cats) Q (check_patterns json_depth m ps content ip corr context cats rv uv).
Proof using All.
  induction ps as [|p ps IH]; cbn [check_patterns]; [apply ends_ret, sound_nil|]. cbv zeta.
  destruct (_pattern_should_be_skipped _ _ _ _ _ _) eqn:Hskip; [exact IH|].
  eapply ends_bind; [apply check_one_sound|]. intros [t o] Ht. eapply ends_bind; [exact IH|]. intros [[ts ms] xs] [Hm Hs].
  cbn [fst snd] in *. apply ends_ret. destruct t as [t|]; [|by split]. split; cbn [fst snd map]; [rewrite Hm; f_equal; symmetry; apply Ht|].
  constructor; [|done]. eapply permitted_for; [|exact Ht].
  unfold _pattern_should_be_skipped in Hskip. destruct (_pattern_excluded_from_view _ _ _); [done|].
  destruct (_ && _) in Hskip; [done|]. destruct cats as [enabled|]; [|by right].
  apply andb_false_iff in Hskip as [Hc%negb_false_iff|Hc%negb_false_iff]; [left; by apply String.eqb_eq|right; by apply bool_decide_eq_true in Hc].
Qed.

Lemma decode_settles p content : settles (fun _ => True) (decode_common_encodings p content).
Proof.
  intros s. unfold decode_common_encodings.
  destruct (decode_rounds_spec p max_decode_iterations (content, _MAX_GUNZIP_ATTEMPTS_PER_PASS) s) as (text & flag & s' & He & _).
  cbn [fst snd] in He. rewrite (bind_ok _ _ _ _ _ He). by do 2 eexists.
Qed.

Lemma preprocess_settles p content : settles (fun _ => True) (preprocess_with_decoded p content).
Proof.
  unfold preprocess_with_decoded. case_match; [by apply settles_ret|]. eapply settles_then; [apply decode_settles|].
  intros r. by apply settles_ret.
Qed.

Context (p : ContentPreprocessor) (Hp : ds_preprocessor (sp_state m) = Some p).

Lemma traversal_sound processed content context cats :
  ends (fun o => match o with
                    | Some t => pattern_of t = _PATH_TRAVERSAL_DECODED_SHAPE_RE /\ permitted cats t
                    | None => True end) Q
    (_check_decoded_view_path_traversal m processed content context cats).
Proof using All.
  unfold _check_decoded_view_path_traversal. rewrite Hp.
  destruct (match cats with Some enabled => negb (in_list "path_traversal" enabled) | None => false end) eqn:Hc; [by apply ends_ret|].
  eapply ends_then; [apply ends_time|]. intros _. rewrite bind_ret_l. cbv beta iota zeta.
  destruct (_ <=? _)%nat; [by apply ends_ret|]. destruct (traversal_matches processed) as [|found l]; [by apply ends_ret|].
  eapply ends_then; [apply ends_sanitized|]. intros matched.
  eapply ends_then; [apply ends_time|]. intros _. apply ends_ret. split; [done|]. right. destruct cats as [enabled|]; [|done].
  apply negb_false_iff, bool_decide_eq_true in Hc. exact Hc.
Qed.

Lemma regex_views_sound content ip context corr cats :
  ends (fun r => sound cats (snd r)) Q (regex_views json_depth m content ip context corr cats).
Proof using All.
  unfold regex_views, _preprocess_content. rewrite Hp. cbn [is_some]. cbv zeta.
  eapply (ends_bind Q (fun r => is_some (snd r) = true)).
  { eapply ends_then; [apply ends_settles, preprocess_settles|]. intros r. by apply ends_ret. }
  intros [[processed exhausted] [decoded|]] [=]. eapply ends_bind; [apply check_patterns_sound|]. intros [[ts ms] xs] H1.
  eapply ends_bind; [unfold _check_raw_view_patterns; rewrite Hp; apply check_patterns_sound|]. intros raw H2.
  destruct (merge_sound cats ts ms xs raw H1 H2) as ([[ts1 ms1] xs1] & Hmerge & H3). rewrite Hmerge.
  eapply (ends_bind Q (eq (ts1, ms1, xs1))); [by apply ends_lift|]. intros ? <-.
  eapply ends_bind; [apply traversal_sound|]. intros o Ho.
  set (r2 := match o with Some t => _ | None => _ end).
  assert (sound cats (r2, xs1)) as H4.
  { subst r2. destruct o as [t|]; [|exact H3]. replace xs1 with (xs1 ++ []) by apply app_nil_r. apply sound_app; [exact H3|].
    split; cbn [fst snd map]; [by destruct Ho as [-> _]|]. constructor; [apply Ho|constructor]. }
  destruct r2 as [ts2 ms2].
  eapply (ends_bind Q (fun r => sound cats (fst r))).
  { unfold _check_url_decoded_view_patterns. rewrite Hp, bind_ret_l. eapply ends_bind; [apply check_patterns_sound|].
    intros r Hr. by apply ends_ret. }
  intros [[[ts3 ms3] xs3] flag] H5. cbn [fst] in H5. pose proof (sound_app _ _ _ _ _ _ _ H4 H5) as H6.
  set (r4 := if exhausted || flag then _ else _). assert (sound cats (r4, xs1 ++ xs3)) as H7.
  { subst r4. destruct (exhausted || flag); [|exact H6]. replace (xs1 ++ xs3) with ((xs1 ++ xs3) ++ []) by apply app_nil_r.
    apply sound_app; [exact H6|]. split; [done|]. constructor; [by left|constructor]. }
  destruct r4 as [ts4 ms4].
  eapply (ends_bind Q (sound cats)).
  { unfold _check_short_base64_additive_view_patterns. rewrite Hp. cbv zeta. case_match; [apply ends_ret, sound_nil|]. apply check_patterns_sound. }
  intros [[ts5 ms5] xs5] H8. apply ends_ret. exact (sound_app _ _ _ _ _ _ _ H7 H8).
Qed.

Definition semantic (t : threat) : Prop := match t with SemanticThreat _ _ => True | _ => False end.

Lemma semantic_settles content raw_content :
  settles (fun r => Forall semantic (fst r)) (_check_semantic_threats m content raw_content).
Proof using Type.
  unfold _check_semantic_threats. case_match; [by apply settles_ret|]. case_match; [by apply settles_ret|]. cbv zeta.
  destruct (semantic_analysis _) as [score probs]. case_match; [by apply settles_ret|]. apply settles_ret. cbn [fst].
  case_match; [by repeat constructor|]. apply Forall_forall. intros t Ht. apply list_elem_of_In, in_flat_map in Ht as ([a n] & _ & Ht).
  cbn [fst snd] in Ht. destruct (_ <=? n) in Ht; [|done]. by destruct Ht as [<-|[]].
Qed.

Lemma pattern_event_settles h a b c d kw : settles (fun _ => True) (pattern_event h a b c d kw).
Proof using Type.
  apply settles_when; [done|]. apply settles_catch; [by intros s ? _|]. intros e. by apply settles_log.
Qed.

Lemma warn_once_settles flag l msg : settles (fun _ => True) (warn_once flag (log l msg)).
Proof using Type.
  unfold warn_once. eapply settles_then; [by apply settles_gets|]. intros w. case_bool_decide; [by apply settles_ret|].
  eapply settles_then; [by apply settles_modify|]. intros _. by apply settles_log.
Qed.

(** What the patterns and the analysis of a text amount to. *)
Definition judged (d : Detection) (regex_threats semantic_threats : list threat) : Prop :=
  dt_threats d = regex_threats ++ semantic_threats /\
  dt_is_threat d = (threat_score_threshold (sp_state m) <=? _regex_anomaly regex_threats) || nonempty semantic_threats /\
  dt_threat_score d = _calculate_threat_score regex_threats semantic_threats.

Lemma event_ends cats semantic_threats a b c d e f g h i j k :
  (forall e, _redact_pattern_source json_depth (event_pattern cats semantic_threats) = Raise e -> Q e) ->
  ends (fun _ => True) Q (_send_threat_event json_depth m cats semantic_threats a b c d e f g h i j k).
Proof using Type.
  intros He. unfold _send_threat_event. cbv zeta. eapply ends_then; [apply ends_lift|].
  { destruct (_redact_pattern_source _ _) eqn:Hr; [done|]. by apply He. }
  intros shown. eapply ends_then; [by apply ends_lift|]. intros preview. apply ends_settles, pattern_event_settles.
Qed.

Lemma detect_ends V R content ip context corr cats preview :
  ends (fun r => V (fst r) (snd r)) Q (regex_views json_depth m content ip context corr cats) ->
  (forall processed r, V processed r -> settles (fun x => R r (fst x)) (_check_semantic_threats m processed content)) ->
  (forall processed r semantic_threats e, V processed r -> R r semantic_threats ->
     (threat_score_threshold (sp_state m) <=? _regex_anomaly (fst (fst r))) || nonempty semantic_threats = true ->
     _redact_pattern_source json_depth (event_pattern (snd (fst r)) semantic_threats) = Raise e -> Q e) ->
  ends (fun d => exists processed r semantic_threats, V processed r /\ R r semantic_threats /\
             judged d (fst (fst r)) semantic_threats /\ dt_timeouts d = snd r) Q
    (sp_detect json_depth m content ip context corr cats preview).
Proof using Hmetric.
  intros Hviews Hsem Hevent. unfold sp_detect. cbv zeta. eapply ends_then; [apply ends_time|]. intros start.
  eapply ends_then; [apply ends_when; [done|intros _; apply ends_settles, warn_once_settles]|]. intros _.
  eapply ends_bind; [exact Hviews|]. intros [processed [[ts ms] xs]] HV. cbn [fst snd] in HV.
  eapply ends_bind; [by apply ends_settles, Hsem|]. intros [sem score] HR. cbn [fst] in HR.
  eapply ends_then; [apply ends_time|]. intros now.
  eapply ends_then; [apply ends_when; [done|intros _; apply Hmetric]|]. intros _.
  eapply ends_then; [apply ends_when; [done|]|].
  { intros Ht. apply event_ends. intros e. exact (Hevent _ _ _ e HV HR Ht). }
  intros _. apply ends_ret. exists processed, (ts, ms, xs), sem. by repeat split.
Qed.
End total.

Section answers.
Context `{PE : PatternEngine} `{DC : !Decoders} `{SS : !ScanServices} (json_depth : Z).

(** What a detection may raise, each with what raises it. *)
Definition detection_error (e : exn) : Prop :=
  e = UnicodeEncodeError \/ (exists source, _redact_pattern_source json_depth source = Raise e) \/
  (exists a b c d f g h s, fst (record_metric a b c d f g h s) = Raise e).

End answers.
