(* ===== verification/SusVerdict.v ===== *)
(** The answer of the pattern handler when searches end in time: a function of the text,
    its context and the categories looked for.  It is what the scan of a request asks of
    a pattern handler ([ScanSpec.Opinion]), and it leaves no pattern out. *)
From S2P Require Import Prelude PyStr PyDict Json Sys Sample Config Request JsonPattern DetectionConfig BodyReader Scan ScanSpec.
From S2P Require Import Preprocessor Suspatterns SuspatternsDetect SuspatternsFacts.

#[local] Open Scope Z_scope.

(** Searches end in time: those in threads come to a result, and the clock does not
    reach nine tenths of the timeout from one reading to the next.  The monitor does not
    raise. *)
Class Prompt `{PE : PatternEngine} : Prop := {
  prompt_clock : forall n, 10 * (monotonic (S n) - monotonic n) < 9 * default_timeout;
  prompt_finders : forall source finder content, windowed_finder source = Some finder -> exists l, finder content = Searched l;
  prompt_monitor : forall a b c d e f g, settles (fun _ => True) (record_metric a b c d e f g)
}.

(** * The answer *)

Section answer.
Context `{PE : PatternEngine} `{DC : !Decoders}.

(** The matches of a pattern, with the compiler's searches. *)
Definition matches_of (p : cpattern) (content : string) : list rmatch :=
  match windowed_finder (cp_source p) with
  | Some finder => match finder content with Searched l => l | TimedOut | SearchFailed _ => [] end
  | None =>
      match scan_window_matcher (cp_source p), scan_window_bounds (cp_source p) with
      | Some matcher, _ | None, Some matcher => matcher content
      | None, None => safe_finder p (negb (cp_category p =? "custom")%string) content
      end
  end.

(** Whether a match counts. *)
Definition accepts (p : cpattern) (context content : string) (found : rmatch) : bool :=
  negb (rejected_candidate (cp_source p) found context) &&
  negb (in_list (cp_source p) recon_optional_separator_sources && negb (_recon_path_value_is_probe found context)) &&
  negb (in_list (cp_source p) noise_prone_sources && match_is_binary_dense content found).

Definition threat_of (p : cpattern) (found : rmatch) : threat :=
  RegexThreat (cp_source p) (rm_text found) (rm_start found) (cp_category p)
    (Some (_resolve_pattern_weight (cp_source p) (cp_category p))).

(** The threat of a pattern in a text: its first match that counts. *)
Definition reported_match (p : cpattern) (content context : string) : option rmatch :=
  List.find (accepts p (validator_context context) content) (matches_of p content).

Definition pattern_threats (p : cpattern) (content context : string) : list threat :=
  option_list (option_map (threat_of p) (reported_match p content context)).

Context (m : SusPatterns).

(** What would be reported on a text can be encoded. *)
Definition encodable_on (context content : string) : bool :=
  forallb (fun p => match reported_match p content context with Some found => rm_encodable found | None => true end) (all_compiled m).

Definition skipped (p : cpattern) (context : string) (cats : option (list string)) (rv uv : option bool) : bool :=
  let normalized := _normalize_context context in
  _pattern_should_be_skipped p rv uv (in_list normalized ["unknown"; "request_body"]) normalized cats.

(** The threats of the patterns of a view. *)
Definition view_threats (content context : string) (cats : option (list string)) (rv uv : option bool) : list threat :=
  flat_map (fun p => if skipped p context cats rv uv then [] else pattern_threats p content context) (all_compiled m).

(** Those not seen before. *)
Fixpoint unseen (seen : list (option string * option string)) (threats : list threat) : list threat :=
  match threats with
  | [] => []
  | t :: threats' => if bool_decide (threat_key t ∈ seen) then unseen seen threats' else t :: unseen (threat_key t :: seen) threats'
  end.

Fixpoint rounds_of (n : nat) (r : string * nat) : string * bool :=
  match n with
  | O => (fst r, true)
  | S n' => let r' := round_text r in if (fst r' =? fst r)%string then (fst r', false) else rounds_of n' r'
  end.

Definition decoded_text (content : string) : string * bool :=
  let r := rounds_of max_decode_iterations (content, _MAX_GUNZIP_ATTEMPTS_PER_PASS) in (strip_sql_comments (fst r), snd r).

Context (p : ContentPreprocessor).

(** The processed text, the decoded text, and whether decoding came to no end. *)
Definition processed_text (content : string) : string * string * bool :=
  if negb (truthy content) then ("", "", false)
  else
    let r := decoded_text (normalize_unicode content) in
    (truncate_safely p (remove_excessive_whitespace (remove_null_bytes (fst r))), fst r, snd r).

Definition traversal_threats (processed raw : string) (cats : option (list string)) : list threat :=
  if match cats with Some enabled => negb (in_list "path_traversal" enabled) | None => false end then []
  else if (length (traversal_matches processed) <=? length (traversal_matches raw))%nat then []
  else map (fun found => RegexThreat _PATH_TRAVERSAL_DECODED_SHAPE_RE (rm_text found) (rm_start found)
              "path_traversal" (Some (millionths 1))) (firstn 1 (traversal_matches processed)).

Definition regex_answer (content context : string) (cats : option (list string)) : list threat :=
  let '(processed, decoded, exhausted) := processed_text content in
  let raw := preprocess_signal_preserving p content in
  let additive := preprocess_short_base64_additive_view p content in
  let main := view_threats processed context cats (Some false) None in
  main ++ unseen (map threat_key main) (view_threats raw context cats (Some true) None)
    ++ traversal_threats processed raw cats
    ++ view_threats (truncate_safely p decoded) context cats None (Some true)
    ++ (if exhausted : bool then [_decode_budget_exhausted_threat] else [])
    ++ (if truthy additive then view_threats additive context cats None None else []).

Definition semantic_answer (content : string) : list threat :=
  let processed := fst (fst (processed_text content)) in
  if negb (ds_semantic_analyzer (sp_state m)) || looks_like_binary_content content then []
  else
    let '(score, probabilities) := semantic_analysis (stake (max_content_length p) processed) in
    let threshold := semantic_threshold (sp_state m) in
    if score <=? threshold then []
    else match List.filter (fun a => threshold <=? snd a) probabilities with
         | [] => [SemanticThreat "suspicious" score]
         | l => map (fun a => SemanticThreat (fst a) (snd a)) l
         end.

Definition answer (content context : string) (cats : option (list string)) : list threat :=
  regex_answer content context cats ++ semantic_answer content.

Definition verdict (content context : string) (cats : option (list string)) : bool :=
  (threat_score_threshold (sp_state m) <=? _regex_anomaly (regex_answer content context cats)) || nonempty (semantic_answer content).

(** The pattern an event about the text names. *)
Definition named_pattern (content context : string) (cats : option (list string)) : string :=
  event_pattern (map pattern_of (regex_answer content context cats)) (semantic_answer content).

(** The views of a text: processed, raw, decoded and that of the decoded fragments. *)
Definition views_of (content : string) : list string :=
  let '(processed, decoded, _) := processed_text content in
  [processed; preprocess_signal_preserving p content; truncate_safely p decoded; preprocess_short_base64_additive_view p content].

Definition encodable (content context : string) : bool := forallb (encodable_on context) (views_of content).
End answer.

(** * Running a detection *)

Lemma traversals_encodable i s : Forall (fun f => rm_encodable f = true) (traversals i s).
Proof.
  assert (forall n s i, (slen s <= n)%nat -> Forall (fun f => rm_encodable f = true) (traversals i s)) as H; [|by eapply H].
  clear. induction n as [|n IH]; intros [|c0 [|c1 [|c2 s]]] i Hn; try done; cbn [slen String.length] in Hn; try lia.
  change (traversals i (String c0 (String c1 (String c2 s)))) with
    (if (c0 =? ".")%char && (c1 =? ".")%char && ((c2 =? "/")%char || (c2 =? "\")%char)
     then mkMatch (".." +:+ String c2 "") i (i + 3) true :: traversals (i + 3) s
     else traversals (i + 1) (String c1 (String c2 s))).
  destruct (_ && _); [constructor; [done|]|]; apply IH; unfold slen; cbn [String.length]; lia.
Qed.

Section exact.
Context `{PE : PatternEngine} `{DC : !Decoders} `{PR : !Prompt} `{SS : !ScanServices} (json_depth : Z).

Lemma settles_at {S A} (P : A -> Prop) (m : M S A) s : settles P m -> exists a s', m s = (Ok a, s') /\ P a.
Proof using Type. intros H. apply H. Qed.

Lemma build_exact p found context content : (accepts p context content found = true -> rm_encodable found = true) ->
  settles (fun r => r = if accepts p context content found then Some (threat_of p found) else None)
    (_build_regex_threat p found (cp_category p) context content).
Proof using Type.
  intros Henc. unfold _build_regex_threat, accepts in *. destruct (rejected_candidate _ _ _); cbn [negb andb]; [by apply settles_ret|].
  destruct (in_list _ recon_optional_separator_sources && _); cbn [negb andb]; [by apply settles_ret|].
  destruct (in_list _ noise_prone_sources && _); cbn [negb]; [by apply settles_ret|].
  rewrite Henc by done. intros s. unfold lift_res, _sanitize_for_reporting. unfold bind at 1. apply settles_at.
  eapply settles_then; [apply settles_time|]. intros _. by apply settles_ret.
Qed.

(** The match that counts can be encoded. *)
Definition clear (o : option rmatch) : Prop := match o with Some found => rm_encodable found = true | None => True end.

Lemma accepted_exact l p context content : clear (List.find (accepts p context content) l) ->
  settles (fun r => r = option_map (threat_of p) (List.find (accepts p context content) l))
    (_first_accepted_regex_threat l p (cp_category p) context content).
Proof using Type.
  unfold _first_accepted_regex_threat. induction l as [|found l IH]; [by intros; apply settles_ret|]. cbn [first_some List.find].
  intros Henc. eapply settles_bind; [apply build_exact; intros Ha; by rewrite Ha in Henc|]. intros r ->.
  destruct (accepts _ _ _ found); [by apply settles_ret|by apply IH].
Qed.

Lemma check_exact state p content ip start context s : ds_compiler state = true ->
  clear (List.find (accepts p context content) (matches_of p content)) ->
  10 * (monotonic (ticks s) - start) < 9 * default_timeout ->
  exists s', _check_regex_pattern json_depth state p content ip start (cp_category p) context s =
    (Ok (option_map (threat_of p) (List.find (accepts p context content) (matches_of p content)), false), s').
Proof using PR.
  intros Hc Henc Hclock.
  assert (forall l s, clear (List.find (accepts p context content) l) -> exists s', (let* threat := _first_accepted_regex_threat l p (cp_category p) context content in ret (threat, false)) s =
    (Ok (option_map (threat_of p) (List.find (accepts p context content) l), false), s')) as Hwin.
  { intros l s0 Hl. destruct (accepted_exact l p context content Hl s0) as (r & s1 & Hrun & ->). exists s1. by rewrite (bind_ok _ _ _ _ _ Hrun). }
  unfold _check_regex_pattern, matches_of in *. destruct (windowed_finder _) as [finder|] eqn:Hf.
  { destruct (prompt_finders _ _ content Hf) as [l Hl]. unfold _check_windowed_pattern. rewrite Hl in *. by apply Hwin. }
  destruct (scan_window_matcher _); [by apply Hwin|]. destruct (scan_window_bounds _); [by apply Hwin|].
  rewrite Hc. cbv zeta. destruct (nonempty _) eqn:Hne; [rewrite bind_ret_l; by apply Hwin|].
  set (now := time_monotonic). unfold bind at 1. subst now. unfold bind at 1. cbn [time_monotonic].
  replace (9 * default_timeout <=? 10 * (monotonic (ticks s) - start)) with false by (symmetry; apply Z.leb_gt; exact Hclock).
  by apply Hwin.
Qed.

Context (m : SusPatterns) (Hcompiler : ds_compiler (sp_state m) = true).

Lemma check_one_exact p content ip corr context : clear (reported_match p content context) ->
  settles (fun r => r = (option_map (threat_of p) (reported_match p content context), false))
    (check_one json_depth m p content ip corr context).
Proof using PR Hcompiler.
  intros Henc s. unfold check_one. unfold bind at 1. cbn [time_monotonic].
  destruct (check_exact (sp_state m) p content ip (monotonic (ticks s)) (validator_context context) (s {{ ticks ::= S }}) Hcompiler Henc) as [s1 Hrun];
    [apply prompt_clock|]. fold (reported_match p content context) in Hrun. rewrite (bind_ok _ _ _ _ _ Hrun). clear Hrun. apply settles_at.
  set (t := option_map _ _). apply (settles_bind (fun r => r = t)); [destruct t; by apply settles_ret|]. intros ? ->.
  eapply settles_then; [|intros _; by apply settles_ret]. apply settles_when; [done|].
  eapply settles_then; [apply settles_time|]. intros now. apply prompt_monitor.
Qed.

(** The results of a list of threats. *)
Definition results_of (threats : list threat) : _results := (threats, map pattern_of threats, []).

Lemma view_exact content ip corr context cats rv uv : encodable_on m context content = true ->
  settles (fun r => r = results_of (view_threats m content context cats rv uv))
    (_check_regex_patterns json_depth m content ip corr context cats rv uv).
Proof using PR Hcompiler.
  unfold _check_regex_patterns, view_threats, encodable_on. induction (all_compiled m) as [|p ps IH];
    cbn [check_patterns flat_map forallb]; [by intros; apply settles_ret|]. intros [Henc Hrest]%andb_true_iff. specialize (IH Hrest).
  cbv zeta. unfold skipped at 1. cbv zeta. destruct (_pattern_should_be_skipped _ _ _ _ _ _); [exact IH|].
  eapply settles_bind; [apply check_one_exact; by destruct (reported_match p content context)|]. intros r ->.
  eapply settles_bind; [exact IH|]. intros r ->.
  apply settles_ret. cbn [fst snd]. unfold pattern_threats, results_of. by destruct (reported_match _ _ _).
Qed.

Lemma drop_seen_exact seen threats :
  drop_seen seen threats (map pattern_of threats) = Ok (unseen seen threats, map pattern_of (unseen seen threats)).
Proof using Type.
  revert seen. induction threats as [|t threats IH]; intros seen; cbn [drop_seen map unseen]; [done|].
  case_bool_decide; [apply IH|]. by rewrite IH.
Qed.

Lemma merge_exact a b :
  _merge_raw_view_results a (map pattern_of a) [] (results_of b) = Ok (results_of (a ++ unseen (map threat_key a) b)).
Proof using Type.
  unfold _merge_raw_view_results, _drop_view_duplicate_threats, results_of. by rewrite drop_seen_exact, map_app.
Qed.

Lemma rounds_exact p n r : settles (fun x => x = rounds_of n r) (decode_rounds p n (fst r) (snd r)).
Proof using Type.
  revert r. induction n as [|n IH]; intros r; [by apply settles_ret|].
  cbn [decode_rounds rounds_of]. cbv zeta. intros s. destruct (decode_round_ok p r s) as [s1 Hr]. rewrite (bind_ok _ _ _ _ _ Hr).
  destruct (_ =? _)%string; [by apply settles_at, settles_ret|apply IH].
Qed.

Lemma decode_exact p content : settles (fun r => r = decoded_text content) (decode_common_encodings p content).
Proof using Type.
  unfold decode_common_encodings, decoded_text. cbv zeta. eapply settles_bind; [apply (rounds_exact p _ (content, _))|].
  intros r ->. by apply settles_ret.
Qed.

Context (p : ContentPreprocessor) (Hp : ds_preprocessor (sp_state m) = Some p).

Lemma preprocess_exact content corr :
  settles (fun r => r = (let '(processed, decoded, exhausted) := processed_text p content in (processed, exhausted, Some decoded)))
    (_preprocess_content m content corr).
Proof using Hp.
  unfold _preprocess_content. rewrite Hp. cbv zeta. unfold preprocess_with_decoded, processed_text.
  destruct (truthy content); cbn [negb]; [|by apply settles_ret].
  apply (settles_bind (fun r => r = (let d := decoded_text (normalize_unicode content) in
    (truncate_safely p (remove_excessive_whitespace (remove_null_bytes (fst d))), fst d, snd d)))); [|intros r ->; by apply settles_ret].
  eapply settles_bind; [apply decode_exact|]. intros r ->. rewrite truncate_agent. by apply settles_ret.
Qed.

Lemma traversal_exact processed content context cats :
  settles (fun o => o = hd_error (traversal_threats processed (preprocess_signal_preserving p content) cats))
    (_check_decoded_view_path_traversal m processed content context cats).
Proof using Hp.
  unfold _check_decoded_view_path_traversal, traversal_threats. rewrite Hp.
  destruct (match cats with Some enabled => negb (in_list "path_traversal" enabled) | None => false end); [by apply settles_ret|].
  eapply settles_then; [apply settles_time|]. intros _. rewrite bind_ret_l. cbv beta iota zeta.
  destruct (_ <=? _)%nat; [by apply settles_ret|]. destruct (traversal_matches processed) as [|found l] eqn:Hl; [by apply settles_ret|].
  pose proof (traversals_encodable 0 processed) as Henc. fold traversal_matches in Henc. rewrite Hl in Henc.
  apply Forall_inv in Henc. rewrite Henc. intros s. unfold lift_res, _sanitize_for_reporting. unfold bind at 1. apply settles_at.
  eapply settles_then; [apply settles_time|]. intros _. by apply settles_ret.
Qed.

Lemma traversal_one processed raw cats : exists o, traversal_threats processed raw cats = option_list o /\
  match o with Some t => pattern_of t = _PATH_TRAVERSAL_DECODED_SHAPE_RE | None => True end.
Proof using Type.
  unfold traversal_threats. destruct (match cats with Some enabled => negb (in_list "path_traversal" enabled) | None => false end); [by exists None|].
  destruct (_ <=? _)%nat; [by exists None|]. destruct (traversal_matches processed) as [|found l]; [by exists None|]. by eexists (Some _).
Qed.

Lemma url_exact content ip context corr cats decoded exhausted : encodable_on m context (truncate_safely p decoded) = true ->
  settles (fun r => r = (results_of (view_threats m (truncate_safely p decoded) context cats None (Some true)), exhausted))
    (_check_url_decoded_view_patterns json_depth m content ip context corr cats (Some decoded) exhausted).
Proof using PR Hp Hcompiler.
  intros Henc. unfold _check_url_decoded_view_patterns. rewrite Hp, bind_ret_l. eapply settles_bind; [by apply view_exact|].
  intros r ->. by apply settles_ret.
Qed.

Lemma base64_exact content ip context corr cats :
  let view := preprocess_short_base64_additive_view p content in
  encodable_on m context view = true ->
  settles (fun r => r = results_of (if truthy view then view_threats m view context cats None None else []))
    (_check_short_base64_additive_view_patterns json_depth m content ip context corr cats).
Proof using PR Hp Hcompiler.
  cbv zeta. intros Henc. unfold _check_short_base64_additive_view_patterns. rewrite Hp. cbv zeta.
  destruct (truthy _); cbn [negb]; [by apply view_exact|by apply settles_ret].
Qed.

Lemma views_exact content ip context corr cats : encodable m p content context = true ->
  settles (fun r => fst r = fst (fst (processed_text p content)) /\ snd r = results_of (regex_answer m p content context cats))
    (regex_views json_depth m content ip context corr cats).
Proof using PR Hp Hcompiler.
  unfold regex_views, regex_answer, encodable, views_of. intros Henc. eapply settles_bind; [apply preprocess_exact|].
  destruct (processed_text p content) as [[processed decoded] exhausted]. cbn [forallb] in Henc.
  rewrite !andb_true_iff in Henc. destruct Henc as (He1 & He2 & He3 & He4 & _). intros ? ->. rewrite Hp. cbn [is_some]. cbv zeta.
  eapply settles_bind; [by apply view_exact|]. intros ? ->. unfold results_of at 1.
  eapply settles_bind; [unfold _check_raw_view_patterns; rewrite Hp; by apply view_exact|]. intros ? ->. rewrite merge_exact.
  set (main := view_threats _ processed _ _ _ _). set (raw := unseen _ _).
  apply (settles_bind (fun r => r = results_of (main ++ raw))); [intros s; by exists (results_of (main ++ raw)), s|]. intros ? ->.
  unfold results_of at 1. eapply settles_bind; [apply traversal_exact|]. intros ? ->.
  destruct (traversal_one processed (preprocess_signal_preserving p content) cats) as (o & -> & Ho).
  destruct o as [t|], exhausted; cbn [option_list hd_error]; (eapply settles_bind; [by apply url_exact|]); intros ? ->; cbn [orb results_of];
    (eapply settles_bind; [by apply base64_exact|]); intros ? ->; apply settles_ret;
    (split; [done|]); unfold results_of; cbn [fst snd]; rewrite ?map_app; cbn [map]; rewrite ?Ho, <- ?app_assoc; done.
Qed.

Lemma semantic_exact content :
  settles (fun x => fst x = semantic_answer m p content)
    (_check_semantic_threats m (fst (fst (processed_text p content))) content).
Proof using Hp.
  unfold _check_semantic_threats, semantic_answer. cbv zeta. rewrite Hp.
  destruct (negb (ds_semantic_analyzer _)); cbn [orb]; [by apply settles_ret|].
  destruct (looks_like_binary_content content); [by apply settles_ret|].
  destruct (semantic_analysis _) as [score probs]. rewrite Z.ltb_antisym, negb_involutive.
  destruct (score <=? _) eqn:Hs; [by apply settles_ret|]. apply settles_ret. cbn [fst].
  set (threshold := semantic_threshold _) in *.
  assert (flat_map (fun a => if threshold <=? snd a then [SemanticThreat (fst a) (snd a)] else []) probs =
    map (fun a => SemanticThreat (fst a) (snd a)) (List.filter (fun a => threshold <=? snd a) probs)) as ->.
  { induction probs as [|a l IH]; [done|]. cbn [flat_map List.filter]. destruct (threshold <=? snd a); cbn [app map]; by rewrite IH. }
  apply Z.leb_gt in Hs. replace (threshold <=? score) with true by (symmetry; apply Z.leb_le; lia).
  by destruct (List.filter _ probs).
Qed.
End exact.

(** * What the answer means *)

Section meaning.
Context `{PE : PatternEngine} `{DC : !Decoders}.

(** A threat of a pattern, with its weight. *)
Definition weighed (t : threat) : Prop := exists source matched position category,
  t = RegexThreat source matched position category (Some (_resolve_pattern_weight source category)).

Lemma weight_nonneg source category : 0 <= _resolve_pattern_weight source category.
Proof. unfold _resolve_pattern_weight. by destruct (in_list _ _). Qed.

Lemma pattern_threats_in c content context t : In t (pattern_threats c content context) <->
  exists found, reported_match c content context = Some found /\ t = threat_of c found.
Proof.
  unfold pattern_threats. destruct (reported_match _ _ _) as [found|]; cbn; [|naive_solver]. naive_solver.
Qed.

Lemma view_threats_in m content context cats rv uv t : In t (view_threats m content context cats rv uv) <->
  exists c, In c (all_compiled m) /\ skipped c context cats rv uv = false /\ In t (pattern_threats c content context).
Proof.
  unfold view_threats. rewrite in_flat_map. split; intros (c & Hc & H); exists c; (split; [done|]).
  - destruct (skipped _ _ _ _ _); [done|]. by split.
  - by destruct H as [-> H].
Qed.

Lemma unseen_in seen threats t : In t (unseen seen threats) -> In t threats.
Proof.
  revert seen. induction threats as [|t' threats IH]; intros seen; cbn [unseen]; [done|].
  case_bool_decide; cbn [In]; [|intros [->|]; [by left|]]; right; by eapply IH.
Qed.

(** What was seen, or is kept. *)
Lemma unseen_kept seen threats t : In t threats -> threat_key t ∈ seen \/ exists t', In t' (unseen seen threats) /\ threat_key t' = threat_key t.
Proof.
  revert seen. induction threats as [|t' threats IH]; intros seen; cbn [unseen In]; [done|].
  intros [->|Hin].
  - case_bool_decide; [by left|]. right. exists t. by split; [left|].
  - case_bool_decide; [by apply IH|]. destruct (IH (threat_key t' :: seen) Hin) as [[->|H1]%elem_of_cons|(t1 & H1 & H2)].
    + right. exists t'. by split; [left|].
    + by left.
    + right. exists t1. by split; [right|].
Qed.

Lemma view_weighed m content context cats rv uv t : In t (view_threats m content context cats rv uv) -> weighed t.
Proof.
  intros (c & _ & _ & Ht)%view_threats_in. apply pattern_threats_in in Ht as (found & _ & ->). by do 4 eexists.
Qed.

Lemma answer_weighed m p content context cats t : In t (regex_answer m p content context cats) -> weighed t.
Proof.
  unfold regex_answer. destruct (processed_text p content) as [[processed decoded] exhausted]. cbv zeta. rewrite !in_app_iff.
  intros [H|[H|[H|[H|[H|H]]]]]; [by eapply view_weighed| |  |by eapply view_weighed| |].
  - apply unseen_in in H. by eapply view_weighed.
  - unfold traversal_threats in H. destruct (match cats with Some enabled => negb (in_list "path_traversal" enabled) | None => false end); [done|].
    destruct (_ <=? _)%nat; [done|]. destruct (traversal_matches processed) as [|found l]; [done|].
    destruct H as [<-|[]]. eexists _PATH_TRAVERSAL_DECODED_SHAPE_RE, _, _, "path_traversal". reflexivity.
  - destruct exhausted; [|done]. destruct H as [<-|[]]. by eexists _DECODE_BUDGET_EXHAUSTED_PATTERN, _, _, "custom".
  - destruct (truthy _); [by eapply view_weighed|done].
Qed.

(** The patterns that can be reported. *)
Definition reportable_sources (m : SusPatterns) : list string :=
  _PATH_TRAVERSAL_DECODED_SHAPE_RE :: _DECODE_BUDGET_EXHAUSTED_PATTERN :: map cp_source (all_compiled m).

Lemma view_source m content context cats rv uv t : In t (view_threats m content context cats rv uv) ->
  exists source matched position category weight, t = RegexThreat source matched position category weight /\ In source (reportable_sources m).
Proof.
  intros (c & Hc & _ & Ht)%view_threats_in. apply pattern_threats_in in Ht as (found & _ & ->).
  do 5 eexists. split; [reflexivity|]. do 2 right. by apply in_map.
Qed.

Lemma answer_source m p content context cats t : In t (regex_answer m p content context cats) ->
  exists source matched position category weight, t = RegexThreat source matched position category weight /\ In source (reportable_sources m).
Proof.
  unfold regex_answer. destruct (processed_text p content) as [[processed decoded] exhausted]. cbv zeta. rewrite !in_app_iff.
  intros [H|[H|[H|[H|[H|H]]]]]; [by eapply view_source|apply unseen_in in H; by eapply view_source| |by eapply view_source| |].
  - unfold traversal_threats in H. destruct (match cats with Some enabled => negb (in_list "path_traversal" enabled) | None => false end); [done|].
    destruct (_ <=? _)%nat; [done|]. destruct (traversal_matches processed) as [|found l]; [done|].
    destruct H as [<-|[]]. do 5 eexists. split; [reflexivity|by left].
  - destruct exhausted; [|done]. destruct H as [<-|[]]. do 5 eexists. split; [reflexivity|by right; left].
  - destruct (truthy _); [by eapply view_source|done].
Qed.

(** The pattern an event names is one of them, or an attack of the analysis. *)
Lemma named_source m p content context cats :
  In (named_pattern m p content context cats) (reportable_sources m) \/ named_pattern m p content context cats = "unknown" \/
  exists attack_type score, In (SemanticThreat attack_type score) (semantic_answer m p content) /\
    named_pattern m p content context cats = "semantic:" +:+ attack_type.
Proof.
  unfold named_pattern, event_pattern. destruct (regex_answer m p content context cats) as [|t l] eqn:Ha; cbn [map].
  - destruct (semantic_answer m p content) as [|[| |attack score] l]; [by right; left..|]. right; right.
    exists attack, score. by split; [left|].
  - left. destruct (answer_source m p content context cats t) as (source & mt & po & ca & w & -> & Hs); [rewrite Ha; by left|exact Hs].
Qed.

Lemma anomaly_bound threats t source matched position category :
  (forall t', In t' threats -> weighed t') -> In t threats -> t = RegexThreat source matched position category (Some (_resolve_pattern_weight source category)) ->
  _resolve_pattern_weight source category <= _regex_anomaly threats.
Proof.
  intros Hall Hin ->.
  assert (forall l, (forall t', In t' l -> weighed t') -> 0 <= _regex_anomaly l) as Hpos.
  { induction l as [|t' l IH]; intros Hl; [done|]. destruct (Hl t' (or_introl eq_refl)) as (s1 & m1 & p1 & c1 & ->).
    cbn [_regex_anomaly fold_right default]. fold (_regex_anomaly l). pose proof (weight_nonneg s1 c1).
    specialize (IH (fun t Ht => Hl t (or_intror Ht))). cbn. lia. }
  induction threats as [|t' threats IH]; [done|]. destruct (Hall t' (or_introl eq_refl)) as (s1 & m1 & p1 & c1 & ->).
  cbn [_regex_anomaly fold_right default from_option id]. fold (_regex_anomaly threats). pose proof (weight_nonneg s1 c1) as Hw.
  destruct Hin as [Heq|Hin].
  - injection Heq as -> _ _ -> . pose proof (Hpos threats (fun t Ht => Hall t (or_intror Ht))). lia.
  - specialize (IH (fun t Ht => Hall t (or_intror Ht)) Hin). lia.
Qed.

(** The text a pattern is tried on. *)
Definition home_view (p : ContentPreprocessor) (c : cpattern) (content : string) : string :=
  if in_list (cp_source c) raw_view_sources then preprocess_signal_preserving p content
  else if in_list (cp_source c) url_decoded_view_sources then truncate_safely p (snd (fst (processed_text p content)))
  else fst (fst (processed_text p content)).

Lemma not_skipped c context cats rv uv : skipped c context cats None None = false ->
  _pattern_excluded_from_view (cp_source c) rv uv = false -> skipped c context cats rv uv = false.
Proof. unfold skipped, _pattern_should_be_skipped. intros H ->. exact H. Qed.

Lemma find_threat m c content context cats rv uv found :
  In c (all_compiled m) -> skipped c context cats rv uv = false ->
  In found (matches_of c content) -> accepts c (validator_context context) content found = true ->
  exists first, In (threat_of c first) (view_threats m content context cats rv uv).
Proof.
  intros Hc Hs Hf Ha. destruct (reported_match c content context) as [first|] eqn:Hfind.
  - exists first. apply view_threats_in. exists c. split_and!; [done|done|]. apply pattern_threats_in. by exists first.
  - pose proof (List.find_none _ _ Hfind found Hf). congruence.
Qed.

Lemma home_threat m p c content context cats found :
  In c (all_compiled m) -> skipped c context cats None None = false ->
  in_list (cp_source c) raw_view_sources && in_list (cp_source c) url_decoded_view_sources = false ->
  In found (matches_of c (home_view p c content)) -> accepts c (validator_context context) (home_view p c content) found = true ->
  exists t, In t (regex_answer m p content context cats) /\ pattern_of t = cp_source c.
Proof.
  intros Hc Hs Hboth Hf Ha. unfold home_view in *. unfold regex_answer.
  destruct (processed_text p content) as [[processed decoded] exhausted] eqn:Hproc. cbn [fst snd] in *. cbv zeta.
  destruct (in_list (cp_source c) raw_view_sources) eqn:Hraw; [|destruct (in_list (cp_source c) url_decoded_view_sources) eqn:Hurl].
  - destruct (find_threat m c (preprocess_signal_preserving p content) context cats (Some true) None found Hc) as [first Hin]; [|exact Hf|exact Ha|].
    { apply not_skipped; [done|]. unfold _pattern_excluded_from_view. rewrite Hraw. cbn in Hboth. by rewrite Hboth. }
    set (main := view_threats _ processed _ _ _ _). destruct (unseen_kept (map threat_key main) _ _ Hin) as [Hseen|(t & Ht & Hkey)].
    + apply list_elem_of_In, in_map_iff in Hseen as (t & Hkey & Ht). exists t. split; [apply in_app_iff; by left|].
      destruct (view_weighed _ _ _ _ _ _ _ Ht) as (s1 & m1 & p1 & c1 & ->). by injection Hkey as -> _.
    + exists t. split; [rewrite !in_app_iff; by right; left|].
      apply unseen_in in Ht. destruct (view_weighed _ _ _ _ _ _ _ Ht) as (s1 & m1 & p1 & c1 & ->). by injection Hkey as -> _.
  - destruct (find_threat m c (truncate_safely p decoded) context cats None (Some true) found Hc) as [first Hin]; [|exact Hf|exact Ha|].
    { apply not_skipped; [done|]. unfold _pattern_excluded_from_view. by rewrite Hraw, Hurl. }
    exists (threat_of c first). split; [|done]. rewrite !in_app_iff. by do 3 right; left.
  - destruct (find_threat m c processed context cats (Some false) None found Hc) as [first Hin]; [|exact Hf|exact Ha|].
    { apply not_skipped; [done|]. unfold _pattern_excluded_from_view. by rewrite Hraw, Hurl. }
    exists (threat_of c first). split; [|done]. rewrite !in_app_iff. by left.
Qed.
End meaning.

(** * The theorems *)

Section theorems.
Context `{PE : PatternEngine} `{DC : !Decoders} `{PR : !Prompt} `{SS : !ScanServices} (json_depth : Z).

Definition preprocessor_of (config : SecurityConfig) : ContentPreprocessor :=
  {| max_content_length := Z.to_nat (detection_max_content_length config);
     preserve_attack_patterns := detection_preserve_attack_patterns config; pp_agent := false; pp_correlation_id := None;
     _MAX_FULL_SCAN_BYTES := Z.to_nat (detection_max_body_inspect_bytes config) |}.

(** What is reported of a text can be encoded, and the pattern an event names be shown. *)
Definition reportable (m : SusPatterns) (p : ContentPreprocessor) (content context : string) (cats : option (list string)) : Prop :=
  encodable m p content context = true /\
  (verdict m p content context cats = true ->
   exists shown, _redact_pattern_source json_depth (named_pattern m p content context cats) = Ok shown).

Lemma configured_detects m config content ip context corr cats preview :
  sp_state m = _build_enhanced_detection_state config -> reportable m (preprocessor_of config) content context cats ->
  settles (fun d => dt_threats d = answer m (preprocessor_of config) content context cats /\
                    dt_is_threat d = verdict m (preprocessor_of config) content context cats /\ dt_timeouts d = [])
    (sp_detect json_depth m content ip context corr cats preview).
Proof using PR.
  intros Hstate [Henc Hshown]. assert (ds_preprocessor (sp_state m) = Some (preprocessor_of config)) as Hp by by rewrite Hstate.
  eapply settles_weaken.
  2: { apply settles_ends. eapply (detect_ends json_depth (fun _ => False) (fun a b c d e f g => ends_settles _ _ _ (prompt_monitor a b c d e f g)) m
         (fun processed r => processed = fst (fst (processed_text (preprocessor_of config) content)) /\
                             r = results_of (regex_answer m (preprocessor_of config) content context cats))
         (fun _ semantic_threats => semantic_threats = semantic_answer m (preprocessor_of config) content)).
       - apply ends_settles. eapply views_exact; [by rewrite Hstate|exact Hp|exact Henc].
       - intros processed r [-> _]. by apply semantic_exact.
       - intros processed r sem e [_ ->] -> Ht He. destruct (Hshown Ht) as [shown Hs].
         unfold results_of in He. cbn [fst snd] in He. fold (named_pattern m (preprocessor_of config) content context cats) in He. congruence. }
  intros d (processed & r & sem & [-> ->] & -> & (H1 & H2 & _) & H3). by rewrite H1, H2, H3.
Qed.

(** The handler is a pattern handler as the scan of a request expects it: its opinion of
    a text depends on the text, its context and the categories looked for; its threats
    can be shown when their patterns can be redacted. *)
Definition sus_opinion (m : SusPatterns) (config : SecurityConfig)
  (Hstate : sp_state m = _build_enhanced_detection_state config)
  (Hreportable : forall content context cats, reportable m (preprocessor_of config) content context cats)
  (Hshown : forall content context cats t cap, In t (answer m (preprocessor_of config) content context cats) ->
     exists message, _build_threat_message cap t = Ok message)
  : @Opinion _ SS (sus_detector json_depth m).
Proof using PR.
  refine (@Build_Opinion _ SS (sus_detector json_depth m) (verdict m (preprocessor_of config)) _).
  intros value ip context corr cats preview s. cbn [detect sus_detector].
  destruct (configured_detects m config value ip context (Some corr) cats preview Hstate (Hreportable _ _ _) s) as (d & s' & Hrun & Ht & Hv & _).
  exists (dt_threats d), s'. rewrite (bind_ok _ _ _ _ _ Hrun). split; [by rewrite <- Hv|].
  intros t cap Hd. apply (Hshown value context cats). rewrite <- Ht. by destruct (dt_threats d); [|injection Hd as ->; left].
Defined.


End theorems.
