(* ===== verification/SusRegistry.v ===== *)
(** Theorems about the registry of patterns ([guard_core/handlers/_suspatterns_registry.py]):
    sources and compiled patterns stay together through every operation, and custom
    patterns come back from Redis when no comma is in them. *)
From S2P Require Import Prelude PyStr PyDict Json Sys Sample Config Redaction Request Redis JsonPattern DetectionConfig BodyReader Scan Preprocessor Suspatterns.

#[local] Open Scope Z_scope.

Definition custom_compiled (pattern : string) : cpattern := mkPattern pattern true _CTX_ALL "custom".

(** The lists of sources and of compiled patterns are those of each other; custom
    patterns are there once. *)
Definition registered (m : SusPatterns) : Prop :=
  map cp_source (sp_compiled_patterns m) = sp_patterns m /\
  sp_compiled_custom_patterns m = map custom_compiled (sp_custom_patterns m) /\ NoDup (sp_custom_patterns m).

Lemma pop_map {A B} (f : A -> B) n l : map f (pop n l) = pop n (map f l).
Proof. revert n. induction l as [|x l IH]; intros [|n]; cbn; [done|done|done|]. by rewrite IH. Qed.

Lemma index_of_bound x l n : index_of x l = Some n -> (n < length l)%nat.
Proof.
  revert n. induction l as [|y l IH]; intros n; cbn [index_of length]; [done|]. destruct (_ =? _)%string; [intros [= <-]; lia|].
  destruct (index_of x l) as [k|]; [|done]. intros [= <-]. specialize (IH k eq_refl). lia.
Qed.

Lemma set_add_map (x : string) l : set_add (custom_compiled x) (map custom_compiled l) = map custom_compiled (set_add x l).
Proof.
  unfold set_add. replace (bool_decide (custom_compiled x ∈ map custom_compiled l)) with (bool_decide (x ∈ l)).
  - destruct (bool_decide _); [done|]. by rewrite map_app.
  - apply bool_decide_ext. split; intros H.
    + apply list_elem_of_In, in_map. by apply list_elem_of_In.
    + apply list_elem_of_In, in_map_iff in H as (y & [= ->] & H). by apply list_elem_of_In.
Qed.

Lemma set_add_nodup {A} `{EqDecision A} (x : A) l : NoDup l -> NoDup (set_add x l).
Proof.
  intros H. unfold set_add. case_bool_decide as Hx; [done|]. apply NoDup_app. split; [done|].
  split; [intros y Hy ->%list_elem_of_singleton; done|apply NoDup_singleton].
Qed.

Lemma filter_compiled p l : List.filter (fun c => negb (cp_source c =? p)%string) (map custom_compiled l) =
  map custom_compiled (List.filter (fun x => negb (x =? p)%string) l).
Proof. induction l as [|x l IH]; [done|]. cbn. destruct (x =? p)%string; cbn; by rewrite IH. Qed.

Lemma filter_nodup {A} (f : A -> bool) l : NoDup l -> NoDup (List.filter f l).
Proof.
  induction 1 as [|x l Hx Hl IH]; cbn; [constructor|]. destruct (f x); [|done]. constructor; [|done].
  intros [H _]%list_elem_of_In%filter_In. by apply list_elem_of_In in H.
Qed.

(** * The invariant *)

(** What is called on the handler, in any order. *)
Inductive registry_op : Type :=
| AddPattern (pattern : string) (custom : bool)
| RemovePattern (pattern : string) (custom : bool)
| InitializeRedis (redis_handler : option (RedisHandle SecurityConfig))
| InitializeAgent (agent_handler : bool)
| Configure (config : SecurityConfig)
| Reset.

Section invariant.
Context `{PE : PatternEngine} `{SS : !ScanServices}.

#[local] Abbreviation P := (M (Sys * SusPatterns)).

Definition run_op (op : registry_op) : P unit :=
  match op with
  | AddPattern pattern custom => let* _ := add_pattern pattern custom in ret tt
  | RemovePattern pattern custom => let* _ := remove_pattern pattern custom in ret tt
  | InitializeRedis h => sp_initialize_redis h
  | InitializeAgent b => sp_initialize_agent b
  | Configure config => sp_configure config
  | Reset => sp_reset
  end.

(** Operations one after the other, those that raise included. *)
Definition run_ops (ops : list registry_op) (w : Sys * SusPatterns) : Sys * SusPatterns :=
  fold_left (fun w op => snd (run_op op w)) ops w.

Definition stays (w w' : Sys * SusPatterns) : Prop := registered (snd w) -> registered (snd w').

#[local] Instance stays_preorder : PreOrder stays.
Proof. split; [by intros w H|]. intros w1 w2 w3 H1 H2 H. by apply H2, H1. Qed.

Lemma stays_sys {A} (m : M Sys A) : keeps stays (sys m).
Proof. intros [s m0] H. unfold sys, zoom. cbn in *. by destruct (m s). Qed.

Lemma stays_set f : (forall m, registered m -> registered (f m)) -> keeps stays (sp_set f).
Proof. intros Hf w H. apply Hf, H. Qed.

Ltac stays_steps := repeat first
  [ apply stays_sys | apply stays_set; intros [p1 p2 p3 p4 p5 p6 p7 p8] (H1 & H2 & H3); cbn in *
  | keeps_step | progress cbv zeta | progress unfold sp_get ].

Lemma stays_store : keeps stays store_custom.
Proof. unfold store_custom. stays_steps. Qed.

Lemma stays_add pattern custom : keeps stays (add_pattern pattern custom).
Proof.
  unfold add_pattern. unfold sp_get at 1. apply keeps_bind; [exact _|apply keeps_gets; exact _|]. intros config. cbv zeta.
  destruct (validate_pattern_safety _ _) as [safe reason]. destruct (negb safe); [stays_steps|].
  apply keeps_bind; [exact _| |intros _; unfold clear_compiler_cache, _send_pattern_event; stays_steps].
  destruct custom.
  - apply keeps_bind; [exact _| |intros _; apply stays_store]. apply stays_set. intros [p1 p2 p3 p4 p5 p6 p7 p8] (H1 & H2 & H3). split_and!; cbn in *; [done| |by apply set_add_nodup].
    rewrite H2. apply set_add_map.
  - apply stays_set. intros [p1 p2 p3 p4 p5 p6 p7 p8] (H1 & H2 & H3). split_and!; cbn in *; [by rewrite map_app, H1|done|done].
Qed.

Lemma remove_default_run pattern s m : _remove_default_pattern pattern (s, m) =
  match index_of pattern (sp_patterns m) with
  | None => (Ok false, (s, m))
  | Some n =>
      let m1 := m {{ sp_patterns ::= pop n }} in
      if (n <? length (sp_compiled_patterns m))%nat then (Ok true, (s, m1 {{ sp_compiled_patterns ::= pop n }})) else (Ok false, (s, m1))
  end.
Proof.
  unfold _remove_default_pattern, sp_get, sp_set, bind, gets, modify. cbn [fst snd]. destruct (index_of _ _); [|done].
  destruct m. cbn -[Nat.ltb]. by destruct (_ <? _)%nat.
Qed.

Lemma stays_remove pattern custom : keeps stays (remove_pattern pattern custom).
Proof.
  unfold remove_pattern. apply keeps_bind; [exact _| |].
  2: { intros removed. unfold _clear_pattern_caches, clear_compiler_cache, _send_pattern_removal_event, _send_pattern_event. stays_steps. }
  destruct custom.
  - unfold _remove_custom_pattern. unfold sp_get at 1. apply keeps_bind; [exact _|apply keeps_gets; exact _|]. intros l. destruct (negb _); [stays_steps|].
    apply keeps_bind; [exact _| |intros _; apply keeps_bind; [exact _|apply stays_store|intros _; stays_steps]].
    apply stays_set. intros [p1 p2 p3 p4 p5 p6 p7 p8] (H1 & H2 & H3). split_and!; cbn in *; [done|by rewrite H2, filter_compiled|by apply filter_nodup].
  - intros [s m]. rewrite remove_default_run. destruct (index_of _ _) as [n|] eqn:Hn; [|done].
    destruct m as [p1 p2 p3 p4 p5 p6 p7 p8]. intros (H1 & H2 & H3). cbn [fst snd sp_patterns sp_compiled_patterns sp_custom_patterns sp_compiled_custom_patterns] in *.
    apply index_of_bound in Hn. rewrite <- H1, length_map in Hn. apply Nat.ltb_lt in Hn. rewrite Hn.
    split_and!; cbn; [by rewrite pop_map, H1|done|done].
Qed.

Lemma stays_op op : keeps stays (run_op op).
Proof.
  destruct op; cbn [run_op].
  - apply keeps_bind; [exact _|apply stays_add|intros _; stays_steps].
  - apply keeps_bind; [exact _|apply stays_remove|intros _; stays_steps].
  - unfold sp_initialize_redis. apply keeps_bind; [exact _| |intros _].
    { by apply stays_set; intros [p1 p2 p3 p4 p5 p6 p7 p8]. }
    destruct redis_handler; [|stays_steps]. apply keeps_catch; [exact _| |intros e; stays_steps].
    apply keeps_bind; [exact _|apply stays_sys|]. intros [[|a cached]|]; [stays_steps| |stays_steps]. apply keeps_for_each; [exact _|].
    intros pattern. unfold restore_pattern. unfold sp_get at 1. apply keeps_bind; [exact _|apply keeps_gets; exact _|]. intros custom.
    destruct (in_list _ _); [stays_steps|]. apply keeps_bind; [exact _|apply stays_add|intros restored; stays_steps].
  - by apply stays_set; intros [p1 p2 p3 p4 p5 p6 p7 p8].
  - by apply stays_set; intros [p1 p2 p3 p4 p5 p6 p7 p8].
  - unfold sp_reset, clear_compiler_cache. apply keeps_bind; [exact _| |intros _; stays_steps; by split].
    apply stays_set. intros [p1 p2 p3 p4 p5 p6 p7 p8] (H1 & H2 & H3). split_and!; [done|done|constructor].
Qed.

(** C20: the registry stays in step.  After any sequence of additions, removals,
    restorations from Redis, configurations and resets of a new handler, failing calls
    of Redis, the compiler, the monitor and the agent included, the sources of the
    default patterns are those of their compiled patterns, in the same order, so that a
    removal takes away the pattern it names, and each custom pattern is compiled once. *)
Theorem registry_stays_in_step config ops s : registered (snd (run_ops ops (s, SusPatterns_new config))).
Proof.
  assert (registered (SusPatterns_new config)) as H0.
  { split_and!; cbn; [|done|constructor]. rewrite map_map. apply map_ext. by intros [[source contexts] category]. }
  unfold run_ops. change (SusPatterns_new config) with (snd (s, SusPatterns_new config)) in H0. revert H0.
  generalize (s, SusPatterns_new config) as w. induction ops as [|op ops IH]; intros w H; [done|].
  cbn [fold_left]. apply IH. by apply stays_op.
Qed.
End invariant.

(** * Restarting *)

Section restart.
Context `{PE : PatternEngine} `{SS : !ScanServices} `{SL : !StringLaws}.
Context (h : RedisHandle SecurityConfig) (Hen : enable_redis (rh_config h) = true) (Hup : forall n, redis_outcome n = None).
Context (Hcache : forall s, clear_cache s = (Ok tt, s)).

Definition stored (s : Sys) : option string := sview (full_key (rh_config h) "patterns" "custom") (redis s).

Lemma event_quiet a b c d e kw s : connected s ->
  exists s', pattern_event a b c d e kw s = (Ok tt, s') /\ connected s' /\ redis s' = redis s.
Proof using Type.
  intros Hs. unfold pattern_event. destruct a; cbn [when]; [|by exists s]. unfold catch, any_exn, agent_send.
  destruct (agent_outcome _ _); eexists; (split; [reflexivity|]); by destruct s.
Qed.

Lemma clear_quiet w : clear_compiler_cache w = (Ok tt, w).
Proof using Hcache.
  destruct w as [s m]. unfold clear_compiler_cache, sp_get, bind, gets. cbn [fst snd]. destruct (ds_compiler _); cbn [when]; [|done].
  unfold sys, zoom. cbn [fst snd]. by rewrite Hcache.
Qed.

Definition with_custom (pattern : string) (m : SusPatterns) : SusPatterns :=
  m {{ sp_compiled_custom_patterns ::= set_add (custom_compiled pattern) }} {{ sp_custom_patterns ::= set_add pattern }}.

Lemma store_run s m : connected s -> sp_redis m = Some h ->
  exists s', store_custom (s, m) = (Ok tt, (s', m)) /\ connected s' /\ stored s' = Some (join "," (sp_custom_patterns m)).
Proof using Hen Hup.
  intros Hs Hm. unfold store_custom, sp_get, bind, gets. cbn [fst snd]. rewrite Hm. unfold sys, zoom. cbn [fst snd].
  destruct (set_key_up (rh_config h) (rh_agent h) Hen Hup "patterns" "custom" (join "," (sp_custom_patterns m)) None s Hs)
    as (s1 & Hset & Hs1 & Hstored & _). rewrite Hset. by exists s1.
Qed.

(** A pattern can be shown to the agent, if there is one. *)
Definition told (agent_handler : bool) (pattern : string) : Prop :=
  agent_handler = true -> exists shown, _redact_pattern_source _DEFAULT_MAX_JSON_DEPTH pattern = Ok shown.

(** A custom pattern is added and the list stored. *)
Lemma add_custom pattern s m : connected s -> sp_redis m = Some h ->
  (forall cap, fst (validate_pattern_safety pattern cap) = true) -> told (sp_agent m) pattern ->
  exists s' m', add_pattern pattern true (s, m) = (Ok true, (s', m')) /\ connected s' /\ sp_redis m' = Some h /\ sp_agent m' = sp_agent m /\
    sp_custom_patterns m' = set_add pattern (sp_custom_patterns m) /\ stored s' = Some (join "," (sp_custom_patterns m')).
Proof using Hen Hup Hcache.
  intros Hs Hm Hsafe Htold. assert (sp_redis (with_custom pattern m) = Some h) as Hm1 by (rewrite <- Hm; by destruct m).
  assert (sp_agent (with_custom pattern m) = sp_agent m) as Ha by (by destruct m).
  destruct (store_run s (with_custom pattern m) Hs Hm1) as (s1 & Hstore & Hs1 & Hstored).
  assert (exists s2, (let* agent_handler := sp_get sp_agent in
    when agent_handler
      (let* shown := lift_res (_redact_pattern_source _DEFAULT_MAX_JSON_DEPTH pattern) in
       let* total := sp_get (fun m => length (if true then sp_custom_patterns m else sp_patterns m)) in
       _send_pattern_event "pattern_added" "system" "pattern_added" (kind_of true +:+ " pattern added to detection system")
         [("pattern", shown); ("pattern_type", kind_name true); ("total_patterns", string_of_Z (Z.of_nat total))]))
      (s1, with_custom pattern m) = (Ok tt, (s2, with_custom pattern m)) /\ connected s2 /\ redis s2 = redis s1) as (s2 & Hevent & Hs2 & Hr2).
  { unfold sp_get at 1. unfold bind at 1. cbn [gets fst snd]. rewrite Ha. destruct (sp_agent m) eqn:Hag; cbn [when]; [|by exists s1].
    destruct (Htold eq_refl) as [shown Hshown]. rewrite Hshown.
    destruct (event_quiet true "pattern_added" "system" "pattern_added" (kind_of true +:+ " pattern added to detection system")
      [("pattern", shown); ("pattern_type", kind_name true);
       ("total_patterns", string_of_Z (Z.of_nat (length (sp_custom_patterns (with_custom pattern m)))))] s1 Hs1) as (s2 & He & Hs2 & Hr2).
    exists s2. split_and!; [|done|done]. unfold lift_res, _send_pattern_event, sp_get, bind, gets. cbn [fst snd].
    rewrite Ha. unfold sys, zoom. cbn [fst snd]. by rewrite He. }
  exists s2, (with_custom pattern m). split_and!; [|done|done|done|by destruct m|unfold stored in *; by rewrite Hr2].
  unfold add_pattern. unfold sp_get at 1. unfold bind at 1. cbn [gets fst snd]. cbv zeta.
  specialize (Hsafe (match sp_config m with Some c => detection_max_body_inspect_bytes c | None => _DEFAULT_MAX_BODY_INSPECT_BYTES end)).
  destruct (validate_pattern_safety _ _) as [safe reason]. cbn in Hsafe. subst safe. cbn [negb].
  erewrite bind_ok; [|exact Hstore]. rewrite (bind_ok _ _ _ _ _ (clear_quiet _)).
  match type of Hevent with ?f _ = _ => change (bind f (fun _ => ret true) (s1, with_custom pattern m) = (Ok true, (s2, with_custom pattern m))) end.
  by rewrite (bind_ok _ _ _ _ _ Hevent).
Qed.

Lemma restore_all ps s m : connected s -> sp_redis m = Some h ->
  (forall pattern cap, In pattern ps -> fst (validate_pattern_safety pattern cap) = true) ->
  (forall pattern, In pattern ps -> told (sp_agent m) pattern) ->
  NoDup (sp_custom_patterns m ++ ps) ->
  exists s' m', for_each ps restore_pattern (s, m) = (Ok tt, (s', m')) /\ connected s' /\ sp_custom_patterns m' = sp_custom_patterns m ++ ps /\
    (ps = [] \/ stored s' = Some (join "," (sp_custom_patterns m'))).
Proof using Hen Hup Hcache.
  revert s m. induction ps as [|pattern ps IH]; intros s m Hs Hm Hsafe Htold Hnd.
  { exists s, m. split_and!; [done|done|by rewrite app_nil_r|by left]. }
  assert (pattern ∉ sp_custom_patterns m) as Hnew.
  { intros Hin. apply NoDup_app in Hnd as (_ & H & _). apply (H pattern Hin). left. }
  destruct (add_custom pattern s m Hs Hm (fun cap => Hsafe pattern cap (or_introl eq_refl)) (Htold pattern (or_introl eq_refl)))
    as (s1 & m1 & Hadd & Hs1 & Hm1 & Ha1 & Hc1 & Hst1).
  assert (sp_custom_patterns m1 = sp_custom_patterns m ++ [pattern]) as Hc by (rewrite Hc1; unfold set_add; by rewrite bool_decide_false).
  assert (restore_pattern pattern (s, m) = (Ok tt, (s1, m1))) as Hrun.
  { unfold restore_pattern, sp_get. unfold bind at 1. cbn [gets fst snd]. unfold in_list. rewrite bool_decide_false by done.
    by rewrite (bind_ok _ _ _ _ _ Hadd). }
  destruct (IH s1 m1 Hs1 Hm1) as (s2 & m2 & Hall & Hs2 & Hc2 & Hst2).
  { intros p cap Hp. apply Hsafe. by right. }
  { intros p Hp. rewrite Ha1. apply Htold. by right. }
  { by rewrite Hc, <- app_assoc. }
  exists s2, m2. cbn [for_each]. rewrite (bind_ok _ _ _ _ _ Hrun). split_and!; [done|done|by rewrite Hc2, Hc, <- app_assoc|].
  right. destruct Hst2 as [->|H]; [|exact H]. cbn [for_each] in Hall. injection Hall as <- <-. exact Hst1.
Qed.

(** C21: While Redis works, the custom patterns of a handler that has just added one
    are exactly those of a new handler that is given the same Redis, provided no
    pattern is empty or holds a comma, all are judged safe again and, with an agent,
    all can be shown in the event of their addition. *)
Theorem custom_patterns_survive pattern s m m0 :
  connected s -> sp_redis m = Some h -> registered m -> sp_custom_patterns m0 = [] ->
  (forall p, In p (set_add pattern (sp_custom_patterns m)) ->
     has_char "," p = false /\ p <> "" /\ (forall cap, fst (validate_pattern_safety p cap) = true) /\ told (sp_agent m || sp_agent m0) p) ->
  exists s1 m1, add_pattern pattern true (s, m) = (Ok true, (s1, m1)) /\
    exists s2 m2, sp_initialize_redis (Some h) (s1, m0) = (Ok tt, (s2, m2)) /\
      sp_custom_patterns m2 = sp_custom_patterns m1 /\ In pattern (sp_custom_patterns m2) /\
      stored s2 = stored s1.
Proof using Hen Hup Hcache.
  intros Hs Hm (_ & _ & Hnd) Hm0 Hps.
  assert (In pattern (set_add pattern (sp_custom_patterns m))) as Hin.
  { unfold set_add. case_bool_decide as H; [by apply list_elem_of_In|]. apply in_app_iff. by right; left. }
  destruct (Hps pattern Hin) as (_ & _ & Hsafe & Htold).
  destruct (add_custom pattern s m Hs Hm Hsafe) as (s1 & m1 & Hadd & Hs1 & Hm1 & _ & Hc1 & Hst1).
  { intros Ha. apply Htold. by rewrite Ha. }
  exists s1, m1. split; [done|]. rewrite <- Hc1 in *. set (l := sp_custom_patterns m1) in *.
  assert (NoDup l) as Hl by (rewrite Hc1; by apply set_add_nodup).
  destruct (get_key_up (rh_config h) (rh_agent h) Hen Hup "patterns" "custom" s1 Hs1) as (s1' & Hget & Hs1' & Hview).
  set (m0' := m0 {{ sp_redis := Some h }}).
  destruct (restore_all l s1' m0') as (s2 & m2 & Hall & Hs2 & Hc2 & Hst2); [done|by destruct m0|intros p cap Hp; by apply Hps|
    intros p Hp Ha; apply Hps; [exact Hp|]; replace (sp_agent m0') with (sp_agent m0) in Ha by (by destruct m0); rewrite Ha; by apply orb_true_r| |].
  { replace (sp_custom_patterns m0') with (@nil string) by (rewrite <- Hm0; by destruct m0). exact Hl. }
  replace (sp_custom_patterns m0') with (@nil string) in Hc2 by (rewrite <- Hm0; by destruct m0). cbn [app] in Hc2.
  assert (l <> []) as Hne by (intros Hnil; by rewrite Hnil in Hin).
  exists s2, m2. split_and!; [|done|by rewrite Hc2|].
  2: { rewrite Hst1. destruct Hst2 as [->|Hst2]; [done|]. rewrite Hst2. by rewrite Hc2. }
  assert (exists a rest, join "," l = String a rest) as (a & rest & Hjoin).
  { destruct l as [|x l']; [done|]. destruct (Hps x (or_introl eq_refl)) as (_ & Hx & _). destruct x as [|a x]; [done|].
    destruct l'; by do 2 eexists. }
  assert (split_on "," (String a rest) = l) as Hsplit.
  { rewrite <- Hjoin. apply split_on_join; [done|]. apply Forall_forall. intros x Hx. apply Hps. by apply list_elem_of_In. }
  unfold sp_initialize_redis, sp_set. unfold bind at 1. cbn [modify fst snd]. fold m0'. unfold catch.
  assert (sys (get_key (rh_config h) (rh_agent h) "patterns" "custom") (s1, m0') = (Ok (Some (String a rest)), (s1', m0'))) as Hsys.
  { unfold sys, zoom. cbn [fst snd]. rewrite Hget. unfold stored in Hst1. by rewrite Hst1, Hjoin. }
  rewrite (bind_ok _ _ _ _ _ Hsys), Hsplit, Hall. done.
Qed.
End restart.
