(* ===== verification/SampleDetection.v ===== *)
(** A pattern handler with four patterns to run detections with, and the witnesses of the
    theorems about it. *)
From S2P Require Import Prelude PyStr PyDict Json Url Sys Sample Config Redaction RedactionFacts Request Redis JsonPattern DetectionConfig BodyReader Scan ScanFacts ScanSpec SampleScan.
From S2P Require Import Preprocessor Suspatterns SuspatternsDetect SuspatternsFacts SusVerdict SusRegistry.

#[local] Open Scope Z_scope.

(** The matches of a literal. *)
Fixpoint literal_matches (needle : string) (i : Z) (s : string) : list rmatch :=
  (if startswith s needle then [mkMatch needle i (i + Z.of_nat (slen needle)) (negb (contains "\ud8" needle))] else []) ++
  match s with "" => [] | String _ s' => literal_matches needle (i + 1) s' end.

(** One pattern for each view, and one that is not tried on headers. *)
#[export] Instance detection_engine : PatternEngine := {|
  pattern_definitions := [("<script", _CTX_ALL, "xss"); ("%3c", _CTX_ALL, "xss"); (String "010" "sh -c", _CTX_ALL, "cmd_injection");
                          ("' or 1", ["query_param"; "request_body"; "unknown"], "sqli")];
  raw_view_sources := ["%3c"]; url_decoded_view_sources := [String "010" "sh -c"]; recon_raw_view_sources := [];
  recon_optional_separator_sources := []; noise_prone_sources := []; candidate_validators := [];
  windowed_finder := fun _ => None; scan_window_matcher := fun _ => None; scan_window_bounds := fun _ => None;
  safe_finder := fun p _ content => literal_matches (cp_source p) 0 content; default_timeout := seconds 5;
  pattern_search := fun p content from => Searched (hd_error (literal_matches (cp_source p) from (sdrop (Z.to_nat from) content)));
  validate_pattern_safety := fun p _ => if contains ")*)*" p then (false, "nested repetition") else (true, "");
  semantic_analysis := fun s => if contains "union select" s then (900000, [("sql", 950000); ("xss", 0)]) else (0, []);
  clear_cache := ret tt; record_metric := fun _ _ _ _ _ _ _ => ret tt; remove_pattern_stats := fun _ => ret tt; clear_stats := ret tt
|}.

#[export] Instance detection_decoders : Decoders := {|
  normalize_unicode := id; decode_overlong := id; url_unquote := fun s => Ok (unquote_with id s); html_unescape := fun s => Ok s;
  decode_percent_u_escapes := id; decode_unicode_escapes := id; strip_sql_comments := id;
  decode_base64_candidates := fun s n => (s, n); short_base64_fragments := fun _ => ""; indicators := []
|}.

#[export] Instance detection_prompt : Prompt.
Proof.
  split.
  - intros n. cbn [monotonic scan_env sample_env]. unfold ticking, seconds. cbn [default_timeout detection_engine]. unfold seconds. lia.
  - done.
  - intros a b c d e f g. by apply settles_ret.
Qed.

Definition sample_handler : SusPatterns := SusPatterns_new (Some default_config).

Lemma sample_state : sp_state sample_handler = _build_enhanced_detection_state default_config.
Proof. reflexivity. Qed.

Definition sys0 : Sys := sample_sys (ticking 1000) redis_up.

Definition found_in (text : string) (cats : option (list string)) : res (bool * list string) :=
  match fst (sp_detect 32 sample_handler text "198.51.100.7" "header:X-Name" None cats None sys0) with
  | Ok d => Ok (dt_is_threat d, map pattern_of (dt_threats d))
  | Raise e => Raise e
  end.

(** Encoded markup is seen raw and decoded; a context a pattern does not apply to, or
    categories it does not belong to, hide it. *)
Example detections :
  found_in "%3cscript>" None = Ok (true, ["<script"; "%3c"]) /\
  found_in "%3cscript>" (Some ["sqli"]) = Ok (false, []) /\
  found_in "' or 1=1" None = Ok (false, []) /\
  found_in (String "010" "sh -c id") None = Ok (true, [String "010" "sh -c"]) /\
  found_in "1 union select 2" (Some []) = Ok (true, ["sql"]) /\
  found_in "%2e%2e/etc" None = Ok (true, [_PATH_TRAVERSAL_DECODED_SHAPE_RE]).
Proof. vm_compute. repeat split; reflexivity. Qed.

(** What the sample can report, and the texts of what it can. *)
Definition shown_sources : list string :=
  reportable_sources sample_handler ++ ["unknown"; "semantic:sql"; "semantic:xss"; "semantic:suspicious"].

Lemma sources_shown source cap : In source shown_sources -> exists shown, _redact_pattern_source cap source = Ok shown.
Proof. intros H. repeat (destruct H as [<-|H]; [eexists; vm_compute; reflexivity|]). destruct H. Qed.

Lemma literal_encodable needle i s : contains "\ud8" needle = false ->
  Forall (fun found => rm_encodable found = true) (literal_matches needle i s).
Proof.
  intros Hn. assert (negb (contains "\ud8" needle) = true) as Hn' by by rewrite Hn.
  revert i. induction s as [|c s IH]; intros i; cbn [literal_matches]; apply Forall_app; (split; [|done || apply IH]);
    (destruct (startswith _ needle); [by constructor|done]).
Qed.

Lemma sample_encodable p content context : encodable sample_handler p content context = true.
Proof.
  unfold encodable. apply List.forallb_forall. intros view _. apply List.forallb_forall. intros c Hc.
  destruct (reported_match c view context) as [found|] eqn:Hf; [|done]. apply List.find_some in Hf as [Hin _].
  assert (matches_of c view = literal_matches (cp_source c) 0 view) as Hm by done. rewrite Hm in Hin.
  apply list_elem_of_In in Hin. revert found Hin. apply Forall_forall. apply literal_encodable.
  repeat (destruct Hc as [<-|Hc]; [reflexivity|]). destruct Hc.
Qed.

Lemma sample_attacks p content attack_type score : In (SemanticThreat attack_type score) (semantic_answer sample_handler p content) ->
  In ("semantic:" +:+ attack_type) shown_sources.
Proof.
  unfold semantic_answer. cbv zeta. destruct (_ || _); [done|]. unfold semantic_analysis, detection_engine.
  destruct (contains _ _); (destruct (_ <=? _); [done|]); cbn [List.filter snd].
  - destruct (semantic_threshold _ <=? 950000), (semantic_threshold _ <=? 0); cbn [map fst snd];
      intros H; repeat (destruct H as [[= <- <-]|H]); try destruct H; vm_compute; tauto.
  - intros [[= <- <-]|[]]. vm_compute. tauto.
Qed.

Lemma sample_reportable p content context cats : reportable 32 sample_handler p content context cats.
Proof.
  split; [apply sample_encodable|]. intros _. apply sources_shown. apply in_app_iff.
  destruct (named_source sample_handler p content context cats) as [H|[->|(attack & score & Hin & ->)]]; [by left|right; vm_compute; tauto|].
  apply in_app_iff. by eapply sample_attacks.
Qed.


(** A match that cannot be encoded ends the detection. *)
Example half_a_pair :
  fst (sp_detect 32 (sample_handler {{ sp_compiled_patterns ::= cons (mkPattern "\ud8" false _CTX_ALL "xss") }})
    "a \ud8" "198.51.100.7" "header:X-Name" None None None sys0) = Raise UnicodeEncodeError.
Proof. vm_compute. reflexivity. Qed.



(** * Custom patterns *)

Definition sample_handle : RedisHandle SecurityConfig := mkRedisHandle default_config false.

Definition stored_handler : SusPatterns := sample_handler {{ sp_redis := Some sample_handle }}.

(** Patterns are added, and another handler starts with the same Redis. *)
Definition restarted (patterns : list string) : list string * option string :=
  let w := run_ops (map (fun p => AddPattern p true) patterns) (sys0, stored_handler) in
  let w' := run_ops [InitializeRedis (Some sample_handle)] (fst w, sample_handler) in
  (sp_custom_patterns (snd w'), dget (full_key default_config "patterns" "custom") (sr_keys (redis (fst w')))).

(** A pattern with a comma comes back in pieces, and the pieces replace it in Redis. *)
Example comma_tears_a_pattern :
  restarted ["evil"; "[0-9]+"] = (["evil"; "[0-9]+"], Some "evil,[0-9]+") /\
  restarted ["a{1,3}b"] = (["a{1"; "3}b"], Some "a{1,3}b") /\
  restarted ["x,x"] = (["x"], Some "x").
Proof. vm_compute. repeat split; reflexivity. Qed.

Lemma custom_patterns_survive_witness : exists s1 m1,
  add_pattern "[0-9]+" true (sys0, stored_handler) = (Ok true, (s1, m1)) /\
  exists s2 m2, sp_initialize_redis (Some sample_handle) (s1, sample_handler) = (Ok tt, (s2, m2)) /\
    sp_custom_patterns m2 = sp_custom_patterns m1 /\ In "[0-9]+" (sp_custom_patterns m2) /\
    @stored _ (sample_string_laws _ _) sample_handle s2 = @stored _ (sample_string_laws _ _) sample_handle s1.
Proof.
  apply (@custom_patterns_survive _ _ _ (sample_string_laws _ _)).
  - reflexivity.
  - reflexivity.
  - reflexivity.
  - split; reflexivity.
  - reflexivity.
  - split; [reflexivity|split; [reflexivity|constructor]].
  - reflexivity.
  - intros p [<-|[]]. split_and!; [reflexivity|discriminate|reflexivity|discriminate].
Defined.

(** * The scan of a request with this handler *)

#[local] Instance handler_detector : Detector := sus_detector 32 sample_handler.

Definition scan_of (body_config : SecurityConfig) (request : Request) : res (bool * list string) :=
  match fst (detect_penetration_attempt request None (Some body_config) None fresh) with
  | Ok r => Ok (is_threat r, threat_categories r)
  | Raise e => Raise e
  end.

(** The biography of the sample body is found by the pattern for markup, when that
    category is enabled. *)
Example handler_in_the_scan :
  scan_of default_config profile_post = Ok (true, ["xss"]) /\
  scan_of (default_config {{ enabled_detection_categories := ["sqli"] }}) profile_post = Ok (false, []).
Proof. vm_compute. split; reflexivity. Qed.

(** The threats of the sample can be shown. *)
Lemma threats_can_be_shown p content context cats t cap : In t (answer sample_handler p content context cats) ->
  exists message, _build_threat_message cap t = Ok message.
Proof.
  unfold answer. rewrite in_app_iff. intros [H|H].
  - apply answer_source in H as (source & mt & po & ca & w & -> & Hs). cbn [_build_threat_message].
    destruct (sources_shown source cap) as [shown ->]; [apply in_app_iff; by left|by eexists].
  - destruct t as [| |attack score]; [exfalso|exfalso|by eexists]; unfold semantic_answer in H; cbv zeta in H;
      (destruct (_ || _) in H; [done|]); destruct (semantic_analysis _) in H; (destruct (_ <=? _) in H; [done|]);
      destruct (List.filter _ _) in H; [by destruct H|apply in_map_iff in H as (a & [=] & _)|by destruct H|apply in_map_iff in H as (a & [=] & _)].
Qed.
