(* ===== verification/Middleware.v ===== *)
(** The middleware around a request: its state, the objects it calls back into,
    activity logs ([guard_core/_utils/request_logging.py]), block hooks
    ([block_events.py]), the event bus ([core/events/middleware_events.py]), the
    error responses ([core/responses/factory.py]) and the resolution of per-route
    rules ([core/routing/resolver.py]).

    The state of one request is [World]: the shared surroundings, [request.state],
    and the state of the handlers.  What does not change while a request is
    handled is in [Middleware].  Callables of the application, and parts of the
    engine with an interface of their own (detection), are the class [Engine]. *)
From S2P Require Import Prelude PyStr PyDict IpAddr Url Sys Config Redaction Request IpExtraction TTL Redis IpBan RateLimit Cloud.
From S2P Require Import AccessControl.
From S2P Require Import Json SecurityHeaders JsonPattern.

(** [GuardResponse] *)
Record Response : Type := mkResponse {
  rs_status : Z;
  rs_body : string;
  rs_headers : list (string * string)
}.

#[export] Instance Response_eq_dec : EqDecision Response.
Proof. solve_decision. Defined.

(** The payload of [build_block_payload]; the path and the method are those of
    the request. *)
Record BlockPayload : Type := mkPayload {
  bp_check_name : string;
  bp_reason : string;
  bp_trigger_info : string;
  bp_passive_mode : bool;
  bp_client_ip : string;
  bp_path : string;
  bp_method : string;
  bp_status_code : option Z
}.

(** What a custom validator returns: something false, a [GuardResponse], or
    another true value. *)
Inductive Validation : Type := Falsy | Blocking (r : Response) | Truthy.

(** The callables of the application, by the name the configuration gives them,
    and the parts of the engine behind an interface.  Each may read and change the
    surroundings, and may raise. *)
Class Engine `{E : Env} : Type := {
  on_block_hook : string -> Request -> BlockPayload -> M Sys unit;
  on_error_hook : string -> string -> exn -> M Sys unit;
  custom_response_modifier_fn : string -> Response -> M Sys Response;
  custom_request_check_fn : string -> Request -> M Sys (option Response);
  custom_validator_fn : string -> Request -> M Sys Validation;
  (** the principal a verifier returns; [None] is a false value *)
  auth_verifier_fn : string -> Request -> string -> M Sys (option string);
  (** [detect_penetration_attempt], which reads [request.state.client_ip] *)
  run_detection : Request -> option string -> SecurityConfig -> option RouteConfig -> M Sys DetectionResult;
  (** does a compiled pattern match the subject? *)
  ua_pattern_matches : string -> string -> M Sys bool;
  (** [datetime.now(ZoneInfo(key)).strftime("%H:%M")] at a time, or [None] when
      [ZoneInfo] raises *)
  zone_hour_minute : string -> Z -> option string;
  (** [id(config)] *)
  config_id : string;
  (** what the redaction of texts relies on *)
  engine_texts :: TextServices
}.

(** [RateLimitManager] *)
Record RateLimitManager : Type := mkRateLimit {
  rl_config : SecurityConfig;
  request_timestamps : hit_store;
  rl_redis : option (RedisHandle SecurityConfig);
  rl_agent : bool;
  rate_limit_script_sha : option string
}.

(** What the checks see of the middleware and does not change with a request:
    its configuration, agent and geolocation handler, the decorator of the route
    resolver, and the agent of the event bus. *)
Record Middleware : Type := mkMiddleware {
  mw_config : SecurityConfig;
  mw_agent : bool;
  mw_geo : option GeoHandler;
  (** [config.geo_ip_handler] *)
  mw_config_geo : option GeoHandler;
  mw_decorator : option Decorator;
  mw_bus_agent : bool
}.

Abbreviation PATH_CACHE_SIZE := 1000%Z.
Abbreviation PATH_CACHE_TTL := 300000000%Z.

Lemma display_endpoint_url `{TS : TextServices} config url : display_endpoint config url = display_url config url.
Proof. reflexivity. Qed.

(** The texts of a request that logs and hooks show can be shown. *)
Definition request_shown `{TS : TextServices} (config : SecurityConfig) (request : Request) : Prop :=
  (exists url, display_url config (rq_url_full request) = Ok url) /\
  (exists path, display_url config (rq_path request) = Ok path) /\
  (exists headers, display_headers config (rq_headers request) = Ok headers).

(** The same, as a check that evaluates. *)
Definition is_shown {A} (r : res A) : bool := match r with Ok _ => true | Raise _ => false end.

Lemma is_shown_ok {A} (r : res A) : is_shown r = true -> exists a, r = Ok a.
Proof. destruct r as [a|e]; [by exists a|done]. Qed.

Lemma request_shown_check `{TS : TextServices} (config : SecurityConfig) (request : Request) :
  is_shown (display_url config (rq_url_full request)) && is_shown (display_url config (rq_path request))
    && is_shown (display_headers config (rq_headers request)) = true -> request_shown config request.
Proof. intros [[? ?]%andb_prop ?]%andb_prop. split; [|split]; by apply is_shown_ok. Qed.

Section middleware.
Context `{Eng : Engine} `{C : !TTLCache string Z BAN_CACHE_SIZE (seconds LOCAL_CACHE_TTL_CAP_SECONDS)}
  `{P : !TTLCache string bool PATH_CACHE_SIZE PATH_CACHE_TTL}
  `{HC : !TTLCache string headers HEADERS_CACHE_SIZE HEADERS_CACHE_TTL}.

Record World : Type := mkWorld {
  w_sys : Sys;
  w_state : RequestState;
  w_ban : BanManager;
  w_rl : RateLimitManager;
  (** [middleware.suspicious_request_counts] *)
  w_counts : list (string * list (string * Z));
  w_cloud : CloudManager;
  last_cloud_ip_refresh : Z;
  (** [RequestValidator._path_excluded_event_cache] *)
  w_paths : ttl_cache (K := string) (V := bool);
  w_headers : SecurityHeadersManager
}.

#[local] Abbreviation W := (M World).

Definition on_sys {A} (m : M Sys A) : W A := zoom w_sys (fun s w => w {{ w_sys := s }}) m.

Definition on_bans {A} (m : M (Sys * BanManager) A) : W A :=
  zoom (fun w => (w_sys w, w_ban w)) (fun p w => w {{ w_sys := fst p; w_ban := snd p }}) m.

Definition on_clouds {A} (m : M (Sys * CloudManager) A) : W A :=
  zoom (fun w => (w_sys w, w_cloud w)) (fun p w => w {{ w_sys := fst p; w_cloud := snd p }}) m.

Definition on_headers {A} (m : M (Sys * SecurityHeadersManager) A) : W A :=
  zoom (fun w => (w_sys w, w_headers w)) (fun p w => w {{ w_sys := fst p; w_headers := snd p }}) m.

Definition state {A} (f : RequestState -> A) : W A := gets (fun w => f (w_state w)).
Definition set_state (f : RequestState -> RequestState) : W unit := modify (fun w => w {{ w_state ::= f }}).

(** ** Block hooks *)

Definition ON_BLOCK_EXCLUDED_CHECK_NAMES : list string :=
  ["custom_request"; "custom_validators"; "https_enforcement"].

(** The client address for display: the one found before, the peer, or unknown. *)
Definition display_client_ip (request : Request) (cached_ip : option string) : string :=
  match cached_ip with
  | Some (String _ _ as ip) => ip
  | _ => match rq_client_host request with
         | Some (String _ _ as host) => _canonicalize_ip host
         | _ => UNKNOWN_CLIENT_IDENTITY
         end
  end.

Definition build_block_payload (config : SecurityConfig) (request : Request) (check_name reason trigger_info : string)
  (passive_mode : bool) (status_code : option Z) : W BlockPayload :=
  let* cached_ip := state st_client_ip in
  let* path := lift_res (display_url config (rq_path request)) in
  ret {| bp_check_name := check_name; bp_reason := reason; bp_trigger_info := trigger_info;
         bp_passive_mode := passive_mode; bp_client_ip := display_client_ip request cached_ip;
         bp_path := path; bp_method := rq_method request;
         bp_status_code := status_code |}.

Definition invoke_block_hook (hook : string) (request : Request) (payload : BlockPayload) : W unit :=
  catch any_exn (on_sys (on_block_hook hook request payload))
    (fun e => on_sys (log ERROR ("on_block hook raised: " +:+ exn_message e))).

Definition fire_block_hook (config : SecurityConfig) (hook : option string) (request : Request) (check_name reason trigger_info : string)
  (passive_mode : bool) (status_code : option Z) : W unit :=
  match hook with
  | None => ret tt
  | Some hook =>
      if in_list check_name ON_BLOCK_EXCLUDED_CHECK_NAMES then ret tt
      else let* payload := build_block_payload config request check_name reason trigger_info passive_mode status_code in
           invoke_block_hook hook request payload
  end.

(** ** Activity logs *)

Inductive log_kind : Type := LogRequest | LogSuspicious | LogOther (log_type : string).

Definition _dispatch_block_hook (config : SecurityConfig) (request : Request) (log_type : log_kind) (check_name : option string)
  (reason trigger_info : string) (passive_mode : bool) (on_block : option string) : W unit :=
  match log_type with
  | LogSuspicious =>
      if negb passive_mode then
        set_state (fun s => s {{ st_block_stash := Some (reason, trigger_info) }})
      else fire_block_hook config on_block request (default "" check_name) reason trigger_info true None
  | _ => ret tt
  end.

(** [str(headers)] *)
Definition show_headers (headers : list (string * string)) : string :=
  "{" +:+ join ", " (map (fun h => repr_string (fst h) +:+ ": " +:+ repr_string (snd h)) headers) +:+ "}".

(** [text.capitalize()] *)
Definition capitalize (s : string) : string := match s with String c s' => String (upper_char c) (lower s') | EmptyString => "" end.

(** [_build_log_message_*] *)
Definition log_message (client_ip method url headers : string) (log_type : log_kind) (reason : string)
  (passive_mode : bool) (trigger_info : string) : string :=
  let details message := message +:+ " " +:+ client_ip +:+ ": " +:+ method +:+ " " +:+ url in
  match log_type with
  | LogRequest => details "Request from" +:+ " - Headers: " +:+ headers
  | LogSuspicious =>
      if passive_mode then
        details "[PASSIVE MODE] Penetration attempt detected from" +:+
        (if truthy trigger_info then " - Trigger: " +:+ trigger_info else "") +:+ " - Headers: " +:+ headers
      else details "Suspicious activity detected from" +:+ " - Reason: " +:+ reason +:+ " - Headers: " +:+ headers
  | LogOther log_type =>
      details (capitalize log_type +:+ " from") +:+ " - Details: " +:+ reason +:+ " - Headers: " +:+ headers
  end.

Definition log_activity (config : SecurityConfig) (request : Request) (log_type : log_kind) (reason : string)
  (passive_mode : bool) (trigger_info : string) (level : option level) (check_name : option string)
  (on_block : option string) : W unit :=
  _dispatch_block_hook config request log_type check_name reason trigger_info passive_mode on_block ;;;
  match level with
  | None => ret tt
  | Some level =>
      if match check_name with Some n => in_list n (muted_check_logs config) | None => false end then ret tt
      else
        let* cached_ip := state st_client_ip in
        let* url := lift_res (display_url config (rq_url_full request)) in
        let* headers := lift_res (display_headers config (rq_headers request)) in
        on_sys (log level (log_message (display_client_ip request cached_ip) (rq_method request) url (show_headers headers)
          log_type reason passive_mode trigger_info))
  end.

(** The call the checks make before they block. *)
Definition log_suspicious (config : SecurityConfig) (request : Request) (check_name reason : string) : W unit :=
  log_activity config request LogSuspicious reason (passive_mode config) "" (log_suspicious_level config)
    (Some check_name) (on_block config).

(** ** The event bus *)

Record EventBus : Type := mkBus {
  bus_agent : bool;
  bus_config : SecurityConfig;
  bus_geo : option GeoHandler;
  bus_muted : list string
}.

Definition _lookup_country (bus : EventBus) (client_ip : string) : W (option string) :=
  match bus_geo bus with
  | None => ret None
  | Some geo =>
      catch any_exn (lift_res (geo_get_country geo client_ip))
        (fun e =>
           on_sys (log WARNING ("GeoIP lookup failed for " +:+ client_ip +:+ ": " +:+ exn_message e)) ;;;
           match on_error (bus_config bus) with
           | Some hook => catch any_exn (on_sys (on_error_hook hook "geoip" e))
               (fun e => on_sys (log ERROR ("on_error hook raised while handling 'geoip': " +:+ exn_message e)))
           | None => ret tt
           end ;;;
           ret None)
  end.

Definition _forward_trace_headers (request : Request) (kwargs : list (string * string)) : list (string * string) :=
  fold_left (fun forwarded name =>
    match header request name with
    | Some (String _ _ as value) => if dmem name forwarded then forwarded else dset name value forwarded
    | _ => forwarded
    end) ["traceparent"; "tracestate"] kwargs.

(** The user agent and the endpoint of an event, as they are shown; events do not keep
    them here. *)
Definition _event_texts (bus : EventBus) (request : Request) : W unit :=
  match header request "User-Agent" with
  | Some (String _ _ as user_agent) => lift_res (display_header_value (bus_config bus) user_agent) ;;; ret tt
  | _ => ret tt
  end ;;;
  lift_res (display_endpoint (bus_config bus) (rq_path request)) ;;;
  ret tt.

Definition send_middleware_event (bus : EventBus) (event_type : string) (request : Request)
  (action_taken reason : string) (kwargs : list (string * string)) : W unit :=
  if negb (bus_agent bus) || negb (agent_enable_events (bus_config bus)) then ret tt
  else if in_list event_type (bus_muted bus) then ret tt
  else
    catch any_exn
      (let* cached_ip := state st_client_ip in
       let* client_ip := on_sys (extract_client_ip request cached_ip (bus_config bus) (bus_agent bus)) in
       let* country := _lookup_country bus client_ip in
       _event_texts bus request ;;;
       on_sys (agent_send
         {| ev_type := event_type; ev_ip := client_ip; ev_action := action_taken; ev_reason := reason;
            ev_handler := "middleware"; ev_country := country; ev_meta := _forward_trace_headers request kwargs |}))
      (fun e => on_sys (log ERROR ("Failed to send security event to agent: " +:+ exn_message e))).

(** [middleware.event_bus] *)
Definition event_bus (mw : Middleware) : EventBus :=
  mkBus (mw_bus_agent mw) (mw_config mw) (mw_geo mw) (muted_event_types (mw_config mw)).

Definition send_event (mw : Middleware) := send_middleware_event (event_bus mw).

(** [action_taken]: what the events say was done *)
Definition action_of (config : SecurityConfig) : string :=
  if passive_mode config then "logged_only" else "request_blocked".

Definition send_https_violation_event (mw : Middleware) (request : Request) (route_config : option RouteConfig)
  : W unit :=
  let* https_url := lift_res (display_endpoint (mw_config mw) (rq_https_url request)) in
  match route_config with
  | Some rc =>
      if rc_require_https rc then
        send_event mw "decorator_violation" request "https_redirect" "Route requires HTTPS but request was HTTP"
          [("decorator_type", "authentication"); ("violation_type", "require_https");
           ("original_scheme", rq_scheme request); ("redirect_url", https_url)]
      else send_event mw "https_enforced" request "https_redirect"
             "HTTP request redirected to HTTPS for security"
             [("original_scheme", rq_scheme request); ("redirect_url", https_url)]
  | None => send_event mw "https_enforced" request "https_redirect"
              "HTTP request redirected to HTTPS for security"
              [("original_scheme", rq_scheme request); ("redirect_url", https_url)]
  end.

Definition send_cloud_detection_events (mw : Middleware) (request : Request) (client_ip : string)
  (cloud_providers_to_check : list string) (route_config : option RouteConfig) : W unit :=
  let* cloud_details := on_clouds (get_cloud_provider_details client_ip cloud_providers_to_check) in
  let* agent_handler := gets (fun w => cloud_agent (w_cloud w)) in
  match cloud_details with
  | Some (provider, network) =>
      when agent_handler
        (on_clouds (send_cloud_detection_event client_ip provider network (action_of (mw_config mw))))
  | None => ret tt
  end ;;;
  match route_config with
  | Some rc =>
      when (nonempty (rc_block_cloud_providers rc))
        (send_event mw "decorator_violation" request (action_of (mw_config mw))
           ("Cloud provider IP " +:+ client_ip +:+ " blocked")
           [("decorator_type", "access_control"); ("violation_type", "cloud_provider");
            ("blocked_providers", show_list cloud_providers_to_check)])
  | None => ret tt
  end.

(** ** Responses *)

Definition set_header (name value : string) (response : Response) : Response :=
  response {{ rs_headers ::= dset name value }}.

(** The headers the manager gives for the configuration; [config_id] is the
    identity of the configuration object. *)
Definition apply_security_headers (config : SecurityConfig) (response : Response) (request_path : option string)
  : W Response :=
  if headers_enabled config then
    let* hs := on_headers (get_headers request_path (Some (config_id, config))) in
    ret (fold_left (fun r h => set_header (fst h) (snd h) r) hs response)
  else ret response.

Definition apply_modifier (config : SecurityConfig) (response : Response) : W Response :=
  match custom_response_modifier config with
  | Some f => catch any_exn (on_sys (custom_response_modifier_fn f response))
                (fun e => on_sys (log ERROR ("custom_response_modifier raised " +:+ exn_message e +:+
                                             "; returning unmodified response")) ;;;
                          ret response)
  | None => ret response
  end.

Definition create_error_response (config : SecurityConfig) (status_code : Z) (default_message : string)
  : W Response :=
  let custom_message := default default_message (dget status_code (custom_error_responses config)) in
  let* response := apply_security_headers config (mkResponse status_code custom_message []) None in
  apply_modifier config response.

Definition create_https_redirect (config : SecurityConfig) (request : Request) : W Response :=
  apply_modifier config (mkResponse 301 "" [("Location", rq_https_url request)]).

(** ** Per-route rules *)

(** The decorator of the resolver's context, or the one the adapter left on the
    request. *)
Definition find_decorator (mw : Middleware) : W (option Decorator) :=
  match mw_decorator mw with
  | Some d => ret (Some d)
  | None => state st_guard_decorator
  end.

Definition get_route_config (mw : Middleware) : W (option RouteConfig) :=
  let* guard_decorator := find_decorator mw in
  let* route_id := state st_route_id in
  match guard_decorator, route_id with
  | Some d, Some (String _ _ as route_id) => ret (dget route_id (_route_configs d))
  | _, _ => ret None
  end.

Definition should_bypass_check (check_name : string) (route_config : option RouteConfig) : bool :=
  match route_config with
  | None => false
  | Some rc => in_list check_name (rc_bypassed_checks rc) || in_list "all" (rc_bypassed_checks rc)
  end.

Definition get_cloud_providers_to_check (config : SecurityConfig) (route_config : option RouteConfig)
  : option (list string) :=
  match route_config with
  | Some rc =>
      if nonempty (rc_block_cloud_providers rc) then Some (rc_block_cloud_providers rc)
      else if truthy_list (block_cloud_providers config) then block_cloud_providers config else None
  | None => if truthy_list (block_cloud_providers config) then block_cloud_providers config else None
  end.

(** ** Responses are given *)

Lemma apply_security_headers_run config code body path w : acceptable config ->
  exists hs w', apply_security_headers config (mkResponse code body []) path w = (Ok (mkResponse code body hs), w').
Proof.
  intros Ha. unfold apply_security_headers. destruct (headers_enabled config); [|by eexists [], w].
  destruct (get_headers_returns config_id config path (w_sys w, w_headers w) Ha) as (hs & [s h] & Hg).
  assert (forall l r, exists hs, fold_left (fun r h => set_header (fst h) (snd h) r) l r = mkResponse (rs_status r) (rs_body r) hs)
    as Hf.
  { clear. intros l. induction l as [|x l IH]; intros r; [exists (rs_headers r); by destruct r|]. cbn [fold_left].
    destruct (IH (set_header (fst x) (snd x) r)) as [hs Hh]. exists hs. rewrite Hh. by destruct r. }
  destruct (Hf hs (mkResponse code body [])) as [hs' Hh]. eexists hs', _.
  erewrite bind_ok; [|unfold on_headers, zoom; by rewrite Hg]. rewrite Hh. reflexivity.
Qed.

(** Without a modifier, an error response has the configured text, and headers. *)
Lemma create_error_response_run config code msg w :
  acceptable config -> custom_response_modifier config = None ->
  exists hs w', create_error_response config code msg w =
    (Ok (mkResponse code (default msg (dget code (custom_error_responses config))) hs), w').
Proof.
  intros Ha Hm. unfold create_error_response.
  destruct (apply_security_headers_run config code (default msg (dget code (custom_error_responses config))) None w Ha)
    as (hs & w' & Hr).
  exists hs, w'. rewrite (bind_ok _ _ _ _ _ Hr). unfold apply_modifier. by rewrite Hm.
Qed.
(** ** Reports return *)

(** Hooks never raise into the engine, where their payload can be shown. *)
Lemma fire_block_hook_run config hook request n r t p st (w : World) :
  hook = None \/ (exists path, display_url config (rq_path request) = Ok path) ->
  exists w', fire_block_hook config hook request n r t p st w = (Ok tt, w').
Proof.
  unfold fire_block_hook. destruct hook as [h|]; [|by eexists]. intros [|[path Hpath]]; [done|]. destruct (in_list n _); [by eexists|].
  unfold build_block_payload, invoke_block_hook, catch, bind, state, gets, lift_res, ret. rewrite Hpath.
  destruct (on_sys (on_block_hook h request _) w) as [[[]|e] w1]; by eexists.
Qed.

Lemma log_activity_run config request lt r p t l c h (w : World) : request_shown config request ->
  exists w', log_activity config request lt r p t l c h w = (Ok tt, w').
Proof.
  intros ([url Hurl] & Hpath & [hs Hhs]). unfold log_activity.
  assert (exists w1, _dispatch_block_hook config request lt c r t p h w = (Ok tt, w1)) as [w1 Hd].
  { unfold _dispatch_block_hook. destruct lt; [by eexists| |by eexists]. destruct (negb p); [by eexists|].
    apply fire_block_hook_run. by right. }
  rewrite (bind_ok _ _ _ _ _ Hd). destruct l as [l|]; [|by eexists].
  destruct (match c with Some n => _ | None => _ end); [by eexists|].
  unfold bind, state, gets, lift_res. rewrite Hurl, Hhs. by eexists.
Qed.

Lemma send_event_run mw request t a r k (w : World) : exists w', send_event mw t request a r k w = (Ok tt, w').
Proof.
  unfold send_event, send_middleware_event. destruct (negb _ || negb _); [by eexists|]. destruct (in_list t _); [by eexists|].
  unfold catch. destruct (bind _ _ w) as [[[]|e] w1]; by eexists.
Qed.
End middleware.

(** A call on the state of a request. *)
Abbreviation W := (M World).
