(* ===== verification/DynamicRules.v ===== *)
(** Dynamic rules ([guard_core/_dynamic_rules.py], [handlers/dynamic_rule_handler.py]
    and [handlers/_dynamic_rule_*.py]): rules pushed by the agent are applied to the
    live configuration, replaced by later versions, reverted when they expire, and
    kept for the next start.

    The manager acts on its own state, the live configuration and the ban manager.
    The text of a collection in a log record is [show_list] of it. *)
From S2P Require Import Prelude PyStr PyDict IpAddr IpAddrText Sys Config Redaction TTL Redis IpExtraction IpBan Cloud Scan SampleScan LiveConfig.
From S2P Require Import Request RateLimit AccessControl Middleware Sample.

(** * Rules *)

(** A [datetime]: its time, and whether it carries a time zone. *)
Record datetime : Type := mkDatetime { dt_time : Z; dt_aware : bool }.

(** [DynamicRules]; the creation time and [ttl] are not read by the engine. *)
Record DynamicRules : Type := mkRules {
  rule_id : string;
  version : Z;
  expires_at : option datetime;
  ip_blacklist : list string;
  ip_whitelist : list string;
  ip_ban_duration : Z;
  dr_blocked_countries : list string;
  dr_whitelist_countries : list string;
  global_rate_limit : option Z;
  global_rate_window : option Z;
  dr_endpoint_rate_limits : list (string * (Z * Z));
  blocked_cloud_providers : list string;
  dr_blocked_user_agents : list string;
  suspicious_patterns : list string;
  dr_enable_penetration_detection : option bool;
  dr_enable_ip_banning : option bool;
  dr_enable_rate_limiting : option bool;
  dr_auto_ban_threshold : option Z;
  dr_auto_ban_duration : option Z;
  dr_enable_rate_limit_auto_ban : option bool;
  dr_emergency_mode : bool;
  dr_emergency_whitelist : list string
}.

Definition LAST_KNOWN_RULES_SNAPSHOT_SCHEMA_VERSION : Z := 1.
Definition DYNAMIC_RULES_REDIS_NAMESPACE : string := "dynamic_rules".
Definition LAST_KNOWN_RULES_KEY : string := "last_known".

(** What the manager calls: the agent, the attack patterns, JSON, the file system. *)
Class RuleServices `{E : Env} : Type := {
  (** [agent_handler.get_dynamic_rules()] *)
  get_dynamic_rules : M Sys (option DynamicRules);
  (** [sus_patterns_handler.add_pattern] *)
  add_pattern : string -> M Sys bool;
  (** [LastKnownRulesSnapshot.model_validate_json] and [model_dump_json]: the
      schema version and the rules *)
  snapshot_of_json : string -> res (Z * DynamicRules);
  json_of_snapshot : Z -> DynamicRules -> res string;
  (** [path.is_file()], [path.read_text()]; [mkstemp], writing, [os.replace], [unlink] *)
  path_is_file : string -> M Sys bool;
  path_read_text : string -> M Sys string;
  mkstemp : string -> M Sys string;
  write_text : string -> string -> M Sys unit;
  os_replace : string -> string -> M Sys unit;
  path_unlink : string -> M Sys unit
}.

Definition is_os_error (e : exn) : bool :=
  match e with OtherError cls _ => (cls =? "OSError")%string | _ => false end.

(** [except (OSError, UnicodeDecodeError)]; the latter is a [ValueError] *)
Definition is_read_error (e : exn) : bool :=
  is_os_error e || match e with OtherError cls _ => (cls =? "UnicodeDecodeError")%string | _ => false end.

Section rules.
Context `{CS : ConfigServices} `{SS : !ScanServices} `{RS : !RuleServices}
  `{C : !TTLCache string Z BAN_CACHE_SIZE (seconds LOCAL_CACHE_TTL_CAP_SECONDS)}.

(** [dump_last_known_rules_snapshot], [load_last_known_rules_snapshot] *)
Definition dump_last_known_rules_snapshot (rules : DynamicRules) : res string :=
  json_of_snapshot LAST_KNOWN_RULES_SNAPSHOT_SCHEMA_VERSION rules.

Definition load_last_known_rules_snapshot (payload : string) : res DynamicRules :=
  match snapshot_of_json payload with
  | Raise e => Raise e
  | Ok (schema_version, rules) =>
      if negb (schema_version =? LAST_KNOWN_RULES_SNAPSHOT_SCHEMA_VERSION)%Z
      then Raise (ValueError ("Unsupported last-known dynamic rules snapshot schema version: " +:+
                              string_of_Z schema_version))
      else Ok rules
  end.

(** * The manager *)

(** [DynamicRuleManager]; the snapshot of a configuration is the assignments that
    restore it. *)
Record DynamicRuleManager : Type := mkRuleManager {
  dm_agent : bool;
  dm_redis : option (RedisHandle SecurityConfig);
  current_rules : option DynamicRules;
  last_update : Z;
  update_task : bool;
  _active_base_snapshot : option (list assignment);
  _last_skipped_expired_rule : option (string * Z);
  _hydrated_last_known_rules : bool
}.

(** [DynamicRuleManager.__new__] *)
Definition DynamicRuleManager_new : DynamicRuleManager := mkRuleManager false None None 0 false None None false.

Record RuleWorld : Type := mkRuleWorld {
  ru_sys : Sys;
  ru_bans : BanManager;
  ru_live : LiveConfig;
  ru_manager : DynamicRuleManager
}.

#[local] Abbreviation R := (M RuleWorld).

Definition r_sys {A} (m : M Sys A) : R A := zoom ru_sys (fun s w => w {{ ru_sys := s }}) m.

Definition r_bans {A} (m : M (Sys * BanManager) A) : R A :=
  zoom (fun w => (ru_sys w, ru_bans w)) (fun p w => w {{ ru_sys := fst p; ru_bans := snd p }}) m.

Definition r_live {A} (m : M (Sys * LiveConfig) A) : R A :=
  zoom (fun w => (ru_sys w, ru_live w)) (fun p w => w {{ ru_sys := fst p; ru_live := snd p }}) m.

Definition r_get {A} (f : DynamicRuleManager -> A) : R A := gets (fun w => f (ru_manager w)).
Definition r_set (f : DynamicRuleManager -> DynamicRuleManager) : R unit := modify (fun w => w {{ ru_manager ::= f }}).
Definition r_config {A} (f : SecurityConfig -> A) : R A := gets (fun w => f (lc_config (ru_live w))).
Definition info (msg : string) : R unit := r_sys (log INFO msg).

(** ** Events ([_dynamic_rule_events.py]) *)

Definition rule_event (event_type action reason : string) (meta : list (string * string)) : agent_event :=
  {| ev_type := event_type; ev_ip := "system"; ev_action := action; ev_reason := reason;
     ev_handler := "dynamic_rules"; ev_country := None; ev_meta := meta |}.

(** [Failed to send ... event], with the error *)
Definition send_or_log (e : agent_event) (failure : string) : R unit :=
  let* agent_handler := r_get dm_agent in
  when agent_handler
    (catch any_exn (r_sys (agent_send e)) (fun x => r_sys (log ERROR (failure +:+ exn_message x)))).

Definition named (rules : DynamicRules) : string := rule_id rules +:+ " v" +:+ string_of_Z (version rules).

Definition _send_rule_received_event (rules : DynamicRules) : R unit :=
  let* current := r_get current_rules in
  send_or_log (rule_event "dynamic_rule_updated" "rules_received" ("Received updated rules " +:+ named rules)
      [("rule_id", rule_id rules); ("version", string_of_Z (version rules));
       ("previous_version", string_of_Z (match current with Some r => version r | None => 0%Z end))])
    "Failed to send rule updated event: ".

Definition _send_rule_applied_event (rules : DynamicRules) : R unit :=
  send_or_log (rule_event "dynamic_rule_applied" "rules_updated" ("Applied dynamic rules " +:+ named rules)
      [("rule_id", rule_id rules); ("version", string_of_Z (version rules));
       ("ip_bans", string_of_Z (Z.of_nat (length (ip_blacklist rules))));
       ("country_blocks", string_of_Z (Z.of_nat (length (dr_blocked_countries rules))));
       ("emergency_mode", py_bool (dr_emergency_mode rules))])
    "Failed to send rule applied event: ".

Definition _send_emergency_event (whitelist : list string) : R unit :=
  send_or_log (rule_event "emergency_mode_activated" "emergency_lockdown"
      "[EMERGENCY MODE] activated via dynamic rules"
      [("whitelist_count", string_of_Z (Z.of_nat (length whitelist))); ("whitelist", show_list (take 10 whitelist))])
    "Failed to send emergency event: ".

(** ** Applying rules ([_dynamic_rule_application.py]) *)

Definition assign (a : assignment) : R unit := r_live (config_set a).

Definition _apply_ip_bans (ip_list : list string) (duration : Z) : R unit :=
  for_each ip_list (fun ip =>
    catch any_exn
      (let* applied := r_bans (ban_ip ip duration "dynamic_rule") in
       when applied (info ("Dynamic rule: Banned IP " +:+ ip +:+ " for " +:+ string_of_Z duration +:+ "s")))
      (fun e => r_sys (log ERROR ("Failed to ban IP " +:+ ip +:+ ": " +:+ exn_message e)))).

Definition _apply_ip_whitelist (ip_list : list string) : R unit :=
  for_each ip_list (fun ip =>
    catch any_exn
      (r_bans (unban_ip ip) ;;; info ("Dynamic rule: Whitelisted IP " +:+ ip))
      (fun e => r_sys (log ERROR ("Failed to whitelist IP " +:+ ip +:+ ": " +:+ exn_message e)))).

Definition _apply_ip_rules (rules : DynamicRules) : R unit :=
  when (nonempty (ip_blacklist rules)) (_apply_ip_bans (ip_blacklist rules) (ip_ban_duration rules)) ;;;
  when (nonempty (ip_whitelist rules)) (_apply_ip_whitelist (ip_whitelist rules)).

Definition _apply_country_rules (blocked allowed : list string) : R unit :=
  let* lc := gets ru_live in
  if (nonempty blocked || nonempty allowed) && negb (match geo_ip_handler lc with Some _ => true | None => false end) &&
     negb (truthy_str (ipinfo_token lc))
  then r_sys (log WARNING ("Dynamic rule: country rules cannot take effect (blocked=" +:+ show_list blocked +:+
         ", allowed=" +:+ show_list allowed +:+
         "); no geo_ip_handler or ipinfo_token is configured to resolve IPs to countries"))
  else
    when (nonempty blocked)
      (let normalized_blocked := frozenset (map upper blocked) in
       assign (Set_blocked_countries normalized_blocked) ;;;
       info ("Dynamic rule: Blocked countries " +:+ show_list normalized_blocked)) ;;;
    when (nonempty allowed)
      (let normalized_allowed := frozenset (map upper allowed) in
       assign (Set_whitelist_countries normalized_allowed) ;;;
       info ("Dynamic rule: Whitelisted countries " +:+ show_list normalized_allowed)).

(** [if x:] of an optional integer *)
Definition truthy_Z (x : option Z) : option Z :=
  match x with Some n => if (n =? 0)%Z then None else Some n | None => None end.

Definition _apply_rate_limit_rules (rules : DynamicRules) : R unit :=
  match truthy_Z (global_rate_limit rules) with
  | Some limit =>
      assign (Set_rate_limit limit) ;;;
      match truthy_Z (global_rate_window rules) with
      | Some window => assign (Set_rate_limit_window window)
      | None => ret tt
      end ;;;
      info ("Dynamic rule: Global rate limit " +:+ string_of_Z limit +:+ " per " +:+
            match global_rate_window rules with Some w => string_of_Z w | None => "None" end +:+ "s")
  | None => ret tt
  end ;;;
  when (nonempty (dr_endpoint_rate_limits rules))
    (assign (Set_endpoint_rate_limits (dr_endpoint_rate_limits rules)) ;;;
     info ("Dynamic rule: Applied endpoint-specific rate limits for " +:+
           string_of_Z (Z.of_nat (length (dr_endpoint_rate_limits rules))) +:+ " endpoints: " +:+
           show_list (map fst (dr_endpoint_rate_limits rules)))).

Definition _apply_cloud_provider_rules (providers : list string) : R unit :=
  let valid := List.filter known_provider providers in
  assign (Set_block_cloud_providers (Some valid)) ;;;
  let invalid := List.filter (fun p => negb (known_provider p)) providers in
  when (nonempty invalid)
    (r_sys (log WARNING ("Dynamic rule: ignored unknown cloud providers " +:+ show_list invalid))) ;;;
  info ("Dynamic rule: Blocked cloud providers " +:+ show_list valid).

(** The loop that sorts the patterns into the safe and the rejected ones. *)
Fixpoint sort_patterns (patterns : list string) : M Sys (list string * list (string * string)) :=
  match patterns with
  | [] => ret ([], [])
  | pattern :: patterns' =>
      let* (is_safe, reason) := validate_pattern_safety pattern in
      let* (valid, rejected) := sort_patterns patterns' in
      ret (if is_safe : bool then (pattern :: valid, rejected) else (valid, (pattern, reason) :: rejected))
  end.

Definition _redact_pattern_list (patterns : list string) : res (list string) :=
  res_each (_redact_pattern_source _DEFAULT_MAX_JSON_DEPTH) patterns.

Definition _redact_rejected_patterns (rejected : list (string * string)) : res (list (string * string)) :=
  res_each (fun p => res_map (fun shown => (shown, snd p)) (_redact_pattern_source _DEFAULT_MAX_JSON_DEPTH (fst p))) rejected.

Definition _apply_user_agent_rules (user_agents : list string) : R unit :=
  let* (valid, rejected) := r_sys (sort_patterns user_agents) in
  r_live (_set_prevalidated (Set_blocked_user_agents valid)) ;;;
  when (nonempty rejected)
    (let* shown := lift_res (_redact_rejected_patterns rejected) in
     r_sys (log WARNING ("Dynamic rule: rejected blocked_user_agents patterns failing the ReDoS validator: " +:+
       show_list (map (fun p => fst p +:+ ", " +:+ snd p) shown)))) ;;;
  let* shown := lift_res (_redact_pattern_list valid) in
  info ("Dynamic rule: Blocked user agents " +:+ show_list shown).

(** [[p for p in patterns if await add_pattern(p)]] *)
Fixpoint add_patterns (patterns : list string) : M Sys (list string) :=
  match patterns with
  | [] => ret []
  | p :: patterns' =>
      let* ok := add_pattern p in
      let* added := add_patterns patterns' in
      ret (if ok : bool then p :: added else added)
  end.

Definition _apply_pattern_rules (patterns : list string) : R unit :=
  let* added := r_sys (add_patterns patterns) in
  when (nonempty added)
    (let* shown := lift_res (_redact_pattern_list added) in
     info ("Dynamic rule: Added suspicious patterns " +:+ show_list shown)) ;;;
  let rejected := List.filter (fun p => negb (in_list p added)) patterns in
  when (nonempty rejected)
    (let* shown := lift_res (_redact_pattern_list rejected) in
     r_sys (log WARNING ("Dynamic rule: rejected patterns " +:+ show_list shown))).

Definition _apply_blocking_rules (rules : DynamicRules) : R unit :=
  when (nonempty (dr_blocked_countries rules) || nonempty (dr_whitelist_countries rules))
    (_apply_country_rules (dr_blocked_countries rules) (dr_whitelist_countries rules)) ;;;
  when (nonempty (blocked_cloud_providers rules)) (_apply_cloud_provider_rules (blocked_cloud_providers rules)) ;;;
  when (nonempty (dr_blocked_user_agents rules)) (_apply_user_agent_rules (dr_blocked_user_agents rules)) ;;;
  when (nonempty (suspicious_patterns rules)) (_apply_pattern_rules (suspicious_patterns rules)).

(** [if rules.f is not None: self.config.f = rules.f; log] *)
Definition override {A} (value : option A) (set_field : A -> assignment) (text : A -> string) (what : string) : R unit :=
  match value with
  | Some v => assign (set_field v) ;;; info ("Dynamic rule: " +:+ what +:+ " " +:+ text v)
  | None => ret tt
  end.

Definition _apply_feature_toggles (rules : DynamicRules) : R unit :=
  override (dr_enable_penetration_detection rules) Set_enable_penetration_detection py_bool "Penetration detection" ;;;
  override (dr_enable_ip_banning rules) Set_enable_ip_banning py_bool "IP banning" ;;;
  override (dr_enable_rate_limiting rules) Set_enable_rate_limiting py_bool "Rate limiting" ;;;
  override (dr_enable_rate_limit_auto_ban rules) Set_enable_rate_limit_auto_ban py_bool "Rate-limit auto-ban" ;;;
  override (dr_auto_ban_threshold rules) Set_auto_ban_threshold string_of_Z "Auto-ban threshold" ;;;
  override (dr_auto_ban_duration rules) Set_auto_ban_duration string_of_Z "Auto-ban duration".

Definition _activate_emergency_mode (emergency_whitelist : list string) : R unit :=
  r_sys (log CRITICAL "[EMERGENCY MODE] ACTIVATED - Enhanced security posture enabled") ;;;
  assign (Set_emergency_mode true) ;;;
  assign (Set_emergency_whitelist emergency_whitelist) ;;;
  let* original_threshold := r_config auto_ban_threshold in
  let reduced := Z.max 1 (original_threshold / 2) in
  assign (Set_auto_ban_threshold reduced) ;;;
  r_sys (log WARNING ("[EMERGENCY MODE] Reduced auto-ban threshold from " +:+ string_of_Z original_threshold +:+
         " to " +:+ string_of_Z reduced)) ;;;
  _send_emergency_event emergency_whitelist.

(** ** Snapshots of the configuration *)

(** [_snapshot_config]: [_SNAPSHOT_FIELDS], in order *)
Definition snapshot (c : SecurityConfig) : list assignment :=
  [Set_blocked_countries (blocked_countries c); Set_whitelist_countries (whitelist_countries c);
   Set_rate_limit (rate_limit c); Set_rate_limit_window (rate_limit_window c);
   Set_endpoint_rate_limits (endpoint_rate_limits c); Set_block_cloud_providers (block_cloud_providers c);
   Set_blocked_user_agents (blocked_user_agents c);
   Set_enable_penetration_detection (enable_penetration_detection c); Set_enable_ip_banning (enable_ip_banning c);
   Set_enable_rate_limiting (enable_rate_limiting c); Set_emergency_mode (emergency_mode c);
   Set_emergency_whitelist (emergency_whitelist c); Set_auto_ban_threshold (auto_ban_threshold c);
   Set_auto_ban_duration (auto_ban_duration c); Set_enable_rate_limit_auto_ban (enable_rate_limit_auto_ban c)].

Definition _snapshot_config : R (list assignment) := r_config snapshot.

Definition _restore_config (snapshot : list assignment) : R unit :=
  for_each snapshot (fun a => r_live (_set_prevalidated a)).

Definition _capture_active_base_snapshot (snapshot : list assignment) : R unit :=
  r_set (fun m => match current_rules m, _active_base_snapshot m with
                  | None, None => m {{ _active_base_snapshot := Some snapshot }}
                  | _, _ => m
                  end).

(** ** Keeping the last rules ([_dynamic_rule_snapshot.py]) *)

Definition _write_last_known_rules_file (cache_path payload : string) : R unit :=
  let* temp_path := r_sys (mkstemp cache_path) in
  catch is_os_error
    (r_sys (write_text temp_path payload) ;;; r_sys (os_replace temp_path cache_path))
    (fun e => r_sys (path_unlink temp_path) ;;; raise e).

Definition _persist_last_known_rules (rules : DynamicRules) : R unit :=
  match dump_last_known_rules_snapshot rules with
  | Raise e => r_sys (log ERROR ("Failed to build last-known dynamic rules snapshot: " +:+ exn_message e))
  | Ok payload =>
      let* redis_handler := r_get dm_redis in
      match redis_handler with
      | Some h =>
          catch any_exn
            (r_sys (set_key (rh_config h) (rh_agent h) DYNAMIC_RULES_REDIS_NAMESPACE LAST_KNOWN_RULES_KEY payload None) ;;;
             ret tt)
            (fun e => r_sys (log ERROR ("Failed to persist dynamic rules to Redis: " +:+ exn_message e)))
      | None => ret tt
      end ;;;
      let* cache_path := gets (fun w => dynamic_rules_cache_path (ru_live w)) in
      match cache_path with
      | None => ret tt
      | Some cache_path =>
          catch is_os_error (_write_last_known_rules_file cache_path payload)
            (fun e => r_sys (log ERROR ("Failed to persist dynamic rules to cache file " +:+ cache_path +:+ ": " +:+
                                        exn_message e)))
      end
  end.

(** ** One set of rules *)

(** The body of [_apply_rules]'s [try] *)
Definition apply_all (rules : DynamicRules) : R unit :=
  _apply_ip_rules rules ;;;
  _apply_blocking_rules rules ;;;
  when (bool_decide (is_Some (truthy_Z (global_rate_limit rules))) || nonempty (dr_endpoint_rate_limits rules))
    (_apply_rate_limit_rules rules) ;;;
  _apply_feature_toggles rules ;;;
  when (dr_emergency_mode rules) (_activate_emergency_mode (dr_emergency_whitelist rules)).

Definition _apply_rules (rules : DynamicRules) : R unit :=
  let* snapshot := _snapshot_config in
  catch any_exn (apply_all rules)
    (fun e =>
       _restore_config snapshot ;;;
       r_sys (log ERROR ("Failed to apply dynamic rules: " +:+ exn_message e)) ;;;
       raise e) ;;;
  _capture_active_base_snapshot snapshot ;;;
  _persist_last_known_rules rules.

(** ** Versions and expiry *)

Definition _coerce_naive_utc (value : datetime) : datetime :=
  if dt_aware value then value else mkDatetime (dt_time value) true.

Definition _should_update_rules (current : option DynamicRules) (rules : DynamicRules) : bool :=
  match current with
  | None => true
  | Some current => negb ((rule_id rules =? rule_id current)%string && (version rules <=? version current)%Z)
  end.

Definition _has_rule_expired (rules : DynamicRules) : R bool :=
  match expires_at rules with
  | None => ret false
  | Some at_time =>
      let* now := r_sys time_time in
      ret (dt_time (_coerce_naive_utc at_time) <? now)%Z
  end.

Definition _check_rule_expiry : R unit :=
  let* rules := r_get current_rules in
  match rules with
  | Some rules =>
      match expires_at rules with
      | Some at_time =>
          let* now := r_sys time_time in
          if (now <=? dt_time (_coerce_naive_utc at_time))%Z then ret tt
          else
            let* base := r_get _active_base_snapshot in
            match base with Some base => _restore_config base | None => ret tt end ;;;
            r_set (fun m => m {{ current_rules := None; _active_base_snapshot := None }}) ;;;
            info ("Dynamic rule " +:+ named rules +:+ " expired; restored base config")
      | None => ret tt
      end
  | None => ret tt
  end.

Definition _reject_if_already_expired (rules : DynamicRules) : R bool :=
  let* expired := _has_rule_expired rules in
  if negb expired then ret false
  else
    let* last := r_get _last_skipped_expired_rule in
    when (negb (bool_decide (last = Some (rule_id rules, version rules))))
      (r_set (fun m => m {{ _last_skipped_expired_rule := Some (rule_id rules, version rules) }}) ;;;
       r_sys (log WARNING ("Dynamic rule " +:+ named rules +:+ " already expired on receipt; ignoring"))) ;;;
    ret true.

(** [self.current_rules = rules; self.last_update = time.time()] *)
Definition install (rules : DynamicRules) : R unit :=
  r_set (fun m => m {{ current_rules := Some rules }}) ;;;
  let* now := r_sys time_time in
  r_set (fun m => m {{ last_update := now }}).

(** What is done with the rules the agent returned. *)
Definition process_rules (rules : DynamicRules) : R unit :=
  let* rejected := _reject_if_already_expired rules in
  if rejected : bool then ret tt
  else
    let* current := r_get current_rules in
    if negb (_should_update_rules current rules) then ret tt
    else
      _send_rule_received_event rules ;;;
      info ("Applying dynamic rules: " +:+ named rules) ;;;
      _apply_rules rules ;;;
      install rules ;;;
      _send_rule_applied_event rules.

Definition update_rules : R unit :=
  let* enabled := r_config enable_dynamic_rules in
  let* agent_handler := r_get dm_agent in
  if negb enabled || negb agent_handler then ret tt
  else
    catch any_exn
      (_check_rule_expiry ;;;
       let* rules := r_sys get_dynamic_rules in
       match rules with
       | None => ret tt
       | Some rules => process_rules rules
       end)
      (fun e => r_sys (log ERROR ("Failed to update dynamic rules: " +:+ exn_message e))).

Definition force_update : R unit := update_rules.

(** ** Starting *)

Definition _read_redis_payload : R (option string) :=
  let* redis_handler := r_get dm_redis in
  match redis_handler with
  | None => ret None
  | Some h =>
      catch any_exn
        (let* raw := r_sys (get_key (rh_config h) (rh_agent h) DYNAMIC_RULES_REDIS_NAMESPACE LAST_KNOWN_RULES_KEY) in
         ret (if truthy_str raw then raw else None))
        (fun e => r_sys (log ERROR ("Failed to read last-known dynamic rules from Redis: " +:+ exn_message e)) ;;;
                  ret None)
  end.

Definition _read_file_payload : R (option string) :=
  let* path := gets (fun w => dynamic_rules_cache_path (ru_live w)) in
  match path with
  | None => ret None
  | Some path =>
      let* is_file := r_sys (path_is_file path) in
      if negb is_file then ret None
      else
        catch is_read_error (let* text := r_sys (path_read_text path) in ret (Some text))
          (fun e => r_sys (log ERROR ("Failed to read dynamic rules cache file " +:+ path +:+ ": " +:+ exn_message e)) ;;;
                    ret None)
  end.

Definition _parse_last_known_rules (payload : string) : R (option DynamicRules) :=
  match load_last_known_rules_snapshot payload with
  | Ok rules => ret (Some rules)
  | Raise e =>
      r_sys (log ERROR ("Discarding unusable last-known dynamic rules payload: " +:+ exn_message e)) ;;;
      ret None
  end.

(** One store of [_load_last_known_rules]'s loop *)
Definition try_payload (payload : option string) : R (option DynamicRules) :=
  match payload with
  | None => ret None
  | Some payload =>
      let* rules := _parse_last_known_rules payload in
      match rules with
      | None => ret None
      | Some rules =>
          let* expired := _has_rule_expired rules in
          if expired : bool then
            r_sys (log ERROR ("Discarding expired last-known dynamic rules " +:+ named rules +:+
                              "; trying the next store")) ;;;
            ret None
          else ret (Some rules)
      end
  end.

Definition _load_last_known_rules : R (option DynamicRules) :=
  let* redis_payload := _read_redis_payload in
  let* file_payload := _read_file_payload in
  first_some [redis_payload; file_payload] try_payload.

Definition _hydrate_last_known_rules : R unit :=
  catch any_exn
    (let* rules := _load_last_known_rules in
     match rules with
     | None => ret tt
     | Some rules =>
         _apply_rules rules ;;;
         install rules ;;;
         info ("Hydrated last-known dynamic rules " +:+ named rules +:+ " before the update loop started")
     end)
    (fun e => r_sys (log ERROR ("Failed to hydrate last-known dynamic rules: " +:+ exn_message e))).

(** [initialize_agent]; the loop it starts is [run_loop] below. *)
Definition rules_initialize_agent : R unit :=
  r_set (fun m => m {{ dm_agent := true }}) ;;;
  let* enabled := r_config enable_dynamic_rules in
  when enabled
    (let* hydrated := r_get _hydrated_last_known_rules in
     when (negb hydrated)
       (r_set (fun m => m {{ _hydrated_last_known_rules := true }}) ;;; _hydrate_last_known_rules) ;;;
     let* running := r_get update_task in
     when (negb running)
       (r_set (fun m => m {{ update_task := true }}) ;;; info "Started dynamic rule update loop")).

Definition rules_initialize_redis (h : RedisHandle SecurityConfig) : R unit :=
  r_set (fun m => m {{ dm_redis := Some h }}).

(** One iteration of [_rule_update_loop], and how long it sleeps. *)
Definition loop_iteration : R Z :=
  catch any_exn
    (update_rules ;;; gets (fun w => dynamic_rule_interval (ru_live w)))
    (fun e =>
       r_sys (log ERROR ("Error in dynamic rule update loop: " +:+ exn_message e)) ;;;
       gets (fun w => Z.min 60 (dynamic_rule_interval (ru_live w)))).

(** The loop, stopped (by [_stop_event]) after so many iterations. *)
Fixpoint run_loop (iterations : nat) : R unit :=
  match iterations with
  | O => ret tt
  | S n => loop_iteration ;;; run_loop n
  end.

Definition rules_stop : R unit :=
  let* running := r_get update_task in
  when running (r_set (fun m => m {{ update_task := false }}) ;;; info "Stopped dynamic rule update loop").

(** ** Attributing an event to the rules *)

Definition _event_matches_ip (e : agent_event) (rules : DynamicRules) : bool :=
  truthy (ev_ip e) && (in_list (ev_ip e) (ip_blacklist rules) || in_list (ev_ip e) (ip_whitelist rules)).

Definition _event_matches_country (e : agent_event) (rules : DynamicRules) : bool :=
  match ev_country e with
  | Some country => truthy country && in_list country (dr_blocked_countries rules)
  | None => false
  end.

Definition _event_matches_type (e : agent_event) (rules : DynamicRules) : bool :=
  if (ev_type e =? "rate_limited")%string then
    match global_rate_limit rules with Some _ => true | None => nonempty (dr_endpoint_rate_limits rules) end
  else if (ev_type e =? "cloud_blocked")%string then nonempty (blocked_cloud_providers rules)
  else if (ev_type e =? "user_agent_blocked")%string then nonempty (dr_blocked_user_agents rules)
  else false.

Definition match_event (m : DynamicRuleManager) (e : agent_event) : option (string * Z) :=
  match current_rules m with
  | None => None
  | Some rules =>
      if _event_matches_ip e rules || _event_matches_country e rules || _event_matches_type e rules
      then Some (rule_id rules, version rules) else None
  end.
End rules.

(** * What is applied can be taken back *)

(** A configuration with the fields of another one's snapshot. *)
Definition revert (c0 c : SecurityConfig) : SecurityConfig := fold_left (fun c a => write a c) (snapshot c0) c.

Lemma revert_self c : revert c c = c.
Proof. by destruct c. Qed.

Lemma revert_write c0 a c : dynamic_field a = true -> revert c0 (write a c) = revert c0 c.
Proof. destruct a; try done; intros _; by destruct c, c0. Qed.

#[local] Arguments revert : simpl never.
#[local] Arguments snapshot : simpl never.

Section revertible.
Context `{CS : ConfigServices} `{SS : !ScanServices} `{RS : !RuleServices}
  `{C : !TTLCache string Z BAN_CACHE_SIZE (seconds LOCAL_CACHE_TTL_CAP_SECONDS)}.

#[local] Abbreviation cfg w := (lc_config (ru_live w)).
#[local] Abbreviation geo w := (geo_ip_handler (ru_live w)).

(** How a call that applies rules may change the world: only dynamic fields of the
    configuration differ, and country rules have a handler if they had. *)
Definition applies (w w' : RuleWorld) : Prop :=
  ru_manager w' = ru_manager w /\
  (is_Some (geo w) -> is_Some (geo w')) /\
  (forall c0, revert c0 (cfg w') = revert c0 (cfg w)) /\
  ((country_rules (cfg w) = true -> is_Some (geo w)) -> country_rules (cfg w') = true -> is_Some (geo w')).

#[export] Instance applies_preorder : PreOrder applies.
Proof.
  split; [by intros w; split_and!|]. intros w1 w2 w3 (H1 & H2 & H3 & H4) (K1 & K2 & K3 & K4).
  split_and!; [congruence|auto|intros c0; by rewrite K3|auto].
Qed.

(** The configuration and the manager stay as they are. *)
Definition leaves_rules (w w' : RuleWorld) : Prop := ru_live w' = ru_live w /\ ru_manager w' = ru_manager w.

#[export] Instance leaves_rules_preorder : PreOrder leaves_rules.
Proof. split; [by intros w|]. intros w1 w2 w3 [] []; split; congruence. Qed.

Lemma leaves_applies {A} (m : M RuleWorld A) : keeps leaves_rules m -> keeps applies m.
Proof. apply keeps_weaken. intros w w' [H1 H2]. unfold applies. rewrite H1. by split_and!. Qed.

Lemma r_sys_leaves {A} (m : M Sys A) : keeps leaves_rules (r_sys m).
Proof. intros w. unfold r_sys, zoom. destruct (m (ru_sys w)). by destruct w. Qed.

Lemma r_bans_leaves {A} (m : M (Sys * BanManager) A) : keeps leaves_rules (r_bans m).
Proof. intros w. unfold r_bans, zoom. destruct (m _). by destruct w. Qed.

Lemma send_or_log_leaves e f : keeps leaves_rules (send_or_log e f).
Proof. unfold send_or_log, r_get. keeps_steps; apply r_sys_leaves. Qed.

(** An assignment to a dynamic field, validated or not. *)
Lemma setattr_applies skip a : dynamic_field a = true -> keeps applies (r_live (config_setattr skip a)).
Proof.
  intros Ha w. unfold r_live, zoom.
  enough (wp (config_setattr skip a) (fun _ w' =>
    (is_Some (geo w) -> is_Some (geo_ip_handler (snd w'))) /\
    (forall c0, revert c0 (lc_config (snd w')) = revert c0 (cfg w)) /\
    ((country_rules (cfg w) = true -> is_Some (geo w)) ->
     country_rules (lc_config (snd w')) = true -> is_Some (geo_ip_handler (snd w')))) (ru_sys w, ru_live w)) as H.
  { unfold wp in H. destruct (config_setattr skip a _) as [r [s l]]. cbn [fst snd] in *. by destruct w. }
  unfold config_setattr. apply wp_bind.
  eapply (wp_mono _ (fun r w1 => lc_config (snd w1) = cfg w /\ (is_Some (geo w) -> is_Some (geo_ip_handler (snd w1))) /\
    match r with
    | Ok a1 => a1 = a /\ (is_geo_state a = true -> handled a (snd w1))
    | Raise _ => snd w1 = ru_live w
    end)).
  { destruct (is_geo_state a) eqn:Hg; [|by apply wp_ret].
    eapply wp_mono; [by apply wp_geo_assignment|]. intros [a1|e] w1 (H1 & _ & _ & H2 & H3); [|by split_and!].
    destruct H3 as (_ & _ & _ & Hsame & Hh). rewrite (Hsame Ha) in Hh |- *. by split_and!. }
  intros [a1|e] w1 (Hc & Hgeo & Hr).
  2:{ rewrite Hr. by split_and!. }
  destruct Hr as [-> Hr]. apply wp_bind.
  assert (wp (if skip then ret a else revalidate a) (fun r w2 => snd w2 = snd w1 /\
    match r with
    | Ok a' => dynamic_field a' = dynamic_field a /\ forall c, country_rules (write a' c) = country_rules (write a c)
    | Raise _ => is_geo_state a = false
    end) w1) as Hv.
  { destruct skip; [by apply wp_ret|]. eapply wp_mono; [apply wp_revalidate|].
    intros [a'|e] w2 [-> H]; [|done]. destruct H as (_ & _ & (_ & Hd & _) & Hrules & _). by split_and!. }
  eapply wp_mono; [exact Hv|]. intros [a'|e] w2 [Hs H].
  - destruct H as [Hd Hrules]. rewrite Ha in Hd. apply wp_bind.
    assert (is_behavior_rule_field a' = false) as -> by (by destruct a'). apply wp_ret, wp_modify. cbn [snd]. rewrite Hs.
    rewrite dynamic_write_live by done. unfold handled in Hr. rewrite dynamic_write_live in Hr by done.
    destruct (snd w1) as [c1 g1 tok path int rev]. cbn in *. subst c1. split_and!; [done| |].
    + intros c0. by apply revert_write.
    + intros Hok. rewrite Hrules. destruct (is_geo_state a) eqn:Hga; [by auto|].
      rewrite write_other_rules by done. auto.
  - rewrite Hs, Hc. split_and!; [done|done|]. auto.
Qed.

Lemma assign_applies a : dynamic_field a = true -> keeps applies (assign a).
Proof. apply setattr_applies. Qed.

Ltac applies_steps :=
  unfold r_get, r_config, info, override; keeps_steps;
  try match goal with |- PreOrder _ => exact _ end;
  try (apply assign_applies; reflexivity); try (apply setattr_applies; reflexivity);
  try (apply leaves_applies, r_sys_leaves); try (apply leaves_applies, r_bans_leaves);
  try (apply leaves_applies, send_or_log_leaves).

Lemma apply_all_applies rules : keeps applies (apply_all rules).
Proof.
  unfold apply_all, _apply_ip_rules, _apply_ip_bans, _apply_ip_whitelist, _apply_blocking_rules, _apply_country_rules,
    _apply_cloud_provider_rules, _apply_user_agent_rules, _apply_pattern_rules, _apply_rate_limit_rules,
    _apply_feature_toggles, _activate_emergency_mode, _send_emergency_event.
  applies_steps.
Qed.
(** ** Restoring a snapshot *)

Definition restorable (c0 : SecurityConfig) (w : RuleWorld) : Prop :=
  country_rules c0 = true \/ country_rules (cfg w) = true -> is_Some (geo w).

(** An assignment of one's own never fails when a handler is there, or when it
    leaves no country rules. *)
Lemma set_prevalidated_run a w : dynamic_field a = true ->
  is_Some (geo w) \/ country_rules (write a (cfg w)) = false ->
  exists w', r_live (_set_prevalidated a) w = (Ok tt, w') /\ ru_manager w' = ru_manager w /\
    cfg w' = write a (cfg w) /\ geo w' = geo w.
Proof.
  intros Hd H. unfold r_live, zoom, _set_prevalidated, config_setattr, bind, live_modify, modify.
  assert ((if is_geo_state a then _apply_geo_ip_handler_assignment a else ret a) (ru_sys w, ru_live w) =
          (Ok a, (ru_sys w, ru_live w))) as ->.
  { destruct (is_geo_state a); [|done].
    unfold _apply_geo_ip_handler_assignment, _geo_state_candidates, bind, live_get, gets, lift_res, _resolve_geo_ip_handler.
    rewrite dynamic_write_live by done. unfold country_rules in H. unfold id. cbn [snd].
    assert (forall g, g = geo w -> (match a with
      | Set_geo_ip_handler _ => ret (Set_geo_ip_handler g)
      | _ => live_modify (fun lc => lc {{ geo_ip_handler := g }}) ;;; ret a end) (ru_sys w, ru_live w) = (Ok a, (ru_sys w, ru_live w))) as Hsame.
    { intros g ->. assert ((ru_live w) {{ geo_ip_handler := geo w }} = ru_live w) as Heq by (by destruct (ru_live w)).
      destruct a; try done; unfold live_modify, modify, bind, ret; cbn [fst snd]; by rewrite Heq. }
    destruct (ru_live w) as [c g tok path int rev] eqn:Hl. cbn in *. destruct g as [h|]; cbn; [by apply Hsame|].
    destruct H as [[? [=]]| ->]. by apply Hsame. }
  unfold ret. cbv beta iota. assert (is_behavior_rule_field a = false) as -> by (by destruct a). unfold when, ret. cbn [fst snd].
  eexists. split; [reflexivity|]. rewrite dynamic_write_live by done. by destruct w as [? ? [] ?].
Qed.

(** The writes of a list of assignments keep the country rules away. *)
Fixpoint rules_free (l : list assignment) (c : SecurityConfig) : Prop :=
  match l with
  | [] => True
  | a :: l' => country_rules (write a c) = false /\ rules_free l' (write a c)
  end.

Lemma restore_list l w : forallb dynamic_field l = true ->
  is_Some (geo w) \/ rules_free l (cfg w) ->
  exists w', _restore_config l w = (Ok tt, w') /\ ru_manager w' = ru_manager w /\
    cfg w' = fold_left (fun c a => write a c) l (cfg w) /\ geo w' = geo w.
Proof.
  revert w. induction l as [|a l IH]; cbn [forallb]; intros w Hl H; [by exists w|].
  apply andb_true_iff in Hl as [Hd Hl]. destruct (set_prevalidated_run a w Hd) as (w1 & Hr & Hm & Hc & Hg); [destruct H as [?|[? ?]]; auto|].
  destruct (IH w1 Hl) as (w2 & Hr2 & Hm2 & Hc2 & Hg2); [rewrite Hg, Hc; destruct H as [?|[? ?]]; auto|].
  exists w2. unfold _restore_config. cbn [for_each fold_left]. rewrite (bind_ok _ _ _ _ _ Hr).
  split; [exact Hr2|]. split; [congruence|]. split; [by rewrite Hc2, Hc|congruence].
Qed.

Lemma snapshot_rules_free c0 c :
  country_rules c0 = false -> country_rules c = false -> rules_free (snapshot c0) c.
Proof.
  unfold country_rules. intros [Hb0 Hw0]%orb_false_iff [Hb Hw]%orb_false_iff.
  apply nonempty_false in Hb0, Hw0, Hb, Hw. destruct c0, c. cbn in *. subst. by repeat split.
Qed.

(** Restoring a snapshot succeeds and gives its fields back. *)
Lemma restore_run c0 w : restorable c0 w ->
  exists w', _restore_config (snapshot c0) w = (Ok tt, w') /\ ru_manager w' = ru_manager w /\
    cfg w' = revert c0 (cfg w) /\ geo w' = geo w.
Proof.
  intros H. apply restore_list; [done|]. unfold restorable in H.
  destruct (country_rules c0) eqn:H0; [auto|]. destruct (country_rules (cfg w)) eqn:H1; [auto|].
  right. by apply snapshot_rules_free.
Qed.

(** ** The base configuration is never lost *)

Context (c0 : SecurityConfig).

(** Without a retained snapshot no rules are in force and the configuration is
    the base one; with one, it is the base's, and nothing else has changed. *)
Definition based (w : RuleWorld) : Prop :=
  restorable c0 w /\
  match _active_base_snapshot (ru_manager w) with
  | None => cfg w = c0 /\ current_rules (ru_manager w) = None
  | Some s => s = snapshot c0 /\ revert c0 (cfg w) = c0
  end.

Definition in_force (w : RuleWorld) : Prop := based w /\ is_Some (_active_base_snapshot (ru_manager w)).

Lemma leaves_based w w' : leaves_rules w w' -> based w -> based w'.
Proof. unfold based, restorable. by intros [-> ->]. Qed.

Lemma leaves_in_force w w' : leaves_rules w w' -> in_force w -> in_force w'.
Proof. intros H [Hb Hs]. split; [by eapply leaves_based|]. by destruct H as [_ ->]. Qed.

Lemma applies_restorable c w w' : applies w w' -> (c = cfg w \/ c = c0) -> restorable c0 w -> restorable c w'.
Proof.
  intros (_ & Hg & _ & Hr) Hc H. unfold restorable in *. intros [H1|H1].
  - apply Hg, H. destruct Hc as [->| ->]; auto.
  - apply Hr; [|done]. auto.
Qed.

Lemma persist_leaves rules : keeps leaves_rules (_persist_last_known_rules rules).
Proof.
  unfold _persist_last_known_rules, _write_last_known_rules_file, r_get. keeps_steps; try exact _; apply r_sys_leaves.
Qed.

(** Rules are applied as a whole, or the configuration is as before. *)
Lemma wp_apply_rules rules w : based w ->
  wp (_apply_rules rules) (fun r w' => match r with
    | Ok _ => in_force w'
    | Raise _ => based w'
    end) w.
Proof.
  intros [Hr Hb]. unfold _apply_rules, _snapshot_config, r_config. apply wp_bind, wp_gets, wp_bind, wp_catch.
  pose proof (apply_all_applies rules w) as Ha. unfold wp at 1.
  destruct (apply_all rules w) as [[[]|e] w1]; cbn [fst snd] in *.
  - assert (in_force (w1 {{ ru_manager ::= fun m => match current_rules m, _active_base_snapshot m with
              | None, None => m {{ _active_base_snapshot := Some (snapshot (cfg w)) }} | _, _ => m end }})) as Hf.
    { pose proof (applies_restorable c0 w w1 Ha (or_intror eq_refl) Hr) as Hr1.
      destruct Ha as (Hm & _ & Hrev & _). unfold in_force, based, restorable in *. destruct w1 as [s1 b1 l1 m1].
      cbn in *. subst m1. destruct (_active_base_snapshot (ru_manager w)) as [s|] eqn:Hbase.
      - destruct Hb as [-> Hb]. destruct (current_rules (ru_manager w)); rewrite Hbase; cbn;
          (split; [|done]; split; [done|]; split; [done|]; by rewrite Hrev).
      - destruct Hb as [Hc Hcur]. rewrite Hcur. cbn. split; [|done]. split; [done|]. rewrite Hc. split; [done|].
        by rewrite Hrev, Hc, revert_self. }
    apply wp_bind, wp_modify. match goal with |- wp _ _ ?x => pose proof (persist_leaves rules x) as Hp end. unfold wp.
    destruct (_persist_last_known_rules rules _) as [[[]|e] w2]; cbn [fst snd] in *;
      [by eapply leaves_in_force|]. by eapply leaves_based; [exact Hp|destruct Hf].
  - cbn [any_exn]. apply wp_bind.
    destruct (restore_run (cfg w) w1) as (w2 & Hrun & Hm2 & Hc2 & Hg2).
    { apply (applies_restorable _ w); auto. }
    rewrite (wp_run _ _ _ _ _ Hrun). apply wp_bind.
    pose proof (r_sys_leaves (log ERROR ("Failed to apply dynamic rules: " +:+ exn_message e)) w2) as Hl. unfold wp.
    destruct (r_sys _ w2) as [[[]|e'] w3]; cbn [fst snd] in *.
    all: apply (leaves_based w2); [exact Hl|].
    all: destruct Ha as (Hm & Hgeo & Hrev & _); rewrite Hrev, revert_self in Hc2; unfold based, restorable in *;
      rewrite Hc2, Hm2, Hm, Hg2; split; [intros H; by apply Hgeo, Hr|done].
Qed.
Definition stays_based (w w' : RuleWorld) : Prop := based w -> based w'.

#[export] Instance stays_based_preorder : PreOrder stays_based.
Proof. split; unfold stays_based; [by intros w|]. intros w1 w2 w3 H1 H2 H. by apply H2, H1. Qed.

Lemma leaves_stays {A} (m : M RuleWorld A) : keeps leaves_rules m -> keeps stays_based m.
Proof. apply keeps_weaken. intros w w' H Hb. by eapply leaves_based. Qed.

(** Changes of the manager's other fields. *)
Lemma r_set_stays f :
  (forall m, _active_base_snapshot (f m) = _active_base_snapshot m /\ current_rules (f m) = current_rules m) ->
  keeps stays_based (r_set f).
Proof.
  intros Hf w [Hr Hb]. unfold r_set, modify. destruct (Hf (ru_manager w)) as [H1 H2]. split; [by destruct w|].
  destruct w. cbn in *. by rewrite H1, H2.
Qed.

Lemma wp_install rules w : in_force w -> wp (install rules) (fun _ w' => in_force w') w.
Proof.
  intros [[Hr Hb] [s Hs]]. unfold install, r_set, r_sys, time_time. apply wp_bind, wp_modify.
  unfold in_force, based, restorable in *. destruct w as [sy b l []]. cbn in *. subst. by split; [split|].
Qed.

(** Applying rules and then taking note of them, as the callers do. *)
Lemma apply_install_stays {A} rules (k : M RuleWorld A) :
  keeps leaves_rules k -> keeps stays_based (_apply_rules rules ;;; install rules ;;; k).
Proof.
  intros Hk w Hb. change (wp (_apply_rules rules ;;; install rules ;;; k) (fun _ w' => based w') w).
  apply wp_bind. eapply wp_mono; [by apply wp_apply_rules|]. intros [[]|e] w1 H1; [|done].
  apply wp_bind. eapply wp_mono; [by apply wp_install|]. intros [[]|e] w2 H2; [|by destruct H2].
  unfold wp. eapply leaves_based; [apply Hk|]. by destruct H2.
Qed.

Lemma check_expiry_stays : keeps stays_based _check_rule_expiry.
Proof.
  intros w Hb. change (wp _check_rule_expiry (fun _ w' => based w') w). unfold _check_rule_expiry, r_get.
  apply wp_bind, wp_gets. destruct (current_rules (ru_manager w)) as [rules|] eqn:Hcur; [|by apply wp_ret].
  destruct (expires_at rules) as [d|]; [|by apply wp_ret]. apply wp_bind.
  eapply (wp_mono _ (fun _ w1 => leaves_rules w w1)); [apply wp_keeps, r_sys_leaves|].
  intros [now|e] w1 Hl; [|by eapply leaves_based]. pose proof (leaves_based _ _ Hl Hb) as Hb1.
  destruct (now <=? _)%Z; [by apply wp_ret|]. apply wp_bind, wp_gets.
  destruct Hl as [_ Hm]. rewrite <- Hm in Hcur. destruct Hb1 as [Hr1 Hb1].
  destruct (_active_base_snapshot (ru_manager w1)) as [s|]; [|destruct Hb1; congruence]. destruct Hb1 as [-> Hb1].
  apply wp_bind. destruct (restore_run c0 w1 Hr1) as (w2 & Hrun & Hm2 & Hc2 & Hg2). rewrite (wp_run _ _ _ _ _ Hrun).
  apply wp_bind, wp_modify. unfold info. eapply wp_mono; [apply wp_keeps, r_sys_leaves|].
  intros ? w3 Hl3. eapply leaves_based; [exact Hl3|]. clear w3 Hl3. unfold based, restorable in *. rewrite Hb1 in Hc2.
  destruct w2 as [s2 b2 l2 m2]. cbn in *. subst m2. rewrite Hc2, Hg2. split; [|done].
  intros [H|H]; apply Hr1; by left.
Qed.

Ltac leaves_tac :=
  keeps_steps; try exact _; try apply r_sys_leaves; try apply send_or_log_leaves; try apply persist_leaves.

Lemma reject_stays rules : keeps stays_based (_reject_if_already_expired rules).
Proof.
  unfold _reject_if_already_expired, _has_rule_expired, r_get. keeps_steps; try exact _;
    try (apply r_set_stays; done); apply leaves_stays, r_sys_leaves.
Qed.

Lemma update_stays : keeps stays_based update_rules.
Proof.
  unfold update_rules, process_rules, _send_rule_received_event, info, r_config, r_get.
  repeat (apply apply_install_stays || (cbv zeta; keeps_step)); try exact _;
    try apply check_expiry_stays; try apply reject_stays;
    try (apply leaves_stays); try apply r_sys_leaves; try apply send_or_log_leaves.
Qed.

Lemma hydrate_stays : keeps stays_based _hydrate_last_known_rules.
Proof.
  unfold _hydrate_last_known_rules, info. repeat (apply apply_install_stays || (cbv zeta; keeps_step)); try exact _;
    try (apply leaves_stays); try apply r_sys_leaves.
  unfold _load_last_known_rules, _read_redis_payload, _read_file_payload, try_payload, _parse_last_known_rules,
    _has_rule_expired, r_get. leaves_tac.
Qed.
End revertible.

Section sequences.
Context `{CS : ConfigServices} `{SS : !ScanServices} `{RS : !RuleServices}
  `{C : !TTLCache string Z BAN_CACHE_SIZE (seconds LOCAL_CACHE_TTL_CAP_SECONDS)}.

(** What is called on the manager, in any order.  The application's own assignments to the
    configuration are not among these. *)
Inductive rule_op : Type :=
| OpInitializeAgent
| OpInitializeRedis (h : RedisHandle SecurityConfig)
| OpUpdate
| OpStop.

Definition run_rule_op (op : rule_op) : M RuleWorld unit :=
  match op with
  | OpInitializeAgent => rules_initialize_agent
  | OpInitializeRedis h => rules_initialize_redis h
  | OpUpdate => update_rules
  | OpStop => rules_stop
  end.

Definition run_rule_ops (ops : list rule_op) (w : RuleWorld) : RuleWorld :=
  fold_left (fun w op => snd (run_rule_op op w)) ops w.

Lemma run_rule_ops_based c0 ops w : based c0 w -> based c0 (run_rule_ops ops w).
Proof.
  revert w. induction ops as [|op ops IH]; intros w Hb; [done|]. apply IH.
  enough (keeps (stays_based c0) (run_rule_op op)) as H by by apply H.
  destruct op; cbn [run_rule_op];
    unfold rules_initialize_agent, rules_initialize_redis, rules_stop, info, r_config, r_get.
  all: keeps_steps; try exact _; try (apply r_set_stays; done); try apply update_stays; try apply hydrate_stays;
    apply leaves_stays, r_sys_leaves.
Qed.

(** A manager that has just been made, over a configuration with a handler for its
    country rules. *)
Definition fresh_rules (w : RuleWorld) : Prop :=
  ru_manager w = DynamicRuleManager_new /\
  (country_rules (lc_config (ru_live w)) = true -> is_Some (geo_ip_handler (ru_live w))).

Lemma fresh_based w : fresh_rules w -> based (lc_config (ru_live w)) w.
Proof. intros [Hm Hg]. unfold based, restorable. rewrite Hm. split; [by intros [?|?]; apply Hg|done]. Qed.

(** Expired when the clock is next read. *)
Definition expired_at (w : RuleWorld) (rules : DynamicRules) : Prop :=
  exists d, expires_at rules = Some d /\ (dt_time d < clock (ticks (ru_sys w)))%Z.

(** Not newer than the rules in force. *)
Definition superseded (w : RuleWorld) (rules : DynamicRules) : Prop :=
  exists current, current_rules (ru_manager w) = Some current /\
    rule_id rules = rule_id current /\ (version rules <= version current)%Z.

(** Nothing that matters to a request differs. *)
Definition unchanged (w w' : RuleWorld) : Prop :=
  ru_live w' = ru_live w /\ ru_bans w' = ru_bans w /\ agent_log (ru_sys w') = agent_log (ru_sys w) /\
  current_rules (ru_manager w') = current_rules (ru_manager w) /\
  _active_base_snapshot (ru_manager w') = _active_base_snapshot (ru_manager w).

Lemma wp_has_rule_expired rules w :
  wp (_has_rule_expired rules) (fun r w' => unchanged w w' /\ exists b, r = Ok b /\ (expired_at w rules -> b = true)) w.
Proof.
  unfold _has_rule_expired, expired_at. destruct (expires_at rules) as [d|].
  - unfold r_sys, zoom, time_time. apply wp_bind. cbn. split; [by destruct w|]. eexists. split; [reflexivity|].
    intros (d' & [= <-] & H). apply Z.ltb_lt. unfold _coerce_naive_utc. by destruct (dt_aware d).
  - apply wp_ret. split; [done|]. exists false. split; [done|]. by intros (? & [=] & _).
Qed.

Lemma wp_reject rules w :
  wp (_reject_if_already_expired rules) (fun r w' => unchanged w w' /\ exists b, r = Ok b /\ (expired_at w rules -> b = true)) w.
Proof.
  unfold _reject_if_already_expired. apply wp_bind. eapply wp_mono; [apply wp_has_rule_expired|].
  intros r w1 (Hu & b & -> & Hb). destruct b; cbn [negb].
  - unfold r_get. apply wp_bind, wp_gets, wp_bind, wp_when; intros _.
    + unfold r_set, r_sys, log, zoom, bind, modify, wp, ret. cbn. split; [by destruct w1|by exists true].
    + apply wp_ret. split; [done|by exists true].
  - apply wp_ret. split; [done|by exists false].
Qed.

(** Stale rules are ignored.  Rules that have expired when they arrive, and
    rules with the identifier of those in force and no later version, change
    neither the configuration, nor the bans, nor what is in force, and nothing is
    reported: a push cannot be rolled back by replaying an older one. *)
Theorem stale_rules_are_ignored rules w :
  expired_at w rules \/ superseded w rules ->
  exists w', process_rules rules w = (Ok tt, w') /\ unchanged w w'.
Proof.
  intros H. enough (wp (process_rules rules) (fun r w' => r = Ok tt /\ unchanged w w') w) as [Hr Hu].
  { exists (snd (process_rules rules w)). split; [|exact Hu]. rewrite <- Hr. by destruct (process_rules rules w). }
  unfold process_rules. apply wp_bind. eapply wp_mono; [apply wp_reject|]. intros r w1 (Hu & b & -> & Hb).
  destruct b; [by apply wp_ret|]. unfold r_get. apply wp_bind, wp_gets.
  destruct H as [He|(current & Hc & Hid & Hv)]; [by specialize (Hb He)|].
  destruct Hu as (H1 & H2 & H3 & H4 & H5). rewrite H4, Hc. unfold _should_update_rules.
  rewrite Hid, String.eqb_refl. apply Z.leb_le in Hv. rewrite Hv. cbn [negb andb]. apply wp_ret. by split.
Qed.
End sequences.

(** * Witnesses *)

Section witness.
#[local] Instance rules_env : Env := sample_env (ticking 1000) redis_up.
#[local] Instance rules_cache : TTLCache string Z BAN_CACHE_SIZE (seconds LOCAL_CACHE_TTL_CAP_SECONDS) := assoc_ttl _ _.

Definition lockdown_rules : DynamicRules :=
  {| rule_id := "lockdown"; version := 1; expires_at := Some (mkDatetime (1000 + 1500000) false);
     ip_blacklist := ["198.51.100.7"]; ip_whitelist := []; ip_ban_duration := 600; dr_blocked_countries := [];
     dr_whitelist_countries := []; global_rate_limit := Some 5%Z; global_rate_window := None;
     dr_endpoint_rate_limits := []; blocked_cloud_providers := ["AWS:!us-east-1"; "Initech"];
     dr_blocked_user_agents := ["curl"]; suspicious_patterns := []; dr_enable_penetration_detection := None;
     dr_enable_ip_banning := Some true; dr_enable_rate_limiting := None; dr_auto_ban_threshold := None;
     dr_auto_ban_duration := None; dr_enable_rate_limit_auto_ban := None; dr_emergency_mode := true;
     dr_emergency_whitelist := ["203.0.113.9"] |}.

(** There is no file, and the agent keeps pushing the lockdown. *)
#[local] Instance rules_config_services : ConfigServices := sample_config_services (ticking 1000) redis_up.

#[local] Instance rules_services : RuleServices := {|
  get_dynamic_rules := ret (Some lockdown_rules);
  add_pattern := fun _ => ret true;
  snapshot_of_json := fun _ => Raise (ValueError "no snapshot");
  json_of_snapshot := fun _ _ => Ok "{}";
  path_is_file := fun _ => ret false;
  path_read_text := fun _ => raise (OtherError "OSError" "no file");
  mkstemp := fun p => ret (p +:+ ".tmp");
  write_text := fun _ _ => ret tt;
  os_replace := fun _ _ => ret tt;
  path_unlink := fun _ => ret tt
|}.

Definition rules_world : RuleWorld :=
  mkRuleWorld (sample_sys (ticking 1000) redis_up) BanManager_new
    (mkLive (default_config {{ enable_dynamic_rules := true }}) None None None 300 0) DynamicRuleManager_new.

Definition locked_down : RuleWorld := run_rule_ops [OpInitializeAgent; OpUpdate] rules_world.


Lemma stale_rules_are_ignored_witness :
  exists w', process_rules lockdown_rules locked_down = (Ok tt, w') /\ unchanged locked_down w'.
Proof.
  apply (stale_rules_are_ignored lockdown_rules locked_down). left. eexists.
  split; [reflexivity|vm_compute; reflexivity].
Defined.

(** A later version halves the threshold once more: it is applied to what the
    earlier one left, and only expiry goes back to the base. *)
Example emergency_threshold_halves_again :
  let again := lockdown_rules {{ version := 2%Z; expires_at := None }} in
  auto_ban_threshold (lc_config (ru_live (snd (process_rules again locked_down)))) = 2%Z.
Proof. vm_compute. reflexivity. Qed.
End witness.
