(* ===== verification/Helpers.v ===== *)
(** What the checks share: [guard_core/core/checks/helpers.py], the decorator's
    events ([guard_core/decorators/base.py]), and the route predicates. *)
From S2P Require Import Prelude PyStr PyDict IpAddr IpAddrText Sys Config Request IpExtraction TTL Redis IpBan.
From S2P Require Import RateLimit Cloud AccessControl Middleware.
From S2P Require Import Json SecurityHeaders.

(** [route_config_applies]: [None] when there is no decorator to ask. *)
Definition route_config_applies (route_configs : option (list RouteConfig)) (predicate : RouteConfig -> bool)
  : bool :=
  match route_configs with None => true | Some l => existsb predicate l end.

(** ** Route address rules *)

Definition is_ip_in_blacklist (client_ip : string) (ip_addr : ip) (blacklist : list string) : res bool :=
  _ip_in_list ip_addr client_ip (Some blacklist).

Definition is_ip_in_whitelist (client_ip : string) (ip_addr : ip) (whitelist : list string)
  : res (option bool) :=
  match whitelist with
  | [] => Ok None
  | _ => match _ip_in_list ip_addr client_ip (Some whitelist) with Ok b => Ok (Some b) | Raise e => Raise e end
  end.

(** The country, when it is known. *)
Definition known_country (country : option string) : option string :=
  match country with Some (String _ _ as c) => Some c | _ => None end.

Definition check_country_access (client_ip : string) (route_config : RouteConfig) (geo : option GeoHandler)
  : res (option bool) :=
  match geo with
  | None => Ok None
  | Some geo =>
      let allow (country : option string) : res (option bool) :=
        if negb (truthy_list (rc_whitelist_countries route_config)) then Ok None
        else
          match (match country with None => geo_get_country geo client_ip | Some c => Ok (Some c) end) with
          | Raise e => Raise e
          | Ok country =>
              match known_country country with
              | Some c => Ok (Some (in_list c (default [] (rc_whitelist_countries route_config))))
              | None => Ok (Some false)
              end
          end in
      if truthy_list (rc_blocked_countries route_config) then
        match geo_get_country geo client_ip with
        | Raise e => Raise e
        | Ok country =>
            match known_country country with
            | Some c => if in_list c (default [] (rc_blocked_countries route_config)) then Ok (Some false)
                        else allow country
            | None => allow country
            end
        end
      else allow None
  end.

Definition _check_ip_blacklist (client_ip : string) (ip_addr : ip) (route_config : RouteConfig) : res bool :=
  match rc_ip_blacklist route_config with
  | Some ((_ :: _) as blacklist) => is_ip_in_blacklist client_ip ip_addr blacklist
  | _ => Ok false
  end.

Definition _check_ip_whitelist (client_ip : string) (ip_addr : ip) (route_config : RouteConfig)
  : res (option bool) :=
  is_ip_in_whitelist client_ip ip_addr (default [] (rc_ip_whitelist route_config)).

Definition _route_whitelist_configured (route_config : RouteConfig) : bool :=
  truthy_list (rc_ip_whitelist route_config) || truthy_list (rc_whitelist_countries route_config).

Definition bind_res {A B} (r : res A) (k : A -> res B) : res B :=
  match r with Ok a => k a | Raise e => Raise e end.

(** [True] lets through, [False] denies, [None] has no opinion. *)
Definition check_route_ip_access (client_ip : string) (route_config : RouteConfig) (geo : option GeoHandler)
  : res (option bool) :=
  if (client_ip =? UNKNOWN_CLIENT_IDENTITY)%string then
    Ok (if _route_whitelist_configured route_config then Some false else None)
  else
    match ip_address client_ip with
    | None => Ok (Some false)
    | Some ip_addr =>
        match
          bind_res (_check_ip_whitelist client_ip ip_addr route_config) (fun ip_result =>
          bind_res (match ip_result with
                    | None => bind_res (_check_ip_blacklist client_ip ip_addr route_config) (fun b =>
                                Ok (if b then Some false else None))
                    | Some b => Ok (Some b)
                    end) (fun ip_result =>
          bind_res (check_country_access client_ip route_config geo) (fun country_result =>
          Ok (if bool_decide (ip_result = Some false) || bool_decide (country_result = Some false) then Some false
              else if bool_decide (ip_result = Some true) || bool_decide (country_result = Some true) then Some true
              else None))))
        with
        | Raise (ValueError _) => Ok (Some false)
        | r => r
        end
    end.

(** ** Credentials *)

(** The credential, or why there is none. *)
Definition extract_credential (auth_header auth_type : string) : option string * string :=
  if (auth_type =? "bearer")%string then
    if startswith auth_header "Bearer " then (Some (sdrop 7 auth_header), "")
    else (None, "Missing or invalid Bearer token")
  else if (auth_type =? "basic")%string then
    if startswith auth_header "Basic " then (Some (sdrop 6 auth_header), "")
    else (None, "Missing or invalid Basic authentication")
  else if truthy auth_header then (Some auth_header, "")
  else (None, "Missing " +:+ auth_type +:+ " authentication").

(** ** Referrers *)

(** The characters [urlsplit] strips in front and removes. *)
Definition is_c0_or_space (c : ascii) : bool := in_range 0 32 c.
Definition is_unsafe_url_char (c : ascii) : bool :=
  (code c =? 9) || (code c =? 10) || (code c =? 13).

Definition is_scheme_char (c : ascii) : bool :=
  in_range 97 122 c || in_range 65 90 c || in_range 48 57 c || (code c =? 43) || (code c =? 45) || (code c =? 46).
Definition is_alpha (c : ascii) : bool := in_range 97 122 c || in_range 65 90 c.

Fixpoint sfilter (p : ascii -> bool) (s : string) : string :=
  match s with
  | EmptyString => EmptyString
  | String c s' => if p c then String c (sfilter p s') else sfilter p s'
  end.

Fixpoint sdrop_while (p : ascii -> bool) (s : string) : string :=
  match s with
  | EmptyString => EmptyString
  | String c s' => if p c then sdrop_while p s' else s
  end.

Fixpoint stake_while (p : ascii -> bool) (s : string) : string :=
  match s with
  | EmptyString => EmptyString
  | String c s' => if p c then String c (stake_while p s') else EmptyString
  end.

(** The URL after its scheme. *)
Definition drop_scheme (url : string) : string :=
  match partition_char ":" url with
  | Some (String c _ as scheme, rest) =>
      if is_alpha c && sforall is_scheme_char scheme then rest else url
  | _ => url
  end.

(** [s.rpartition(c)[2]] *)
Fixpoint after_last (c : ascii) (s : string) : string :=
  match s with
  | EmptyString => EmptyString
  | String c' s' => if has_char c s' then after_last c s'
                    else if (c' =? c)%char then s' else s
  end.

Definition bracketed_host_ok (hostname : string) : bool :=
  if startswith hostname "v" then
    match partition_char "." (sdrop 1 hostname) with
    | Some (version, rest) => truthy version && sforall is_hex version && truthy rest
    | None => false
    end
  else match ip_address hostname with Some (V6 _ _) => true | _ => false end.

(** [_check_bracketed_netloc] *)
Definition bracketed_netloc_ok (netloc : string) : bool :=
  let hostname_and_port := after_last "@" netloc in
  match partition_char "[" hostname_and_port with
  | Some (before, bracketed) =>
      if truthy before then false
      else match partition_char "]" bracketed with
           | Some (hostname, port) => (negb (truthy port) || startswith port ":") && bracketed_host_ok hostname
           | None => bracketed_host_ok bracketed
           end
  | None => bracketed_host_ok (match partition_char ":" hostname_and_port with
                               | Some (hostname, _) => hostname
                               | None => hostname_and_port
                               end)
  end.

(** [urlparse(url).netloc] of the standard library, on ASCII text *)
Definition urlparse_netloc (url : string) : res string :=
  let url := sfilter (fun c => negb (is_unsafe_url_char c)) (sdrop_while is_c0_or_space url) in
  let url := drop_scheme url in
  if startswith url "//" then
    let netloc := stake_while (fun c => negb ((c =? "/") || (c =? "?") || (c =? "#"))%char) (sdrop 2 url) in
    if negb (Bool.eqb (has_char "[" netloc) (has_char "]" netloc)) then Raise (ValueError "Invalid IPv6 URL")
    else if has_char "[" netloc && negb (bracketed_netloc_ok netloc) then Raise (ValueError "Invalid IPv6 URL")
    else Ok netloc
  else Ok "".

Definition has_scheme_marker (entry : string) : bool := contains "://" entry.

Definition _normalize_allowed_referrer_domain (entry : string) : res string :=
  if has_scheme_marker entry then
    match urlparse_netloc entry with Ok netloc => Ok (lower netloc) | Raise e => Raise e end
  else
    Ok (let normalized := lower entry in
        match partition_char "/" normalized with Some (host, _) => host | None => normalized end).

Definition domain_matches (referrer_domain entry : string) : res bool :=
  match _normalize_allowed_referrer_domain entry with
  | Raise e => Raise e
  | Ok d => Ok ((referrer_domain =? d)%string || endswith referrer_domain ("." +:+ d))
  end.

Definition is_referrer_domain_allowed (referrer : string) (allowed_domains : list string) : bool :=
  match urlparse_netloc referrer with
  | Raise _ => false
  | Ok netloc =>
      match any_res (domain_matches (lower netloc)) allowed_domains with
      | Ok b => b
      | Raise _ => false
      end
  end.

(** ** Detection settings *)

Definition _get_effective_penetration_setting (config : SecurityConfig) (route_config : option RouteConfig)
  : bool * option bool :=
  match route_config with
  | Some rc => (rc_enable_suspicious_detection rc, Some (rc_enable_suspicious_detection rc))
  | None => (enable_penetration_detection config, None)
  end.

Definition _get_detection_disabled_reason (config : SecurityConfig) (route_specific_detection : option bool)
  : string :=
  if bool_decide (route_specific_detection = Some false) && enable_penetration_detection config
  then "disabled_by_decorator" else "not_enabled".

(** ** Counting violations *)

Definition _MAX_TRACKED_SUSPICIOUS_IPS : Z := 10000.

(** [suspicious_request_counts], in insertion order *)
Abbreviation counts_store := (list (string * list (string * Z))).

Definition bump (ip_counts : list (string * Z)) (category : string) : list (string * Z) :=
  dset category (default 0 (dget category ip_counts) + 1) ip_counts.

Definition _increment_suspicious_counts (counts : counts_store) (client_ip : string) (categories : list string)
  : counts_store :=
  let resolved_categories := match categories with [] => ["uncategorized"] | _ => categories end in
  let '(ip_counts, counts) :=
    match dget client_ip counts with
    | Some ip_counts => (ip_counts, ddel client_ip counts)
    | None => ([], if (_MAX_TRACKED_SUSPICIOUS_IPS <=? Z.of_nat (length counts)) then tail counts else counts)
    end in
  dset client_ip (fold_left bump resolved_categories ip_counts) counts.

(** [counts.get(client_ip, {})], and the sum of its values *)
Definition counts_of (counts : counts_store) (client_ip : string) : list (string * Z) :=
  default [] (dget client_ip counts).

Definition total_of (ip_counts : list (string * Z)) : Z := fold_right (fun p n => snd p + n) 0 ip_counts.

(** ** Threshold bans *)

Section threshold.
Context `{E : Env} `{C : !TTLCache string Z BAN_CACHE_SIZE (seconds LOCAL_CACHE_TTL_CAP_SECONDS)}.

(** What was banned for: the duration, the reason, and the category. *)
Abbreviation ban_result := (Z * string * option string)%type.

(** The loop over the categories: [None] when none has crossed its threshold. *)
Fixpoint try_category_bans (config : SecurityConfig) (ip_counts : list (string * Z)) (client_ip reason : string)
  (threat_categories : list string) : M (Sys * BanManager) (option (option ban_result)) :=
  match threat_categories with
  | [] => ret None
  | category :: threat_categories' =>
      match dget category (threat_ban_config config) with
      | Some entry =>
          if (default 0 (dget category ip_counts) <? tb_threshold entry)%Z then
            try_category_bans config ip_counts client_ip reason threat_categories'
          else
            let ban_reason := reason +:+ ":" +:+ category in
            let* applied := ban_ip client_ip (tb_duration entry) ban_reason in
            ret (Some (if applied then Some (tb_duration entry, ban_reason, Some category) else None))
      | None => try_category_bans config ip_counts client_ip reason threat_categories'
      end
  end.

Definition _resolve_and_apply_threshold_ban (ip_counts : list (string * Z)) (config : SecurityConfig)
  (client_ip : string) (threat_categories : list string) (reason : string)
  : M (Sys * BanManager) (option ban_result) :=
  if negb (enable_ip_banning config) then ret None
  else
    let* by_category := try_category_bans config ip_counts client_ip reason threat_categories in
    match by_category with
    | Some result => ret result
    | None =>
        if (total_of ip_counts <? auto_ban_threshold config)%Z then ret None
        else
          let* applied := ban_ip client_ip (auto_ban_duration config) reason in
          ret (if applied then Some (auto_ban_duration config, reason, None) else None)
    end.
End threshold.

Section helpers.
Context `{Eng : Engine} `{C : !TTLCache string Z BAN_CACHE_SIZE (seconds LOCAL_CACHE_TTL_CAP_SECONDS)}
  `{P : !TTLCache string bool PATH_CACHE_SIZE PATH_CACHE_TTL}
  `{HC : !TTLCache string headers HEADERS_CACHE_SIZE HEADERS_CACHE_TTL}.

Implicit Types (mw : Middleware) (request : Request).

(** ** The decorator's events ([guard_core/decorators/base.py]) *)

Definition send_decorator_event (d : Decorator) (event_type : string) request (action_taken reason decorator_type : string)
  (kwargs : list (string * string)) : W unit :=
  if negb (dec_agent d) then ret tt
  else send_middleware_event (mkBus (dec_agent d) (dec_config d) (dec_geo d) []) event_type request
         action_taken reason (("decorator_type", decorator_type) :: kwargs).

Definition send_access_denied_event (d : Decorator) request (reason decorator_type : string)
  (metadata : list (string * string)) : W unit :=
  send_decorator_event d "access_denied" request "blocked" reason decorator_type metadata.

Definition send_authentication_failed_event (d : Decorator) request (reason auth_type : string)
  (metadata : list (string * string)) : W unit :=
  send_decorator_event d "authentication_failed" request "blocked" reason "authentication"
    (("auth_type", auth_type) :: metadata).

Definition send_rate_limit_event (d : Decorator) request (limit window : Z) : W unit :=
  send_decorator_event d "rate_limited" request "blocked"
    ("Rate limit exceeded: " +:+ string_of_Z limit +:+ " requests per " +:+ string_of_Z window +:+ "s")
    "rate_limiting" [("limit", string_of_Z limit); ("window", string_of_Z window)].

(** ** Events of the checks: the decorator's when there is one *)

Definition emit_access_denied_event mw request (event_type reason decorator_type : string)
  (metadata : list (string * string)) : W unit :=
  let* guard_decorator := find_decorator mw in
  match guard_decorator with
  | Some d => send_access_denied_event d request reason decorator_type metadata
  | None => send_event mw event_type request (action_of (mw_config mw)) reason
              (("decorator_type", decorator_type) :: metadata)
  end.

Definition emit_authentication_failed_event mw request (event_type reason auth_type violation_type : string)
  : W unit :=
  let* guard_decorator := find_decorator mw in
  match guard_decorator with
  | Some d => send_authentication_failed_event d request reason auth_type [("violation_type", violation_type)]
  | None => send_event mw event_type request (action_of (mw_config mw)) reason
              [("decorator_type", "authentication"); ("violation_type", violation_type); ("auth_type", auth_type)]
  end.

Definition emit_rate_limit_event mw request (event_type : string) (limit window : Z) (reason : string) : W unit :=
  let* guard_decorator := find_decorator mw in
  match guard_decorator with
  | Some d => send_rate_limit_event d request limit window
  | None => send_event mw event_type request (action_of (mw_config mw)) reason
              [("decorator_type", "rate_limiting"); ("violation_type", "rate_limit");
               ("rate_limit", string_of_Z limit); ("window", string_of_Z window)]
  end.

Definition emit_decorator_event mw request (event_type action_taken reason decorator_type : string)
  (metadata : list (string * string)) : W unit :=
  let* guard_decorator := find_decorator mw in
  match guard_decorator with
  | Some d => send_decorator_event d event_type request action_taken reason decorator_type metadata
  | None => send_event mw event_type request action_taken reason (("decorator_type", decorator_type) :: metadata)
  end.

(** ** User agents *)

Definition _MAX_USER_AGENT_MATCH_LENGTH : nat := 512.

Fixpoint _user_agent_matches_blocked_pattern (user_agent : string) (patterns : list string) : W bool :=
  match patterns with
  | [] => ret false
  | pattern :: patterns' =>
      let* hit := on_sys (ua_pattern_matches pattern (stake _MAX_USER_AGENT_MATCH_LENGTH user_agent)) in
      if hit then ret true else _user_agent_matches_blocked_pattern user_agent patterns'
  end.

Definition is_user_agent_allowed (user_agent : string) (config : SecurityConfig) : W bool :=
  let* blocked := _user_agent_matches_blocked_pattern user_agent (blocked_user_agents config) in
  ret (negb blocked).

Definition check_user_agent_allowed (user_agent : string) (route_config : option RouteConfig)
  (config : SecurityConfig) : W bool :=
  let* blocked := match route_config with
                  | Some rc => if nonempty (rc_blocked_user_agents rc)
                               then _user_agent_matches_blocked_pattern user_agent (rc_blocked_user_agents rc)
                               else ret false
                  | None => ret false
                  end in
  if blocked then ret false else is_user_agent_allowed user_agent config.

(** ** Detection *)

Definition detect_penetration_patterns request (route_config : option RouteConfig) (config : SecurityConfig)
  : W DetectionResult :=
  let '(penetration_enabled, route_specific_detection) := _get_effective_penetration_setting config route_config in
  if penetration_enabled && negb (should_bypass_check "penetration" route_config)
  then
    let* client_ip := state st_client_ip in
    on_sys (run_detection request client_ip config route_config)
  else ret {| is_threat := false;
              trigger_info := _get_detection_disabled_reason config route_specific_detection;
              threat_categories := []; threat_scores := [] |}.

Definition get_cached_detection_result request (route_config : option RouteConfig) (config : SecurityConfig)
  : W DetectionResult :=
  let* cached := state st_detection_cache in
  match cached with
  | Some (rc, result) =>
      if decide (rc = route_config) then ret result
      else
        let* result := detect_penetration_patterns request route_config config in
        set_state (fun s => s {{ st_detection_cache := Some (route_config, result) }}) ;;;
        ret result
  | None =>
      let* result := detect_penetration_patterns request route_config config in
      set_state (fun s => s {{ st_detection_cache := Some (route_config, result) }}) ;;;
      ret result
  end.

(** ** Escalation *)

Definition increment_suspicious_counts (client_ip : string) (categories : list string) : W unit :=
  modify (fun w => w {{ w_counts := _increment_suspicious_counts (w_counts w) client_ip categories }}).

Definition _total_count_for_ip (client_ip : string) : W Z :=
  gets (fun w => total_of (counts_of (w_counts w) client_ip)).

Definition _try_threshold_ban (config : SecurityConfig) request (client_ip trigger_info check_name : string)
  (threat_categories : list string) (reason : string) : W bool :=
  let* ip_counts := gets (fun w => counts_of (w_counts w) client_ip) in
  let* result := on_bans (_resolve_and_apply_threshold_ban ip_counts config client_ip threat_categories reason) in
  match result with
  | None => ret false
  | Some (_, _, category) =>
      let log_reason := match category with
        | Some category => "IP banned due to " +:+ category +:+ " threshold: " +:+ client_ip +:+ " - " +:+ trigger_info
        | None => "IP banned due to suspicious activity: " +:+ client_ip +:+ " - " +:+ trigger_info
        end in
      log_activity config request LogSuspicious log_reason false "" (log_suspicious_level config)
        (Some check_name) (on_block config) ;;;
      ret true
  end.

Definition _emit_ban_escalation_failed mw request (client_ip : string) (error : exn) : W unit :=
  send_event mw "ip_ban_failed" request "ban_not_applied"
    ("Escalation ban failed for " +:+ client_ip +:+ ": " +:+ exn_message error) [("ip_address", client_ip)].

(** [list(result.threat_categories) or ["uncategorized"]] *)
Definition categories_or_default (categories : list string) : list string :=
  match categories with [] => ["uncategorized"] | _ => categories end.

Definition escalate_identity_violation mw request (client_ip check_name violation_category trigger : string)
  : W unit :=
  let config := mw_config mw in
  if negb (truthy client_ip) then ret tt
  else
    let* whitelisted := state st_is_whitelisted in
    if whitelisted then ret tt
    else
      catch any_exn
        (let* route_config := state st_route_config in
         let* result := get_cached_detection_result request route_config config in
         if negb (is_threat result) || (trigger_info result =? "disabled_by_decorator")%string then ret tt
         else
           let threat_categories := categories_or_default (threat_categories result) in
           increment_suspicious_counts client_ip threat_categories ;;;
           let* banned := _try_threshold_ban config request client_ip trigger check_name threat_categories
                            "penetration_attempt" in
           let* request_count := _total_count_for_ip client_ip in
           send_event mw "penetration_attempt" request (if banned then "banned" else "tracked")
             ("Identity violation escalated: " +:+ trigger)
             [("request_count", string_of_Z request_count); ("trigger_info", trigger);
              ("violation_category", violation_category)])
        (fun exc =>
           on_sys (log ERROR ("escalate_identity_violation failed for " +:+ client_ip)) ;;;
           catch any_exn (_emit_ban_escalation_failed mw request client_ip exc)
             (fun _ => on_sys (log ERROR ("Failed to report ban escalation failure for " +:+ client_ip)))).
End helpers.
