(* ===== verification/RateLimiter.v ===== *)
(** The rate limiter around the counting of [RateLimit]: the manager of
    [guard_core/handlers/ratelimit_handler.py], and [check_rate_limit_by_ip], the
    primitive for calls outside a request. *)
From S2P Require Import Prelude PyStr PyDict IpAddr IpAddrText Sys Config Redaction Request IpExtraction TTL Redis IpBan.
From S2P Require Import RateLimit Cloud AccessControl Middleware Helpers.
From S2P Require Import Json SecurityHeaders.

(** * The manager *)

Section manager.
Context `{E : Env}.

Abbreviation R := (M (Sys * RateLimitManager)).

Definition on_rl {A} (f : RateLimitManager -> A * RateLimitManager) : R A :=
  fun w => let '(a, r) := f (snd w) in (Ok a, (fst w, r)).

Definition RateLimitManager_new (config : SecurityConfig) : RateLimitManager :=
  mkRateLimit config [] None false None.

Definition rl_initialize_redis (redis_handler : option (RedisHandle SecurityConfig)) : R unit :=
  on_rl (fun r => (tt, r {{ rl_redis := redis_handler }})) ;;;
  let* config := gets (fun w => rl_config (snd w)) in
  match redis_handler with
  | Some h =>
      when (enable_redis config)
        (catch any_exn
           (let* sha := sys (get_connection (rh_config h) (rh_agent h)
                               (redis_call (srv_script_load RATE_LIMIT_SCRIPT))) in
            on_rl (fun r => (tt, r {{ rate_limit_script_sha := Some sha }})) ;;;
            sys (log INFO "Rate limiting Lua script loaded successfully"))
           (fun e => sys (log ERROR ("Failed to load rate limiting Lua script: " +:+ exn_message e))))
  | None => ret tt
  end.

Definition rl_initialize_agent : R unit := on_rl (fun r => (tt, r {{ rl_agent := true }})).

(** [x or y] for an integer *)
Definition or_default (x : option Z) (y : Z) : Z :=
  match x with Some n => if (n =? 0)%Z then y else n | None => y end.

Definition _get_redis_request_count (client_ip : string) (current_time window_start : Z) (endpoint_path : string)
  (rate_limit_window rate_limit_opt : option Z) (redis_fail_open_opt : option bool) : R (option Z) :=
  let* m := gets snd in
  let* (count, sha) := sys (_redis_request_count (rl_redis m) client_ip current_time window_start
    (or_default rate_limit_window (Config.rate_limit_window (rl_config m)))
    (default (rate_limit (rl_config m)) rate_limit_opt)
    (rate_limit_script_sha m) (_emit_script_reloaded_event (rl_agent m)) endpoint_path
    (default (redis_fail_open (rl_config m)) redis_fail_open_opt)) in
  on_rl (fun r => (tt, r {{ rate_limit_script_sha := sha }})) ;;;
  ret count.

Definition _get_in_memory_request_count (client_ip : string) (window_start current_time : Z)
  (endpoint_path : string) : R Z :=
  zoom (fun w => request_timestamps (snd w)) (fun st w => (fst w, (snd w) {{ request_timestamps := st }}))
    (_in_memory_request_count client_ip window_start current_time endpoint_path).

Definition rl_reset : R unit :=
  on_rl (fun r => (tt, r {{ request_timestamps := [] }})) ;;;
  let* m := gets snd in
  match rl_redis m with
  | Some h =>
      when (enable_redis (rl_config m))
        (catch any_exn
           (let* ks := sys (keys (rh_config h) (rh_agent h) "rate_limit:rate:*") in
            match ks with
            | Some (_ :: _) => sys (delete_pattern (rh_config h) (rh_agent h) "rate_limit:rate:*") ;;; ret tt
            | _ => ret tt
            end)
           (fun e => sys (log ERROR ("Failed to reset Redis rate limits: " +:+ exn_message e))))
  | None => ret tt
  end ;;;
  on_rl (fun r => (tt, r {{ rl_redis := None; rl_agent := false }})).
End manager.

(** * Checking a request *)

Section check.
Context `{Eng : Engine} `{C : !TTLCache string Z BAN_CACHE_SIZE (seconds LOCAL_CACHE_TTL_CAP_SECONDS)}
  `{P : !TTLCache string bool PATH_CACHE_SIZE PATH_CACHE_TTL}
  `{HC : !TTLCache string headers HEADERS_CACHE_SIZE HEADERS_CACHE_TTL}.

Definition on_limiter {A} (m : M (Sys * RateLimitManager) A) : W A :=
  zoom (fun w => (w_sys w, w_rl w)) (fun p w => w {{ w_sys := fst p; w_rl := snd p }}) m.

(** [_send_rate_limit_event] of the manager *)
Definition rl_send_rate_limit_event (request : Request) (client_ip : string) (request_count : Z) (config : SecurityConfig) : W unit :=
  catch any_exn
    (lift_res (display_endpoint config (rq_path request)) ;;;
     on_sys (agent_send
    {| ev_type := "rate_limited"; ev_ip := client_ip; ev_action := "request_blocked";
       ev_reason := "Rate limit exceeded: " +:+ string_of_Z request_count +:+ " requests in " +:+
                    string_of_Z (rate_limit_window config) +:+ "s window";
       ev_handler := "rate_limit"; ev_country := None;
       ev_meta := [("request_count", string_of_Z request_count); ("rate_limit", string_of_Z (rate_limit config));
                   ("window", string_of_Z (rate_limit_window config))] |}))
    (fun e => on_sys (log ERROR ("Failed to send rate limit event to agent: " +:+ exn_message e))).

(** [config] is the one the caller passes; [mw_cfg] is the middleware's, which
    builds the response. *)
Definition _handle_rate_limit_exceeded (mw_cfg config : SecurityConfig) (request : Request) (client_ip : string)
  (count : Z) (window_opt : option Z) : W Response :=
  let window := or_default window_opt (rate_limit_window config) in
  log_activity config request LogSuspicious
    ("Rate limit exceeded for IP: " +:+ client_ip +:+ " (" +:+ string_of_Z count +:+ " requests in " +:+
     string_of_Z window +:+ "s window)")
    (passive_mode config) "" (log_suspicious_level config) (Some "rate_limit") (on_block config) ;;;
  let* agent := gets (fun w => rl_agent (w_rl w)) in
  when agent (rl_send_rate_limit_event request client_ip count config) ;;;
  let* response := create_error_response mw_cfg 429 "Too many requests" in
  ret (set_header "Retry-After" (string_of_Z window) response).

Definition check_rate_limit (mw_cfg config : SecurityConfig) (request : Request) (client_ip endpoint_path : string)
  (rate_limit_opt window_opt : option Z) : W (option Response) :=
  if negb (enable_rate_limiting config) then ret None
  else
    let effective_limit := default (rate_limit config) rate_limit_opt in
    let effective_window := default (rate_limit_window config) window_opt in
    let* current_time := on_sys time_time in
    let window_start := (current_time - seconds effective_window)%Z in
    let exceeded count :=
      let* response := _handle_rate_limit_exceeded mw_cfg config request client_ip count (Some effective_window) in
      ret (Some response) in
    let* redis_handler := gets (fun w => rl_redis (w_rl w)) in
    let* counted :=
      (if enable_redis config && match redis_handler with Some _ => true | None => false end
       then on_limiter (_get_redis_request_count client_ip current_time window_start endpoint_path
                          (Some effective_window) (Some effective_limit) (Some (redis_fail_open config)))
       else ret None) in
    match counted with
    | Some count => if (effective_limit <? count)%Z then exceeded count else ret None
    | None =>
        let* request_count := on_limiter (_get_in_memory_request_count client_ip window_start current_time endpoint_path) in
        if (effective_limit <=? request_count)%Z then exceeded (request_count + 1)%Z else ret None
    end.
End check.

(** * Outside a request *)

Section by_ip.
Context `{E : Env} `{C : !TTLCache string Z BAN_CACHE_SIZE (seconds LOCAL_CACHE_TTL_CAP_SECONDS)}.

(** The module's own stores, next to the surroundings and the ban manager. *)
Record ByIp : Type := mkByIp {
  bi_sys : Sys;
  bi_ban : BanManager;
  _by_ip_request_timestamps : hit_store;
  _by_ip_autoban_counts : list (string * Z)
}.

Abbreviation I := (M ByIp).

Definition bi_on_sys {A} (m : M Sys A) : I A := zoom bi_sys (fun s w => w {{ bi_sys := s }}) m.
Definition bi_on_ban {A} (m : M (Sys * BanManager) A) : I A :=
  zoom (fun w => (bi_sys w, bi_ban w)) (fun p w => w {{ bi_sys := fst p; bi_ban := snd p }}) m.

(** One more violation of the address; the new count. *)
Definition count_violation (ip : string) : I Z := fun w =>
  match _lru_pop_or_create (_by_ip_autoban_counts w) ip _MAX_TRACKED_RATE_LIMIT_KEYS 0%Z with
  | Ok (n, counts) => (Ok (n + 1)%Z, w {{ _by_ip_autoban_counts := dset ip (n + 1)%Z counts }})
  | Raise e => (Raise e, w)
  end.

Definition _feed_rate_limit_autoban (ip : string) (config : SecurityConfig) : I unit :=
  if negb (enable_rate_limit_auto_ban config && enable_ip_banning config) then ret tt
  else if passive_mode config then ret tt
  else
    let* banned := bi_on_ban (is_ip_banned ip) in
    if banned then ret tt
    else
      let* count := count_violation ip in
      let* result := bi_on_ban (_resolve_and_apply_threshold_ban [("rate_limit", count)] config ip ["rate_limit"]
                                  "rate_limit_exceeded") in
      match result with
      | Some _ => bi_on_sys (log WARNING ("check_rate_limit_by_ip: auto-banned " +:+ ip +:+ " (rate_limit_exceeded)"))
      | None => ret tt
      end.

Definition check_rate_limit_by_ip (ip : string) (config : SecurityConfig)
  (redis_handler : option (RedisHandle SecurityConfig)) (endpoint_path : string) : I bool :=
  match ip_address ip with
  | None => raise (ValueError ("check_rate_limit_by_ip: invalid ip " +:+ ip))
  | Some _ =>
      if has_char ":" endpoint_path then
        raise (ValueError "check_rate_limit_by_ip: endpoint_path must not contain ':'")
      else if negb (enable_rate_limiting config) then ret true
      else
        let* current_time := bi_on_sys time_time in
        let window_start := (current_time - seconds (rate_limit_window config))%Z in
        let* allowed :=
          (if enable_redis config && match redis_handler with Some _ => true | None => false end then
             let* (count, _) := bi_on_sys (_redis_request_count redis_handler ip current_time window_start
               (rate_limit_window config) (rate_limit config) None (ret tt) endpoint_path (redis_fail_open config)) in
             ret (option_map (fun count => (count <=? rate_limit config)%Z) count)
           else ret None) in
        let* allowed :=
          match allowed with
          | Some b => ret b
          | None =>
              let* request_count := zoom _by_ip_request_timestamps (fun st w => w {{ _by_ip_request_timestamps := st }})
                (_in_memory_request_count ip window_start current_time endpoint_path) in
              ret (request_count <? rate_limit config)%Z
          end in
        when (negb allowed) (_feed_rate_limit_autoban ip config) ;;;
        ret allowed
  end.
End by_ip.
