(* ===== verification/SampleEngine.v ===== *)
(** A concrete application around the engine, for the witnesses: hooks that do
    nothing, one verifier, a detector that knows one path, and a middleware with a
    route that has rules. *)
From S2P Require Import Prelude PyStr PyDict IpAddr Url Sys Sample Config Redaction Request TTL Redis IpBan RateLimit RateLimiter Cloud.
From S2P Require Import Json SecurityHeaders AccessControl Middleware.

Section engine.
Context (clk : nat -> Z) (outcome : nat -> option (exn * bool)).

Definition sample_engine : @Engine (sample_env clk outcome) := {|
  on_block_hook := fun _ _ _ => ret tt;
  on_error_hook := fun _ _ _ => ret tt;
  custom_response_modifier_fn := fun _ r => ret r;
  custom_request_check_fn := fun _ _ => ret None;
  custom_validator_fn := fun _ _ => ret Falsy;
  auth_verifier_fn := fun _ _ credential =>
    ret (if (credential =? "s3cret")%string then Some "alice" else None);
  run_detection := fun request _ _ _ =>
    ret (if (rq_path request =? "/attack")%string
         then {| is_threat := true; trigger_info := "path traversal"; threat_categories := ["path_traversal"];
                 threat_scores := [("path_traversal", 1000000%Z)] |}
         else {| is_threat := false; trigger_info := ""; threat_categories := []; threat_scores := [] |});
  ua_pattern_matches := fun pattern user_agent => ret (pattern =? user_agent)%string;
  zone_hour_minute := fun _ _ => None;
  config_id := "1";
  engine_texts := sample_texts
|}.
End engine.

Definition sample_ban_cache : TTLCache string Z BAN_CACHE_SIZE (seconds LOCAL_CACHE_TTL_CAP_SECONDS) := assoc_ttl _ _.
Definition sample_path_cache : TTLCache string bool PATH_CACHE_SIZE PATH_CACHE_TTL := assoc_ttl _ _.

(** A route behind a bearer token, HTTPS, a size limit and a required header. *)
Definition vault_route : RouteConfig :=
  RouteConfig_init {{ rc_require_https := true; rc_auth_required := Some "bearer";
                      rc_auth_verifier := Some "check_token"; rc_max_request_size := Some 1000%Z;
                      rc_required_headers := [("x-tenant", "required")] }}.

Definition sample_decorator (config : SecurityConfig) : Decorator :=
  mkDecorator config [("vault", vault_route)] false None.

Definition sample_middleware (config : SecurityConfig) : Middleware :=
  mkMiddleware config true None None (Some (sample_decorator config)) true.

(** Without Redis, and without the errors of a request blocking it, or with. *)
Definition plain_config : SecurityConfig := default_config {{ enable_redis := false }}.

Definition get_request (path host : string) (headers : list (string * string)) : Request :=
  {| rq_path := path; rq_scheme := "https"; rq_method := "GET"; rq_client_host := Some host;
     rq_headers := headers; rq_query_params := []; rq_https_url := "https://app.example" +:+ path;
     rq_url_full := "https://app.example" +:+ path |}.

Section world.
Context (clk : nat -> Z) (outcome : nat -> option (exn * bool)).

#[local] Instance world_env : Env := sample_env clk outcome.
#[local] Instance world_ban_cache : TTLCache string Z BAN_CACHE_SIZE (seconds LOCAL_CACHE_TTL_CAP_SECONDS) :=
  sample_ban_cache.
#[local] Instance world_path_cache : TTLCache string bool PATH_CACHE_SIZE PATH_CACHE_TTL := sample_path_cache.
#[local] Existing Instance sample_headers_cache.

(** The state a request for a route finds. *)
Definition sample_world (config : SecurityConfig) (route_id : option string) : World :=
  {| w_sys := sample_sys clk outcome; w_state := fresh_state {{ st_route_id := route_id }}; w_ban := BanManager_new;
     w_rl := RateLimitManager_new config; w_counts := []; w_cloud := CloudManager_new;
     last_cloud_ip_refresh := 0; w_paths := ttl_empty;
     w_headers := SecurityHeadersManager_new |}.
End world.
