(* ===== verification/Checks.v ===== *)
(** The security checks: [guard_core/core/checks/base.py] and every check of
    [guard_core/core/checks/implementations/].

    A check looks at a request and returns the response that blocks it, or
    [None]; in passive mode it only reports. *)
From S2P Require Import Prelude PyStr PyDict IpAddr IpAddrText Sys Config Redaction Request IpExtraction TTL Redis IpBan.
From S2P Require Import RateLimit Cloud AccessControl Middleware Helpers RateLimiter.
From S2P Require Import Json SecurityHeaders.

Section checks.
Context `{Eng : Engine} `{C : !TTLCache string Z BAN_CACHE_SIZE (seconds LOCAL_CACHE_TTL_CAP_SECONDS)}
  `{P : !TTLCache string bool PATH_CACHE_SIZE PATH_CACHE_TTL}
  `{HC : !TTLCache string headers HEADERS_CACHE_SIZE HEADERS_CACHE_TTL}.

Implicit Types (mw : Middleware) (request : Request) (config : SecurityConfig).

(** [SecurityCheck]: [applies_to] is asked when the pipeline is built, with the
    rules of all routes when there is a decorator. *)
Record SecurityCheck : Type := mkCheck {
  check_name : string;
  enforced_on_excluded_paths : bool;
  applies_to : SecurityConfig -> option (list RouteConfig) -> bool;
  check : Middleware -> Request -> W (option Response)
}.

(** [if not passive_mode: return create_error_response(...)], else [None] *)
Definition unless_passive config (response : W Response) : W (option Response) :=
  if passive_mode config then ret None else let* r := response in ret (Some r).

Definition deny config (status_code : Z) (default_message : string) : W (option Response) :=
  unless_passive config (create_error_response config status_code default_message).

(** [if r := m: return r], then [k] *)
Definition or_else (m k : W (option Response)) : W (option Response) :=
  let* r := m in match r with Some response => ret (Some response) | None => k end.

(** ** [route_config.py] *)

Definition UNRESOLVED_ROUTE_REASON : string :=
  "Route resolution failed; per-route decorator config could not be applied".

Definition _handle_unresolved_route mw request : W (option Response) :=
  let config := mw_config mw in
  log_suspicious config request "route_config" UNRESOLVED_ROUTE_REASON ;;;
  send_event mw "route_unresolved" request (action_of config) UNRESOLVED_ROUTE_REASON [] ;;;
  deny config 500 "Route resolution failed".

Definition RouteConfigCheck_check mw request : W (option Response) :=
  let config := mw_config mw in
  let* route_config := get_route_config mw in
  set_state (fun s => s {{ st_route_config := route_config }}) ;;;
  let* cached_ip := state st_client_ip in
  let* client_ip := on_sys (extract_client_ip request cached_ip config (mw_agent mw)) in
  set_state (fun s => s {{ st_client_ip := Some client_ip }}) ;;;
  let* unresolved := state st_route_unresolved in
  if route_resolution_strict config && unresolved then _handle_unresolved_route mw request else ret None.

(** ** [emergency_mode.py] *)

Definition EmergencyModeCheck_check mw request : W (option Response) :=
  let config := mw_config mw in
  if negb (emergency_mode config) then ret None
  else
    let* cached_ip := state st_client_ip in
    let* client_ip := match cached_ip with
                      | Some (String _ _ as ip) => ret ip
                      | _ => on_sys (extract_client_ip request cached_ip config (mw_agent mw))
                      end in
    let* is_whitelisted := match ip_address client_ip with
                           | None => ret false
                           | Some addr => lift_res (_ip_in_list addr client_ip (Some (emergency_whitelist config)))
                           end in
    if is_whitelisted then
      log_activity config request (LogOther "Info") ("[EMERGENCY MODE] Allowed access for whitelisted IP " +:+ client_ip)
        false "" (Some INFO) (Some "emergency_mode") None ;;;
      ret None
    else
      log_suspicious config request "emergency_mode" ("[EMERGENCY MODE] Access denied for IP " +:+ client_ip) ;;;
      send_event mw "emergency_mode_block" request (action_of config)
        ("[EMERGENCY MODE] IP " +:+ client_ip +:+ " not in whitelist")
        [("emergency_whitelist_count", string_of_Z (Z.of_nat (length (emergency_whitelist config))));
         ("emergency_active", "True")] ;;;
      deny config 503 "Service temporarily unavailable".

(** ** [https_enforcement.py] *)

(** The peer as it is written; [ip_address(connecting_ip)] may raise. *)
Definition https_is_trusted_proxy config (connecting_ip : string) : res bool :=
  any_res (fun proxy =>
    if negb (has_char "/" proxy) then Ok (connecting_ip =? proxy)%string
    else match ip_address connecting_ip, ip_network proxy with
         | Some a, Some n => Ok (ip_in_net a n)
         | None, _ => Raise (ValueError connecting_ip)
         | _, None => Raise (ValueError proxy)
         end) (trusted_proxies config).

Definition _is_request_https config request : res bool :=
  let is_https := (rq_scheme request =? "https")%string in
  match rq_client_host request with
  | Some (String _ _ as host) =>
      if trust_x_forwarded_proto config && nonempty (trusted_proxies config) then
        match https_is_trusted_proxy config host with
        | Ok true => Ok (is_https || (lower (header_or request "X-Forwarded-Proto" "") =? "https")%string)
        | Ok false => Ok is_https
        | Raise e => Raise e
        end
      else Ok is_https
  | _ => Ok is_https
  end.

Definition https_required config (route_config : option RouteConfig) : bool :=
  match route_config with Some rc => rc_require_https rc | None => enforce_https config end.

Definition HttpsEnforcementCheck_check mw request : W (option Response) :=
  let config := mw_config mw in
  let* route_config := state st_route_config in
  if negb (https_required config route_config) then ret None
  else
    let* is_https := lift_res (_is_request_https config request) in
    if is_https then ret None
    else
      send_https_violation_event mw request route_config ;;;
      unless_passive config (create_https_redirect config request).

(** ** [request_logging.py] *)

Definition RequestLoggingCheck_check mw request : W (option Response) :=
  log_activity (mw_config mw) request LogRequest "" false "" (log_request_level (mw_config mw))
    (Some "request_logging") None ;;;
  ret None.

(** ** [request_size_content.py] *)

Definition _check_request_size_limit mw request (route_config : RouteConfig) : W (option Response) :=
  let config := mw_config mw in
  match rc_max_request_size route_config with
  | None => ret None
  | Some max_request_size =>
      if (max_request_size =? 0)%Z then ret None
      else
        match header request "content-length" with
        | Some (String _ _ as content_length) =>
            match py_int content_length with
            | None => raise (ValueError ("invalid literal for int() with base 10: " +:+ content_length))
            | Some n =>
                if (n <=? max_request_size)%Z then ret None
                else
                  let reason := "Request size " +:+ content_length +:+ " exceeds limit: " +:+
                                string_of_Z max_request_size in
                  log_suspicious config request "request_size_content" reason ;;;
                  emit_decorator_event mw request "content_filtered" (action_of config) reason
                    "content_filtering" [("violation_type", "max_request_size")] ;;;
                  deny config 413 "Request too large"
            end
        | _ => ret None
        end
  end.

Definition _check_content_type_allowed mw request (route_config : RouteConfig) : W (option Response) :=
  let config := mw_config mw in
  match rc_allowed_content_types route_config with
  | Some ((_ :: _) as allowed_types) =>
      let content_type := hd "" (split_on ";" (header_or request "content-type" "")) in
      if in_list content_type allowed_types then ret None
      else
        let* redacted_content_type := lift_res (display_header_value config content_type) in
        log_suspicious config request "request_size_content" ("Invalid content type: " +:+ redacted_content_type) ;;;
        emit_decorator_event mw request "content_filtered" (action_of config)
          ("Content type not in allowed types: " +:+ show_list allowed_types)
          "content_filtering" [("violation_type", "content_type")] ;;;
        deny config 415 "Unsupported content type"
  | _ => ret None
  end.

Definition RequestSizeContentCheck_check mw request : W (option Response) :=
  let* route_config := state st_route_config in
  match route_config with
  | None => ret None
  | Some rc => or_else (_check_request_size_limit mw request rc) (_check_content_type_allowed mw request rc)
  end.

(** ** [required_headers.py] *)

Definition _classify_header_violation (header_name : string) : string * string :=
  let header_lower := lower header_name in
  if (header_lower =? "x-api-key")%string then ("authentication", "api_key_required")
  else if (header_lower =? "authorization")%string then ("authentication", "required_header")
  else ("advanced", "required_header").

Definition _report_header_violation mw request (header reason header_field : string) : W (option Response) :=
  let config := mw_config mw in
  log_suspicious config request "required_headers" reason ;;;
  let '(decorator_type, violation_type) := _classify_header_violation header in
  emit_access_denied_event mw request "decorator_violation" reason decorator_type
    [("violation_type", violation_type); (header_field, header)] ;;;
  deny config 400 reason.

Definition _handle_missing_header mw request (header : string) : W (option Response) :=
  _report_header_violation mw request header ("Missing required header: " +:+ header) "missing_header".

Definition _handle_mismatched_header mw request (header : string) : W (option Response) :=
  _report_header_violation mw request header ("Header '" +:+ header +:+ "' does not match the required value")
    "mismatched_header".

Fixpoint check_required_headers mw request (required_headers : list (string * string)) : W (option Response) :=
  match required_headers with
  | [] => ret None
  | (name, expected) :: required_headers' =>
      match header request name with
      | Some (String _ _ as actual) =>
          if negb (expected =? "required")%string && negb (actual =? expected)%string
          then _handle_mismatched_header mw request name
          else check_required_headers mw request required_headers'
      | _ => _handle_missing_header mw request name
      end
  end.

Definition RequiredHeadersCheck_check mw request : W (option Response) :=
  let* route_config := state st_route_config in
  match route_config with
  | None => ret None
  | Some rc => check_required_headers mw request (rc_required_headers rc)
  end.

(** ** [authentication.py] *)

Definition or_str (a b : option string) : option string := if truthy_str a then a else b.

Definition _handle_auth_failure mw request (auth_reason : string) (route_config : RouteConfig)
  (violation_type : string) : W (option Response) :=
  let config := mw_config mw in
  log_suspicious config request "authentication" ("Authentication failure: " +:+ auth_reason) ;;;
  let auth_type := default "api_key" (or_str (rc_auth_required route_config)
                     (or_str (rc_authorization_header_required route_config) (Some "api_key"))) in
  emit_authentication_failed_event mw request "decorator_violation" auth_reason auth_type violation_type ;;;
  deny config 401 "Authentication required".

Definition _check_presence mw request (route_config : RouteConfig) (scheme : string) : W (option Response) :=
  match extract_credential (header_or request "authorization" "") scheme with
  | (None, reason) => _handle_auth_failure mw request reason route_config "authorization_header"
  | (Some _, _) => ret None
  end.

(** The verifier to ask and the credential to show it, or the answer to a
    missing credential. *)
Definition _resolve_credential mw request (route_config : RouteConfig)
  : W (option Response * option string * string) :=
  let config := mw_config mw in
  match rc_auth_required route_config with
  | Some (String _ _ as scheme) =>
      match extract_credential (header_or request "authorization" "") scheme with
      | (None, reason) =>
          let* failure := _handle_auth_failure mw request reason route_config "require_auth" in
          ret (failure, None, "")
      | (Some credential, _) => ret (None, or_str (rc_auth_verifier route_config) (auth_verifier config), credential)
      end
  | _ =>
      let verifier := or_str (rc_api_key_verifier route_config) (auth_verifier config) in
      let credential := header_or request (default "" (rc_api_key_header route_config)) "" in
      if truthy credential then ret (None, verifier, credential)
      else
        let* failure := _handle_auth_failure mw request "Missing API key" route_config "require_auth" in
        ret (failure, None, "")
  end.

Definition AuthenticationCheck_check mw request : W (option Response) :=
  let* route_config := state st_route_config in
  match route_config with
  | None => ret None
  | Some rc =>
      match rc_authorization_header_required rc with
      | Some (String _ _ as presence_scheme) => _check_presence mw request rc presence_scheme
      | _ =>
          if negb (truthy_str (rc_auth_required rc)) && negb (rc_api_key_required rc) then ret None
          else
            let* (failure, verifier, credential) := _resolve_credential mw request rc in
            match failure with
            | Some response => ret (Some response)
            | None =>
                match verifier with
                | None => _handle_auth_failure mw request "No auth verifier configured" rc "require_auth"
                | Some verifier =>
                    let* result := catch any_exn
                      (let* r := on_sys (auth_verifier_fn verifier request credential) in ret (inl r))
                      (fun _ => let* failure := _handle_auth_failure mw request "Authentication error" rc "require_auth" in
                                ret (inr failure)) in
                    match result with
                    | inr failure => ret failure
                    | inl None => _handle_auth_failure mw request "Authentication failed" rc "require_auth"
                    | inl (Some principal) =>
                        set_state (fun s => s {{ st_auth_principal := Some principal }}) ;;;
                        ret None
                    end
                end
            end
      end
  end.

(** ** [referrer.py] *)

Definition _handle_missing_referrer mw request (allowed_domains : list string) : W (option Response) :=
  let config := mw_config mw in
  log_suspicious config request "referrer" "Missing referrer header" ;;;
  emit_access_denied_event mw request "decorator_violation" "Missing referrer header" "content_filtering"
    [("violation_type", "require_referrer"); ("allowed_domains", show_list allowed_domains)] ;;;
  deny config 403 "Referrer required".

Definition _handle_invalid_referrer mw request (referrer : string) (allowed_domains : list string)
  : W (option Response) :=
  let config := mw_config mw in
  let* redacted_referrer := lift_res (display_url config referrer) in
  log_suspicious config request "referrer" ("Invalid referrer: " +:+ redacted_referrer) ;;;
  emit_access_denied_event mw request "decorator_violation"
    ("Referrer '" +:+ redacted_referrer +:+ "' not in allowed domains") "content_filtering"
    [("violation_type", "require_referrer"); ("referrer", redacted_referrer);
     ("allowed_domains", show_list allowed_domains)] ;;;
  deny config 403 "Invalid referrer".

Definition ReferrerCheck_check mw request : W (option Response) :=
  let* route_config := state st_route_config in
  match route_config with
  | Some rc =>
      match rc_require_referrer rc with
      | Some ((_ :: _) as domains) =>
          let referrer := header_or request "referer" "" in
          if negb (truthy referrer) then _handle_missing_referrer mw request domains
          else if negb (is_referrer_domain_allowed referrer domains)
          then _handle_invalid_referrer mw request referrer domains
          else ret None
      | _ => ret None
      end
  | None => ret None
  end.

(** ** [custom_validators.py] *)

Fixpoint run_validators mw request (validators : list string) : W (option Response) :=
  match validators with
  | [] => ret None
  | validator :: validators' =>
      let config := mw_config mw in
      let* validation_response := on_sys (custom_validator_fn validator request) in
      match validation_response with
      | Falsy => run_validators mw request validators'
      | _ =>
          log_suspicious config request "custom_validators" "Custom validation failed" ;;;
          emit_decorator_event mw request "decorator_violation" (action_of config) "Custom validation failed"
            "content_filtering" [("violation_type", "custom_validation"); ("validator_name", validator)] ;;;
          match validation_response with
          | Blocking r => if passive_mode config then run_validators mw request validators' else ret (Some r)
          | _ => run_validators mw request validators'
          end
      end
  end.

Definition CustomValidatorsCheck_check mw request : W (option Response) :=
  let* route_config := state st_route_config in
  match route_config with
  | Some rc => run_validators mw request (rc_custom_validators rc)
  | None => ret None
  end.

(** ** [time_window.py] *)

Definition two_digits (n : Z) : string := if (n <? 10)%Z then "0" +:+ string_of_Z n else string_of_Z n.

(** [strftime("%H:%M")] in UTC *)
Definition utc_hour_minute (t : Z) : string :=
  let minutes := (t / 60000000) mod 1440 in
  two_digits (minutes / 60) +:+ ":" +:+ two_digits (minutes mod 60).

(** The window, which goes over midnight when its start is after its end. *)
Definition in_window (start_time end_time hour_minute : string) : bool :=
  if (end_time <? start_time)%string
  then (start_time <=? hour_minute)%string || (hour_minute <=? end_time)%string
  else (start_time <=? hour_minute)%string && (hour_minute <=? end_time)%string.

Definition _check_time_window (time_restrictions : list (string * string)) : W bool :=
  match dget "start" time_restrictions, dget "end" time_restrictions with
  | Some start_time, Some end_time =>
      let timezone_str := default "UTC" (dget "timezone" time_restrictions) in
      let* now := on_sys time_time in
      let current_hour_minute := default (utc_hour_minute now) (zone_hour_minute timezone_str now) in
      ret (in_window start_time end_time current_hour_minute)
  | None, _ => on_sys (log ERROR "Error checking time window: 'start'") ;;; ret true
  | _, None => on_sys (log ERROR "Error checking time window: 'end'") ;;; ret true
  end.

Definition TimeWindowCheck_check mw request : W (option Response) :=
  let config := mw_config mw in
  let* route_config := state st_route_config in
  match route_config with
  | Some rc =>
      match rc_time_restrictions rc with
      | Some ((_ :: _) as time_restrictions) =>
          let* time_allowed := _check_time_window time_restrictions in
          if time_allowed then ret None
          else
            log_suspicious config request "time_window" "Access outside allowed time window" ;;;
            emit_access_denied_event mw request "decorator_violation" "Access outside allowed time window" "advanced"
              [("violation_type", "time_restriction")] ;;;
            deny config 403 "Access not allowed at this time"
      | _ => ret None
      end
  | None => ret None
  end.

(** ** [cloud_ip_refresh.py] *)

(** [last_cloud_ip_refresh] is in whole seconds. *)
Definition CloudIpRefreshCheck_check mw request : W (option Response) :=
  let config := mw_config mw in
  let* route_config := state st_route_config in
  match get_cloud_providers_to_check config route_config with
  | None => ret None
  | Some _ =>
      let* now := on_sys time_time in
      let* previous_refresh := gets last_cloud_ip_refresh in
      when (seconds (cloud_ip_refresh_interval config) <? now - seconds previous_refresh)%Z
        (let* now := on_sys time_time in
         modify (fun w => w {{ last_cloud_ip_refresh := (now / 1000000)%Z }}) ;;;
         let* scheduled := on_clouds schedule_refresh in
         when (negb scheduled) (modify (fun w => w {{ last_cloud_ip_refresh := previous_refresh }}))) ;;;
      ret None
  end.

(** ** [ip_security.py] *)

Definition _route_overrides_ip_lists (route_config : option RouteConfig) : bool :=
  match route_config with Some rc => truthy_list (rc_ip_whitelist rc) | None => false end.

Definition _route_country_whitelist_matched (client_ip : string) (route_config : option RouteConfig)
  (geo : option GeoHandler) : res bool :=
  match route_config with
  | None => Ok false
  | Some rc => bind_res (check_country_access client_ip rc geo) (fun r => Ok (bool_decide (r = Some true)))
  end.

Definition _resolve_is_whitelisted config (is_allowed skip_ip_lists : bool) : bool :=
  is_allowed && truthy_list (whitelist config) && negb skip_ip_lists.

Definition _resolve_is_exempt (client_ip : string) config (is_allowed skip_ip_lists : bool) : res bool :=
  if negb is_allowed || skip_ip_lists || negb (nonempty (exempt_ips config)) then Ok false
  else match ip_address client_ip with
       | None => Ok false
       | Some addr => _ip_in_list addr client_ip (Some (exempt_ips config))
       end.

Definition _classify_route_ip_denial (route_config : RouteConfig) (geo : option GeoHandler) (client_ip : string)
  (country_result : option bool) : res (string * string) :=
  if negb (bool_decide (country_result = Some false)) || truthy_list (rc_ip_whitelist route_config) ||
     truthy_list (rc_ip_blacklist route_config)
  then Ok ("access_control", "ip_restriction")
  else
    match rc_blocked_countries route_config, geo with
    | Some ((_ :: _) as blocked), Some geo =>
        bind_res (geo_get_country geo client_ip) (fun country =>
          Ok (match country with
              | Some c => if in_list c blocked then ("block_countries", "country_restriction")
                          else ("allow_countries", "country_restriction")
              | None => ("allow_countries", "country_restriction")
              end))
    | Some (_ :: _), None => Raise (OtherError "AttributeError" "'NoneType' object has no attribute 'get_country'")
    | _, _ => Ok ("allow_countries", "country_restriction")
    end.

Definition _check_banned_ip mw request (client_ip : string) (route_config : option RouteConfig)
  : W (option Response) :=
  let config := mw_config mw in
  if should_bypass_check "ip_ban" route_config then ret None
  else
    let* banned := on_bans (is_ip_banned client_ip) in
    if negb banned then ret None
    else
      let reason := "Banned IP attempted access: " +:+ client_ip in
      log_suspicious config request "ip_security" reason ;;;
      send_event mw "ip_blocked" request (action_of config) reason
        [("ip_address", client_ip); ("filter_type", "banned")] ;;;
      deny config 403 "IP address banned".

Definition _check_route_ip_restrictions mw request (client_ip : string) (route_config : RouteConfig)
  : W (option Response) :=
  let config := mw_config mw in
  let* route_allowed := lift_res (check_route_ip_access client_ip route_config (mw_geo mw)) in
  match route_allowed with
  | Some false =>
      let reason := "IP not allowed by route config: " +:+ client_ip in
      log_suspicious config request "ip_security" reason ;;;
      let* country_result := lift_res (check_country_access client_ip route_config (mw_geo mw)) in
      let* (decorator_type, violation_type) :=
        lift_res (_classify_route_ip_denial route_config (mw_geo mw) client_ip country_result) in
      emit_access_denied_event mw request "decorator_violation" ("IP " +:+ client_ip +:+ " blocked") decorator_type
        [("violation_type", violation_type)] ;;;
      unless_passive config
        (escalate_identity_violation mw request client_ip "ip_security" "ip_restriction" reason ;;;
         create_error_response config 403 "Forbidden")
  | _ => ret None
  end.

(** The access decision, and whether the client is whitelisted and exempt. *)
Definition _resolve_global_ip_access mw (client_ip : string) (route_config : option RouteConfig)
  : W (IpAccessResult * bool * bool) :=
  let config := mw_config mw in
  let skip_ip_lists := _route_overrides_ip_lists route_config in
  let* skip_countries := lift_res (_route_country_whitelist_matched client_ip route_config (mw_geo mw)) in
  let* access_result := on_clouds (check_ip_access client_ip config (mw_geo mw) skip_ip_lists skip_countries) in
  let is_whitelisted := _resolve_is_whitelisted config (allowed access_result) skip_ip_lists in
  let* is_exempt := lift_res (_resolve_is_exempt client_ip config (allowed access_result) skip_ip_lists) in
  ret (access_result, is_whitelisted, is_exempt).

Definition optional_kwarg (name : string) (value : option string) : list (string * string) :=
  match value with Some (String _ _ as v) => [(name, v)] | _ => [] end.

Definition _check_global_ip_restrictions mw request (client_ip : string) (route_config : option RouteConfig)
  (escalate : bool) (precomputed : option (IpAccessResult * bool * bool)) : W (option Response) :=
  let config := mw_config mw in
  let* (access_result, is_whitelisted, is_exempt) :=
    match precomputed with
    | Some p => ret p
    | None => _resolve_global_ip_access mw client_ip route_config
    end in
  set_state (fun s => s {{ st_is_whitelisted := is_whitelisted; st_is_exempt := is_exempt }}) ;;;
  if allowed access_result then ret None
  else
    log_suspicious config request "ip_security"
      ("IP not allowed: " +:+ client_ip +:+ " - " +:+ ac_reason access_result) ;;;
    send_event mw "ip_blocked" request (action_of config) (ac_reason access_result)
      ([("ip_address", client_ip); ("filter_type", "global")] ++
       optional_kwarg "cloud_provider" (ac_cloud_provider access_result) ++
       optional_kwarg "network" (ac_network access_result)) ;;;
    unless_passive config
      (when escalate (escalate_identity_violation mw request client_ip "ip_security" "ip_blocked"
                        (ac_reason access_result)) ;;;
       create_error_response config 403 "Forbidden").

Definition IpSecurityCheck_check mw request : W (option Response) :=
  let* client_ip := state st_client_ip in
  let* route_config := state st_route_config in
  match client_ip with
  | Some (String _ _ as client_ip) =>
      or_else (_check_banned_ip mw request client_ip route_config)
        (let* exclusion_scoped := state st_exclusion_scoped in
         if exclusion_scoped then _check_global_ip_restrictions mw request client_ip None false None
         else if should_bypass_check "ip" route_config then ret None
         else
           match route_config with
           | Some rc =>
               let* precomputed := _resolve_global_ip_access mw client_ip route_config in
               or_else (_check_route_ip_restrictions mw request client_ip rc)
                 (_check_global_ip_restrictions mw request client_ip route_config true (Some precomputed))
           | None => _check_global_ip_restrictions mw request client_ip route_config true None
           end)
  | _ => ret None
  end.

(** ** [cloud_provider.py] *)

Definition route_blocks_clouds (route_config : option RouteConfig) : bool :=
  match route_config with Some rc => nonempty (rc_block_cloud_providers rc) | None => false end.

Definition _emit_cloud_block_events mw request (client_ip : string) (cloud_providers_to_check : list string)
  (route_config : option RouteConfig) : W unit :=
  let blocks := route_blocks_clouds route_config in
  send_cloud_detection_events mw request client_ip cloud_providers_to_check
    (if blocks then None else route_config) ;;;
  when blocks
    (emit_access_denied_event mw request "decorator_violation" ("Cloud provider IP " +:+ client_ip +:+ " blocked")
       "block_clouds" [("violation_type", "cloud_provider");
                       ("blocked_providers", show_list cloud_providers_to_check)]).

(** [is_whitelisted or is_exempt] *)
Definition whitelisted_or_exempt : W bool :=
  let* w := state st_is_whitelisted in let* e := state st_is_exempt in ret (w || e).

Definition CloudProviderCheck_check mw request : W (option Response) :=
  let config := mw_config mw in
  let* skip := whitelisted_or_exempt in
  if skip then ret None
  else
    let* client_ip := state st_client_ip in
    let* route_config := state st_route_config in
    match client_ip with
    | Some (String _ _ as client_ip) =>
        if should_bypass_check "clouds" route_config then ret None
        else
          match get_cloud_providers_to_check config route_config with
          | None => ret None
          | Some providers =>
              let* hit := on_clouds (is_cloud_ip client_ip providers) in
              if negb hit then ret None
              else
                log_suspicious config request "cloud_provider" ("Blocked cloud provider IP: " +:+ client_ip) ;;;
                _emit_cloud_block_events mw request client_ip providers route_config ;;;
                deny config 403 "Cloud provider IP not allowed"
          end
    | _ => ret None
    end.

(** ** [user_agent.py] *)

Definition UserAgentCheck_check mw request : W (option Response) :=
  let config := mw_config mw in
  let* skip := whitelisted_or_exempt in
  if skip then ret None
  else
    let* route_config := state st_route_config in
    let user_agent := header_or request "User-Agent" "" in
    let* allowed := check_user_agent_allowed user_agent route_config config in
    if allowed then ret None
    else
      let* redacted_user_agent := lift_res (display_header_value config user_agent) in
      log_suspicious config request "user_agent" ("Blocked user agent: " +:+ redacted_user_agent) ;;;
      (if match route_config with Some rc => nonempty (rc_blocked_user_agents rc) | None => false end then
         emit_decorator_event mw request "decorator_violation" (action_of config)
           ("User agent '" +:+ redacted_user_agent +:+ "' blocked") "access_control"
           [("violation_type", "user_agent"); ("blocked_user_agent", redacted_user_agent)]
       else
         send_event mw "user_agent_blocked" request (action_of config)
           ("User agent '" +:+ redacted_user_agent +:+ "' in global blocklist")
           [("user_agent", redacted_user_agent); ("filter_type", "global")]) ;;;
      unless_passive config
        (let* client_ip := state st_client_ip in
         match client_ip with
         | Some (String _ _ as client_ip) =>
             escalate_identity_violation mw request client_ip "user_agent" "user_agent"
               ("Blocked user agent: " +:+ redacted_user_agent)
         | _ => ret tt
         end ;;;
         create_error_response config 403 "User-Agent not allowed").

(** ** [rate_limit.py] *)

(** The [event_kwargs] of a violation; the decorator type is that of the route
    and geo limits. *)
Record RateLimitEvent : Type := mkRateEvent {
  re_reason : string;
  re_decorator_type : option string;
  re_limit : Z;
  re_window : Z;
  re_other : list (string * string)
}.

Definition re_metadata (ev : RateLimitEvent) : list (string * string) :=
  re_other ev ++ [("rate_limit", string_of_Z (re_limit ev)); ("window", string_of_Z (re_window ev))].

Definition _send_rate_limit_event mw request (event_type : string) (ev : RateLimitEvent) : W unit :=
  match re_decorator_type ev with
  | Some "rate_limiting" =>
      emit_rate_limit_event mw request event_type (re_limit ev) (re_window ev) (re_reason ev)
  | Some ("geo_rate_limiting" as decorator_type) =>
      emit_decorator_event mw request event_type (action_of (mw_config mw)) (re_reason ev) decorator_type (re_metadata ev)
  | _ => send_event mw event_type request (action_of (mw_config mw)) (re_reason ev) (re_metadata ev)
  end.

Definition _record_rate_limit_autoban mw request (client_ip trigger : string) : W unit :=
  let config := mw_config mw in
  if negb (enable_rate_limit_auto_ban config) then ret tt
  else
    increment_suspicious_counts client_ip ["rate_limit"] ;;;
    _try_threshold_ban config request client_ip trigger "rate_limit" ["rate_limit"] "rate_limit_exceeded" ;;;
    ret tt.

Definition _apply_rate_limit_check mw request (client_ip : string) (limit window : Z) (event_type : string)
  (ev : RateLimitEvent) (endpoint_path : string) : W (option Response) :=
  let config := mw_config mw in
  let* result := check_rate_limit config config request client_ip endpoint_path (Some limit) (Some window) in
  match result with
  | None => ret None
  | Some response =>
      _send_rate_limit_event mw request event_type ev ;;;
      if passive_mode config then ret None
      else _record_rate_limit_autoban mw request client_ip (re_reason ev) ;;; ret (Some response)
  end.

Definition per_window (limit window : Z) : string :=
  string_of_Z limit +:+ " requests per " +:+ string_of_Z window +:+ "s".

Definition _check_endpoint_rate_limit mw request (client_ip endpoint_path : string) : W (option Response) :=
  match dget endpoint_path (endpoint_rate_limits (mw_config mw)) with
  | None => ret None
  | Some (limit, window) =>
      let* safe_endpoint := lift_res (display_endpoint (mw_config mw) endpoint_path) in
      _apply_rate_limit_check mw request client_ip limit window "dynamic_rule_violation"
        {| re_reason := "Endpoint-specific rate limit exceeded: " +:+ per_window limit window +:+ " for " +:+ safe_endpoint;
           re_decorator_type := None; re_limit := limit; re_window := window;
           re_other := [("rule_type", "endpoint_rate_limit"); ("endpoint", safe_endpoint)] |}
        endpoint_path
  end.

Definition _check_route_rate_limit mw request (client_ip : string) (route_config : option RouteConfig)
  : W (option Response) :=
  match route_config with
  | Some rc =>
      match rc_rate_limit rc with
      | Some limit =>
          let window := or_default (rc_rate_limit_window rc) 60 in
          _apply_rate_limit_check mw request client_ip limit window "decorator_violation"
            {| re_reason := "Route-specific rate limit exceeded: " +:+ per_window limit window;
               re_decorator_type := Some "rate_limiting"; re_limit := limit; re_window := window;
               re_other := [("violation_type", "rate_limit")] |}
            (rq_path request)
      | None => ret None
      end
  | None => ret None
  end.

(** The limit for a country: its own, or that of "*". *)
Definition geo_limit (limits : list (string * (Z * Z))) (country : option string) : option (Z * Z) :=
  match known_country country with
  | Some c => match dget c limits with Some l => Some l | None => dget "*" limits end
  | None => dget "*" limits
  end.

Definition _check_geo_rate_limit mw request (client_ip : string) (route_config : option RouteConfig)
  : W (option Response) :=
  match route_config, mw_config_geo mw with
  | Some rc, Some geo =>
      match rc_geo_rate_limits rc with
      | Some ((_ :: _) as limits) =>
          let* country := lift_res (geo_get_country geo client_ip) in
          match geo_limit limits country with
          | Some (limit, window) =>
              _apply_rate_limit_check mw request client_ip limit window "decorator_violation"
                {| re_reason := "Geo rate limit exceeded for " +:+ default "unknown" (known_country country) +:+ ": " +:+
                                per_window limit window;
                   re_decorator_type := Some "geo_rate_limiting"; re_limit := limit; re_window := window;
                   re_other := [("violation_type", "geo_rate_limit")] |}
                (rq_path request)
          | None => ret None
          end
      | _ => ret None
      end
  | _, _ => ret None
  end.

Definition _check_global_rate_limit mw request (client_ip : string) : W (option Response) :=
  let config := mw_config mw in
  let* result := check_rate_limit config config request client_ip "" (Some (rate_limit config))
                   (Some (rate_limit_window config)) in
  match result with
  | None => ret None
  | Some response =>
      if passive_mode config then ret None
      else _record_rate_limit_autoban mw request client_ip "Global rate limit exceeded" ;;; ret (Some response)
  end.

Definition RateLimitCheck_check mw request : W (option Response) :=
  let* skip := whitelisted_or_exempt in
  if skip then ret None
  else
    let* client_ip := state st_client_ip in
    let* route_config := state st_route_config in
    match client_ip with
    | Some (String _ _ as client_ip) =>
        if should_bypass_check "rate_limit" route_config then ret None
        else
          or_else (_check_endpoint_rate_limit mw request client_ip (rq_path request))
            (or_else (_check_route_rate_limit mw request client_ip route_config)
               (or_else (_check_geo_rate_limit mw request client_ip route_config)
                  (_check_global_rate_limit mw request client_ip)))
    | _ => ret None
    end.

(** ** [suspicious_activity.py] *)

Definition _handle_suspicious_passive_mode mw request (client_ip trigger : string) : W unit :=
  let config := mw_config mw in
  log_activity config request LogSuspicious ("Suspicious activity detected: " +:+ client_ip) true trigger
    (log_suspicious_level config) (Some "suspicious_activity") (on_block config) ;;;
  let* request_count := _total_count_for_ip client_ip in
  send_event mw "penetration_attempt" request "logged_only"
    ("Suspicious pattern detected (passive mode): " +:+ trigger)
    [("request_count", string_of_Z request_count); ("passive_mode", "True"); ("trigger_info", trigger)].

Definition _handle_suspicious_active_mode mw request (client_ip trigger : string) (threat_categories : list string)
  : W Response :=
  let config := mw_config mw in
  let* banned := _try_threshold_ban config request client_ip trigger "suspicious_activity" threat_categories
                   "penetration_attempt" in
  if banned then create_error_response config 403 "IP has been banned"
  else
    log_activity config request LogSuspicious
      ("Suspicious activity detected for IP: " +:+ client_ip +:+ " - " +:+ trigger) false ""
      (log_suspicious_level config) (Some "suspicious_activity") (on_block config) ;;;
    let* request_count := _total_count_for_ip client_ip in
    send_event mw "penetration_attempt" request "request_blocked" ("Penetration attempt detected: " +:+ trigger)
      [("request_count", string_of_Z request_count); ("trigger_info", trigger)] ;;;
    create_error_response config 400 "Suspicious activity detected".

Definition SuspiciousActivityCheck_check mw request : W (option Response) :=
  let config := mw_config mw in
  let* whitelisted := state st_is_whitelisted in
  if whitelisted then ret None
  else
    let* client_ip := state st_client_ip in
    let* route_config := state st_route_config in
    match client_ip with
    | Some (String _ _ as client_ip) =>
        let* result := get_cached_detection_result request route_config config in
        if (trigger_info result =? "disabled_by_decorator")%string then
          send_event mw "decorator_violation" request "detection_disabled"
            "Suspicious pattern detection disabled by route decorator"
            [("decorator_type", "advanced"); ("violation_type", "suspicious_detection_disabled")] ;;;
          ret None
        else if negb (is_threat result) then ret None
        else
          increment_suspicious_counts client_ip (threat_categories result) ;;;
          if passive_mode config then
            _handle_suspicious_passive_mode mw request client_ip (trigger_info result) ;;; ret None
          else
            let* r := _handle_suspicious_active_mode mw request client_ip (trigger_info result)
                        (threat_categories result) in
            ret (Some r)
    | _ => ret None
    end.

(** ** [custom_request.py] *)

Definition CustomRequestCheck_check mw request : W (option Response) :=
  let config := mw_config mw in
  match custom_request_check config with
  | None => ret None
  | Some f =>
      let* custom_response := on_sys (custom_request_check_fn f request) in
      match custom_response with
      | None => ret None
      | Some r =>
          send_event mw "custom_request_check" request (action_of config)
            "Custom request check returned blocking response"
            [("response_status", string_of_Z (rs_status r)); ("check_function", f)] ;;;
          unless_passive config (apply_modifier config r)
      end
  end.

(** ** When a check applies *)

Definition always (config : SecurityConfig) (route_configs : option (list RouteConfig)) : bool := true.

Definition on_routes (p : RouteConfig -> bool) (config : SecurityConfig) (route_configs : option (list RouteConfig))
  : bool := route_config_applies route_configs p.

Definition RateLimitCheck_applies config (route_configs : option (list RouteConfig)) : bool :=
  enable_rate_limiting config || nonempty (endpoint_rate_limits config) ||
  route_config_applies route_configs (fun rc => is_some (rc_rate_limit rc) || truthy_list (rc_geo_rate_limits rc)) ||
  enable_dynamic_rules config.

Definition CloudCheck_applies config (route_configs : option (list RouteConfig)) : bool :=
  cloud_blocking_enabled config ||
  route_config_applies route_configs (fun rc => nonempty (rc_block_cloud_providers rc)).

(** [DEFAULT_CHECK_CLASSES] ([guard_core/core/checks/factory.py]), in order *)
Definition DEFAULT_CHECK_CLASSES : list SecurityCheck := [
  mkCheck "route_config" true always RouteConfigCheck_check;
  mkCheck "emergency_mode" false (fun config _ => emergency_mode config || enable_dynamic_rules config)
    EmergencyModeCheck_check;
  mkCheck "https_enforcement" false
    (fun config rcs => enforce_https config || route_config_applies rcs rc_require_https) HttpsEnforcementCheck_check;
  mkCheck "request_logging" false (fun config _ => is_some (log_request_level config)) RequestLoggingCheck_check;
  mkCheck "request_size_content" false
    (on_routes (fun rc => is_some (rc_max_request_size rc) || truthy_list (rc_allowed_content_types rc)))
    RequestSizeContentCheck_check;
  mkCheck "required_headers" false (on_routes (fun rc => nonempty (rc_required_headers rc))) RequiredHeadersCheck_check;
  mkCheck "authentication" false
    (on_routes (fun rc => truthy_str (rc_auth_required rc) || rc_api_key_required rc ||
                          truthy_str (rc_authorization_header_required rc))) AuthenticationCheck_check;
  mkCheck "referrer" false (on_routes (fun rc => truthy_list (rc_require_referrer rc))) ReferrerCheck_check;
  mkCheck "custom_validators" false (on_routes (fun rc => nonempty (rc_custom_validators rc)))
    CustomValidatorsCheck_check;
  mkCheck "time_window" false (on_routes (fun rc => truthy_list (rc_time_restrictions rc))) TimeWindowCheck_check;
  mkCheck "cloud_ip_refresh" false CloudCheck_applies CloudIpRefreshCheck_check;
  mkCheck "ip_security" true always IpSecurityCheck_check;
  mkCheck "cloud_provider" false CloudCheck_applies CloudProviderCheck_check;
  mkCheck "user_agent" false
    (fun config rcs => nonempty (blocked_user_agents config) ||
       route_config_applies rcs (fun rc => nonempty (rc_blocked_user_agents rc)) || enable_dynamic_rules config)
    UserAgentCheck_check;
  mkCheck "rate_limit" true RateLimitCheck_applies RateLimitCheck_check;
  mkCheck "suspicious_activity" false
    (fun config rcs => enable_penetration_detection config ||
       route_config_applies rcs rc_enable_suspicious_detection || enable_dynamic_rules config)
    SuspiciousActivityCheck_check;
  mkCheck "custom_request" false (fun config _ => is_some (custom_request_check config)) CustomRequestCheck_check
].
End checks.
