(* ===== verification/Pipeline.v ===== *)
(** The check pipeline: [guard_core/core/checks/pipeline.py] and the default one
    of [guard_core/core/checks/factory.py].

    The checks run in order on one request until one of them blocks it; a check
    that raises blocks it too unless the configuration says otherwise. *)
From S2P Require Import Prelude PyStr PyDict IpAddr IpAddrText Sys Sample Config Redaction Request IpExtraction TTL Redis.
From S2P Require Import IpBan RateLimit Cloud AccessControl Middleware Helpers RateLimiter SampleEngine Checks.
From S2P Require Import Json SecurityHeaders.

Section pipeline.
Context `{Eng : Engine} `{C : !TTLCache string Z BAN_CACHE_SIZE (seconds LOCAL_CACHE_TTL_CAP_SECONDS)}
  `{P : !TTLCache string bool PATH_CACHE_SIZE PATH_CACHE_TTL}
  `{HC : !TTLCache string headers HEADERS_CACHE_SIZE HEADERS_CACHE_TTL}.

Implicit Types (mw : Middleware) (request : Request) (config : SecurityConfig).

(** ** Running the checks *)

Definition unless_muted (muted_check_logs : list string) (name : string) (m : W unit) : W unit :=
  if in_list name muted_check_logs then ret tt else m.

(** [type(error).__name__] *)
Definition exn_class (e : exn) : string :=
  match e with
  | ValueError _ => "ValueError" | KeyError _ => "KeyError" | IndexError _ => "IndexError" | TypeError _ => "TypeError"
  | RedisError _ => "RedisError" | NoScriptError _ => "NoScriptError" | GuardRedisError _ _ => "GuardRedisError"
  | OtherError cls _ => cls
  end.

Definition _handle_check_error mw (muted : list string) (c : SecurityCheck) (error : exn) : W (option Response) :=
  let config := mw_config mw in
  let name := check_name c in
  if is_guard_redis_error error && redis_fail_open config then
    unless_muted muted name (on_sys (log WARNING ("Skipping check " +:+ name +:+
      ": Redis unavailable, failing open (redis_fail_open=True)"))) ;;;
    ret None
  else
    unless_muted muted name
      (let* safe_message := lift_res (display_header_value config (exn_message error)) in
       on_sys (log ERROR ("Error in security check " +:+ name +:+ " (" +:+ exn_class error +:+ "): " +:+ safe_message))) ;;;
    if fail_secure config then
      unless_muted muted name (on_sys (log WARNING
        ("Blocking request due to check error in fail-secure mode: " +:+ name))) ;;;
      let* response := create_error_response config 500 "Security check failed" in
      ret (Some response)
    else ret None.

(** [_fire_block_hook] of the pipeline: the reason is the one the check left in
    the request's state. *)
Definition pipeline_fire_block_hook mw (c : SecurityCheck) request (response : Response) : W unit :=
  let* stash := state st_block_stash in
  let '(reason, trigger) := default ("", "") stash in
  fire_block_hook (mw_config mw) (on_block (mw_config mw)) request (check_name c) reason trigger false (Some (rs_status response)).

(** The attempt at one check: its response, which is reported. *)
Definition attempt mw request (muted : list string) (c : SecurityCheck) : W (option Response) :=
  let* response := check c mw request in
  match response with
  | Some response =>
      unless_muted muted (check_name c) (on_sys (log DEBUG ("Request blocked by " +:+ check_name c))) ;;;
      pipeline_fire_block_hook mw c request response ;;;
      ret (Some response)
  | None => ret None
  end.

(** One check: what the attempt gives, or what its error is turned into. *)
Definition run_check mw request (muted : list string) (c : SecurityCheck) : W (option Response) :=
  catch any_exn (attempt mw request muted c) (_handle_check_error mw muted c).

Fixpoint run_checks mw request (muted : list string) (exclusion_scoped : bool) (checks : list SecurityCheck)
  : W (option Response) :=
  match checks with
  | [] => ret None
  | c :: checks' =>
      if exclusion_scoped && negb (enforced_on_excluded_paths c)
      then run_checks mw request muted exclusion_scoped checks'
      else or_else (run_check mw request muted c) (run_checks mw request muted exclusion_scoped checks')
  end.

(** ** The pipeline object *)

(** [SecurityCheckPipeline], without what it reads through [config] *)
Record Pipeline : Type := mkPipeline {
  pl_checks : list SecurityCheck;
  pl_muted : list string;
  _built_revision : Z;
  _built_signature : list Z;
  _built_route_config_revision : option Z
}.

(** What a pipeline is rebuilt from: the configuration and the decorator with their
    revision counters, and the function that builds the checks.  A pipeline may
    have none of it ([config] or [rebuild_checks] being [None]). *)
Record BuildSource : Type := mkSource {
  bs_config : SecurityConfig;
  bs_revision : Z;
  bs_route_config_revision : option Z;
  _rebuild_checks : res (list SecurityCheck)
}.

Definition _container_size {A} (value : option (list A)) : Z :=
  match value with Some l => Z.of_nat (length l) | None => 0 end.

(** The sizes of [WATCHED_CONTAINER_FIELDS] *)
Definition _container_signature config : list Z :=
  [_container_size (block_cloud_providers config); _container_size (Some (blocked_user_agents config));
   _container_size (Some (endpoint_rate_limits config))].

Definition _is_stale (src : BuildSource) (pl : Pipeline) : bool :=
  negb (bs_revision src =? _built_revision pl)%Z ||
  negb (bool_decide (_container_signature (bs_config src) = _built_signature pl)) ||
  negb (bool_decide (bs_route_config_revision src = _built_route_config_revision pl)).

(** A pipeline for the present state of the source. *)
Definition pipeline_of (src : BuildSource) (checks : list SecurityCheck) : Pipeline :=
  {| pl_checks := checks; pl_muted := muted_check_logs (bs_config src); _built_revision := bs_revision src;
     _built_signature := _container_signature (bs_config src);
     _built_route_config_revision := bs_route_config_revision src |}.

Definition on_world {A} (m : W A) : M (World * Pipeline) A := zoom fst (fun w p => (w, snd p)) m.

Definition _rebuild_if_stale (src : BuildSource) : M (World * Pipeline) unit :=
  let* pl := gets snd in
  if negb (_is_stale src pl) then ret tt
  else
    let* checks := lift_res (_rebuild_checks src) in
    modify (fun p => (fst p, pipeline_of src checks)).

Definition _handle_rebuild_error (src : BuildSource) (error : exn) : M (World * Pipeline) (option Response) :=
  on_world (on_sys (log ERROR ("Error rebuilding security checks: " +:+ exn_message error))) ;;;
  if negb (fail_secure (bs_config src)) then ret None
  else
    let* pl := gets snd in
    match pl_checks pl with
    | [] => raise error
    | _ :: _ =>
        on_world (on_sys (log WARNING "Blocking request due to rebuild error in fail-secure mode")) ;;;
        let* response := on_world (create_error_response (bs_config src) 500 "Security check failed") in
        ret (Some response)
    end.

Definition execute mw (src : option BuildSource) request : M (World * Pipeline) (option Response) :=
  let* rebuild_response :=
    match src with
    | Some src => catch any_exn (_rebuild_if_stale src ;;; ret None) (_handle_rebuild_error src)
    | None => ret None
    end in
  match rebuild_response with
  | Some response => ret (Some response)
  | None =>
      on_world (on_sys time_monotonic) ;;;
      let* exclusion_scoped := on_world (state st_exclusion_scoped) in
      let* pl := gets snd in
      on_world (run_checks mw request (pl_muted pl) exclusion_scoped (pl_checks pl))
  end.

(** [add_check], [insert_check], [remove_check], [get_check_names] *)
Definition add_check (c : SecurityCheck) (pl : Pipeline) : Pipeline := pl {{ pl_checks ::= fun l => l ++ [c] }}.

(** [list.insert] at an index that is not negative; past the end it appends *)
Definition insert_check (index : nat) (c : SecurityCheck) (pl : Pipeline) : Pipeline :=
  pl {{ pl_checks ::= fun l => take index l ++ c :: drop index l }}.

Fixpoint remove_first (name : string) (l : list SecurityCheck) : option (list SecurityCheck) :=
  match l with
  | [] => None
  | c :: l' => if (check_name c =? name)%string then Some l' else option_map (cons c) (remove_first name l')
  end.

Definition remove_check (name : string) (pl : Pipeline) : bool * Pipeline :=
  match remove_first name (pl_checks pl) with
  | Some l => (true, pl {{ pl_checks := l }})
  | None => (false, pl)
  end.

Definition get_check_names (pl : Pipeline) : list string := map check_name (pl_checks pl).

(** ** The default pipeline *)

Definition _collect_route_configs mw : option (list RouteConfig) :=
  option_map (fun d => map snd (_route_configs d)) (mw_decorator mw).

Definition _build_checks mw : list SecurityCheck :=
  List.filter (fun c => applies_to c (mw_config mw) (_collect_route_configs mw)) DEFAULT_CHECK_CLASSES.

(** The source of the default pipeline, given the two revision counters. *)
Definition default_source mw (revision : Z) (route_config_revision : option Z) : BuildSource :=
  {| bs_config := mw_config mw; bs_revision := revision; bs_route_config_revision := route_config_revision;
     _rebuild_checks := Ok (_build_checks mw) |}.

Definition build_default_pipeline mw (revision : Z) (route_config_revision : option Z) : Pipeline :=
  pipeline_of (default_source mw revision route_config_revision) (_build_checks mw).
End pipeline.

(** * What the pipeline does, whatever its checks *)

Section pipeline_facts.
Context `{Eng : Engine} `{C : !TTLCache string Z BAN_CACHE_SIZE (seconds LOCAL_CACHE_TTL_CAP_SECONDS)}
  `{P : !TTLCache string bool PATH_CACHE_SIZE PATH_CACHE_TTL}
  `{HC : !TTLCache string headers HEADERS_CACHE_SIZE HEADERS_CACHE_TTL}.

Context (mw : Middleware) (request : Request) (muted : list string) (scoped : bool).

Lemma log_run l msg (w : World) : exists w', on_sys (log l msg) w = (Ok tt, w').
Proof. by eexists. Qed.

Lemma unless_muted_run name l msg (w : World) : exists w', unless_muted muted name (on_sys (log l msg)) w = (Ok tt, w').
Proof. unfold unless_muted. destruct (in_list name muted); by eexists. Qed.

Lemma or_else_none (m k : W (option Response)) w w1 : m w = (Ok None, w1) -> or_else m k w = k w1.
Proof. intros Hm. unfold or_else. by rewrite (bind_ok _ _ _ _ _ Hm). Qed.

Lemma or_else_some (m k : W (option Response)) w r w1 : m w = (Ok (Some r), w1) -> or_else m k w = (Ok (Some r), w1).
Proof. intros Hm. unfold or_else. by rewrite (bind_ok _ _ _ _ _ Hm). Qed.

Lemma or_else_raise (m k : W (option Response)) w e w1 : m w = (Raise e, w1) -> or_else m k w = (Raise e, w1).
Proof. intros Hm. unfold or_else. by rewrite (bind_raise _ _ _ _ _ Hm). Qed.

(** The errors the configuration lets a request pass with. *)
Definition tolerated (config : SecurityConfig) (e : exn) : bool :=
  is_guard_redis_error e && redis_fail_open config || negb (fail_secure config).

(** The message of an error can be shown in the log, if it is. *)
Definition reported (c : SecurityCheck) (e : exn) : bool :=
  is_guard_redis_error e && redis_fail_open (mw_config mw) || in_list (check_name c) muted ||
  match display_header_value (mw_config mw) (exn_message e) with Ok _ => true | Raise _ => false end.

(** The state after an error has been reported. *)
Definition after_error (c : SecurityCheck) (e : exn) (w : World) : World := snd (_handle_check_error mw muted c e w).

Lemma error_log_run c e w :
  in_list (check_name c) muted || match display_header_value (mw_config mw) (exn_message e) with Ok _ => true | Raise _ => false end = true ->
  exists w', unless_muted muted (check_name c)
    (let* safe_message := lift_res (display_header_value (mw_config mw) (exn_message e)) in
     on_sys (log ERROR ("Error in security check " +:+ check_name c +:+ " (" +:+ exn_class e +:+ "): " +:+ safe_message))) w = (Ok tt, w').
Proof.
  unfold unless_muted, lift_res, bind. destruct (in_list (check_name c) muted); [by eexists|].
  destruct (display_header_value _ _); [by eexists|done].
Qed.

Lemma handle_tolerated c e w :
  tolerated (mw_config mw) e = true -> reported c e = true -> _handle_check_error mw muted c e w = (Ok None, after_error c e w).
Proof.
  intros Ht Hr. enough (fst (_handle_check_error mw muted c e w) = Ok None) as Hn.
  { unfold after_error. destruct (_handle_check_error mw muted c e w) as [r w']. cbn [fst snd] in *. by subst r. }
  unfold _handle_check_error, tolerated, reported in *. destruct (is_guard_redis_error e && redis_fail_open _); cbn [orb] in *.
  - destruct (unless_muted_run (check_name c) WARNING ("Skipping check " +:+ check_name c +:+
      ": Redis unavailable, failing open (redis_fail_open=True)") w) as [w' Hw]. by rewrite (bind_ok _ _ _ _ _ Hw).
  - apply negb_true_iff in Ht. destruct (error_log_run c e w) as [w' Hw]; [exact Hr|]. by rewrite (bind_ok _ _ _ _ _ Hw), Ht.
Qed.

(** Where errors are not tolerated, the answer is an error response, or the
    construction of that response raises. *)
Lemma handle_untolerated c e w :
  tolerated (mw_config mw) e = false -> reported c e = true ->
  exists w1 w2, _handle_check_error mw muted c e w =
    (match create_error_response (mw_config mw) 500 "Security check failed" w1 with
     | (Ok r, w2) => Ok (Some r) | (Raise e, w2) => Raise e end, w2).
Proof.
  unfold _handle_check_error, tolerated, reported. intros [-> Hs%negb_false_iff]%orb_false_iff Hr. cbn [orb] in Hr.
  destruct (error_log_run c e w Hr) as [w1 Hw]. rewrite (bind_ok _ _ _ _ _ Hw), Hs. unfold bind. destruct (unless_muted_run (check_name c) WARNING
    ("Blocking request due to check error in fail-secure mode: " +:+ check_name c) w1) as [w2 ->].
  exists w2. destruct (create_error_response _ _ _ w2) as [[r|x] w3]; by eexists.
Qed.

(** An error that is not tolerated, or cannot be reported, lets nothing pass. *)
Lemma handle_none c e w w' : _handle_check_error mw muted c e w = (Ok None, w') -> tolerated (mw_config mw) e = true /\ reported c e = true.
Proof.
  destruct (reported c e) eqn:Hr.
  - destruct (tolerated (mw_config mw) e) eqn:Ht; [done|]. destruct (handle_untolerated c e w Ht Hr) as (w3 & w4 & ->).
    by destruct (create_error_response _ _ _ w3) as [[x|x] w5].
  - unfold reported, _handle_check_error, unless_muted in *. apply orb_false_iff in Hr as [[-> ->]%orb_false_iff Hr].
    unfold bind, lift_res. by destruct (display_header_value _ _).
Qed.

Lemma run_check_some c r w w1 : check c mw request w = (Ok (Some r), w1) ->
  on_block (mw_config mw) = None \/ (exists path, display_url (mw_config mw) (rq_path request) = Ok path) ->
  exists w2, run_check mw request muted c w = (Ok (Some r), w2).
Proof.
  intros Hc Hpath. unfold run_check, attempt, catch. rewrite (bind_ok _ _ _ _ _ Hc).
  destruct (unless_muted_run (check_name c) DEBUG ("Request blocked by " +:+ check_name c) w1) as [w2 Hw].
  rewrite (bind_ok _ _ _ _ _ Hw). unfold pipeline_fire_block_hook, bind, state, gets.
  destruct (default ("", "") (st_block_stash (w_state w2))) as [reason trigger].
  destruct (fire_block_hook_run (mw_config mw) (on_block (mw_config mw)) request (check_name c) reason trigger false (Some (rs_status r)) w2 Hpath)
    as [w3 ->]. by eexists.
Qed.

Lemma run_check_none c w w1 : check c mw request w = (Ok None, w1) -> run_check mw request muted c w = (Ok None, w1).
Proof. intros Hc. unfold run_check, attempt, catch. by rewrite (bind_ok _ _ _ _ _ Hc). Qed.

Lemma attempt_error c e w w1 : check c mw request w = (Raise e, w1) -> attempt mw request muted c w = (Raise e, w1).
Proof. apply bind_raise. Qed.

Lemma run_check_error c e w w1 : attempt mw request muted c w = (Raise e, w1) ->
  run_check mw request muted c w = _handle_check_error mw muted c e w1.
Proof. intros Hc. unfold run_check, catch. by rewrite Hc. Qed.

(** Is the check run on this request? *)
Definition in_scope (c : SecurityCheck) : bool := negb scoped || enforced_on_excluded_paths c.

(** A request is admitted along a list of checks: every check in scope returned
    nothing, or it - or the report of its response - raised an error the configuration
    tolerates, which could be reported. *)
Inductive admits : list SecurityCheck -> World -> World -> Prop :=
| admits_nil w : admits [] w w
| admits_out_of_scope c cs w w' : in_scope c = false -> admits cs w w' -> admits (c :: cs) w w'
| admits_pass c cs w w1 w' :
    in_scope c = true -> check c mw request w = (Ok None, w1) -> admits cs w1 w' -> admits (c :: cs) w w'
| admits_tolerated c cs w w1 e w' :
    in_scope c = true -> attempt mw request muted c w = (Raise e, w1) -> tolerated (mw_config mw) e = true ->
    reported c e = true -> admits cs (after_error c e w1) w' -> admits (c :: cs) w w'.

Lemma run_checks_cons c cs w :
  run_checks mw request muted scoped (c :: cs) w =
  if in_scope c then or_else (run_check mw request muted c) (run_checks mw request muted scoped cs) w
  else run_checks mw request muted scoped cs w.
Proof. unfold in_scope. cbn [run_checks]. by destruct scoped, (enforced_on_excluded_paths c). Qed.

Lemma admits_runs cs w w' : admits cs w w' -> run_checks mw request muted scoped cs w = (Ok None, w').
Proof.
  induction 1 as [w|c cs w w' Hs H IH|c cs w w1 w' Hs Hc H IH|c cs w w1 e w' Hs Hc Ht Hrep H IH];
    [done|rewrite run_checks_cons, Hs..].
  - exact IH.
  - by rewrite (or_else_none _ _ _ _ (run_check_none c w w1 Hc)).
  - rewrite (or_else_none _ _ _ (after_error c e w1)); [exact IH|].
    rewrite (run_check_error c e w w1 Hc). by apply handle_tolerated.
Qed.

Lemma runs_admits cs : forall w w', run_checks mw request muted scoped cs w = (Ok None, w') -> admits cs w w'.
Proof.
  induction cs as [|c cs IH]; intros w w'; [intros [= <-]; constructor|].
  rewrite run_checks_cons. destruct (in_scope c) eqn:Hs; [|intros; apply admits_out_of_scope; auto].
  unfold or_else. intros (r & w1 & Hr & Hk)%bind_ok_inv. destruct r as [r|]; [done|].
  assert (forall e w2, attempt mw request muted c w = (Raise e, w2) -> admits (c :: cs) w w') as Herror.
  { intros e w2 Hc. rewrite (run_check_error c e w w2 Hc) in Hr. destruct (handle_none _ _ _ _ Hr) as [Ht Hrep].
    rewrite handle_tolerated in Hr by done. injection Hr as <-. eapply admits_tolerated; eauto. }
  destruct (attempt mw request muted c w) as [[[r|]|e] w2] eqn:Hc; [| |by eapply Herror].
  { unfold run_check, catch in Hr. by rewrite Hc in Hr. }
  unfold attempt in Hc. apply bind_ok_inv in Hc as (r & w3 & Hc & Hn). destruct r as [r|].
  { apply bind_ok_inv in Hn as (? & ? & _ & Hn). by apply bind_ok_inv in Hn as (? & ? & _ & Hn). }
  injection Hn as <-. rewrite (run_check_none c w w3 Hc) in Hr. injection Hr as <-. eapply admits_pass; eauto.
Qed.

Lemma run_checks_app cs1 cs2 w w1 :
  admits cs1 w w1 -> run_checks mw request muted scoped (cs1 ++ cs2) w = run_checks mw request muted scoped cs2 w1.
Proof.
  induction 1 as [w|c cs w w' Hs H IH|c cs w w1 w' Hs Hc H IH|c cs w w1 e w' Hs Hc Ht Hrep H IH];
    [done|cbn [app]; rewrite run_checks_cons, Hs..].
  - exact IH.
  - by rewrite (or_else_none _ _ _ _ (run_check_none c w w1 Hc)).
  - rewrite (or_else_none _ _ _ (after_error c e w1)); [exact IH|].
    rewrite (run_check_error c e w w1 Hc). by apply handle_tolerated.
Qed.
End pipeline_facts.

(** * What [execute] decides *)

Section execute.
Context `{Eng : Engine} `{C : !TTLCache string Z BAN_CACHE_SIZE (seconds LOCAL_CACHE_TTL_CAP_SECONDS)}
  `{P : !TTLCache string bool PATH_CACHE_SIZE PATH_CACHE_TTL}
  `{HC : !TTLCache string headers HEADERS_CACHE_SIZE HEADERS_CACHE_TTL}.

Context (mw : Middleware) (src : option BuildSource) (request : Request).

(** The pipeline a request meets: rebuilt when its source has changed. *)
Definition current_pipeline (pl : Pipeline) : Pipeline :=
  match src with
  | Some src => if _is_stale src pl
                then match _rebuild_checks src with Ok checks => pipeline_of src checks | Raise _ => pl end
                else pl
  | None => pl
  end.

(** Building the checks does not raise. *)
Definition rebuilds : Prop :=
  match src with Some src => exists checks, _rebuild_checks src = Ok checks | None => True end.

(** The state once the start of the request is noted. *)
Definition started (w : World) : World := snd (on_sys time_monotonic w).

Lemma execute_run w pl : rebuilds ->
  execute mw src request (w, pl) =
  let pl := current_pipeline pl in
  let '(r, w') := run_checks mw request (pl_muted pl) (st_exclusion_scoped (w_state w)) (pl_checks pl) (started w) in
  (r, (w', pl)).
Proof.
  intros Hb. unfold execute, current_pipeline, rebuilds in *.
  set (rebuild := match src with Some s => catch any_exn (_rebuild_if_stale s ;;; ret None) (_handle_rebuild_error s)
                  | None => ret None end).
  assert (rebuild (w, pl) = (Ok None, (w, match src with
    | Some src => if _is_stale src pl
                  then match _rebuild_checks src with Ok checks => pipeline_of src checks | Raise _ => pl end else pl
    | None => pl end))) as Hr.
  { subst rebuild. destruct src as [s|]; [|done]. destruct Hb as [checks Hb].
    unfold catch, bind, _rebuild_if_stale, gets, bind. cbn [snd]. destruct (_is_stale s pl); cbn [negb]; [|done].
    unfold lift_res. by rewrite Hb. }
  rewrite (bind_ok _ _ _ _ _ Hr). destruct w as [s st b rl cn cl t pt]. reflexivity.
Qed.

Lemma execute_run_inv w pl w' pl' : rebuilds -> execute mw src request (w, pl) = (Ok None, (w', pl')) ->
  pl' = current_pipeline pl /\
  admits mw request (pl_muted pl') (st_exclusion_scoped (w_state w)) (pl_checks pl') (started w) w'.
Proof.
  intros Hb. rewrite execute_run by done. cbv zeta. destruct (run_checks _ _ _ _ _ _) as [r w1] eqn:Hr.
  intros [= -> -> <-]. split; [done|]. by apply runs_admits.
Qed.

(** C25: The pipeline, after it has rebuilt itself if it had to and could, admits a
    request exactly when every check in scope, in order, returned nothing, or raised
    (itself or the report of its response to the block hook) an error that the
    configuration tolerates and that can be shown. *)
Theorem execute_admits_iff w pl w' pl' : rebuilds ->
  execute mw src request (w, pl) = (Ok None, (w', pl')) <->
  pl' = current_pipeline pl /\
  admits mw request (pl_muted pl') (st_exclusion_scoped (w_state w)) (pl_checks pl') (started w) w'.
Proof.
  intros Hb. split; [by apply execute_run_inv|]. intros [-> Ha]. rewrite execute_run by done. cbv zeta.
  by rewrite (admits_runs _ _ _ _ _ _ _ Ha).
Qed.

(** The first check to object answers: when the checks before it admit the
    request, the response of a check in scope is the response of the pipeline, and
    no later check runs. *)
Theorem execute_first_response w pl pre c post w1 r w2 : rebuilds ->
  pl_checks (current_pipeline pl) = pre ++ c :: post ->
  admits mw request (pl_muted (current_pipeline pl)) (st_exclusion_scoped (w_state w)) pre (started w) w1 ->
  in_scope (st_exclusion_scoped (w_state w)) c = true ->
  check c mw request w1 = (Ok (Some r), w2) ->
  on_block (mw_config mw) = None \/ (exists path, display_url (mw_config mw) (rq_path request) = Ok path) ->
  exists w3, execute mw src request (w, pl) = (Ok (Some r), (w3, current_pipeline pl)).
Proof.
  intros Hb Hcs Ha Hs Hc Hpath. rewrite execute_run by done. cbv zeta. rewrite Hcs.
  rewrite (run_checks_app _ _ _ _ _ _ _ _ Ha), run_checks_cons, Hs.
  destruct (run_check_some mw request (pl_muted (current_pipeline pl)) c r w1 w2 Hc Hpath) as [w3 Hr].
  rewrite (or_else_some _ _ _ _ _ Hr). by eexists.
Qed.

(** The response to a check that failed. *)
Definition failure_response (hs : headers) : Response :=
  mkResponse 500 (default "Security check failed" (dget 500 (custom_error_responses (mw_config mw)))) hs.

(** C35: With no custom response modifier and with security headers that can be sent,
    a check in scope that raises an error which is not tolerated, and whose message
    can be shown, makes the pipeline answer 500, whatever the later checks would say.
    *)
Theorem execute_fails_secure w pl pre c post w1 e w2 : rebuilds ->
  pl_checks (current_pipeline pl) = pre ++ c :: post ->
  admits mw request (pl_muted (current_pipeline pl)) (st_exclusion_scoped (w_state w)) pre (started w) w1 ->
  in_scope (st_exclusion_scoped (w_state w)) c = true ->
  check c mw request w1 = (Raise e, w2) -> tolerated (mw_config mw) e = false ->
  reported mw (pl_muted (current_pipeline pl)) c e = true -> acceptable (mw_config mw) -> custom_response_modifier (mw_config mw) = None ->
  exists hs w3, execute mw src request (w, pl) = (Ok (Some (failure_response hs)), (w3, current_pipeline pl)).
Proof.
  intros Hb Hcs Ha Hs Hc Ht Hrep Hh Hm. rewrite execute_run by done. cbv zeta. rewrite Hcs.
  rewrite (run_checks_app _ _ _ _ _ _ _ _ Ha), run_checks_cons, Hs.
  pose proof (run_check_error mw request (pl_muted (current_pipeline pl)) c e w1 w2 (attempt_error _ _ _ c e w1 w2 Hc)) as Hr.
  destruct (handle_untolerated mw (pl_muted (current_pipeline pl)) c e w2 Ht Hrep) as (w3 & w4 & He).
  destruct (create_error_response_run (mw_config mw) 500 "Security check failed" w3 Hh Hm) as (hs & w5 & Hce).
  exists hs. fold (failure_response hs) in Hce. rewrite Hce in He. rewrite He in Hr. rewrite (or_else_some _ _ _ _ _ Hr). by eexists.
Qed.
End execute.

(** * Excluded paths *)

Section excluded.
Context `{Eng : Engine} `{C : !TTLCache string Z BAN_CACHE_SIZE (seconds LOCAL_CACHE_TTL_CAP_SECONDS)}
  `{P : !TTLCache string bool PATH_CACHE_SIZE PATH_CACHE_TTL}
  `{HC : !TTLCache string headers HEADERS_CACHE_SIZE HEADERS_CACHE_TTL}.

Lemma run_checks_scoped mw request muted cs w :
  run_checks mw request muted true cs w =
  run_checks mw request muted false (List.filter enforced_on_excluded_paths cs) w.
Proof.
  revert w. induction cs as [|c cs IH]; intros w; [done|]. rewrite run_checks_cons. unfold in_scope. cbn [negb orb List.filter].
  destruct (enforced_on_excluded_paths c); [|apply IH]. rewrite run_checks_cons. unfold in_scope. cbn [negb orb].
  unfold or_else, bind. destruct (run_check mw request muted c w) as [[[r|]|e] w1]; [done|apply IH|done].
Qed.

Definition enforced_names : list string := ["route_config"; "ip_security"; "rate_limit"].

(** An excluded path is not an unguarded one: on a request whose path is
    excluded, the default pipeline does exactly what the pipeline of its client
    resolution, its address rules and bans, and its rate limits would do. *)
Theorem excluded_paths_keep_core_checks mw request muted w :
  run_checks mw request muted true (_build_checks mw) w =
  run_checks mw request muted false
    (List.filter (fun c => in_list (check_name c) enforced_names) (_build_checks mw)) w.
Proof.
  rewrite run_checks_scoped. f_equal. apply List.filter_ext_in. intros c Hc.
  apply List.filter_In in Hc as [Hc _]. unfold DEFAULT_CHECK_CLASSES in Hc. cbn [List.In] in Hc.
  repeat (destruct Hc as [<-|Hc]; [reflexivity|]). done.
Qed.
End excluded.

(** * Witnesses *)

Section witness.

#[local] Instance env : Env := sample_env (ticking 1000) redis_up.
#[local] Instance engine : Engine := sample_engine (ticking 1000) redis_up.
#[local] Instance ban_cache : TTLCache string Z BAN_CACHE_SIZE (seconds LOCAL_CACHE_TTL_CAP_SECONDS) := sample_ban_cache.
#[local] Instance path_cache : TTLCache string bool PATH_CACHE_SIZE PATH_CACHE_TTL := sample_path_cache.
#[local] Existing Instance sample_headers_cache.

#[local] Abbreviation mw := (sample_middleware plain_config).

(** A check that passes, one that objects, and one that fails. *)
Definition passing : SecurityCheck := mkCheck "passing" true always (fun _ _ => ret None).
Definition objecting : SecurityCheck := mkCheck "objecting" true always (fun _ _ => ret (Some (mkResponse 403 "no" []))).
Definition failing : SecurityCheck := mkCheck "failing" true always (fun _ _ => raise (ValueError "bad")).

Definition home_request : Request := get_request "/" "198.51.100.7" [].
Definition home_world : World := sample_world (ticking 1000) redis_up plain_config None.
Definition pipeline_with (checks : list SecurityCheck) : Pipeline := mkPipeline checks [] 0 [] None.

(** The pipeline is rebuilt for the request, and admits it. *)
Lemma execute_admits_iff_witness :
  let src := Some (default_source mw 7 (Some 1%Z)) in
  exists w', admits mw home_request [] false (_build_checks mw) (started home_world) w'.
Proof.
  intros src. pose (run := execute mw src home_request (home_world, pipeline_with [])).
  exists (fst (snd run)).
  destruct (execute_admits_iff mw src home_request home_world (pipeline_with []) (fst (snd run)) (snd (snd run)))
    as [Hl _]; [by eexists|].
  destruct Hl as [Hp Ha].
  - change (run = (Ok None, (fst (snd run), snd (snd run)))). rewrite <- surjective_pairing. apply run_pair.
    vm_compute. reflexivity.
  - rewrite Hp in Ha. exact Ha.
Defined.

Lemma execute_first_response_witness :
  exists w3, execute mw None home_request (home_world, pipeline_with [passing; objecting; failing]) =
    (Ok (Some (mkResponse 403 "no" [])), (w3, pipeline_with [passing; objecting; failing])).
Proof.
  apply (execute_first_response mw None home_request home_world (pipeline_with [passing; objecting; failing])
    [passing] objecting [failing] (started home_world) (mkResponse 403 "no" []) (started home_world));
    try reflexivity; try exact I; [|by left].
  apply (admits_pass _ _ _ _ passing [] _ (started home_world)); [reflexivity..|constructor].
Defined.

Lemma execute_fails_secure_witness :
  exists hs w3, execute mw None home_request (home_world, pipeline_with [passing; failing; objecting]) =
    (Ok (Some (mkResponse 500 "Security check failed" hs)), (w3, pipeline_with [passing; failing; objecting])).
Proof.
  apply (execute_fails_secure mw None home_request home_world (pipeline_with [passing; failing; objecting])
    [passing] failing [objecting] (started home_world) (ValueError "bad") (started home_world));
    try reflexivity; [|by eexists].
  apply (admits_pass _ _ _ _ passing [] _ (started home_world)); [reflexivity..|constructor].
Defined.

(** With a block hook and without [fail_secure], a request whose path is no URL passes a
    check that refuses it: the payload of the hook cannot be shown, and its error is
    tolerated. *)
Definition hooked : SecurityConfig := plain_config {{ on_block := Some "notify" }} {{ fail_secure := false }}.

Definition refused (path : string) : res (option Z) :=
  match fst (execute (sample_middleware hooked) None (get_request path "198.51.100.7" []) (home_world, pipeline_with [objecting])) with
  | Ok r => Ok (rs_status <$> r)
  | Raise e => Raise e
  end.

Example unshown_paths_pass : refused "/" = Ok (Some 403%Z) /\ refused "//[" = Ok None.
Proof. vm_compute. split; reflexivity. Qed.
End witness.
