(* ===== verification/Behavior.v ===== *)
(** Behaviour rules: what a client does over time on an endpoint.
    [BehaviorTracker] ([guard_core/handlers/behavior_handler.py],
    [_behavior_response_pattern.py], [_behavior_action_dispatch.py]) counts calls and
    matching responses in sliding windows and carries out the action of a rule;
    [BehavioralProcessor] ([core/behavioral/processor.py]) applies the rules of a
    route, and the global ones, to a request and its response.

    A tracker works on [Sys] and its own state; an action may ban the client, which
    the ban manager of the [World] does. *)
From S2P Require Import Prelude PyStr PyDict IpAddr Sys Config Redaction Request IpExtraction TTL Redis IpBan RateLimit Cloud.
From S2P Require Import Json JsonPattern Url SecurityHeaders AccessControl DetectionConfig BodyReader Scan Middleware Helpers.

Definition _MAX_TRACKED_ENDPOINTS : nat := Z.to_nat 10000.
Definition _MAX_TRACKED_CLIENTS_PER_ENDPOINT : nat := Z.to_nat 10000.

(** What the rules rely on outside the sources. *)
Class BehaviorServices `{E : Env} : Type := {
  (** [rule.custom_action(client_ip, endpoint_id, details)], by name *)
  custom_action_fn : string -> string -> string -> string -> M Sys unit;
  (** [response.read_body_prefix], of the responses that have it: the bytes read, or
      [None] for anything else it returns; a timeout is one of the exceptions *)
  read_body_prefix : Response -> option (Z -> M Sys (option string));
  (** [bool(re.search(pattern, text, re.IGNORECASE))] *)
  re_search : string -> string -> res bool;
  (** what the redaction of patterns relies on *)
  behavior_scan : ScanServices
}.

(** Endpoint, then client, to the times of its calls, oldest first. *)
Abbreviation activity := (list (string * list (string * list Z)))%type.

Definition config_to_rule (cfg : BehaviorRuleConfig) : BehaviorRule :=
  {| br_kind := cfg_kind cfg; br_threshold := cfg_threshold cfg; br_window := cfg_window cfg;
     br_pattern := cfg_pattern cfg; br_action := cfg_action cfg; br_custom_action := None;
     br_ban_duration := cfg_ban_duration cfg; br_correlate_with_detection := cfg_correlate_with_detection cfg |}.

(** The names of the enumerations. *)
Definition kind_name (k : rule_kind) : string :=
  match k with Usage => "usage" | ReturnPattern => "return_pattern" | Frequency => "frequency" end.
Definition action_name (a : behavior_action) : string :=
  match a with ActBan => "ban" | ActLog => "log" | ActThrottle => "throttle" | ActAlert => "alert" end.

Section tracker.
Context `{Eng : Engine} `{P : !TTLCache string bool PATH_CACHE_SIZE PATH_CACHE_TTL} `{BS : !BehaviorServices}.

Record BehaviorTracker : Type := mkTracker {
  bt_config : SecurityConfig;
  usage_counts : activity;
  return_patterns : activity;
  bt_redis : option (RedisHandle SecurityConfig);
  bt_agent : bool;
  _body_unavailable_log_cache : ttl_cache (K := string) (V := bool)
}.

Definition BehaviorTracker_init (config : SecurityConfig) : BehaviorTracker :=
  mkTracker config [] [] None false ttl_empty.

#[local] Abbreviation T := (M (Sys * BehaviorTracker)).

Definition t_get {A} (f : BehaviorTracker -> A) : T A := gets (fun w => f (snd w)).
Definition t_set (f : BehaviorTracker -> BehaviorTracker) : T unit := modify (fun w => (fst w, f (snd w))).

Definition tracker_initialize_redis (redis_handler : RedisHandle SecurityConfig) : T unit :=
  t_set (fun t => t {{ bt_redis := Some redis_handler }}).
Definition tracker_initialize_agent (agent_handler : bool) : T unit :=
  t_set (fun t => t {{ bt_agent := agent_handler }}).

(** ** Counting *)

(** [len([ts for ts in timestamps if ts >= cutoff])] *)
Definition since (cutoff : Z) (timestamps : list Z) : list Z := List.filter (fun ts => cutoff <=? ts)%Z timestamps.

Definition get_recent_event_count (ip : string) (window_seconds : Z) : T nat :=
  if negb (truthy ip) then ret 0%nat
  else
    let* now := sys time_time in
    let cutoff := (now - seconds window_seconds)%Z in
    t_get (fun t =>
      fold_left (fun count endpoint_bucket => (count + length (since cutoff (default [] (dget ip (snd endpoint_bucket)))))%nat)
        (usage_counts t) 0%nat).

(** The in-memory part of both ways of tracking: the number of calls in the window,
    the present one included. *)
Definition record_call (endpoint_id client_ip : string) (window_start current_time : Z) : M activity nat := fun store =>
  match _lru_pop_or_create store endpoint_id _MAX_TRACKED_ENDPOINTS [] with
  | Raise e => (Raise e, store)
  | Ok (bucket, store) =>
      match _lru_pop_or_create bucket client_ip _MAX_TRACKED_CLIENTS_PER_ENDPOINT [] with
      | Raise e => (Raise e, dset endpoint_id bucket store)
      | Ok (timestamps, bucket) =>
          let timestamps := since window_start timestamps ++ [current_time] in
          (Ok (length timestamps), dset endpoint_id (dset client_ip timestamps bucket) store)
      end
  end.

Definition on_usage {A} (m : M activity A) : T A :=
  zoom (fun w => usage_counts (snd w)) (fun s w => (fst w, (snd w) {{ usage_counts := s }})) m.
Definition on_returns {A} (m : M activity A) : T A :=
  zoom (fun w => return_patterns (snd w)) (fun s w => (fst w, (snd w) {{ return_patterns := s }})) m.

Definition usage_key (endpoint_id client_ip : string) : string :=
  "behavior:usage:" +:+ _hash_identity_segment endpoint_id +:+ ":" +:+ _hash_identity_segment client_ip.

Definition track_endpoint_usage (endpoint_id client_ip : string) (rule : BehaviorRule) : T bool :=
  let* current_time := sys time_time in
  let window_start := (current_time - seconds (br_window rule))%Z in
  let* redis_handler := t_get bt_redis in
  match redis_handler with
  | Some h =>
      let* valid_count := sys (record_sliding_window_hit (rh_config h) (rh_agent h) "behavior_usage"
        (usage_key endpoint_id client_ip) current_time window_start (br_window rule)) in
      ret (br_threshold rule <? valid_count)%Z
  | None =>
      let* count := on_usage (record_call endpoint_id client_ip window_start current_time) in
      ret (br_threshold rule <? Z.of_nat count)%Z
  end.

(** ** Response patterns ([_behavior_response_pattern.py]) *)

Definition _log_body_unavailable (pattern : string) : T unit :=
  let* now := sys time_monotonic in
  let* seen := (fun w => let '(v, c) := ttl_get now pattern (_body_unavailable_log_cache (snd w)) in
                         (Ok v, (fst w, (snd w) {{ _body_unavailable_log_cache := c }}))) in
  match seen with
  | Some _ => ret tt
  | None =>
      let* now := sys time_monotonic in
      t_set (fun t => t {{ _body_unavailable_log_cache := fst (ttl_set now pattern true (_body_unavailable_log_cache t)) }}) ;;;
      let* shown := lift_res (_redact_pattern_source (SS := behavior_scan) _DEFAULT_MAX_JSON_DEPTH pattern) in
      sys (log WARNING ("return_pattern rule with pattern " +:+ shown +:+
                        " could not be evaluated: the response does not support bounded body reading"))
  end.

Definition _read_response_body_prefix (response : Response) (pattern : string) : T (option string) :=
  let* config := t_get bt_config in
  if negb (behavior_scan_response_body config) then ret None
  else
    match read_body_prefix response with
    | None => _log_body_unavailable pattern ;;; ret None
    | Some read =>
        let max_bytes := behavior_max_response_body_inspect_bytes config in
        let* prefix := sys (_safe_read (read max_bytes)) in
        match prefix with
        | None | Some None => _log_body_unavailable pattern ;;; ret None
        | Some (Some prefix) => ret (Some (stake (Z.to_nat max_bytes) prefix))
        end
    end.

(** [pattern.split(":", 1)[1]] of a pattern that starts with its kind and a colon. *)
Definition after_colon (pattern : string) : string :=
  match partition_char ":" pattern with Some (_, rest) => rest | None => "" end.

Definition _check_response_pattern (response : Response) (pattern : string) : T (option bool) :=
  catch within_latin1
    (if startswith pattern "status:" then
       match py_int (after_colon pattern) with
       | Some expected_status => ret (Some (rs_status response =? expected_status)%Z)
       | None => raise (ValueError ("invalid literal for int() with base 10: " +:+ after_colon pattern))
       end
     else
       let* raw_body := _read_response_body_prefix response pattern in
       match raw_body with
       | None => ret None
       | Some EmptyString => ret (Some false)
       | Some body_str =>
           if startswith pattern "json:" then
             match loads body_str with
             | Ok response_json => ret (Some (_match_json_pattern float_repr response_json (after_colon pattern)))
             | Raise e => if is_json_decode_error e then ret (Some false) else raise e
             end
           else if startswith pattern "regex:" then
             let* found := lift_res (re_search (after_colon pattern) body_str) in
             ret (Some found)
           else ret (Some (contains (lower pattern) (lower body_str)))
       end)
    (fun e => sys (log ERROR ("Error checking response pattern: " +:+ exn_message e)) ;;; ret (Some false)).

Definition return_key (endpoint_id client_ip pattern : string) : string :=
  "behavior:return:" +:+ _hash_identity_segment endpoint_id +:+ ":" +:+ _hash_identity_segment client_ip +:+ ":" +:+
  _hash_identity_segment pattern.

Definition track_return_pattern (endpoint_id client_ip : string) (response : Response) (rule : BehaviorRule)
  (effective_threshold : option Z) : T bool :=
  match br_pattern rule with
  | Some (String _ _ as pattern) =>
      let threshold := default (br_threshold rule) effective_threshold in
      let* current_time := sys time_time in
      let window_start := (current_time - seconds (br_window rule))%Z in
      let* pattern_matched := _check_response_pattern response pattern in
      match pattern_matched with
      | Some true =>
          let* redis_handler := t_get bt_redis in
          match redis_handler with
          | Some h =>
              let* valid_count := sys (record_sliding_window_hit (rh_config h) (rh_agent h) "behavior_returns"
                (return_key endpoint_id client_ip pattern) current_time window_start (br_window rule)) in
              ret (threshold <? valid_count)%Z
          | None =>
              let pattern_key := endpoint_id +:+ ":" +:+ pattern in
              let* count := on_returns (record_call pattern_key client_ip window_start current_time) in
              ret (threshold <? Z.of_nat count)%Z
          end
      | _ => ret false
      end
  | _ => ret false
  end.
End tracker.

(** * Actions ([_behavior_action_dispatch.py]) *)

Section actions.
Context `{Eng : Engine} `{C : !TTLCache string Z BAN_CACHE_SIZE (seconds LOCAL_CACHE_TTL_CAP_SECONDS)}
  `{P : !TTLCache string bool PATH_CACHE_SIZE PATH_CACHE_TTL}
  `{HC : !TTLCache string headers HEADERS_CACHE_SIZE HEADERS_CACHE_TTL} `{BS : !BehaviorServices}.

Definition _BEHAVIOR_HANDLER_NAME : string := "behavior".

#[local] Abbreviation B := (M (World * BehaviorTracker)).

(** A call on the world, on the tracker. *)
Definition b_world {A} (m : W A) : B A := zoom fst (fun w p => (w, snd p)) m.
Definition b_tracker {A} (m : M (Sys * BehaviorTracker) A) : B A :=
  zoom (fun p => (w_sys (fst p), snd p)) (fun q p => ((fst p) {{ w_sys := fst q }}, snd q)) m.
Definition b_log (l : level) (msg : string) : B unit := b_world (on_sys (log l msg)).
Definition b_get {A} (f : BehaviorTracker -> A) : B A := gets (fun p => f (snd p)).

(** [level = self.config.log_suspicious_level; if level is not None: _log_at_level] *)
Definition log_at_suspicious_level (level : option level) (msg : string) : B unit :=
  match level with Some l => b_log l msg | None => ret tt end.

Definition _log_passive_mode_action (rule : BehaviorRule) (client_ip details : string) : B unit :=
  let prefix := "[PASSIVE MODE] " in
  let* config := b_get bt_config in
  let level := log_suspicious_level config in
  match br_action rule with
  | ActAlert => b_log CRITICAL (prefix +:+ "ALERT - Behavioral anomaly: " +:+ details)
  | ActBan => log_at_suspicious_level level (prefix +:+ "Would ban IP " +:+ client_ip +:+ " for behavioral violation: " +:+ details)
  | ActLog => log_at_suspicious_level level (prefix +:+ "Behavioral anomaly detected: " +:+ details)
  | ActThrottle => log_at_suspicious_level level (prefix +:+ "Would throttle IP " +:+ client_ip +:+ ": " +:+ details)
  end.

Definition _execute_ban_action (client_ip details : string) (rule : BehaviorRule) : B string :=
  let duration := default 3600%Z (br_ban_duration rule) in
  let* applied := b_world (on_bans (ban_ip client_ip duration "behavioral_violation")) in
  if negb applied then ret "tracked"
  else
    let* config := b_get bt_config in
    log_at_suspicious_level (log_suspicious_level config)
      ("IP " +:+ client_ip +:+ " banned for behavioral violation: " +:+ details) ;;;
    ret "ban".

Definition _execute_active_mode_action (rule : BehaviorRule) (client_ip endpoint_id details : string) : B string :=
  let* config := b_get bt_config in
  let level := log_suspicious_level config in
  match br_custom_action rule with
  | Some action =>
      b_world (on_sys (custom_action_fn action client_ip endpoint_id details)) ;;;
      ret (action_name (br_action rule))
  | None =>
      match br_action rule with
      | ActBan => _execute_ban_action client_ip details rule
      | ActAlert => b_log CRITICAL ("ALERT - Behavioral anomaly: " +:+ details) ;;; ret (action_name ActAlert)
      | ActLog => log_at_suspicious_level level ("Behavioral anomaly detected: " +:+ details) ;;; ret (action_name ActLog)
      | ActThrottle =>
          log_at_suspicious_level level ("Throttling IP " +:+ client_ip +:+ ": " +:+ details) ;;; ret (action_name ActThrottle)
      end
  end.

Definition _send_behavior_event (event_type ip_address action_taken reason : string) (kwargs : list (string * string))
  : B unit :=
  let* agent_handler := b_get bt_agent in
  when agent_handler
    (b_world (on_sys (agent_send_logged
      {| ev_type := event_type; ev_ip := ip_address; ev_action := action_taken; ev_reason := reason;
         ev_handler := _BEHAVIOR_HANDLER_NAME; ev_country := None; ev_meta := kwargs |}
      "Failed to send behavior event to agent"))).

Definition apply_action (rule : BehaviorRule) (client_ip endpoint_id details : string) : B unit :=
  let* config := b_get bt_config in
  let* action_taken :=
    (if passive_mode config then _log_passive_mode_action rule client_ip details ;;; ret "logged_only"
     else _execute_active_mode_action rule client_ip endpoint_id details) in
  _send_behavior_event "behavior_violation" client_ip action_taken ("Behavioral rule violated: " +:+ details)
    [("endpoint", endpoint_id); ("rule_type", kind_name (br_kind rule));
     ("threshold", string_of_Z (br_threshold rule)); ("window", string_of_Z (br_window rule))].
End actions.

(** * The processor ([core/behavioral/processor.py]) *)

(** [BehavioralContext]: the middleware gives the configuration, the event bus and
    the decorator; [bc_middleware] is whether the context knows the middleware. *)
Record BehavioralContext : Type := mkBehavioral {
  bc_mw : Middleware;
  bc_middleware : bool
}.

Section processor.
Context `{Eng : Engine} `{C : !TTLCache string Z BAN_CACHE_SIZE (seconds LOCAL_CACHE_TTL_CAP_SECONDS)}
  `{P : !TTLCache string bool PATH_CACHE_SIZE PATH_CACHE_TTL}
  `{HC : !TTLCache string headers HEADERS_CACHE_SIZE HEADERS_CACHE_TTL} `{BS : !BehaviorServices}.

(** The trackers a request can meet: that of the context, if it has one, and that
    of the decorator of the context or of the request. *)
Record Trackers : Type := mkTrackers {
  tk_context : option BehaviorTracker;
  tk_decorator : BehaviorTracker
}.

#[local] Abbreviation BP := (M (World * Trackers)).

(** Which of them is used. *)
Inductive tracker_ref : Type := InContext | InDecorator.

Definition p_world {A} (m : W A) : BP A := zoom fst (fun w p => (w, snd p)) m.

Definition read_tracker (r : tracker_ref) (t : Trackers) : BehaviorTracker :=
  match r with InContext => default (tk_decorator t) (tk_context t) | InDecorator => tk_decorator t end.
Definition write_tracker (r : tracker_ref) (b : BehaviorTracker) (t : Trackers) : Trackers :=
  match r with InContext => t {{ tk_context := Some b }} | InDecorator => t {{ tk_decorator := b }} end.

Definition with_tracker {A} (r : tracker_ref) (m : M (World * BehaviorTracker) A) : BP A :=
  zoom (fun p => (fst p, read_tracker r (snd p))) (fun q p => (fst q, write_tracker r (snd q) (snd p))) m.

Definition _behavior_tracker (ctx : BehavioralContext) : BP (option tracker_ref) :=
  let* scoped := p_world (state st_exclusion_scoped) in
  if scoped : bool then ret None
  else
    let* context_tracker := gets (fun p => tk_context (snd p)) in
    match context_tracker with
    | Some _ => ret (Some InContext)
    | None =>
        let* guard_decorator := p_world (find_decorator (bc_mw ctx)) in
        match guard_decorator with Some _ => ret (Some InDecorator) | None => ret None end
    end.

Definition get_endpoint_id (ctx : BehavioralContext) (request : Request) : BP string :=
  let* route_id := p_world (state st_route_id) in
  match route_id with
  | Some (String _ _ as route_id) => ret route_id
  | _ =>
      let* endpoint_id := p_world (state st_endpoint_id) in
      match endpoint_id with
      | Some (String _ _ as endpoint_id) => ret endpoint_id
      | _ =>
          let* safe_path := p_world (lift_res (display_endpoint (mw_config (bc_mw ctx)) (rq_path request))) in
          ret (rq_method request +:+ ":" +:+ safe_path)
      end
  end.

(** [send_decorator_violation_event] *)
Definition send_decorator_violation_event (d : Decorator) request (violation_type reason : string)
  (metadata : list (string * string)) : W unit :=
  send_decorator_event d "decorator_violation" request "blocked" reason violation_type metadata.

(** The event of a violated rule: the decorator's when the context has one. *)
Definition report_violation (ctx : BehavioralContext) request (violation_type reason : string)
  (metadata : list (string * string)) : BP unit :=
  p_world
    match mw_decorator (bc_mw ctx) with
    | Some d => send_decorator_violation_event d request violation_type reason metadata
    | None => send_event (bc_mw ctx) "decorator_violation" request "behavioral_action_triggered" reason
                (("decorator_type", "behavioral") :: ("violation_type", violation_type) :: metadata)
    end.

Definition is_usage_rule (rule : BehaviorRule) : bool :=
  match br_kind rule with Usage | Frequency => true | ReturnPattern => false end.

Definition usage_rule (ctx : BehavioralContext) request (client_ip endpoint_id : string) (r : tracker_ref)
  (rule : BehaviorRule) : BP unit :=
  when (is_usage_rule rule)
    (let* threshold_exceeded := with_tracker r (b_tracker (track_endpoint_usage endpoint_id client_ip rule)) in
     when threshold_exceeded
       (let details := string_of_Z (br_threshold rule) +:+ " calls in " +:+ string_of_Z (br_window rule) +:+ "s" in
        report_violation ctx request (kind_name (br_kind rule))
          ("Behavioral " +:+ kind_name (br_kind rule) +:+ " threshold exceeded: " +:+ details)
          [("threshold", string_of_Z (br_threshold rule)); ("window", string_of_Z (br_window rule));
           ("action", action_name (br_action rule)); ("endpoint_id", endpoint_id)] ;;;
        with_tracker r (apply_action rule client_ip endpoint_id ("Usage threshold exceeded: " +:+ details)))).

Definition process_usage_rules (ctx : BehavioralContext) request (client_ip : string) (route_config : RouteConfig)
  : BP unit :=
  let* behavior_tracker := _behavior_tracker ctx in
  match behavior_tracker with
  | None => ret tt
  | Some r =>
      let* endpoint_id := get_endpoint_id ctx request in
      for_each (rc_behavior_rules route_config) (usage_rule ctx request client_ip endpoint_id r)
  end.

Definition show_pattern (rule : BehaviorRule) : string := default "None" (br_pattern rule).

Definition is_return_rule (rule : BehaviorRule) : bool :=
  match br_kind rule with ReturnPattern => true | _ => false end.

Definition return_rule (ctx : BehavioralContext) request response (client_ip endpoint_id : string) (r : tracker_ref)
  (rule : BehaviorRule) : BP unit :=
  when (is_return_rule rule)
    (let* pattern_detected :=
       with_tracker r (b_tracker (track_return_pattern endpoint_id client_ip response rule None)) in
     when pattern_detected
       (let details := string_of_Z (br_threshold rule) +:+ " for '" +:+ show_pattern rule +:+ "' in " +:+
                       string_of_Z (br_window rule) +:+ "s" in
        report_violation ctx request "return_pattern" ("Return pattern threshold exceeded: " +:+ details)
          [("threshold", string_of_Z (br_threshold rule)); ("window", string_of_Z (br_window rule));
           ("pattern", show_pattern rule); ("action", action_name (br_action rule)); ("endpoint_id", endpoint_id)] ;;;
        with_tracker r (apply_action rule client_ip endpoint_id ("Return pattern threshold exceeded: " +:+ details)))).

Definition process_return_rules (ctx : BehavioralContext) request response (client_ip : string)
  (route_config : RouteConfig) : BP unit :=
  let* behavior_tracker := _behavior_tracker ctx in
  match behavior_tracker with
  | None => ret tt
  | Some r =>
      let* endpoint_id := get_endpoint_id ctx request in
      for_each (rc_behavior_rules route_config) (return_rule ctx request response client_ip endpoint_id r)
  end.

(** [sorted] on strings *)
Fixpoint insert_sorted (x : string) (l : list string) : list string :=
  match l with [] => [x] | y :: l' => if String.leb x y then x :: l else y :: insert_sorted x l' end.
Definition sorted (l : list string) : list string := fold_right insert_sorted [] l.

Definition _collect_correlated_categories (ctx : BehavioralContext) (client_ip : string) : BP (list string) :=
  if negb (bc_middleware ctx) then ret []
  else
    let* counts := p_world (gets w_counts) in
    ret (sorted (map fst (List.filter (fun p => 0 <? snd p)%Z (default [] (dget client_ip counts))))).

Definition _evaluate_global_return_rule (ctx : BehavioralContext) (r : tracker_ref) request response
  (client_ip endpoint_id : string) (correlated_categories : list string) (rule : BehaviorRule) : BP unit :=
  let correlation_active := br_correlate_with_detection rule && nonempty correlated_categories in
  let effective_threshold :=
    if correlation_active then Z.max 1 (br_threshold rule / 2) else br_threshold rule in
  let* pattern_detected := with_tracker r
    (b_tracker (track_return_pattern endpoint_id client_ip response rule (Some effective_threshold))) in
  when pattern_detected
    (let details := string_of_Z effective_threshold +:+ " for '" +:+ show_pattern rule +:+ "' in " +:+
                    string_of_Z (br_window rule) +:+ "s" +:+ (if correlation_active then " (correlated)" else "") in
     p_world (send_event (bc_mw ctx) "decorator_violation" request "behavioral_action_triggered"
       ("Global return pattern threshold exceeded: " +:+ details)
       [("decorator_type", "behavioral_global"); ("violation_type", "return_pattern");
        ("threshold", string_of_Z effective_threshold); ("window", string_of_Z (br_window rule));
        ("pattern", show_pattern rule); ("action", action_name (br_action rule)); ("endpoint_id", endpoint_id);
        ("correlation", py_bool correlation_active);
        ("correlated_categories", show_list (if correlation_active then correlated_categories else []))]) ;;;
     with_tracker r (apply_action rule client_ip endpoint_id ("Global return pattern threshold exceeded: " +:+ details))).

Definition process_global_return_rules (ctx : BehavioralContext) request response (client_ip : string)
  (rules : list BehaviorRule) : BP unit :=
  let* tracker := _behavior_tracker ctx in
  match tracker with
  | None => ret tt
  | Some r =>
      let* endpoint_id := get_endpoint_id ctx request in
      let* correlated_categories := _collect_correlated_categories ctx client_ip in
      for_each rules (fun rule =>
        when (is_return_rule rule)
          (_evaluate_global_return_rule ctx r request response client_ip endpoint_id correlated_categories rule))
  end.
End processor.
