(* ===== verification/Decorators.v ===== *)
(** The decorators of routes ([guard_core/decorators]): which rules a function is
    given, under which identifier, and the counter by which the pipeline notices.

    Functions are objects with an identity; what the decorators read and write of them
    is kept in a store: their name, the identifier stamped on them, and the function
    they wrap.  The containers of a configuration that count their changes
    ([_TrackedList] and the like) are plain ones here, written through
    [write_attr]; [bypassed_checks] and [behavior_rules] are not counted.  A container
    that the application passes in and changes later is not followed. *)
From S2P Require Import Prelude PyStr PyDict Sys Sample Config Url Redaction Request Cloud LiveConfig JsonPattern.
From S2P Require Import IpBan RateLimit TTL IpAddr Redis IpExtraction BodyReader DetectionConfig Scan Middleware Helpers Behavior.

(** A function: [f"{func.__module__}.{func.__qualname__}"], [_guard_route_id] and the
    identity of [__wrapped__]. *)
Record Function : Type := mkFunction {
  fn_name : string;
  _guard_route_id : option string;
  fn_wrapped : option Z
}.

Abbreviation Functions := (list (Z * Function)).

(** [BaseSecurityDecorator]; [_route_id_owner] maps identifiers to the functions they
    were derived from. *)
Record SecurityDecorator : Type := mkSecurityDecorator {
  sd_base : Decorator;
  _route_id_owner : list (string * Z);
  route_config_revision : Z
}.

Definition SecurityDecorator_init (config : SecurityConfig) : SecurityDecorator :=
  mkSecurityDecorator (mkDecorator config [] false None) [] 0.

Definition sd_routes (d : SecurityDecorator) : list (string * RouteConfig) := _route_configs (sd_base d).

Definition get_route_config (route_id : string) (d : SecurityDecorator) : option RouteConfig := dget route_id (sd_routes d).

(** The ReDoS validator, for a longest text ([PatternCompiler.validate_pattern_safety]). *)
Class PatternSafety `{E : Env} : Type := pattern_safety : string -> Z -> M Sys (bool * string).

(** * Identifiers *)

(** [owner_chain]: the function, what it wraps, and so on, until a function comes
    again. *)
Fixpoint owner_chain (fuel : nat) (functions : Functions) (current : option Z) (chain : list Z) : list Z :=
  match fuel, current with
  | S fuel', Some f =>
      if bool_decide (f ∈ chain) then chain
      else owner_chain fuel' functions (dget f functions ≫= fn_wrapped) (chain ++ [f])
  | _, _ => chain
  end.

Definition chain_of (functions : Functions) (func : Z) : list Z := owner_chain (S (S (length functions))) functions (Some func) [].

Definition name_of (functions : Functions) (func : Z) : string := default "" (fn_name <$> dget func functions).

Definition stamp_of (functions : Functions) (func : Z) : option string := dget func functions ≫= _guard_route_id.

(** [f"{base_id}#{suffix}"]; the first identifier has no suffix. *)
Definition suffixed (base_id : string) (suffix : Z) : string :=
  if (suffix =? 1)%Z then base_id else base_id +:+ "#" +:+ string_of_Z suffix.

(** [while route_id in self._route_configs: ...] *)
Fixpoint free_id (fuel : nat) (routes : list (string * RouteConfig)) (base_id : string) (suffix : Z) : string :=
  match fuel with
  | S fuel' =>
      if dmem (suffixed base_id suffix) routes then free_id fuel' routes base_id (suffix + 1) else suffixed base_id suffix
  | O => suffixed base_id suffix
  end.

Definition owned_by (d : SecurityDecorator) (route_id : string) (chain : list Z) : bool :=
  match dget route_id (_route_id_owner d) with Some owner => bool_decide (owner ∈ chain) | None => false end.

Definition _get_route_id (functions : Functions) (d : SecurityDecorator) (func : Z) : string :=
  let fresh := free_id (S (length (sd_routes d))) (sd_routes d) (name_of functions func) 1 in
  match stamp_of functions func with
  | Some route_id =>
      if dmem route_id (sd_routes d) && owned_by d route_id (chain_of functions func) then route_id else fresh
  | None => fresh
  end.

(** * Operations on the configurations *)

Section decorating.
Context `{E : Env}.

Record Decorating : Type := mkDecorating {
  dg_sys : Sys;
  dg_functions : Functions;
  dg_decorator : SecurityDecorator
}.

#[local] Abbreviation D := (M Decorating).

Definition d_sys {A} (m : M Sys A) : D A := zoom dg_sys (fun s w => w {{ dg_sys := s }}) m.
Definition d_route_id (func : Z) : D string := gets (fun w => _get_route_id (dg_functions w) (dg_decorator w) func).
Definition d_config : D SecurityConfig := gets (fun w => dec_config (sd_base (dg_decorator w))).

Definition set_routes (f : list (string * RouteConfig) -> list (string * RouteConfig)) (d : SecurityDecorator) : SecurityDecorator :=
  d {{ sd_base ::= fun b => b {{ _route_configs ::= f }} }}.

Definition bump (d : SecurityDecorator) : SecurityDecorator := d {{ route_config_revision ::= Z.succ }}.

Definition alter_route (route_id : string) (f : RouteConfig -> RouteConfig) (routes : list (string * RouteConfig))
  : list (string * RouteConfig) :=
  match dget route_id routes with Some rc => dset route_id (f rc) routes | None => routes end.

Definition on_decorator (f : SecurityDecorator -> SecurityDecorator) : D unit := modify (fun w => w {{ dg_decorator ::= f }}).

(** [route_config.<attribute> = ...], and the changes of a counted container *)
Definition write_attr (route_id : string) (f : RouteConfig -> RouteConfig) : D unit :=
  on_decorator (fun d => bump (set_routes (alter_route route_id f) d)).

(** The changes of a container that is not counted *)
Definition write_uncounted (route_id : string) (f : RouteConfig -> RouteConfig) : D unit :=
  on_decorator (set_routes (alter_route route_id f)).

Definition read_route (route_id : string) : D RouteConfig :=
  gets (fun w => default RouteConfig_init (get_route_config route_id (dg_decorator w))).

(** [setattr(func, "_guard_route_id", route_id)] *)
Definition stamp (func : Z) (route_id : string) : D unit :=
  modify (fun w => w {{ dg_functions ::= fun fs =>
    match dget func fs with Some f => dset func (f {{ _guard_route_id := Some route_id }}) fs | None => fs end }}).

(** [config = RouteConfig(...)], the assignment that follows, which is counted, and
    [self._route_configs\[route_id\] = config] *)
Definition add_route_config (route_id : string) : D unit :=
  let* config := d_config in
  on_decorator bump ;;;
  on_decorator (set_routes (dset route_id
    (RouteConfig_init {{ rc_enable_suspicious_detection := enable_penetration_detection config }}))) ;;;
  on_decorator bump.

(** The configuration of a function, as its key. *)
Definition _ensure_route_config (func : Z) : D string :=
  let* route_id := d_route_id func in
  let* known := gets (fun w => dmem route_id (sd_routes (dg_decorator w))) in
  when (negb known) (add_route_config route_id) ;;;
  on_decorator (fun d => d {{ _route_id_owner ::= fun owners =>
    if dmem route_id owners then owners else dset route_id func owners }}) ;;;
  stamp func route_id ;;;
  ret route_id.

Definition _apply_route_config (func : Z) : D unit :=
  let* route_id := d_route_id func in
  stamp func route_id.

(** [def decorator(func): ...] *)
Definition decorator (body : string -> D unit) (func : Z) : D unit :=
  let* route_config := _ensure_route_config func in
  body route_config ;;;
  _apply_route_config func.

End decorating.

#[local] Abbreviation D := (M Decorating).

(** * The decorators *)

Section decorators.
Context `{SS : ScanServices} `{PS : !PatternSafety}.

Definition warn_ignored (message : string) (invalid : list string) : D unit :=
  when (nonempty invalid) (d_sys (log WARNING (message +:+ " [" +:+ join ", " (map repr_string (sorted invalid)) +:+ "]"))).

(** ** [access_control.py] *)

Definition require_ip (whitelist blacklist : list string) : Z -> D unit := decorator (fun r =>
  when (nonempty whitelist) (write_attr r (fun rc => rc {{ rc_ip_whitelist := Some whitelist }})) ;;;
  when (nonempty blacklist) (write_attr r (fun rc => rc {{ rc_ip_blacklist := Some blacklist }}))).

Definition block_countries (countries : list string) : Z -> D unit := decorator (fun r =>
  write_attr r (fun rc => rc {{ rc_blocked_countries := Some (map upper countries) }})).

Definition allow_countries (countries : list string) : Z -> D unit := decorator (fun r =>
  write_attr r (fun rc => rc {{ rc_whitelist_countries := Some (map upper countries) }})).

Definition block_clouds (providers : option (list string)) : Z -> D unit := decorator (fun r =>
  match providers with
  | None => write_attr r (fun rc => rc {{ rc_block_cloud_providers := VALID_CLOUD_PROVIDERS }})
  | Some providers =>
      let valid := frozenset (List.filter (fun p => in_list (fst (partition_marker p)) VALID_CLOUD_PROVIDERS) providers) in
      write_attr r (fun rc => rc {{ rc_block_cloud_providers := valid }}) ;;;
      warn_ignored "@block_clouds: ignored unknown cloud providers" (set_minus (frozenset providers) valid)
  end).

Definition VALID_BYPASS_CHECKS : list string := ["all"; "ip_ban"; "ip"; "clouds"; "rate_limit"; "penetration"].

Definition bypass (checks : list string) : Z -> D unit := decorator (fun r =>
  let valid := frozenset (List.filter (fun c => in_list c VALID_BYPASS_CHECKS) checks) in
  write_uncounted r (fun rc => rc {{ rc_bypassed_checks ::= fun l => frozenset (l ++ valid) }}) ;;;
  warn_ignored "@bypass: ignored unknown checks" (set_minus (frozenset checks) valid)).

(** ** [rate_limiting.py] *)

Definition rate_limit (requests window : Z) : Z -> D unit := decorator (fun r =>
  write_attr r (fun rc => rc {{ rc_rate_limit := Some requests }}) ;;;
  write_attr r (fun rc => rc {{ rc_rate_limit_window := Some window }})).

Definition geo_rate_limit (limits : list (string * (Z * Z))) : Z -> D unit := decorator (fun r =>
  write_attr r (fun rc => rc {{ rc_geo_rate_limits := Some limits }})).

(** ** [behavioral.py] *)

Definition append_rules (r : string) (rules : list BehaviorRule) : D unit :=
  write_uncounted r (fun rc => rc {{ rc_behavior_rules ::= fun l => l ++ rules }}).

Definition usage_monitor (max_calls window : Z) (action : behavior_action) : Z -> D unit := decorator (fun r =>
  append_rules r [mkRule Usage max_calls window None action None None false]).

Definition _validate_return_pattern_body_scan (pattern : string) : D unit :=
  let* config := d_config in
  lift_res (_validate_return_pattern_requires_scan pattern (behavior_scan_response_body config)).

Definition return_monitor (pattern : string) (max_occurrences window : Z) (action : behavior_action) (func : Z) : D unit :=
  _validate_return_pattern_body_scan pattern ;;;
  decorator (fun r => append_rules r [mkRule ReturnPattern max_occurrences window (Some pattern) action None None false]) func.

Definition behavior_analysis (rules : list BehaviorRule) (func : Z) : D unit :=
  for_each rules (fun rule =>
    match br_kind rule, br_pattern rule with
    | ReturnPattern, Some (String _ _ as pattern) => _validate_return_pattern_body_scan pattern
    | _, _ => ret tt
    end) ;;;
  decorator (fun r => append_rules r rules) func.

(** Frequencies are in millionths. *)
Definition suspicious_frequency (max_frequency window : Z) (action : behavior_action) : Z -> D unit := decorator (fun r =>
  let max_calls := Z.quot (max_frequency * window) 1000000 in
  append_rules r [mkRule Frequency max_calls window None action None None false]).

(** ** [authentication.py] *)

Definition require_https : Z -> D unit := decorator (fun r =>
  write_attr r (fun rc => rc {{ rc_require_https := true }})).

(** The error of combining the decorators, after the attributes are set. *)
Definition exclusive (r : string) (clash : RouteConfig -> bool) (message : string) : D unit :=
  let* rc := read_route r in
  if clash rc then raise (ValueError message) else ret tt.

Definition require_auth (type : string) (verifier : option string) : Z -> D unit := decorator (fun r =>
  write_attr r (fun rc => rc {{ rc_auth_required := Some type }}) ;;;
  write_attr r (fun rc => rc {{ rc_auth_verifier := verifier }}) ;;;
  exclusive r (fun rc => is_some (rc_authorization_header_required rc))
    ("require_auth cannot be combined with require_authorization_header; the latter is presence-only and mutually " +:+
     "exclusive with authenticated routes")).

Definition api_key_auth (header_name : string) (verifier : option string) : Z -> D unit := decorator (fun r =>
  write_attr r (fun rc => rc {{ rc_api_key_required := true }}) ;;;
  write_attr r (fun rc => rc {{ rc_required_headers ::= dset header_name "required" }}) ;;;
  write_attr r (fun rc => rc {{ rc_api_key_header := Some header_name }}) ;;;
  write_attr r (fun rc => rc {{ rc_api_key_verifier := verifier }}) ;;;
  exclusive r (fun rc => is_some (rc_authorization_header_required rc))
    ("api_key_auth cannot be combined with require_authorization_header; the latter is presence-only and mutually " +:+
     "exclusive with authenticated routes")).

Definition require_authorization_header (scheme : string) : Z -> D unit := decorator (fun r =>
  write_attr r (fun rc => rc {{ rc_authorization_header_required := Some scheme }}) ;;;
  exclusive r (fun rc => is_some (rc_auth_required rc) || rc_api_key_required rc)
    ("require_authorization_header cannot be combined with require_auth or api_key_auth; it is presence-only and " +:+
     "mutually exclusive with authenticated routes")).

(** [dict.update] *)
Definition dict_update (d items : list (string * string)) : list (string * string) :=
  fold_left (fun d item => dset (fst item) (snd item) d) items d.

Definition require_headers (headers : list (string * string)) : Z -> D unit := decorator (fun r =>
  write_attr r (fun rc => rc {{ rc_required_headers ::= fun d => dict_update d headers }})).

(** ** [content_filtering.py] *)

Fixpoint check_user_agent_patterns (patterns : list string) : D unit :=
  match patterns with
  | [] => ret tt
  | pattern :: patterns' =>
      let* config := d_config in
      let* (is_safe, reason) := d_sys (pattern_safety pattern (detection_max_body_inspect_bytes config)) in
      if negb is_safe then
        let* shown := lift_res (_redact_pattern_source _DEFAULT_MAX_JSON_DEPTH pattern) in
        raise (ValueError ("block_user_agents pattern rejected by ReDoS validator: " +:+ repr_string shown +:+
          " (" +:+ reason +:+ ")"))
      else check_user_agent_patterns patterns'
  end.

Definition block_user_agents (patterns : list string) (func : Z) : D unit :=
  check_user_agent_patterns patterns ;;;
  decorator (fun r => write_attr r (fun rc => rc {{ rc_blocked_user_agents ::= fun l => l ++ patterns }})) func.

Definition content_type_filter (allowed_types : list string) : Z -> D unit := decorator (fun r =>
  write_attr r (fun rc => rc {{ rc_allowed_content_types := Some allowed_types }})).

Definition max_request_size (size_bytes : Z) : Z -> D unit := decorator (fun r =>
  write_attr r (fun rc => rc {{ rc_max_request_size := Some size_bytes }})).

Definition require_referrer (allowed_domains : list string) : Z -> D unit := decorator (fun r =>
  write_attr r (fun rc => rc {{ rc_require_referrer := Some allowed_domains }})).

Definition custom_validation (validator : string) : Z -> D unit := decorator (fun r =>
  write_attr r (fun rc => rc {{ rc_custom_validators ::= fun l => l ++ [validator] }})).

(** [if value is not None: route_config.<attribute> = ...] *)
Definition write_given {A} (r : string) (value : option A) (f : A -> RouteConfig -> RouteConfig) : D unit :=
  match value with Some a => write_attr r (f a) | None => ret tt end.

Definition detection_exclusion (headers params body_fields categories : option (list string)) (scan_body : option bool)
  : Z -> D unit := decorator (fun r =>
  write_given r headers (fun l rc => rc {{ rc_excluded_detection_headers := Some (frozenset l) }}) ;;;
  write_given r params (fun l rc => rc {{ rc_excluded_detection_params := Some (frozenset l) }}) ;;;
  write_given r body_fields (fun l rc => rc {{ rc_excluded_detection_body_fields := Some (frozenset l) }}) ;;;
  write_given r categories (fun l rc => rc {{ rc_enabled_detection_categories := Some (frozenset l) }}) ;;;
  write_given r scan_body (fun b rc => rc {{ rc_detection_scan_body := Some b }})).

(** ** [advanced.py] *)

Definition time_window (start_time end_time timezone : string) : Z -> D unit := decorator (fun r =>
  write_attr r (fun rc => rc {{ rc_time_restrictions :=
    Some [("start", start_time); ("end", end_time); ("timezone", timezone)] }})).

Definition suspicious_detection (enabled : bool) : Z -> D unit := decorator (fun r =>
  write_attr r (fun rc => rc {{ rc_enable_suspicious_detection := enabled }})).

(** Callables have names: that of the validator tells its fields. *)
Definition honeypot_name (trap_fields : list string) : string := "honeypot_validator " +:+ join "," trap_fields.

Definition honeypot_detection (trap_fields : list string) : Z -> D unit := decorator (fun r =>
  write_attr r (fun rc => rc {{ rc_custom_validators ::= fun l => l ++ [honeypot_name trap_fields] }})).

(** ** What an application writes above its functions *)

Inductive decoration : Type :=
| RequireIp (whitelist blacklist : list string)
| BlockCountries (countries : list string)
| AllowCountries (countries : list string)
| BlockClouds (providers : option (list string))
| Bypass (checks : list string)
| RateLimit (requests window : Z)
| GeoRateLimit (limits : list (string * (Z * Z)))
| UsageMonitor (max_calls window : Z) (action : behavior_action)
| ReturnMonitor (pattern : string) (max_occurrences window : Z) (action : behavior_action)
| BehaviorAnalysis (rules : list BehaviorRule)
| SuspiciousFrequency (max_frequency window : Z) (action : behavior_action)
| RequireHttps
| RequireAuth (type : string) (verifier : option string)
| ApiKeyAuth (header_name : string) (verifier : option string)
| RequireAuthorizationHeader (scheme : string)
| RequireHeaders (headers : list (string * string))
| BlockUserAgents (patterns : list string)
| ContentTypeFilter (allowed_types : list string)
| MaxRequestSize (size_bytes : Z)
| RequireReferrer (allowed_domains : list string)
| CustomValidation (validator : string)
| DetectionExclusion (headers params body_fields categories : option (list string)) (scan_body : option bool)
| TimeWindow (start_time end_time timezone : string)
| SuspiciousDetection (enabled : bool)
| HoneypotDetection (trap_fields : list string).

Definition decorate (d : decoration) : Z -> D unit :=
  match d with
  | RequireIp w b => require_ip w b
  | BlockCountries l => block_countries l
  | AllowCountries l => allow_countries l
  | BlockClouds l => block_clouds l
  | Bypass l => bypass l
  | RateLimit n t => rate_limit n t
  | GeoRateLimit l => geo_rate_limit l
  | UsageMonitor n t a => usage_monitor n t a
  | ReturnMonitor p n t a => return_monitor p n t a
  | BehaviorAnalysis l => behavior_analysis l
  | SuspiciousFrequency n t a => suspicious_frequency n t a
  | RequireHttps => require_https
  | RequireAuth t v => require_auth t v
  | ApiKeyAuth h v => api_key_auth h v
  | RequireAuthorizationHeader s => require_authorization_header s
  | RequireHeaders l => require_headers l
  | BlockUserAgents l => block_user_agents l
  | ContentTypeFilter l => content_type_filter l
  | MaxRequestSize n => max_request_size n
  | RequireReferrer l => require_referrer l
  | CustomValidation v => custom_validation v
  | DetectionExclusion h p b c s => detection_exclusion h p b c s
  | TimeWindow a b c => time_window a b c
  | SuspiciousDetection b => suspicious_detection b
  | HoneypotDetection l => honeypot_detection l
  end.

(** Decorations of several functions, as the application comes to them; a decoration
    that raises keeps what it wrote. *)
Fixpoint run_decorations (l : list (decoration * Z)) (w : Decorating) : Decorating :=
  match l with [] => w | (d, func) :: l' => run_decorations l' (snd (decorate d func w)) end.
End decorators.
