(* ===== verification/Validator.v ===== *)
(** The request validator ([guard_core/core/validation/validator.py]): HTTPS and
    time windows as the adapters ask for them, and whether the path of a request is
    excluded, with the exclusions normalised once and one event per path and cache
    period. *)
From S2P Require Import Prelude PyStr PyDict IpAddr Sys Config Redaction Request IpExtraction PathMatching TTL Redis IpBan RateLimit.
From S2P Require Import Cloud Json SecurityHeaders AccessControl Middleware Helpers Checks.

#[local] Open Scope Z_scope.

(** * [str.encode()] *)

(** A code point that UTF-8 encodes: not a surrogate. *)
Definition scalar (c : Z) : bool := (0 <=? c) && (c <? 55296) || (57344 <=? c) && (c <=? 1114111).

Definition utf8_bytes (c : Z) : list Z :=
  if c <? 128 then [c]
  else if c <? 2048 then [192 + c / 64; 128 + c mod 64]
  else if c <? 65536 then [224 + c / 4096; 128 + (c / 64) mod 64; 128 + c mod 64]
  else [240 + c / 262144; 128 + (c / 4096) mod 64; 128 + (c / 64) mod 64; 128 + c mod 64].

Fixpoint string_of_bytes (bs : list Z) : string :=
  match bs with [] => "" | b :: bs' => String (chr b) (string_of_bytes bs') end.

Fixpoint utf8_encode (s : ustr) : res (list Z) :=
  match s with
  | [] => Ok []
  | c :: s' =>
      if negb (scalar c) then Raise (ValueError "'utf-8' codec can't encode character: surrogates not allowed")
      else match utf8_encode s' with Ok bs => Ok (utf8_bytes c ++ bs) | Raise e => Raise e end
  end.

Section validator.
Context `{Eng : Engine} `{C : !TTLCache string Z BAN_CACHE_SIZE (seconds LOCAL_CACHE_TTL_CAP_SECONDS)}
  `{P : !TTLCache string bool PATH_CACHE_SIZE PATH_CACHE_TTL}
  `{HC : !TTLCache string headers HEADERS_CACHE_SIZE HEADERS_CACHE_TTL}.

(** The exclusions as they were last normalised, and what they were computed from;
    the cache of the events is [w_paths] of the [World]. *)
Record RequestValidator : Type := mkValidator {
  _normalized_exclude_paths : list ustr;
  _normalized_exclude_paths_source : option (list string)
}.

Definition RequestValidator_init : RequestValidator := mkValidator [] None.

#[local] Abbreviation V := (M (World * RequestValidator)).

Definition v_world {A} (m : W A) : V A := zoom fst (fun w p => (w, snd p)) m.

(** ** HTTPS and time windows *)

Definition is_trusted_proxy (config : SecurityConfig) (connecting_ip : string) : res bool :=
  any_res (fun proxy =>
    if negb (has_char "/" proxy) then Ok (connecting_ip =? proxy)%string
    else match ip_address connecting_ip, ip_network proxy with
         | Some a, Some n => Ok (ip_in_net a n)
         | None, _ => Raise (ValueError connecting_ip)
         | _, None => Raise (ValueError proxy)
         end) (trusted_proxies config).

Definition is_request_https (config : SecurityConfig) (request : Request) : res bool :=
  let is_https := (rq_scheme request =? "https")%string in
  match rq_client_host request with
  | Some (String _ _ as host) =>
      if trust_x_forwarded_proto config && nonempty (trusted_proxies config) then
        match is_trusted_proxy config host with
        | Ok true => Ok (is_https || (lower (header_or request "X-Forwarded-Proto" "") =? "https")%string)
        | Ok false => Ok is_https
        | Raise e => Raise e
        end
      else Ok is_https
  | _ => Ok is_https
  end.

Definition check_time_window (time_restrictions : list (string * string)) : W bool :=
  match dget "start" time_restrictions, dget "end" time_restrictions with
  | Some start_time, Some end_time =>
      let* now := on_sys time_time in
      ret (in_window start_time end_time (utc_hour_minute now))
  | None, _ => on_sys (log ERROR "Error checking time window: 'start'") ;;; ret true
  | _, None => on_sys (log ERROR "Error checking time window: 'end'") ;;; ret true
  end.

(** ** Excluded paths *)

Definition _current_normalized_exclude_paths (config : SecurityConfig) : M RequestValidator (list ustr) := fun v =>
  let current_source := exclude_paths config in
  let v := if bool_decide (_normalized_exclude_paths_source v = Some current_source) then v
           else mkValidator (normalize_exclude_paths (map ustr_of current_source)) (Some current_source) in
  (Ok (_normalized_exclude_paths v), v).

Definition path_cache_get (key : string) : W (option bool) :=
  let* now := on_sys time_monotonic in
  fun w => let '(v, c) := ttl_get now key (w_paths w) in (Ok v, w {{ w_paths := c }}).

Definition path_cache_set (key : string) : W unit :=
  let* now := on_sys time_monotonic in
  modify (fun w => w {{ w_paths := fst (ttl_set now key true (w_paths w)) }}).

(** The event of an excluded path, once per path while the cache remembers it. *)
Definition report_excluded (mw : Middleware) (request : Request) (normalized_path : ustr) : W unit :=
  let config := mw_config mw in
  let* encoded := lift_res (utf8_encode normalized_path) in
  let cache_key := sha256_hex (string_of_bytes encoded) in
  let* seen := path_cache_get cache_key in
  match seen with
  | Some _ => ret tt
  | None =>
      path_cache_set cache_key ;;;
      let* safe_path := lift_res (display_endpoint config (rq_path request)) in
      send_event mw "path_excluded" request "security_checks_bypassed"
        ("Path " +:+ safe_path +:+ " excluded from security checks")
        [("excluded_path", safe_path); ("configured_exclusions", show_list (exclude_paths config))]
  end.

Definition is_path_excluded (mw : Middleware) (request : Request) : V bool :=
  match normalize_url_path (ustr_of (rq_path request)) with
  | None => ret false
  | Some normalized_path =>
      let* exclusions := zoom snd (fun v p => (fst p, v)) (_current_normalized_exclude_paths (mw_config mw)) in
      if negb (path_matches_exclusions normalized_path exclusions) then ret false
      else
        v_world (report_excluded mw request normalized_path) ;;;
        ret true
  end.
End validator.

(** * Decoding gives code points that can be encoded *)

Abbreviation scalars := (Forall (fun c => scalar c = true)).

Lemma scalar_spec c : scalar c = true <-> 0 <= c < 55296 \/ 57344 <= c <= 1114111.
Proof. unfold scalar. rewrite orb_true_iff, !andb_true_iff, !Z.leb_le, Z.ltb_lt. lia. Qed.

(** What the continuation bytes that are due can still make of [acc]. *)
Definition completes (need : nat) (acc lo hi : Z) : Prop :=
  let n := match need with 3%nat => 4096 | 2%nat => 64 | _ => 1 end in
  128 <= lo /\ hi <= 191 /\
  (0 <= (acc * 64 + (lo - 128)) * n /\ (acc * 64 + (hi - 128)) * n + (n - 1) < 55296 \/
   57344 <= (acc * 64 + (lo - 128)) * n /\ (acc * 64 + (hi - 128)) * n + (n - 1) <= 1114111).

Lemma utf8_lead_completes b need v lo hi : 0 <= b -> utf8_lead b = Some (need, v, lo, hi) ->
  match need with O => scalar v = true | S _ => (need <= 3)%nat /\ completes need v lo hi end.
Proof.
  unfold utf8_lead, completes. intros Hb.
  repeat match goal with
  | |- (if ?c then _ else _) = _ -> _ => let H := fresh "H" in destruct c eqn:H; [intros [= <- <- <- <-]|]
  end; try done; bool_prop; cbn -[Z.mul Z.add Z.sub]; rewrite ?scalar_spec; lia.
Qed.

Lemma utf8_go_scalars bs need acc lo hi s :
  Forall (fun b => 0 <= b) bs -> (need <= 3)%nat -> (need <> O -> completes need acc lo hi) ->
  utf8_go need acc lo hi bs = Some s -> scalars s.
Proof.
  revert need acc lo hi s. induction bs as [|b bs IH]; intros need acc lo hi s Hbs Hn Hc; cbn [utf8_go].
  { destruct need; [|done]. intros [= <-]. constructor. }
  apply Forall_cons in Hbs as [Hb Hbs]. destruct need as [|n].
  - destruct (utf8_lead b) as [[[[[|n] v] lo'] hi']|] eqn:Hl; [| |done];
      pose proof (utf8_lead_completes b _ v lo' hi' Hb Hl) as Hv; cbn beta iota in Hv.
    + destruct (utf8_go 0 0 0 0 bs) as [r|] eqn:Hr; [|done]. intros [= <-]. constructor; [done|].
      by apply (IH 0%nat 0 0 0 r Hbs ltac:(lia) ltac:(done) Hr).
    + apply (IH (S n) v lo' hi'); [done|lia|]. intros _. apply Hv.
  - specialize (Hc ltac:(done)). destruct (lo <=? b) eqn:Hlo, (b <=? hi) eqn:Hhi; cbn [andb]; try done.
    bool_prop. apply Z.leb_le in Hlo, Hhi. destruct n as [|n].
    + destruct (utf8_go 0 0 0 0 bs) as [r|] eqn:Hr; [|done]. intros [= <-]. constructor;
        [|by apply (IH 0%nat 0 0 0 r Hbs ltac:(lia) ltac:(done) Hr)].
      apply scalar_spec. revert Hc. unfold completes. cbn -[Z.mul Z.add Z.sub]. lia.
    + apply IH; [done|lia|]. intros _. revert Hc. unfold completes.
      destruct n as [|[|n]]; [..|lia]; cbn -[Z.mul Z.add Z.sub]; lia.
Qed.

Lemma percent_byte_nonneg s b r : percent_byte s = Some (b, r) -> 0 <= b.
Proof.
  assert (forall c x, uhex c = Some x -> 0 <= x) as Hx.
  { intros c x. unfold uhex. repeat case_match; try done; intros [= <-]; bool_prop; lia. }
  destruct s as [|p [|h [|l s]]]; cbn; try done. destruct (p =? u_percent); [|done].
  destruct (uhex h) as [x|] eqn:Hh, (uhex l) as [y|] eqn:Hl; try done. intros [= <- _].
  apply Hx in Hh, Hl. lia.
Qed.

Lemma decode_run_scalars run s : Forall (fun b => 0 <= b) run -> _decode_percent_run run = Some s -> scalars s.
Proof. intros Hr. by apply utf8_go_scalars; [|lia|]. Qed.

Lemma decode_runs_scalars run value s :
  Forall (fun b => 0 <= b) run -> scalars value -> decode_runs run value = Some s -> scalars s.
Proof.
  revert run s. induction value as [value IH] using (induction_ltof1 _ (@length Z)). intros run s Hr Hv.
  destruct value as [|p tl]; cbn [decode_runs]; [by apply decode_run_scalars|].
  apply Forall_cons in Hv as [Hp Htl].
  assert (forall s', match _decode_percent_run run, decode_runs [] tl with
                     | Some d, Some r => Some (d ++ p :: r) | _, _ => None end = Some s' -> scalars s') as Hcopy.
  { intros s'. destruct (_decode_percent_run run) as [d|] eqn:Hd, (decode_runs [] tl) as [r'|] eqn:Hr'; try done.
    intros [= <-]. apply Forall_app. split; [by eapply decode_run_scalars|]. constructor; [done|].
    apply (IH tl) in Hr'; [done| |constructor|done]. unfold ltof. simpl. lia. }
  destruct tl as [|h [|l value']]; [by apply Hcopy|by apply Hcopy|].
  destruct (percent_byte (p :: h :: l :: value')) as [[b r]|] eqn:Hb; [|by apply Hcopy].
  apply (IH value'); [unfold ltof; simpl; lia| |].
  - apply Forall_app. split; [done|]. constructor; [by eapply percent_byte_nonneg|constructor].
  - by apply Forall_cons in Htl as [_ [_ ?]%Forall_cons].
Qed.

Lemma decode_rounds_scalars n value s : scalars value -> decode_rounds n value = Some s -> scalars s.
Proof.
  revert value. induction n as [|n IH]; intros value Hv; cbn [decode_rounds]; [by intros [= <-]|].
  destruct (_decode_percent_once value) as [v|] eqn:Hd; [|done]. apply IH.
  by apply (decode_runs_scalars [] value v).
Qed.

Lemma usplit_scalars c s : scalars s -> Forall scalars (usplit c s).
Proof.
  induction s as [|x s IH]; intros Hs; cbn [usplit]; [by repeat constructor|].
  apply Forall_cons in Hs as [Hx Hs]. specialize (IH Hs). destruct (x =? c); [by constructor|].
  destruct (usplit c s) as [|y ys]; [by repeat constructor|].
  apply Forall_cons in IH as [Hy Hys]. by repeat constructor.
Qed.

Lemma ujoin_scalars c l : scalar c = true -> Forall scalars l -> scalars (ujoin c l).
Proof.
  intros Hc. induction l as [|x l IH]; intros Hl; cbn [ujoin]; [constructor|].
  apply Forall_cons in Hl as [Hx Hl]. destruct l as [|y l]; [done|]. apply Forall_app. split; [done|].
  constructor; [done|]. by apply IH.
Qed.

Lemma collapse_step_scalars segments raw : Forall scalars segments -> scalars raw -> Forall scalars (collapse_step segments raw).
Proof.
  intros Hs Hr. unfold collapse_step.
  assert (scalars (_fold_dot_segment_params raw)) as Hf.
  { unfold _fold_dot_segment_params. pose proof (usplit_scalars u_semicolon raw Hr) as Hp.
    destruct (usplit u_semicolon raw) as [|b bs]; [by destruct (dot_segment [])|].
    apply Forall_cons in Hp as [Hb _]. by destruct (dot_segment b). }
  destruct (_ || _); [done|]. destruct (bool_decide _); [|by constructor]. destruct Hs; [constructor|done].
Qed.

(** The normal form of a path that can be encoded can be encoded. *)
Lemma normalize_scalars raw p : scalars raw -> normalize_url_path raw = Some p -> scalars p.
Proof.
  intros Hr. unfold normalize_url_path, _decode_percent_recursive.
  destruct (decode_rounds _ raw) as [d|] eqn:Hd; [|done]. apply decode_rounds_scalars in Hd; [|done].
  destruct (has_percent_run d); [done|]. intros [= <-]. unfold _collapse_dot_segments, path_of.
  constructor; [done|]. apply ujoin_scalars; [done|]. apply Forall_rev.
  assert (Forall scalars (usplit u_slash (ureplace u_backslash u_slash d))) as Hsegs.
  { apply usplit_scalars. unfold ureplace. apply Forall_fmap. eapply Forall_impl; [exact Hd|]. intros x Hx. cbn.
    by destruct (x =? u_backslash). }
  revert Hsegs. generalize (usplit u_slash (ureplace u_backslash u_slash d)). intros l.
  assert (forall acc, Forall scalars acc -> Forall scalars l -> Forall scalars (fold_left collapse_step l acc)) as H.
  { induction l as [|x l IH]; intros acc Ha Hl; [done|]. apply Forall_cons in Hl as [Hx Hl].
    cbn [fold_left]. apply IH; [by apply collapse_step_scalars|done]. }
  by apply H.
Qed.

Lemma ustr_of_scalars s : scalars (ustr_of s).
Proof.
  induction s as [|c s IH]; [constructor|]. constructor; [|done]. apply scalar_spec. unfold code.
  pose proof (N_ascii_bounded c). lia.
Qed.

Lemma utf8_encode_ok s : scalars s -> exists bs, utf8_encode s = Ok bs.
Proof.
  induction 1 as [|c s Hc Hs [bs IH]]; [by eexists|]. cbn [utf8_encode]. rewrite Hc, IH. by eexists.
Qed.

(** * Excluded paths *)

Section excluded.
Context `{Eng : Engine} `{C : !TTLCache string Z BAN_CACHE_SIZE (seconds LOCAL_CACHE_TTL_CAP_SECONDS)}
  `{P : !TTLCache string bool PATH_CACHE_SIZE PATH_CACHE_TTL}
  `{HC : !TTLCache string headers HEADERS_CACHE_SIZE HEADERS_CACHE_TTL}.

(** The exclusions kept are those of the paths they were computed from. *)
Definition memo_ok (v : RequestValidator) : Prop :=
  forall source, _normalized_exclude_paths_source v = Some source ->
    _normalized_exclude_paths v = normalize_exclude_paths (map ustr_of source).

Lemma memo_init : memo_ok RequestValidator_init.
Proof. by intros source. Qed.

(** Nothing changes but the surroundings and the cache of the events. *)
Definition reported (w w' : World) : Prop :=
  w_state w' = w_state w /\ w_ban w' = w_ban w /\ w_rl w' = w_rl w /\ w_counts w' = w_counts w /\
  w_cloud w' = w_cloud w /\ last_cloud_ip_refresh w' = last_cloud_ip_refresh w /\ w_headers w' = w_headers w.

#[export] Instance reported_preorder : PreOrder reported.
Proof. split; [by repeat split|]. unfold reported. intros w1 w2 w3. intuition congruence. Qed.

Lemma on_sys_reported {A} (m : M Sys A) : keeps reported (on_sys m).
Proof. intros w. unfold on_sys, zoom. destruct (m (w_sys w)). by destruct w. Qed.

Lemma report_excluded_run mw request p w : scalars p -> (exists path, display_url (mw_config mw) (rq_path request) = Ok path) ->
  exists w', report_excluded mw request p w = (Ok tt, w') /\ reported w w'.
Proof.
  intros Hp [path Hshown]. assert (keeps reported (report_excluded mw request p)) as Hk.
  { unfold report_excluded, path_cache_get, path_cache_set, send_event, send_middleware_event, _event_texts, _lookup_country, lift_res.
    repeat (cbv zeta; keeps_step); try apply on_sys_reported; intros w0; try (by destruct w0);
      try (destruct (ttl_get _ _ _); by destruct w0). }
  specialize (Hk w). destruct (report_excluded mw request p w) as [r w'] eqn:Hr. cbn [snd] in Hk. exists w'. split; [|done].
  f_equal. destruct (utf8_encode_ok p Hp) as [bs Hbs]. revert Hr. unfold report_excluded. rewrite Hbs.
  unfold bind at 1, lift_res. unfold path_cache_get, bind at 1. unfold bind at 1, on_sys at 1, zoom at 1, time_monotonic.
  destruct (ttl_get _ _ _) as [seen c]. destruct seen; [by intros [= <- _]|].
  unfold path_cache_set. unfold bind at 1. unfold bind at 1, on_sys at 1, zoom at 1, time_monotonic, modify at 1.
  unfold bind at 1, lift_res. rewrite display_endpoint_url, Hshown. edestruct send_event_run as [w1 Hs]. rewrite Hs. by intros [= <- _].
Qed.

(** The validator answers as the plain function on paths does.  Whatever paths
    it has seen and whatever the exclusions were before, [is_path_excluded] returns -
    it never raises, when the path can be shown - whether the path is excluded by the exclusions the
    configuration has now, and changes nothing else than its memory, the cache of
    events and the surroundings. *)
Lemma is_path_excluded_run mw request w v : memo_ok v -> (exists path, display_url (mw_config mw) (rq_path request) = Ok path) ->
  exists w' v', is_path_excluded mw request (w, v) =
    (Ok (path_is_excluded (ustr_of (rq_path request)) (map ustr_of (exclude_paths (mw_config mw)))), (w', v')) /\
    memo_ok v' /\ reported w w'.
Proof.
  intros Hv Hshown. unfold is_path_excluded, path_is_excluded.
  destruct (normalize_url_path (ustr_of (rq_path request))) as [p|] eqn:Hp; [|by exists w, v].
  apply normalize_scalars in Hp; [|apply ustr_of_scalars]. set (source := exclude_paths (mw_config mw)).
  assert (exists v', _current_normalized_exclude_paths (mw_config mw) v =
    (Ok (normalize_exclude_paths (map ustr_of source)), v') /\ memo_ok v') as (v' & Hc & Hm).
  { unfold _current_normalized_exclude_paths. fold source. case_bool_decide as Hs.
    - exists v. split; [|done]. by rewrite (Hv _ Hs).
    - eexists. split; [reflexivity|]. by intros s [= <-]. }
  unfold bind at 1, zoom at 1. cbn [fst snd]. rewrite Hc.
  destruct (path_matches_exclusions p _); cbn [negb]; [|by exists w, v'].
  destruct (report_excluded_run mw request p w Hp Hshown) as (w' & Hr & Hrep). exists w', v'.
  split; [|done]. unfold bind, v_world, zoom. cbn [fst snd]. by rewrite Hr.
Qed.
End excluded.
