(* ===== verification/Responses.v ===== *)
(** The way of a response out of the middleware ([process_response] of
    [guard_core/core/responses/factory.py]): behaviour rules, metrics
    ([core/events/metrics.py]), security headers, CORS headers, and the modifier of
    the application. *)
From S2P Require Import Prelude PyStr PyDict IpAddr Sys Sample Config Redaction Request IpExtraction TTL Redis IpBan RateLimit Cloud.
From S2P Require Import Json SecurityHeaders AccessControl JsonPattern Middleware Helpers RateLimiter SampleEngine Behavior.

(** * Metrics *)

Definition METRIC_RESPONSE_TIME : string := "response_time".
Definition METRIC_REQUEST_COUNT : string := "request_count".
Definition METRIC_ERROR_RATE : string := "error_rate".

(** [EventFilter] *)
Record EventFilter : Type := mkFilter {
  ef_muted_event_types : list string;
  ef_muted_metric_types : list string
}.

Definition is_event_allowed (f : EventFilter) (event_type : string) : bool :=
  negb (in_list event_type (ef_muted_event_types f)).
Definition is_metric_allowed (f : EventFilter) (metric_type : string) : bool :=
  negb (in_list metric_type (ef_muted_metric_types f)).

Record MetricsCollector : Type := mkMetrics {
  mc_agent : bool;
  mc_config : SecurityConfig;
  mc_filter : EventFilter
}.

Section responses.
Context `{Eng : Engine} `{C : !TTLCache string Z BAN_CACHE_SIZE (seconds LOCAL_CACHE_TTL_CAP_SECONDS)}
  `{P : !TTLCache string bool PATH_CACHE_SIZE PATH_CACHE_TTL}
  `{HC : !TTLCache string headers HEADERS_CACHE_SIZE HEADERS_CACHE_TTL} `{BS : !BehaviorServices}.

#[local] Abbreviation BP := (M (World * Trackers)).

Definition send_metric (mc : MetricsCollector) (metric_type : string) (value : Z) (tags : list (string * string)) : W unit :=
  if mc_agent mc && agent_enable_metrics (mc_config mc) then
    if negb (is_metric_allowed (mc_filter mc) metric_type) then ret tt
    else catch any_exn (on_sys (agent_metric_send (AgentMetric metric_type value tags)))
           (fun e => on_sys (log ERROR ("Failed to send metric to agent: " +:+ exn_message e)))
  else ret tt.

Definition collect_request_metrics (mc : MetricsCollector) (request : Request) (response_time status_code : Z) : W unit :=
  if negb (mc_agent mc) || negb (agent_enable_metrics (mc_config mc)) then ret tt
  else
    let* endpoint := lift_res (display_endpoint (mc_config mc) (rq_path request)) in
    let tags := [("endpoint", endpoint); ("method", rq_method request)] in
    let status_tags := tags ++ [("status", string_of_Z status_code)] in
    send_metric mc METRIC_RESPONSE_TIME response_time status_tags ;;;
    send_metric mc METRIC_REQUEST_COUNT (seconds 1) tags ;;;
    when (400 <=? status_code)%Z (send_metric mc METRIC_ERROR_RATE (seconds 1) status_tags).

(** * The response *)

(** [ResponseContext] *)
Record ResponseContext : Type := mkResponseContext {
  rx_config : SecurityConfig;
  rx_metrics : MetricsCollector;
  rx_agent : bool
}.

Definition apply_cors_headers (config : SecurityConfig) (response : Response) (origin : string) : W Response :=
  if headers_enabled config then
    let* hs := on_headers (get_cors_headers origin (Some config)) in
    ret (fold_left (fun r h => set_header (fst h) (snd h) r) hs response)
  else ret response.

Definition _resolve_client_ip_for_behavioral_rules (rx : ResponseContext) (request : Request)
  (route_config : option RouteConfig) (has_rules has_global_rules : bool) : W (option string) :=
  let needs_client_ip :=
    match route_config with Some rc => nonempty (rc_behavior_rules rc) && has_rules | None => false end ||
    nonempty (global_behavior_rules (rx_config rx)) && has_global_rules in
  if negb needs_client_ip then ret None
  else
    let* cached_ip := state st_client_ip in
    let* client_ip := on_sys (extract_client_ip request cached_ip (rx_config rx) (rx_agent rx)) in
    ret (Some client_ip).

(** What is done with every response once the behaviour rules have seen it. *)
Definition finish_response (rx : ResponseContext) (request : Request) (response : Response) (response_time : Z)
  : W Response :=
  let config := rx_config rx in
  collect_request_metrics (rx_metrics rx) request response_time (rs_status response) ;;;
  let* response := apply_security_headers config response (Some (rq_path request)) in
  let* response :=
    match header request "origin" with
    | Some (String _ _ as origin) => apply_cors_headers config response origin
    | _ => ret response
    end in
  apply_modifier config response.

Definition process_response (rx : ResponseContext) (request : Request) (response : Response) (response_time : Z)
  (route_config : option RouteConfig)
  (process_behavioral_rules : option (Request -> Response -> string -> RouteConfig -> BP unit))
  (process_global_behavioral_rules : option (Request -> Response -> string -> list BehaviorRule -> BP unit)) : BP Response :=
  let config := rx_config rx in
  let* client_ip := p_world (_resolve_client_ip_for_behavioral_rules rx request route_config
    (is_some process_behavioral_rules) (is_some process_global_behavioral_rules)) in
  match client_ip, route_config, process_behavioral_rules with
  | Some client_ip, Some rc, Some process =>
      when (nonempty (rc_behavior_rules rc)) (process request response client_ip rc)
  | _, _, _ => ret tt
  end ;;;
  match client_ip, process_global_behavioral_rules with
  | Some client_ip, Some process =>
      when (nonempty (global_behavior_rules config))
        (process request response client_ip (map config_to_rule (global_behavior_rules config)))
  | _, _ => ret tt
  end ;;;
  p_world (finish_response rx request response response_time).
End responses.

(** * What a response carries *)

Section finish.
Context `{Eng : Engine} `{C : !TTLCache string Z BAN_CACHE_SIZE (seconds LOCAL_CACHE_TTL_CAP_SECONDS)}
  `{P : !TTLCache string bool PATH_CACHE_SIZE PATH_CACHE_TTL}
  `{HC : !TTLCache string headers HEADERS_CACHE_SIZE HEADERS_CACHE_TTL} `{BS : !BehaviorServices}.

Context (Hmono : forall i j, (i <= j)%nat -> (monotonic i <= monotonic j)%Z).

(** Headers put over those a response has. *)
Definition overlay (hs old : headers) : headers := fold_left (fun d h => dset (fst h) (snd h) d) hs old.

Lemma set_headers_overlay hs r :
  fold_left (fun r h => set_header (fst h) (snd h) r) hs r = mkResponse (rs_status r) (rs_body r) (overlay hs (rs_headers r)).
Proof.
  revert r. induction hs as [|h hs IH]; intros r; [by destruct r|]. cbn [fold_left]. rewrite IH. by destruct r.
Qed.

(** The metrics of a response to a request whose path is shown as [endpoint], those that
    are muted left out. *)
Definition expected_metrics (mc : MetricsCollector) (request : Request) (endpoint : string) (response_time status : Z) : list agent_metric :=
  if mc_agent mc && agent_enable_metrics (mc_config mc) then
    let tags := [("endpoint", endpoint); ("method", rq_method request)] in
    let status_tags := tags ++ [("status", string_of_Z status)] in
    List.filter (fun m => is_metric_allowed (mc_filter mc) (met_type m))
      ([AgentMetric METRIC_RESPONSE_TIME response_time status_tags; AgentMetric METRIC_REQUEST_COUNT (seconds 1) tags] ++
       (if (400 <=? status)%Z then [AgentMetric METRIC_ERROR_RATE (seconds 1) status_tags] else []))
  else [].

(** The steps of a response leave the metrics, or the settings of the headers,
    alone. *)
Definition same_metrics (s s' : Sys) : Prop := metric_log s' = metric_log s.

#[export] Instance same_metrics_preorder : PreOrder same_metrics.
Proof. split; [done|]. unfold same_metrics. congruence. Qed.

Definition metrics_sent (l : list agent_metric) (w w' : World) : Prop :=
  metric_log (w_sys w') = metric_log (w_sys w) ++ l /\ ticks (w_sys w') = ticks (w_sys w) /\ w_headers w' = w_headers w.

Lemma send_metric_run mc t v tags w :
  exists w', send_metric mc t v tags w = (Ok tt, w') /\
    metrics_sent (if mc_agent mc && agent_enable_metrics (mc_config mc) && is_metric_allowed (mc_filter mc) t
                  then [AgentMetric t v tags] else []) w w'.
Proof using Type.
  unfold send_metric. destruct (mc_agent mc && agent_enable_metrics (mc_config mc)); cbn [andb].
  2: { exists w. split; [done|]. unfold metrics_sent. by rewrite app_nil_r. }
  destruct (is_metric_allowed (mc_filter mc) t); cbn [negb].
  2: { exists w. split; [done|]. unfold metrics_sent. by rewrite app_nil_r. }
  unfold catch, on_sys, zoom, agent_metric_send. destruct (metric_outcome _ _); eexists; by (split; [|destruct w as [[]]]).
Qed.

Lemma collect_metrics_run mc request endpoint t status w : display_endpoint (mc_config mc) (rq_path request) = Ok endpoint ->
  exists w', collect_request_metrics mc request t status w = (Ok tt, w') /\
    metrics_sent (expected_metrics mc request endpoint t status) w w'.
Proof using Type.
  intros Hshown.
  assert (forall l l' (a b c : World), metrics_sent l a b -> metrics_sent l' b c -> metrics_sent (l ++ l') a c) as Htrans.
  { unfold metrics_sent. intros l l' a b c (H1 & H2 & H3) (-> & -> & ->). rewrite H1, H2, H3, app_assoc. done. }
  unfold collect_request_metrics, expected_metrics.
  destruct (mc_agent mc && agent_enable_metrics (mc_config mc)) eqn:Hon.
  2: { apply andb_false_iff in Hon. exists w. rewrite (proj2 (orb_true_iff _ _)).
       - split; [done|]. unfold metrics_sent. by rewrite app_nil_r.
       - destruct Hon as [-> | ->]; auto. }
  apply andb_true_iff in Hon as [Ha Hm]. rewrite Ha, Hm. cbn [negb orb]. unfold lift_res at 1, bind at 1. rewrite Hshown. cbv zeta.
  set (tags := [("endpoint", _); ("method", _)]). set (status_tags := tags ++ _).
  destruct (send_metric_run mc METRIC_RESPONSE_TIME t status_tags w) as (w1 & H1 & Hs1). rewrite (bind_ok _ _ _ _ _ H1).
  destruct (send_metric_run mc METRIC_REQUEST_COUNT (seconds 1) tags w1) as (w2 & H2 & Hs2). rewrite (bind_ok _ _ _ _ _ H2).
  rewrite Ha, Hm in Hs1, Hs2. cbn [andb] in Hs1, Hs2. rewrite List.filter_app. cbn [List.filter met_type].
  destruct (400 <=? status)%Z; cbn [when].
  - destruct (send_metric_run mc METRIC_ERROR_RATE (seconds 1) status_tags w2) as (w3 & H3 & Hs3). exists w3. split; [done|].
    rewrite Ha, Hm in Hs3. cbn [andb] in Hs3. pose proof (Htrans _ _ _ _ _ (Htrans _ _ _ _ _ Hs1 Hs2) Hs3) as Hs.
    cbn [List.filter met_type]. by destruct (is_metric_allowed _ METRIC_RESPONSE_TIME), (is_metric_allowed _ METRIC_REQUEST_COUNT).
  - exists w2. split; [done|]. pose proof (Htrans _ _ _ _ _ Hs1 Hs2) as Hs. cbn [List.filter]. rewrite app_nil_r.
    by destruct (is_metric_allowed _ METRIC_RESPONSE_TIME), (is_metric_allowed _ METRIC_REQUEST_COUNT).
Qed.

#[local] Abbreviation HS := (Sys * SecurityHeadersManager)%type.
Definition headers_metrics (p q : HS) : Prop := same_metrics (fst p) (fst q).

#[export] Instance headers_metrics_preorder : PreOrder headers_metrics.
Proof. split; [done|]. unfold headers_metrics, same_metrics. intros ? ? ?. congruence. Qed.

Lemma sys_metrics {A} (m : M Sys A) : keeps same_metrics m -> keeps headers_metrics (sys m).
Proof using Type. intros Hm [s h]. unfold sys, zoom. cbn [fst]. specialize (Hm s). by destruct (m s). Qed.

Lemma log_metrics l msg : keeps same_metrics (log l msg).
Proof using Type. by intros []. Qed.
Lemma monotonic_metrics : keeps same_metrics time_monotonic.
Proof using Type. by intros []. Qed.
Lemma agent_send_logged_metrics e f : keeps same_metrics (agent_send_logged e f).
Proof using Type. intros []. unfold agent_send_logged, catch, agent_send. by destruct (agent_outcome _ _). Qed.
Lemma h_get_metrics {A} (f : SecurityHeadersManager -> A) : keeps headers_metrics (h_get f).
Proof using Type. by intros []. Qed.
#[local] Hint Resolve h_get_metrics sys_metrics log_metrics monotonic_metrics agent_send_logged_metrics : metrics.

Lemma get_headers_metrics path c : keeps headers_metrics (get_headers path c).
Proof using Type.
  unfold get_headers, headers_off, headers_cache_get, headers_cache_set, h_get, h_set, _send_headers_applied_event,
    _resolve_headers_state, _compute_csp_config, _compute_hsts_config. keeps_steps; auto with metrics.
  - intros [s h]. unfold headers_metrics. cbn [fst snd]. by destruct (ttl_get _ _ _).
  - by intros [].
Qed.

Lemma get_cors_metrics origin c : keeps headers_metrics (get_cors_headers origin c).
Proof using Type.
  unfold get_cors_headers, _resolve_cors_state, _compute_cors_config, _is_wildcard_with_credentials, h_get.
  keeps_steps; auto with metrics.
Qed.

(** The CORS headers of a response to a request with this origin. *)
Definition cors_of (config : SecurityConfig) (request : Request) (w : World) : headers :=
  match header request "origin" with
  | Some (String _ _ as origin) =>
      if headers_enabled config then
        match fst (get_cors_headers origin (Some config) (w_sys w, w_headers w)) with Ok hs => hs | Raise _ => [] end
      else []
  | _ => []
  end.

(** The headers manager has answered for this configuration only. *)
Definition headers_current (config : SecurityConfig) (w : World) : Prop :=
  cached_in (fun hs => headers_of config = Ok hs) (w_sys w, w_headers w).

Lemma on_headers_run {A} (m : M HS A) w r s h : m (w_sys w, w_headers w) = (r, (s, h)) ->
  on_headers m w = (r, w {{ w_sys := s; w_headers := h }}).
Proof using Type. unfold on_headers, zoom. by intros ->. Qed.

Lemma apply_security_headers_spec config response path w : acceptable config -> headers_current config w ->
  exists sec w', apply_security_headers config response path w =
    (Ok (mkResponse (rs_status response) (rs_body response) (overlay sec (rs_headers response))), w') /\
    headers_of config = Ok sec /\ same_metrics (w_sys w) (w_sys w').
Proof using Hmono.
  intros Ha Hcur. unfold apply_security_headers. unfold acceptable in Ha.
  destruct (headers_enabled config) eqn:He.
  2: { exists [], w. unfold headers_of. rewrite He. by destruct response. }
  destruct (get_headers_current Hmono config_id config path _ Hcur) as [Hr _].
  pose proof (get_headers_metrics path (Some (config_id, config)) (w_sys w, w_headers w)) as Hm.
  destruct Ha as [sec Hsec]. rewrite Hsec in Hr. destruct (get_headers path (Some (config_id, config)) (w_sys w, w_headers w)) as [r [s h]] eqn:Hg.
  cbn [fst snd] in Hr. subst r. eexists sec, _. rewrite (bind_ok _ _ _ _ _ (on_headers_run _ _ _ _ _ Hg)), set_headers_overlay.
  split; [reflexivity|]. split; [done|]. destruct w. exact Hm.
Qed.

Lemma apply_cors_spec config request response w0 w :
  exists w', match header request "origin" with
    | Some (String _ _ as origin) => apply_cors_headers config response origin
    | _ => ret response
    end w = (Ok (mkResponse (rs_status response) (rs_body response) (overlay (cors_of config request w0) (rs_headers response))), w') /\
    same_metrics (w_sys w) (w_sys w').
Proof using Type.
  unfold cors_of. destruct (header request "origin") as [[|ch origin]|]; [by exists w; destruct response| |by exists w; destruct response].
  unfold apply_cors_headers. destruct (headers_enabled config); [|by exists w; destruct response]. set (origin' := String ch origin).
  pose proof (get_cors_metrics origin' (Some config) (w_sys w, w_headers w)) as Hm.
  assert (forall p q : HS, fst (get_cors_headers origin' (Some config) p) = fst (get_cors_headers origin' (Some config) q)) as Hdet.
  { intros p q. unfold get_cors_headers. destruct (resolve_cors_run (Some config) p) as (p1 & H1 & _).
    destruct (resolve_cors_run (Some config) q) as (q1 & H2 & _). rewrite (bind_ok _ _ _ _ _ H1), (bind_ok _ _ _ _ _ H2).
    cbn [cors_settings]. destruct (_ && _); [|done]. unfold _is_wildcard_with_credentials, bind. cbn [origins allow_credentials].
    destruct (negb (in_list "*" _)); [by destruct (_is_origin_allowed _ _)|].
    destruct (cors_allow_credentials config && _); [done|]. cbn. by destruct (_is_origin_allowed _ _). }
  destruct (cors_headers_spec origin' (Some config) (w_sys w, w_headers w)) as (hs & [s h] & Hg & _).
  rewrite (Hdet (w_sys w0, w_headers w0) (w_sys w, w_headers w)), Hg. cbn [fst].
  rewrite (bind_ok _ _ _ _ _ (on_headers_run _ _ _ _ _ Hg)), set_headers_overlay. eexists. split; [reflexivity|].
  rewrite Hg in Hm. destruct w. exact Hm.
Qed.

(** C39: Without a custom response modifier, for security headers that can be sent and
    are not cached from another configuration, and a path that can be shown, a
    response leaves with the status and body of the application, its headers under the
    security headers of the configuration and these under the CORS headers its origin
    is due, and the agent is sent exactly the metrics that are not muted, the error
    metric from status 400 on. *)
Theorem finish_response_spec rx request endpoint response t w :
  display_endpoint (mc_config (rx_metrics rx)) (rq_path request) = Ok endpoint ->
  acceptable (rx_config rx) -> custom_response_modifier (rx_config rx) = None -> headers_current (rx_config rx) w ->
  exists sec w', finish_response rx request response t w =
    (Ok (mkResponse (rs_status response) (rs_body response)
          (overlay (cors_of (rx_config rx) request w) (overlay sec (rs_headers response)))), w') /\
    headers_of (rx_config rx) = Ok sec /\
    metric_log (w_sys w') = metric_log (w_sys w) ++ expected_metrics (rx_metrics rx) request endpoint t (rs_status response).
Proof using Hmono.
  intros Hshown Ha Hm Hcur. unfold finish_response. cbv zeta.
  destruct (collect_metrics_run (rx_metrics rx) request endpoint t (rs_status response) w Hshown) as (w1 & H1 & Hlog & Ht & Hh).
  rewrite (bind_ok _ _ _ _ _ H1).
  assert (headers_current (rx_config rx) w1) as Hcur1.
  { intros n k hs. cbn [fst snd]. rewrite Ht, Hh. apply Hcur. }
  destruct (apply_security_headers_spec (rx_config rx) response (Some (rq_path request)) w1 Ha Hcur1) as (sec & w2 & H2 & Hsec & Hm2).
  rewrite (bind_ok _ _ _ _ _ H2).
  destruct (apply_cors_spec (rx_config rx) request
    (mkResponse (rs_status response) (rs_body response) (overlay sec (rs_headers response))) w w2) as (w3 & H3 & Hm3).
  rewrite (bind_ok _ _ _ _ _ H3). exists sec, w3. unfold apply_modifier. rewrite Hm. split; [done|]. split; [done|].
  rewrite Hm3, Hm2. exact Hlog.
Qed.

End finish.

(** * A witness *)

Section witness.
#[local] Instance env : Env := sample_env (ticking 1000) redis_up.
#[local] Instance engine : Engine := sample_engine (ticking 1000) redis_up.
#[local] Instance ban_cache : TTLCache string Z BAN_CACHE_SIZE (seconds LOCAL_CACHE_TTL_CAP_SECONDS) := sample_ban_cache.
#[local] Instance path_cache : TTLCache string bool PATH_CACHE_SIZE PATH_CACHE_TTL := sample_path_cache.
#[local] Existing Instance sample_headers_cache.

Definition api_config : SecurityConfig :=
  default_config {{ enable_redis := false; enable_cors := true; security_headers := Some sample_headers_options; agent_enable_metrics := true }}.

Definition api_context : ResponseContext := mkResponseContext api_config (mkMetrics true api_config (mkFilter [] ["request_count"])) true.

Definition api_request : Request := get_request "/missing" "198.51.100.7" [("Origin", "https://app.example")].

Lemma finish_response_spec_witness :
  let w := sample_world (ticking 1000) redis_up api_config None in
  exists w', finish_response api_context api_request (mkResponse 404 "gone" [("x-frame-options", "x"); ("X-Frame-Options", "ALLOW")]) 250 w =
    (Ok (mkResponse 404 "gone" (overlay (cors_of api_config api_request w)
       (overlay sample_headers_list [("x-frame-options", "x"); ("X-Frame-Options", "ALLOW")]))), w') /\
    map met_type (metric_log (w_sys w')) = ["response_time"; "error_rate"].
Proof.
  intros w.
  destruct (finish_response_spec (fun i j => sample_mono i j) api_context api_request "/missing"
    (mkResponse 404 "gone" [("x-frame-options", "x"); ("X-Frame-Options", "ALLOW")]) 250 w) as (sec & w' & Hr & Hsec & Hlog).
  - vm_compute. reflexivity.
  - eexists. reflexivity.
  - reflexivity.
  - intros n k hs _. cbn. discriminate.
  - exists w'. assert (sec = sample_headers_list) as -> by (vm_compute in Hsec; by injection Hsec as <-).
    split; [exact Hr|]. exact (eq_trans (f_equal (map met_type) Hlog) eq_refl).
Defined.
End witness.
