(* ===== verification/CheckFacts.v ===== *)
(** What the checks guarantee, one by one and together. *)
From S2P Require Import Prelude PyStr PyDict IpAddr IpAddrText Sys Sample Config Redaction Request IpExtraction TTL Redis.
From S2P Require Import IpBan RateLimit Cloud AccessControl Middleware Helpers RateLimiter SampleEngine Checks.
From S2P Require Import Pipeline.
From S2P Require Import Json SecurityHeaders.

(** * Passive mode *)

Section passive.
Context `{Eng : Engine} `{C : !TTLCache string Z BAN_CACHE_SIZE (seconds LOCAL_CACHE_TTL_CAP_SECONDS)}
  `{P : !TTLCache string bool PATH_CACHE_SIZE PATH_CACHE_TTL}
  `{HC : !TTLCache string headers HEADERS_CACHE_SIZE HEADERS_CACHE_TTL}.

Context (mw : Middleware) (request : Request) (Hpassive : passive_mode (mw_config mw) = true).

Abbreviation silent := (returns (fun r : option Response => r = None)).

Lemma unless_passive_silent m : silent (unless_passive (mw_config mw) m).
Proof using Hpassive. unfold unless_passive. rewrite Hpassive. by apply returns_ret. Qed.

Lemma deny_silent code msg : silent (deny (mw_config mw) code msg).
Proof using Hpassive. apply unless_passive_silent. Qed.

Lemma or_else_silent m k : silent m -> silent k -> silent (or_else m k).
Proof. intros Hm Hk. unfold or_else. apply (returns_bind _ _ _ _ Hm). by intros r ->. Qed.

Ltac silent := cbv zeta; returns_steps; try done;
  auto using deny_silent, unless_passive_silent, or_else_silent.

Lemma report_header_silent h r f : silent (_report_header_violation mw request h r f).
Proof using Hpassive. unfold _report_header_violation. silent. Qed.

Lemma required_headers_silent l : silent (check_required_headers mw request l).
Proof using Hpassive.
  induction l as [|[n e] l IH]; cbn [check_required_headers]; unfold _handle_missing_header, _handle_mismatched_header;
    silent; auto using report_header_silent.
Qed.

Lemma auth_failure_silent r rc v : silent (_handle_auth_failure mw request r rc v).
Proof using Hpassive. unfold _handle_auth_failure. silent. Qed.

Lemma resolve_credential_silent rc : returns (fun t => fst (fst t) = None) (_resolve_credential mw request rc).
Proof using Hpassive.
  unfold _resolve_credential. cbv zeta. repeat (cbv zeta; lazymatch goal with
    | |- returns _ (ret _) => by apply returns_ret
    | |- returns _ (bind _ _) => eapply returns_bind; [apply auth_failure_silent|intros ? ->]
    | |- returns _ (if ?b then _ else _) => destruct b
    | |- returns _ (match ?x with _ => _ end) => destruct x
    end).
Qed.

Lemma authentication_silent : silent (AuthenticationCheck_check mw request).
Proof using Hpassive.
  unfold AuthenticationCheck_check, _check_presence. apply returns_then. intros [rc|]; [|silent].
  destruct (rc_authorization_header_required rc) as [[|c s]|].
  2: { destruct (extract_credential _ _) as [[|] ?]; auto using auth_failure_silent. by apply returns_ret. }
  all: destruct (negb _ && negb _); [by apply returns_ret|].
  all: apply (returns_bind _ _ _ _ (resolve_credential_silent rc)); intros [[f v] cr]; cbn [fst]; intros ->.
  all: destruct v as [v|]; [|apply auth_failure_silent].
  all: eapply (returns_bind (fun r => match r with inr f => f = None | inl _ => True end)).
  all: try (intros [[p|]|f]; [intros _; apply returns_then; intros ?; by apply returns_ret
                             |intros _; apply auth_failure_silent|intros ->; by apply returns_ret]).
  all: apply returns_catch; [apply returns_then; intros ?; by apply returns_ret|].
  all: intros e; eapply returns_bind; [apply auth_failure_silent|]; intros ? ->; by apply returns_ret.
Qed.

Lemma validators_silent l : silent (run_validators mw request l).
Proof using Hpassive.
  induction l as [|v l IH]; cbn [run_validators]; [silent|]. cbv zeta. apply returns_then. intros [|r|]; [exact IH|..].
  - do 2 (apply returns_then; intros ?). by rewrite Hpassive.
  - do 2 (apply returns_then; intros ?). exact IH.
Qed.

Lemma banned_silent ip rc : silent (_check_banned_ip mw request ip rc).
Proof using Hpassive. unfold _check_banned_ip. silent. Qed.

Lemma route_ip_silent ip rc : silent (_check_route_ip_restrictions mw request ip rc).
Proof using Hpassive. unfold _check_route_ip_restrictions. silent. Qed.

Lemma global_ip_silent ip rc e p : silent (_check_global_ip_restrictions mw request ip rc e p).
Proof using Hpassive. unfold _check_global_ip_restrictions. silent. Qed.

Lemma ip_security_silent : silent (IpSecurityCheck_check mw request).
Proof using Hpassive.
  unfold IpSecurityCheck_check. apply returns_then; intros cip. apply returns_then; intros rc.
  destruct cip as [[|c s]|]; [by apply returns_ret| |by apply returns_ret].
  apply or_else_silent; [apply banned_silent|]. apply returns_then; intros b.
  destruct b; [apply global_ip_silent|]. destruct (should_bypass_check _ _); [by apply returns_ret|].
  destruct rc as [rc|]; [|apply global_ip_silent]. apply returns_then; intros p.
  apply or_else_silent; [apply route_ip_silent|apply global_ip_silent].
Qed.

Lemma apply_rate_limit_silent ip l wd t ev ep : silent (_apply_rate_limit_check mw request ip l wd t ev ep).
Proof using Hpassive.
  unfold _apply_rate_limit_check. cbv zeta. rewrite Hpassive. apply returns_then; intros [r|]; [|by apply returns_ret].
  apply returns_then; intros ?. by apply returns_ret.
Qed.

Lemma rate_limit_silent : silent (RateLimitCheck_check mw request).
Proof using Hpassive.
  unfold RateLimitCheck_check, _check_endpoint_rate_limit, _check_route_rate_limit, _check_geo_rate_limit,
    _check_global_rate_limit. cbv zeta. rewrite Hpassive.
  repeat (cbv zeta; first [apply or_else_silent | apply apply_rate_limit_silent | returns_step]); done.
Qed.

Lemma suspicious_silent : silent (SuspiciousActivityCheck_check mw request).
Proof using Hpassive. unfold SuspiciousActivityCheck_check. cbv zeta. rewrite Hpassive. silent. Qed.

Lemma size_content_silent : silent (RequestSizeContentCheck_check mw request).
Proof using Hpassive.
  unfold RequestSizeContentCheck_check, _check_request_size_limit, _check_content_type_allowed.
  apply returns_then; intros [rc|]; [|by apply returns_ret]. apply or_else_silent; silent.
Qed.

(** No check of the default pipeline returns a response in passive mode. *)
Lemma passive_checks_silent c : c ∈ DEFAULT_CHECK_CLASSES -> silent (check c mw request).
Proof using Hpassive.
  unfold DEFAULT_CHECK_CLASSES. intros Hc.
  repeat (apply elem_of_cons in Hc as [->|Hc]; [cbn [check]|]); [..|by apply elem_of_nil in Hc];
    auto using ip_security_silent, authentication_silent, rate_limit_silent, suspicious_silent, size_content_silent.
  - unfold RouteConfigCheck_check, _handle_unresolved_route. silent.
  - unfold EmergencyModeCheck_check. silent.
  - unfold HttpsEnforcementCheck_check. silent.
  - unfold RequestLoggingCheck_check. silent.
  - unfold RequiredHeadersCheck_check. apply returns_then. intros [rc|]; [apply required_headers_silent|silent].
  - unfold ReferrerCheck_check, _handle_missing_referrer, _handle_invalid_referrer. silent.
  - unfold CustomValidatorsCheck_check. apply returns_then. intros [rc|]; [apply validators_silent|silent].
  - unfold TimeWindowCheck_check. silent.
  - unfold CloudIpRefreshCheck_check. silent.
  - unfold CloudProviderCheck_check. silent.
  - unfold UserAgentCheck_check. silent.
  - unfold CustomRequestCheck_check. silent.
Qed.

(** Passive mode only watches.  In passive mode, with errors tolerated
    ([fail_secure=False]) whose messages can be shown, the default pipeline admits every
    request: it returns no response and never raises. *)
Theorem passive_mode_admits_everything src w pl :
  fail_secure (mw_config mw) = false ->
  rebuilds src -> (forall c, c ∈ pl_checks (current_pipeline src pl) -> c ∈ DEFAULT_CHECK_CLASSES) ->
  (forall c e, c ∈ pl_checks (current_pipeline src pl) -> reported mw (pl_muted (current_pipeline src pl)) c e = true) ->
  exists w', execute mw src request (w, pl) = (Ok None, (w', current_pipeline src pl)).
Proof using Hpassive.
  intros Hf Hb Hd Hrep. set (pl' := current_pipeline src pl) in *.
  enough (exists w', admits mw request (pl_muted pl') (st_exclusion_scoped (w_state w)) (pl_checks pl') (started w) w')
    as [w' Ha] by (exists w'; by apply execute_admits_iff).
  generalize (started w) as w0. revert Hd Hrep. generalize (pl_checks pl') as cs. intros cs.
  induction cs as [|c cs IH]; intros Hd Hrep w0; [eexists; constructor|].
  assert (forall w0, exists w', admits mw request (pl_muted pl') (st_exclusion_scoped (w_state w)) cs w0 w') as IH'
    by (intros; apply IH; intros; [apply Hd|apply Hrep]; by right).
  destruct (in_scope (st_exclusion_scoped (w_state w)) c) eqn:Hs.
  2: { destruct (IH' w0) as [w' Ha]. exists w'. by apply admits_out_of_scope. }
  assert (silent (check c mw request)) as Hsil by (apply passive_checks_silent, Hd; left).
  specialize (Hsil w0). destruct (check c mw request w0) as [[r|e] w1] eqn:Hc; cbn [fst] in Hsil.
  - rewrite (Hsil r) in Hc by done. destruct (IH' w1) as [w' Ha]. exists w'. by eapply admits_pass.
  - destruct (IH' (after_error mw (pl_muted pl') c e w1)) as [w' Ha]. exists w'. eapply admits_tolerated; eauto using attempt_error.
    + unfold tolerated. rewrite Hf. apply orb_true_r.
    + apply Hrep. left.
Qed.
End passive.

(** * Checks that are left out *)

Section applies.
Context `{Eng : Engine} `{C : !TTLCache string Z BAN_CACHE_SIZE (seconds LOCAL_CACHE_TTL_CAP_SECONDS)}
  `{P : !TTLCache string bool PATH_CACHE_SIZE PATH_CACHE_TTL}
  `{HC : !TTLCache string headers HEADERS_CACHE_SIZE HEADERS_CACHE_TTL}.

Context (mw : Middleware) (request : Request).

Abbreviation config := (mw_config mw).

(** The rules of the request's route are among those of the decorator. *)
Definition route_known (w : World) : Prop :=
  forall d rc, mw_decorator mw = Some d -> st_route_config (w_state w) = Some rc -> rc ∈ map snd (_route_configs d).

(** A cached detection result of a route without detection says so. *)
Definition cache_sound (w : World) : Prop :=
  forall rc r, st_detection_cache (w_state w) = Some (rc, r) ->
    fst (_get_effective_penetration_setting config rc) = false ->
    is_threat r = false /\ trigger_info r = _get_detection_disabled_reason config (snd (_get_effective_penetration_setting config rc)).

Definition forget_detection (w : World) : World := w {{ w_state ::= fun s => s {{ st_detection_cache := None }} }}.

(** Without an effect, but for remembering that detection is off. *)
Definition idle (m : W (option Response)) (w : World) : Prop :=
  exists w', m w = (Ok None, w') /\ forget_detection w' = forget_detection w.

Lemma route_applies_false p w rc :
  route_known w -> route_config_applies (_collect_route_configs mw) p = false ->
  st_route_config (w_state w) = Some rc -> p rc = false.
Proof.
  unfold route_config_applies, _collect_route_configs. intros Hk Hp Hrc.
  destruct (mw_decorator mw) as [d|] eqn:Hd; cbn [option_map] in Hp; [|done].
  specialize (Hk d rc Hd Hrc). destruct (p rc) eqn:Hprc; [|done]. exfalso.
  apply list_elem_of_In in Hk. apply not_true_iff_false in Hp. apply Hp, List.existsb_exists. by exists rc.
Qed.

Lemma idle_ret w : idle (ret None) w.
Proof. by exists w. Qed.

Lemma idle_on_route (k : option RouteConfig -> W (option Response)) w :
  idle (k (st_route_config (w_state w))) w -> idle (bind (state st_route_config) k) w.
Proof. done. Qed.

Lemma idle_or_else m k w : m w = (Ok None, w) -> idle k w -> idle (or_else m k) w.
Proof. intros Hm (w' & Hk & Hf). exists w'. by rewrite (or_else_none _ _ _ _ Hm). Qed.

Lemma truthy_list_false {A} (o : option (list A)) : truthy_list o = false -> o = None \/ o = Some [].
Proof. destruct o as [[|]|]; cbn; auto. done. Qed.

Lemma truthy_str_false o : truthy_str o = false -> o = None \/ o = Some "".
Proof. destruct o as [[|]|]; cbn; auto. done. Qed.

Lemma providers_none w :
  route_known w -> CloudCheck_applies config (_collect_route_configs mw) = false ->
  get_cloud_providers_to_check config (st_route_config (w_state w)) = None.
Proof.
  unfold CloudCheck_applies, cloud_blocking_enabled. intros Hk Ha. bool_prop. unfold get_cloud_providers_to_check.
  destruct (st_route_config (w_state w)) as [rc|] eqn:Hrc; [|by rewrite H].
  by rewrite (route_applies_false _ _ _ Hk H0 Hrc), H.
Qed.

Lemma check_rate_limit_off r ip ep l wd w :
  enable_rate_limiting config = false -> check_rate_limit config config r ip ep l wd w = (Ok None, w).
Proof. unfold check_rate_limit. by intros ->. Qed.

Ltac route_case Hk Ha w :=
  let Hrc := fresh "Hrc" in
  apply idle_on_route; destruct (st_route_config (w_state w)) as [rc|] eqn:Hrc; [|apply idle_ret];
  pose proof (route_applies_false _ _ _ Hk Ha Hrc) as Hno; cbn beta in Hno.

Lemma rate_limit_idle w :
  route_known w -> RateLimitCheck_applies config (_collect_route_configs mw) = false ->
  idle (RateLimitCheck_check mw request) w.
Proof.
  intros Hk Ha. unfold RateLimitCheck_applies in Ha. bool_prop. rename H1 into Hro, H2 into Hep, H into Hen, H0 into Hdy.
  unfold RateLimitCheck_check, whitelisted_or_exempt. cbn [bind state gets ret fst snd].
  unfold idle, bind at 1. cbn [bind state gets ret]. destruct (_ || _); [by apply idle_ret|].
  unfold bind at 1, state at 1, gets at 1. unfold bind at 1, state at 1, gets at 1.
  destruct (st_client_ip (w_state w)) as [[|ch ip]|]; [by apply idle_ret| |by apply idle_ret].
  destruct (should_bypass_check _ _); [by apply idle_ret|].
  apply idle_or_else.
  { unfold _check_endpoint_rate_limit. apply nonempty_false in Hep. by rewrite Hep. }
  apply idle_or_else.
  { unfold _check_route_rate_limit. destruct (st_route_config (w_state w)) as [rc|] eqn:Hrc; [|done].
    pose proof (route_applies_false _ _ _ Hk Hro Hrc) as Hno. cbn beta in Hno. bool_prop.
    by destruct (rc_rate_limit rc). }
  apply idle_or_else.
  { unfold _check_geo_rate_limit. destruct (st_route_config (w_state w)) as [rc|] eqn:Hrc; [|done].
    pose proof (route_applies_false _ _ _ Hk Hro Hrc) as Hno. cbn beta in Hno. bool_prop.
    destruct (mw_config_geo mw); [|done]. by destruct (rc_geo_rate_limits rc) as [[]|]. }
  unfold _check_global_rate_limit. cbv zeta. exists w. split; [|done].
  by rewrite (bind_ok _ _ _ _ _ (check_rate_limit_off request _ _ _ _ w Hen)).
Qed.

Lemma user_agent_idle w :
  route_known w -> nonempty (blocked_user_agents config) = false ->
  route_config_applies (_collect_route_configs mw) (fun rc => nonempty (rc_blocked_user_agents rc)) = false ->
  idle (UserAgentCheck_check mw request) w.
Proof.
  intros Hk Hb%nonempty_false Hr. unfold UserAgentCheck_check, whitelisted_or_exempt. cbv zeta.
  unfold idle, bind at 1. cbn [bind state gets ret]. destruct (_ || _); [by apply idle_ret|].
  apply idle_on_route. unfold check_user_agent_allowed, is_user_agent_allowed. rewrite Hb.
  destruct (st_route_config (w_state w)) as [rc|] eqn:Hrc.
  - rewrite (route_applies_false _ _ _ Hk Hr Hrc). by apply idle_ret.
  - by apply idle_ret.
Qed.

Lemma suspicious_idle w :
  route_known w -> cache_sound w -> enable_penetration_detection config = false ->
  route_config_applies (_collect_route_configs mw) rc_enable_suspicious_detection = false ->
  idle (SuspiciousActivityCheck_check mw request) w.
Proof.
  intros Hk Hcs He Hr. unfold SuspiciousActivityCheck_check. cbv zeta.
  unfold idle, bind at 1. cbn [bind state gets ret]. destruct (st_is_whitelisted _); [by apply idle_ret|].
  unfold bind at 1, state at 1, gets at 1. unfold bind at 1, state at 1, gets at 1.
  destruct (st_client_ip (w_state w)) as [[|ch ip]|]; [by apply idle_ret| |by apply idle_ret].
  assert (fst (_get_effective_penetration_setting config (st_route_config (w_state w))) = false) as Hoff.
  { unfold _get_effective_penetration_setting. destruct (st_route_config (w_state w)) as [rc|] eqn:Hrc; cbn [fst]; [|done].
    exact (route_applies_false _ _ _ Hk Hr Hrc). }
  assert (forall o, (_get_detection_disabled_reason config o =? "disabled_by_decorator")%string = false) as Hreason.
  { intros o. unfold _get_detection_disabled_reason. by rewrite He, andb_false_r. }
  assert (exists r w', get_cached_detection_result request (st_route_config (w_state w)) config w = (Ok r, w') /\
    is_threat r = false /\ (trigger_info r =? "disabled_by_decorator")%string = false /\
    forget_detection w' = forget_detection w) as (r & w' & Hget & Hn & Ht & Hf).
  { unfold get_cached_detection_result, bind at 1, state at 1, gets at 1.
    assert (exists r, detect_penetration_patterns request (st_route_config (w_state w)) config w = (Ok r, w) /\
      is_threat r = false /\ (trigger_info r =? "disabled_by_decorator")%string = false) as (r0 & Hdet & Hn & Ht).
    { unfold detect_penetration_patterns. destruct (_get_effective_penetration_setting _ _) as [en sp].
      cbn [fst] in Hoff. subst en. eexists. split; [reflexivity|]. cbn. by rewrite Hreason. }
    destruct (st_detection_cache (w_state w)) as [[rc r]|] eqn:Hc;
      [destruct (decide (rc = st_route_config (w_state w))) as [->|]|].
    - destruct (Hcs _ _ Hc Hoff) as [Hn' Ht']. exists r, w. rewrite Ht', Hreason. done.
    - rewrite (bind_ok _ _ _ _ _ Hdet). eexists r0, _. split; [reflexivity|]. by destruct w as [? []].
    - rewrite (bind_ok _ _ _ _ _ Hdet). eexists r0, _. split; [reflexivity|]. by destruct w as [? []]. }
  rewrite (bind_ok _ _ _ _ _ Hget), Ht, Hn. by exists w'.
Qed.

Lemma inapplicable_idle c w :
  c ∈ DEFAULT_CHECK_CLASSES -> applies_to c config (_collect_route_configs mw) = false ->
  route_known w -> cache_sound w -> idle (check c mw request) w.
Proof.
  unfold DEFAULT_CHECK_CLASSES. intros Hc Ha Hk Hcs.
  repeat (apply elem_of_cons in Hc as [->|Hc]; [cbn [check applies_to] in *; unfold always, on_routes in *|]);
    [..|by apply elem_of_nil in Hc]; try done.
  - bool_prop. unfold EmergencyModeCheck_check. rewrite H. apply idle_ret.
  - bool_prop. unfold HttpsEnforcementCheck_check. cbv zeta. apply idle_on_route. unfold https_required.
    destruct (st_route_config (w_state w)) as [rc|] eqn:Hrc; [|rewrite H; apply idle_ret].
    rewrite (route_applies_false _ _ _ Hk H0 Hrc). apply idle_ret.
  - unfold RequestLoggingCheck_check, log_activity. destruct (log_request_level config); [done|]. by apply idle_ret.
  - unfold RequestSizeContentCheck_check. route_case Hk Ha w. bool_prop. apply idle_or_else.
    + unfold _check_request_size_limit. by destruct (rc_max_request_size rc).
    + unfold _check_content_type_allowed. destruct (truthy_list_false _ H0) as [-> | ->]; apply idle_ret.
  - unfold RequiredHeadersCheck_check. route_case Hk Ha w. apply nonempty_false in Hno. rewrite Hno. apply idle_ret.
  - unfold AuthenticationCheck_check. route_case Hk Ha w. bool_prop. rewrite H, H1. cbn [negb andb].
    destruct (truthy_str_false _ H0) as [-> | ->]; apply idle_ret.
  - unfold ReferrerCheck_check. route_case Hk Ha w. destruct (truthy_list_false _ Hno) as [-> | ->]; apply idle_ret.
  - unfold CustomValidatorsCheck_check. route_case Hk Ha w. apply nonempty_false in Hno. rewrite Hno. apply idle_ret.
  - unfold TimeWindowCheck_check. cbv zeta. route_case Hk Ha w. destruct (truthy_list_false _ Hno) as [-> | ->]; apply idle_ret.
  - unfold CloudIpRefreshCheck_check. cbv zeta. apply idle_on_route. rewrite providers_none by done. apply idle_ret.
  - unfold CloudProviderCheck_check, whitelisted_or_exempt. cbv zeta.
    unfold idle, bind at 1. cbn [bind state gets ret]. destruct (_ || _); [by apply idle_ret|].
    unfold bind at 1, state at 1, gets at 1. unfold bind at 1, state at 1, gets at 1.
    destruct (st_client_ip (w_state w)) as [[|ch ip]|]; [by apply idle_ret| |by apply idle_ret].
    destruct (should_bypass_check _ _); [by apply idle_ret|]. rewrite providers_none by done. by apply idle_ret.
  - bool_prop. by apply user_agent_idle.
  - by apply rate_limit_idle.
  - bool_prop. by apply suspicious_idle.
  - unfold CustomRequestCheck_check. cbv zeta. destruct (custom_request_check config); [done|]. apply idle_ret.
Qed.

(** Leaving checks out is sound: a check that does not apply to the
    configuration and to any route of the decorator would have returned nothing
    and changed nothing, had it been kept, on every request for a known route. *)
Theorem inapplicable_checks_do_nothing c w :
  c ∈ DEFAULT_CHECK_CLASSES -> c ∉ _build_checks mw -> route_known w -> cache_sound w ->
  idle (check c mw request) w.
Proof.
  intros Hc Hn. apply inapplicable_idle; [done|]. apply not_true_iff_false. intros Ha. apply Hn.
  apply list_elem_of_In, List.filter_In. by rewrite <- list_elem_of_In.
Qed.
End applies.

(** * Witnesses *)

Section witness.

#[local] Instance env : Env := sample_env (ticking 1000) redis_up.
#[local] Instance engine : Engine := sample_engine (ticking 1000) redis_up.
#[local] Instance ban_cache : TTLCache string Z BAN_CACHE_SIZE (seconds LOCAL_CACHE_TTL_CAP_SECONDS) := sample_ban_cache.
#[local] Instance path_cache : TTLCache string bool PATH_CACHE_SIZE PATH_CACHE_TTL := sample_path_cache.
#[local] Existing Instance sample_headers_cache.

Definition passive_config : SecurityConfig :=
  plain_config {{ passive_mode := true; fail_secure := false }} {{ muted_check_logs := map check_name DEFAULT_CHECK_CLASSES }}.

(** An attack on a route whose rules it breaks, in passive mode. *)
Definition attack_request : Request := get_request "/attack" "198.51.100.7" [("content-length", "many")].

Lemma passive_mode_admits_everything_witness :
  let mw := sample_middleware passive_config in
  let pl := build_default_pipeline mw 0 (Some 1%Z) in
  exists w', execute mw None attack_request (sample_world (ticking 1000) redis_up passive_config (Some "vault"), pl) =
    (Ok None, (w', pl)).
Proof.
  intros mw pl.
  assert (forall c, c ∈ pl_checks pl -> c ∈ DEFAULT_CHECK_CLASSES) as Hd
    by (intros c Hc; apply list_elem_of_In, List.filter_In in Hc as [Hc _]; by apply list_elem_of_In).
  apply (passive_mode_admits_everything mw attack_request eq_refl None); [reflexivity|exact I|exact Hd|].
  intros c e Hc. unfold reported.
  assert (in_list (check_name c) (map check_name DEFAULT_CHECK_CLASSES) = true) as Hin
    by (apply bool_decide_eq_true_2, list_elem_of_fmap; exists c; by split; [|apply Hd]).
  change (pl_muted (current_pipeline None pl)) with (map check_name DEFAULT_CHECK_CLASSES). by rewrite Hin, orb_true_r.
Defined.

(** With the default [fail_secure], a check that raises blocks a request in
    passive mode too: here a length that is not a number. *)
Example passive_mode_blocks_on_errors :
  let mw := sample_middleware (passive_config {{ fail_secure := true; security_headers := None }}) in
  let pl := build_default_pipeline mw 0 (Some 1%Z) in
  fst (execute mw None attack_request (sample_world (ticking 1000) redis_up passive_config (Some "vault"), pl)) =
    Ok (Some (mkResponse 500 "Security check failed" [])).
Proof. vm_compute. reflexivity. Qed.

Definition idle_mw : Middleware := sample_middleware plain_config.

Definition time_window_check : SecurityCheck :=
  mkCheck "time_window" false (on_routes (fun rc => truthy_list (rc_time_restrictions rc))) TimeWindowCheck_check.

Lemma inapplicable_checks_do_nothing_witness :
  idle (check time_window_check idle_mw attack_request) (sample_world (ticking 1000) redis_up plain_config (Some "vault")).
Proof.
  apply (inapplicable_checks_do_nothing idle_mw attack_request).
  - unfold DEFAULT_CHECK_CLASSES. do 9 right. left.
  - intros Hc. apply list_elem_of_In, List.filter_In in Hc as [_ Ha]. vm_compute in Ha. done.
  - by intros d rc _ [=].
  - by intros rc r [=].
Defined.
End witness.
