(* ===== verification/Enforcement.v ===== *)
(** From the checks to the requests: what is known of a request that the default
    pipeline admits, and of a client that has been banned. *)
From S2P Require Import Prelude PyStr PyDict IpAddr IpAddrText Sys Sample Config Redaction Request IpExtraction TTL Redis.
From S2P Require Import IpBan RateLimit Cloud AccessControl Middleware Helpers RateLimiter SampleEngine Checks.
From S2P Require Import Pipeline CheckFacts.
From S2P Require Import Json SecurityHeaders.

(** * What the checks leave alone *)

(** The checks that only report, log and build responses keep every relation that
    those steps keep.  [good] are the calls of the surroundings in question. *)
Section frame.
Context `{Eng : Engine} `{C : !TTLCache string Z BAN_CACHE_SIZE (seconds LOCAL_CACHE_TTL_CAP_SECONDS)}
  `{P : !TTLCache string bool PATH_CACHE_SIZE PATH_CACHE_TTL}
  `{HC : !TTLCache string headers HEADERS_CACHE_SIZE HEADERS_CACHE_TTL}.

Context (mw : Middleware) (request : Request).

(** A change of the request's state, but not of its route rules, its client
    address and its scope, nor of what is known of the client and of the detection. *)
Definition keeps_identity (f : RequestState -> RequestState) : Prop :=
  forall s, st_route_config (f s) = st_route_config s /\ st_client_ip (f s) = st_client_ip s /\
            st_exclusion_scoped (f s) = st_exclusion_scoped s /\ st_is_whitelisted (f s) = st_is_whitelisted s /\
            st_detection_cache (f s) = st_detection_cache s.

Record frame (R : World -> World -> Prop) (good : forall A, M Sys A -> Prop) : Prop := {
  fr_preorder : PreOrder R;
  fr_state : forall f, keeps_identity f -> keeps R (set_state f);
  fr_sys : forall A (m : M Sys A), good A m -> keeps R (on_sys m);
  fr_refresh_stamp : forall n, keeps R (modify (fun w => w {{ last_cloud_ip_refresh := n }}));
  fr_schedule : keeps R (on_clouds schedule_refresh);
  fr_log : forall l msg, good _ (log l msg);
  fr_time : good _ time_time;
  fr_agent : forall e, good _ (agent_send e);
  fr_client : forall c cfg ah, good _ (extract_client_ip request c cfg ah);
  fr_on_block : forall h p, good _ (on_block_hook h request p);
  fr_on_error : forall h st e, good _ (on_error_hook h st e);
  fr_modifier : forall f r, good _ (custom_response_modifier_fn f r);
  fr_validator : forall v, good _ (custom_validator_fn v request);
  fr_verifier : forall v c, good _ (auth_verifier_fn v request c);
  fr_headers : forall p c, keeps R (on_headers (get_headers p c))
}.

Context (R : World -> World -> Prop) (good : forall A, M Sys A -> Prop) (F : frame R good).

#[local] Instance frame_preorder : PreOrder R.
Proof using F. apply (fr_preorder _ _ F). Qed.

Lemma frame_sys {A} (m : M Sys A) : good A m -> keeps R (on_sys m).
Proof using F. apply (fr_sys _ _ F). Qed.

Lemma frame_read {A} (f : RequestState -> A) : keeps R (state f).
Proof using F. intros w. simpl. reflexivity. Qed.

Ltac frame_leaf := first
  [ apply frame_read
  | apply frame_sys; destruct F; solve [eauto]
  | apply (fr_state _ _ F); by intros []
  | apply (fr_refresh_stamp _ _ F)
  | apply (fr_schedule _ _ F)
  | intros w; simpl; reflexivity ].

Create HintDb frame.

Ltac frames := unfold lift_res; repeat (cbv zeta; keeps_step); auto with frame; try frame_leaf.

Lemma frame_log_activity cfg lt r p t l c h : keeps R (log_activity cfg request lt r p t l c h).
Proof using F.
  unfold log_activity, _dispatch_block_hook, fire_block_hook, build_block_payload, invoke_block_hook. frames.
Qed.

(** The attempt at a check reports its response. *)
Lemma frame_attempt muted c : keeps R (check c mw request) -> keeps R (attempt mw request muted c).
Proof using F.
  intros Hc. unfold attempt, unless_muted, pipeline_fire_block_hook, fire_block_hook, build_block_payload, invoke_block_hook. frames.
Qed.

Lemma frame_log_suspicious cfg c r : keeps R (log_suspicious cfg request c r).
Proof using F. apply frame_log_activity. Qed.

Lemma frame_send_middleware_event bus t a r k : keeps R (send_middleware_event bus t request a r k).
Proof using F. unfold send_middleware_event, _event_texts, _lookup_country. frames. Qed.

Lemma frame_send_event t a r k : keeps R (send_event mw t request a r k).
Proof using F. apply frame_send_middleware_event. Qed.

Lemma frame_apply_modifier cfg r : keeps R (apply_modifier cfg r).
Proof using F. unfold apply_modifier. frames. Qed.
#[local] Hint Resolve frame_log_activity frame_log_suspicious frame_send_middleware_event frame_send_event
  frame_apply_modifier : frame.

Lemma frame_create_error_response cfg code msg : keeps R (create_error_response cfg code msg).
Proof using F.
  unfold create_error_response, apply_security_headers. frames. apply (fr_headers _ _ F).
Qed.

Lemma frame_unless_passive cfg m : keeps R m -> keeps R (unless_passive cfg m).
Proof using F. intros Hm. unfold unless_passive. frames. Qed.
#[local] Hint Resolve frame_create_error_response frame_unless_passive : frame.

Lemma frame_deny cfg code msg : keeps R (deny cfg code msg).
Proof using F. unfold deny. auto with frame. Qed.

Lemma frame_or_else m k : keeps R m -> keeps R k -> keeps R (or_else m k).
Proof using F. intros Hm Hk. unfold or_else. frames. Qed.

Lemma frame_find_decorator : keeps R (find_decorator mw).
Proof using F. unfold find_decorator. frames. Qed.
#[local] Hint Resolve frame_deny frame_or_else frame_find_decorator : frame.

Lemma frame_send_decorator_event d t a r dt k : keeps R (send_decorator_event d t request a r dt k).
Proof using F. unfold send_decorator_event. frames. Qed.
#[local] Hint Resolve frame_send_decorator_event : frame.

Lemma frame_emit_access_denied t r d k : keeps R (emit_access_denied_event mw request t r d k).
Proof using F. unfold emit_access_denied_event, send_access_denied_event. frames. Qed.

Lemma frame_emit_authentication_failed t r a v : keeps R (emit_authentication_failed_event mw request t r a v).
Proof using F. unfold emit_authentication_failed_event, send_authentication_failed_event. frames. Qed.

Lemma frame_emit_rate_limit t l wd r : keeps R (emit_rate_limit_event mw request t l wd r).
Proof using F. unfold emit_rate_limit_event, send_rate_limit_event. frames. Qed.

Lemma frame_emit_decorator t a r d k : keeps R (emit_decorator_event mw request t a r d k).
Proof using F. unfold emit_decorator_event. frames. Qed.
#[local] Hint Resolve frame_emit_access_denied frame_emit_authentication_failed frame_emit_decorator : frame.

Lemma frame_auth_failure r rc v : keeps R (_handle_auth_failure mw request r rc v).
Proof using F. unfold _handle_auth_failure. frames. Qed.

Lemma frame_required_headers l : keeps R (check_required_headers mw request l).
Proof using F.
  induction l as [|[n e] l IH]; cbn [check_required_headers];
    unfold _handle_missing_header, _handle_mismatched_header, _report_header_violation; frames.
Qed.

Lemma frame_validators l : keeps R (run_validators mw request l).
Proof using F. induction l as [|v l IH]; cbn [run_validators]; frames. Qed.
#[local] Hint Resolve frame_auth_failure frame_required_headers frame_validators : frame.

(** The checks of the route and the request, before the address is looked at. *)
Definition reporting_names : list string :=
  ["emergency_mode"; "https_enforcement"; "request_logging"; "request_size_content"; "required_headers";
   "authentication"; "referrer"; "custom_validators"; "time_window"; "cloud_ip_refresh"].

Ltac frame_check := unfold lift_res;
  repeat (cbv zeta; first [keeps_step | apply frame_unless_passive | apply frame_or_else]);
  auto with frame; try frame_leaf.

Lemma frame_checks c :
  c ∈ DEFAULT_CHECK_CLASSES -> check_name c ∈ reporting_names -> keeps R (check c mw request).
Proof using F.
  unfold DEFAULT_CHECK_CLASSES. intros Hc Hn.
  repeat (apply elem_of_cons in Hc as [->|Hc]; [cbn [check check_name] in *|]); [..|by apply elem_of_nil in Hc].
  all: try (exfalso; revert Hn; unfold reporting_names; by rewrite !elem_of_cons, elem_of_nil; intuition discriminate).
  - unfold EmergencyModeCheck_check. frame_check.
  - unfold HttpsEnforcementCheck_check, send_https_violation_event, create_https_redirect. frame_check.
  - unfold RequestLoggingCheck_check. frame_check.
  - unfold RequestSizeContentCheck_check, _check_request_size_limit, _check_content_type_allowed. frame_check.
  - unfold RequiredHeadersCheck_check. frame_check.
  - unfold AuthenticationCheck_check, _check_presence, _resolve_credential. frame_check.
  - unfold ReferrerCheck_check, _handle_missing_referrer, _handle_invalid_referrer. frame_check.
  - unfold CustomValidatorsCheck_check. frame_check.
  - unfold TimeWindowCheck_check, _check_time_window. frame_check.
  - unfold CloudIpRefreshCheck_check. frame_check.
Qed.
End frame.

(** * Every check *)

(** A relation that the calls of the services preserve, that of the detection included,
    is preserved by every check but the first; for the address rules it takes that it
    does not look at the marks of the client. *)
Section wide.
Context `{Eng : Engine} `{C : !TTLCache string Z BAN_CACHE_SIZE (seconds LOCAL_CACHE_TTL_CAP_SECONDS)}
  `{P : !TTLCache string bool PATH_CACHE_SIZE PATH_CACHE_TTL}
  `{HC : !TTLCache string headers HEADERS_CACHE_SIZE HEADERS_CACHE_TTL}.

Context (mw : Middleware) (request : Request).

#[local] Abbreviation config := (mw_config mw).

Record wide (R : World -> World -> Prop) : Prop := {
  wd_frame : frame request R (fun _ _ => True);
  wd_bans : forall A (m : M (Sys * BanManager) A), keeps R (on_bans m);
  wd_clouds : forall A (m : M (Sys * CloudManager) A), keeps R (on_clouds m);
  wd_limiter : forall A (m : M (Sys * RateLimitManager) A), keeps R (on_limiter m);
  wd_counts : forall ip cats, keeps R (increment_suspicious_counts ip cats);
  wd_detection : forall rc, keeps R (get_cached_detection_result request rc config)
}.

Context (R : World -> World -> Prop) (Wd : wide R).

#[local] Instance wide_preorder : PreOrder R.
Proof using Wd. apply (fr_preorder _ _ _ (wd_frame _ Wd)). Qed.

Lemma wide_sys {A} (m : M Sys A) : keeps R (on_sys m).
Proof using Wd. by apply (fr_sys _ _ _ (wd_frame _ Wd)). Qed.

Create HintDb view.
#[local] Hint Resolve wide_sys wd_bans wd_clouds wd_limiter wd_counts wd_detection : view.

Ltac view_leaf := lazymatch goal with
  | |- keeps _ (state _) => apply (frame_read _ _ _ (wd_frame _ Wd))
  | |- keeps _ (set_state _) => apply (fr_state _ _ _ (wd_frame _ Wd)); by intros []
  | |- keeps _ (log_activity _ _ _ _ _ _ _ _ _) => apply (frame_log_activity _ _ _ (wd_frame _ Wd))
  | |- keeps _ (log_suspicious _ _ _ _) => apply (frame_log_suspicious _ _ _ (wd_frame _ Wd))
  | |- keeps _ (send_middleware_event _ _ _ _ _ _) => apply (frame_send_middleware_event _ _ _ (wd_frame _ Wd))
  | |- keeps _ (send_event _ _ _ _ _ _) => apply (frame_send_event mw _ _ _ (wd_frame _ Wd))
  | |- keeps _ (apply_modifier _ _) => apply (frame_apply_modifier _ _ _ (wd_frame _ Wd))
  | |- keeps _ (create_error_response _ _ _) => apply (frame_create_error_response _ _ _ (wd_frame _ Wd))
  | |- keeps _ (deny _ _ _) => apply (frame_deny _ _ _ (wd_frame _ Wd))
  | |- keeps _ (find_decorator _) => apply (frame_find_decorator mw _ _ _ (wd_frame _ Wd))
  | |- keeps _ (emit_access_denied_event _ _ _ _ _ _) => apply (frame_emit_access_denied mw _ _ _ (wd_frame _ Wd))
  | |- keeps _ (emit_rate_limit_event _ _ _ _ _ _) => apply (frame_emit_rate_limit mw _ _ _ (wd_frame _ Wd))
  | |- keeps _ (emit_decorator_event _ _ _ _ _ _ _) => apply (frame_emit_decorator mw _ _ _ (wd_frame _ Wd))
  | |- keeps _ (gets _) => intros w; simpl; reflexivity
  end.

Ltac view :=
  repeat (cbv zeta; lazymatch goal with
    | |- keeps _ (unless_passive _ _) => apply (frame_unless_passive _ _ _ (wd_frame _ Wd))
    | |- keeps _ (or_else _ _) => apply (frame_or_else _ _ _ (wd_frame _ Wd))
    | |- _ => first [view_leaf | keeps_step]
    end);
  auto with view.

Lemma wide_ua ua l : keeps R (_user_agent_matches_blocked_pattern ua l).
Proof using Wd. induction l as [|p l IH]; cbn [_user_agent_matches_blocked_pattern]; view. Qed.

#[local] Hint Resolve wide_ua : view.

Lemma wide_threshold cfg ip t c cats r : keeps R (_try_threshold_ban cfg request ip t c cats r).
Proof using Wd. unfold _try_threshold_ban. view. Qed.
#[local] Hint Resolve wide_threshold : view.

Lemma wide_escalate ip c v t : keeps R (escalate_identity_violation mw request ip c v t).
Proof using Wd. unfold escalate_identity_violation, _emit_ban_escalation_failed, _total_count_for_ip. view. Qed.
#[local] Hint Resolve wide_escalate : view.

Lemma wide_check_rate_limit c1 c2 ip ep l wd : keeps R (check_rate_limit c1 c2 request ip ep l wd).
Proof using Wd. unfold check_rate_limit, _handle_rate_limit_exceeded, rl_send_rate_limit_event. view. Qed.
#[local] Hint Resolve wide_check_rate_limit : view.

Lemma wide_apply_rate_limit ip l wd t ev ep : keeps R (_apply_rate_limit_check mw request ip l wd t ev ep).
Proof using Wd. unfold _apply_rate_limit_check, _send_rate_limit_event, _record_rate_limit_autoban. view. Qed.
#[local] Hint Resolve wide_apply_rate_limit : view.

Lemma wide_route_ip ip rc : keeps R (_check_route_ip_restrictions mw request ip rc).
Proof using Wd. unfold _check_route_ip_restrictions. view. Qed.

Lemma wide_banned ip rc : keeps R (_check_banned_ip mw request ip rc).
Proof using Wd. unfold _check_banned_ip. view. Qed.
#[local] Hint Resolve wide_route_ip wide_banned : view.

Lemma wide_checks c :
  c ∈ DEFAULT_CHECK_CLASSES -> check_name c <> "route_config" -> check_name c <> "ip_security" -> keeps R (check c mw request).
Proof using Wd.
  intros Hc Hne Hni. destruct (decide (check_name c ∈ reporting_names)) as [Hr|Hr].
  { by apply (frame_checks mw request _ _ (wd_frame _ Wd)). }
  unfold DEFAULT_CHECK_CLASSES, reporting_names in *.
  repeat (apply elem_of_cons in Hc as [->|Hc]; [cbn [check check_name] in *|]); [..|by apply elem_of_nil in Hc];
    try (exfalso; by rewrite ?elem_of_cons in Hr; auto 20); try done.
  - unfold CloudProviderCheck_check, whitelisted_or_exempt, _emit_cloud_block_events, send_cloud_detection_events. view.
  - unfold UserAgentCheck_check, whitelisted_or_exempt, check_user_agent_allowed, is_user_agent_allowed. view.
  - unfold RateLimitCheck_check, whitelisted_or_exempt, _check_endpoint_rate_limit, _check_route_rate_limit,
      _check_geo_rate_limit, _check_global_rate_limit, _record_rate_limit_autoban. view.
  - unfold SuspiciousActivityCheck_check, _handle_suspicious_passive_mode, _handle_suspicious_active_mode,
      _total_count_for_ip. view.
  - unfold CustomRequestCheck_check. view.
Qed.

Context (Hmarks : forall white exempt, keeps R (set_state (fun s => s {{ st_is_whitelisted := white; st_is_exempt := exempt }}))).
#[local] Hint Resolve Hmarks : view.

Lemma wide_global_ip ip rc e p : keeps R (_check_global_ip_restrictions mw request ip rc e p).
Proof using Wd Hmarks.
  unfold _check_global_ip_restrictions, _resolve_global_ip_access.
  repeat (cbv zeta; lazymatch goal with
    | |- keeps _ (unless_passive _ _) => apply (frame_unless_passive _ _ _ (wd_frame _ Wd))
    | |- _ => first [apply Hmarks | view_leaf | keeps_step]
    end); auto with view.
Qed.
#[local] Hint Resolve wide_global_ip : view.

Lemma wide_ip_security : keeps R (IpSecurityCheck_check mw request).
Proof using Wd Hmarks. unfold IpSecurityCheck_check, _resolve_global_ip_access. view. Qed.
End wide.

(** * The request's view of itself *)

Section view.
Context `{Eng : Engine} `{C : !TTLCache string Z BAN_CACHE_SIZE (seconds LOCAL_CACHE_TTL_CAP_SECONDS)}
  `{P : !TTLCache string bool PATH_CACHE_SIZE PATH_CACHE_TTL}
  `{HC : !TTLCache string headers HEADERS_CACHE_SIZE HEADERS_CACHE_TTL}.

Context (mw : Middleware) (request : Request).

(** A relation on the states of the request, which no service touches. *)
Section of_states.
Context (Q : RequestState -> RequestState -> Prop) `{PO : !PreOrder Q}.

Definition of_states (w w' : World) : Prop := Q (w_state w) (w_state w').

#[export] Instance of_states_preorder : PreOrder of_states.
Proof using PO. unfold of_states. split; [intros w; reflexivity|]. intros w1 w2 w3 H1 H2. by transitivity (w_state w2). Qed.

Lemma services_keep {S A} (view : World -> S) (upd : S -> World -> World) (m : M S A) :
  (forall s w, w_state (upd s w) = w_state w) -> keeps of_states (zoom view upd m).
Proof using PO. intros Hu w. unfold zoom, of_states. destruct (m (view w)) as [r s]. cbn [snd]. rewrite Hu. reflexivity. Qed.

Lemma sys_keeps {A} (m : M Sys A) : keeps of_states (on_sys m).
Proof using PO. apply services_keep. by intros ? []. Qed.

Lemma set_state_keeps f : (forall s, Q s (f s)) -> keeps of_states (set_state f).
Proof. intros Hf w. destruct w as [? st ? ? ? ? ? ? ?]. exact (Hf st). Qed.

Context (Hq : forall f s, keeps_identity f -> Q s (f s)).

Lemma state_frame : frame request of_states (fun _ _ => True).
Proof using Hq PO.
  split; try (intros; exact I).
  - exact _.
  - intros f Hf. apply set_state_keeps. intros s. by apply Hq.
  - intros A m _. apply sys_keeps.
  - intros n w. destruct w. unfold of_states. cbn. reflexivity.
  - apply services_keep. by intros [] [].
  - intros p c. apply services_keep. by intros [] [].
Qed.

(** The detection, which writes its result down. *)
Lemma detection_keeps rc cfg :
  (forall w r s', fst (detect_penetration_patterns request rc cfg w) = Ok r ->
     match st_detection_cache (w_state w) with Some (rc', _) => rc' <> rc | None => True end ->
     s' = w_state w -> Q s' (s' {{ st_detection_cache := Some (rc, r) }})) ->
  keeps of_states (get_cached_detection_result request rc cfg).
Proof using PO.
  intros Hd w. unfold get_cached_detection_result. unfold bind at 1, state at 1, gets at 1.
  assert (forall w : World, w_state (snd (detect_penetration_patterns request rc cfg w)) = w_state w) as Hsame.
  { intros v. unfold detect_penetration_patterns. destruct (_get_effective_penetration_setting _ _) as [en sp].
    destruct (en && _); [|done]. unfold bind, state, gets, on_sys, zoom. destruct (run_detection _ _ _ _ _). by destruct v. }
  assert (match st_detection_cache (w_state w) with Some (rc', _) => rc' <> rc | None => True end ->
    of_states w (snd ((let* result := detect_penetration_patterns request rc cfg in
      set_state (fun s => s {{ st_detection_cache := Some (rc, result) }}) ;;; ret result) w))) as Hgo.
  { intros Hne. unfold bind at 1. specialize (Hsame w). specialize (Hd w). destruct (detect_penetration_patterns request rc cfg w) as [[r|e] v];
      cbn [fst snd] in *; [|unfold of_states; rewrite Hsame; reflexivity].
    unfold of_states. destruct v as [? st ? ? ? ? ? ? ?]. cbn in Hsame |- *. rewrite <- Hsame in *. by apply (Hd r st). }
  destruct (st_detection_cache (w_state w)) as [[rc' r']|]; [|by apply Hgo].
  destruct (decide (rc' = rc)); [|by apply Hgo]. unfold of_states. cbn. reflexivity.
Qed.

Lemma state_wide : (forall rc, keeps of_states (get_cached_detection_result request rc (mw_config mw))) -> wide mw request of_states.
Proof using Hq PO.
  intros Hd. split; [apply state_frame|..|exact Hd].
  - intros A m. apply services_keep. by intros [] [].
  - intros A m. apply services_keep. by intros [] [].
  - intros A m. apply services_keep. by intros [] [].
  - intros ip cats w. destruct w. unfold of_states. cbn. reflexivity.
Qed.
End of_states.

(** Its route rules, client address and scope are found once. *)
Definition same_request (s s' : RequestState) : Prop :=
  st_route_config s' = st_route_config s /\ st_client_ip s' = st_client_ip s /\ st_exclusion_scoped s' = st_exclusion_scoped s.

Definition same_view : World -> World -> Prop := of_states same_request.

#[export] Instance same_request_preorder : PreOrder same_request.
Proof. split; [done|]. unfold same_request. intros w1 w2 w3. intuition congruence. Qed.

#[export] Instance same_view_preorder : PreOrder same_view := of_states_preorder same_request.

Lemma on_sys_view {A} (m : M Sys A) : keeps same_view (on_sys m).
Proof. apply sys_keeps, _. Qed.

Lemma identity_same f s : keeps_identity f -> same_request s (f s).
Proof. intros Hf. destruct (Hf s) as (? & ? & ? & _). by repeat split. Qed.

Lemma view_frame : frame request same_view (fun _ _ => True).
Proof. apply (state_frame same_request), identity_same. Qed.

Lemma view_wide : wide mw request same_view.
Proof.
  apply (state_wide same_request); [exact identity_same|]. intros rc. apply (detection_keeps same_request). by intros w r [] _ _ _.
Qed.

(** Only the first check writes the view. *)
Lemma checks_keep_view c :
  c ∈ DEFAULT_CHECK_CLASSES -> check_name c <> "route_config" -> keeps same_view (check c mw request).
Proof.
  intros Hc Hne. destruct (decide (check_name c = "ip_security")) as [Hi|Hi]; [|by apply (wide_checks mw request _ view_wide)].
  unfold DEFAULT_CHECK_CLASSES in Hc.
  repeat (apply elem_of_cons in Hc as [->|Hc]; [cbn [check check_name] in *; try done|]); [|by apply elem_of_nil in Hc].
  apply (wide_ip_security mw request _ view_wide). intros white exempt. apply set_state_keeps. by intros [].
Qed.
End view.

(** * Route rules *)

Section rules.
Context `{Eng : Engine} `{C : !TTLCache string Z BAN_CACHE_SIZE (seconds LOCAL_CACHE_TTL_CAP_SECONDS)}
  `{P : !TTLCache string bool PATH_CACHE_SIZE PATH_CACHE_TTL}
  `{HC : !TTLCache string headers HEADERS_CACHE_SIZE HEADERS_CACHE_TTL}.

Context (mw : Middleware) (request : Request).

#[local] Abbreviation config := (mw_config mw).

(** What the rules of a route ask of a request. *)
Record meets_route_rules (rc : RouteConfig) : Prop := {
  mr_https : rc_require_https rc = true -> _is_request_https config request = Ok true;
  mr_size : forall limit text, rc_max_request_size rc = Some limit -> limit <> 0%Z ->
    header request "content-length" = Some text -> text <> "" ->
    exists n, py_int text = Some n /\ (n <= limit)%Z;
  mr_type : forall types, rc_allowed_content_types rc = Some types -> types <> [] ->
    hd "" (split_on ";" (header_or request "content-type" "")) ∈ types;
  mr_headers : forall name expected, (name, expected) ∈ rc_required_headers rc ->
    exists actual, header request name = Some actual /\ actual <> "" /\ (expected = "required" \/ actual = expected);
  mr_presence : forall scheme, rc_authorization_header_required rc = Some scheme -> scheme <> "" ->
    exists credential, fst (extract_credential (header_or request "authorization" "") scheme) = Some credential;
  mr_auth : truthy_str (rc_authorization_header_required rc) = false ->
    truthy_str (rc_auth_required rc) = true \/ rc_api_key_required rc = true ->
    exists verifier credential principal s s',
      auth_verifier_fn verifier request credential s = (Ok (Some principal), s') /\
      match rc_auth_required rc with
      | Some (String _ _ as scheme) =>
          or_str (rc_auth_verifier rc) (auth_verifier config) = Some verifier /\
          fst (extract_credential (header_or request "authorization" "") scheme) = Some credential
      | _ => or_str (rc_api_key_verifier rc) (auth_verifier config) = Some verifier /\
             credential <> "" /\ header_or request (default "" (rc_api_key_header rc)) "" = credential
      end;
  mr_referrer : forall domains, rc_require_referrer rc = Some domains -> domains <> [] ->
    is_referrer_domain_allowed (header_or request "referer" "") domains = true;
  mr_time : forall restrictions start_time end_time, rc_time_restrictions rc = Some restrictions ->
    dget "start" restrictions = Some start_time -> dget "end" restrictions = Some end_time ->
    exists n, in_window start_time end_time (default (utc_hour_minute (clock n))
      (zone_hour_minute (default "UTC" (dget "timezone" restrictions)) (clock n))) = true
}.

Context (Hactive : passive_mode config = false).

Abbreviation loud := (returns (fun r : option Response => r <> None)).

Lemma deny_loud code msg : loud (deny config code msg).
Proof using Hactive.
  unfold deny, unless_passive. rewrite Hactive. apply returns_then. intros r. by apply returns_ret.
Qed.

Lemma then_deny_loud {A} (m : W A) code msg : loud (bind m (fun _ => deny config code msg)).
Proof using Hactive. apply returns_then. intros _. apply deny_loud. Qed.

(** A loud computation does not return [None]. *)
Lemma loud_some (m : W (option Response)) w w1 : loud m -> m w = (Ok None, w1) -> False.
Proof. intros Hm Hr. specialize (Hm w None). rewrite Hr in Hm. by apply Hm. Qed.

Lemma auth_failure_loud r rc v : loud (_handle_auth_failure mw request r rc v).
Proof using Hactive. unfold _handle_auth_failure. cbv zeta. apply returns_then. intros _. apply then_deny_loud. Qed.

(** The state in which a check on a route runs. *)
Definition on_route (rc : RouteConfig) (w : World) : Prop := st_route_config (w_state w) = Some rc.

Lemma run_on_route {A} (k : option RouteConfig -> W A) rc w :
  on_route rc w -> bind (state st_route_config) k w = k (Some rc) w.
Proof. unfold on_route, bind, state, gets. by intros ->. Qed.

Lemma https_passes rc w w1 : on_route rc w -> HttpsEnforcementCheck_check mw request w = (Ok None, w1) ->
  rc_require_https rc = true -> _is_request_https config request = Ok true.
Proof using Hactive.
  intros Hr Hc Hh. unfold HttpsEnforcementCheck_check in Hc. cbv zeta in Hc. rewrite (run_on_route _ rc) in Hc by done.
  cbn [https_required] in Hc. rewrite Hh in Hc. cbn [negb] in Hc. apply bind_ok_inv in Hc as (b & w2 & Hb & Hc).
  unfold lift_res in Hb. injection Hb as Hb <-. rewrite Hb. destruct b; [done|]. exfalso. revert Hc. apply loud_some.
  apply returns_then. intros _. unfold unless_passive. rewrite Hactive. apply returns_then. intros r. by apply returns_ret.
Qed.

Lemma or_else_none_inv (m k : W (option Response)) w w2 :
  or_else m k w = (Ok None, w2) -> exists w1, m w = (Ok None, w1) /\ k w1 = (Ok None, w2).
Proof. intros (r & w1 & Hm & Hk)%bind_ok_inv. destruct r; [done|]. by exists w1. Qed.

Lemma size_content_passes rc w w1 : on_route rc w -> RequestSizeContentCheck_check mw request w = (Ok None, w1) ->
  (forall limit text, rc_max_request_size rc = Some limit -> limit <> 0%Z ->
    header request "content-length" = Some text -> text <> "" -> exists n, py_int text = Some n /\ (n <= limit)%Z) /\
  (forall types, rc_allowed_content_types rc = Some types -> types <> [] ->
    hd "" (split_on ";" (header_or request "content-type" "")) ∈ types).
Proof using Hactive.
  intros Hr Hc. unfold RequestSizeContentCheck_check in Hc. rewrite (run_on_route _ rc) in Hc by done.
  apply or_else_none_inv in Hc as (w2 & Hsize & Htype). split.
  - intros limit text Hl Hz Ht Hne. unfold _check_request_size_limit in Hsize. cbv zeta in Hsize. rewrite Hl in Hsize.
    destruct (Z.eqb_spec limit 0); [done|]. rewrite Ht in Hsize. destruct text as [|ch text]; [done|].
    destruct (py_int (String ch text)) as [k|]; [|done]. destruct (Z.leb_spec k limit); [by exists k|].
    exfalso. revert Hsize. apply loud_some. apply returns_then. intros _. apply then_deny_loud.
  - intros types Hl Hne. unfold _check_content_type_allowed in Htype. cbv zeta in Htype. rewrite Hl in Htype.
    destruct types as [|t types]; [done|]. unfold in_list in Htype. case_bool_decide; [done|].
    exfalso. revert Htype. apply loud_some. apply returns_then. intros shown. apply returns_then. intros _. apply then_deny_loud.
Qed.

Lemma report_header_loud h r f : loud (_report_header_violation mw request h r f).
Proof using Hactive.
  unfold _report_header_violation. cbv zeta. apply returns_then. intros _.
  destruct (_classify_header_violation h). apply then_deny_loud.
Qed.

Lemma required_headers_pass l w w1 : check_required_headers mw request l w = (Ok None, w1) ->
  forall name expected, (name, expected) ∈ l ->
    exists actual, header request name = Some actual /\ actual <> "" /\ (expected = "required" \/ actual = expected).
Proof using Hactive.
  revert w. induction l as [|[n e] l IH]; intros w Hc name expected Hin; [by apply elem_of_nil in Hin|].
  cbn [check_required_headers] in Hc. destruct (header request n) as [[|ch v]|] eqn:Hh.
  1, 3: exfalso; revert Hc; apply loud_some, report_header_loud.
  destruct (negb (e =? "required")%string && negb (String ch v =? e)%string) eqn:He.
  { exfalso. revert Hc. apply loud_some, report_header_loud. }
  apply elem_of_cons in Hin as [[= -> ->]|Hin]; [|by eapply IH]. exists (String ch v).
  split; [done|]. split; [done|]. apply andb_false_iff in He as [He|He]; bool_prop; auto.
Qed.

Lemma authentication_passes rc w w1 : on_route rc w -> AuthenticationCheck_check mw request w = (Ok None, w1) ->
  (forall scheme, rc_authorization_header_required rc = Some scheme -> scheme <> "" ->
    exists credential, fst (extract_credential (header_or request "authorization" "") scheme) = Some credential) /\
  (truthy_str (rc_authorization_header_required rc) = false ->
    truthy_str (rc_auth_required rc) = true \/ rc_api_key_required rc = true ->
    exists verifier credential principal s s',
      auth_verifier_fn verifier request credential s = (Ok (Some principal), s') /\
      match rc_auth_required rc with
      | Some (String _ _ as scheme) =>
          or_str (rc_auth_verifier rc) (auth_verifier config) = Some verifier /\
          fst (extract_credential (header_or request "authorization" "") scheme) = Some credential
      | _ => or_str (rc_api_key_verifier rc) (auth_verifier config) = Some verifier /\
             credential <> "" /\ header_or request (default "" (rc_api_key_header rc)) "" = credential
      end).
Proof using Hactive.
  intros Hr Hc. unfold AuthenticationCheck_check in Hc. rewrite (run_on_route _ rc) in Hc by done. split.
  { intros scheme Hs Hne. rewrite Hs in Hc. destruct scheme as [|ch scheme]; [done|].
    unfold _check_presence in Hc. destruct (extract_credential _ _) as [[cr|] rs]; [by exists cr|].
    exfalso. revert Hc. apply loud_some, auth_failure_loud. }
  intros Hp Hreq.
  assert (exists fvc w2, _resolve_credential mw request rc w = (Ok fvc, w2) /\
    (let '(failure, verifier, credential) := fvc in
     match failure with
     | Some response => ret (Some response)
     | None =>
         match verifier with
         | None => _handle_auth_failure mw request "No auth verifier configured" rc "require_auth"
         | Some verifier =>
             let* result := catch any_exn
               (let* r := on_sys (auth_verifier_fn verifier request credential) in ret (inl r))
               (fun _ => let* failure := _handle_auth_failure mw request "Authentication error" rc "require_auth" in
                         ret (inr failure)) in
             match result with
             | inr failure => ret failure
             | inl None => _handle_auth_failure mw request "Authentication failed" rc "require_auth"
             | inl (Some principal) =>
                 set_state (fun s => s {{ st_auth_principal := Some principal }}) ;;;
                 ret None
             end
         end
     end) w2 = (Ok None, w1)) as ([[f v] cr] & w2 & Hres & Hk).
  { destruct (truthy_str_false _ Hp) as [Hn|Hn]; rewrite Hn in Hc.
    all: replace (negb (truthy_str (rc_auth_required rc)) && negb (rc_api_key_required rc)) with false in Hc
      by (destruct Hreq as [-> | ->]; [done|by rewrite andb_false_r]).
    all: apply bind_ok_inv in Hc as (fvc & w2 & Hres & Hk); by exists fvc, w2. }
  destruct f as [f|]; [done|].
  destruct v as [v|]; [|exfalso; revert Hk; apply loud_some, auth_failure_loud].
  assert (match rc_auth_required rc with
      | Some (String _ _ as scheme) =>
          or_str (rc_auth_verifier rc) (auth_verifier config) = Some v /\
          fst (extract_credential (header_or request "authorization" "") scheme) = Some cr
      | _ => or_str (rc_api_key_verifier rc) (auth_verifier config) = Some v /\
             cr <> "" /\ header_or request (default "" (rc_api_key_header rc)) "" = cr
      end) as Hcred.
  { unfold _resolve_credential in Hres. cbv zeta in Hres. destruct (rc_auth_required rc) as [[|ch s]|].
    1, 3: destruct (header_or request (default "" (rc_api_key_header rc)) "") as [|ch2 cc]; cbn [truthy] in Hres;
      [apply bind_ok_inv in Hres as (? & ? & _ & [=])|injection Hres as <- <- <-; done].
    destruct (extract_credential _ _) as [[cc|] rs]; [injection Hres as <- <- <-; done|].
    apply bind_ok_inv in Hres as (? & ? & _ & [=]). }
  apply bind_ok_inv in Hk as (result & w3 & Hres' & Hk). unfold catch in Hres'.
  unfold bind at 1, on_sys at 1, zoom at 1 in Hres'.
  destruct (auth_verifier_fn v request cr (w_sys w2)) as [[p|e] s3] eqn:Hv.
  - injection Hres' as <- <-. destruct p as [p|]; [|exfalso; revert Hk; apply loud_some, auth_failure_loud].
    by exists v, cr, p, (w_sys w2), s3.
  - unfold any_exn in Hres'. apply bind_ok_inv in Hres' as (failure & w4 & Hf & [= <- <-]).
    exfalso. injection Hk as -> ->. revert Hf. apply loud_some, auth_failure_loud.
Qed.

Lemma referrer_passes rc w w1 : on_route rc w -> ReferrerCheck_check mw request w = (Ok None, w1) ->
  forall domains, rc_require_referrer rc = Some domains -> domains <> [] ->
    is_referrer_domain_allowed (header_or request "referer" "") domains = true.
Proof using Hactive.
  intros Hr Hc domains Hd Hne. unfold ReferrerCheck_check in Hc. rewrite (run_on_route _ rc) in Hc by done.
  rewrite Hd in Hc. destruct domains as [|d domains]; [done|]. cbv zeta in Hc.
  destruct (negb (truthy _)) eqn:Ht.
  { exfalso. revert Hc. apply loud_some. unfold _handle_missing_referrer. cbv zeta. apply returns_then. intros _.
    apply then_deny_loud. }
  destruct (negb (is_referrer_domain_allowed _ _)) eqn:Ha; [|by apply negb_false_iff].
  exfalso. revert Hc. apply loud_some. unfold _handle_invalid_referrer. cbv zeta. apply returns_then. intros shown.
  apply returns_then. intros _. apply then_deny_loud.
Qed.

Lemma time_window_passes rc w w1 : on_route rc w -> TimeWindowCheck_check mw request w = (Ok None, w1) ->
  forall restrictions start_time end_time, rc_time_restrictions rc = Some restrictions ->
    dget "start" restrictions = Some start_time -> dget "end" restrictions = Some end_time ->
    exists n, in_window start_time end_time (default (utc_hour_minute (clock n))
      (zone_hour_minute (default "UTC" (dget "timezone" restrictions)) (clock n))) = true.
Proof using Hactive.
  intros Hr Hc restrictions st en Hres Hst Hen. unfold TimeWindowCheck_check in Hc. cbv zeta in Hc.
  rewrite (run_on_route _ rc) in Hc by done. rewrite Hres in Hc. destruct restrictions as [|x l]; [done|].
  apply bind_ok_inv in Hc as (b & w2 & Hb & Hc).
  destruct b; [|exfalso; revert Hc; apply loud_some; apply returns_then; intros _; apply then_deny_loud].
  unfold _check_time_window in Hb. rewrite Hst, Hen in Hb. cbv zeta in Hb.
  apply bind_ok_inv in Hb as (now & w3 & Hnow & Hb). injection Hb as Hb _.
  unfold on_sys, zoom, time_time in Hnow. injection Hnow as <- _. by exists (ticks (w_sys w)).
Qed.
End rules.

(** * Admitted requests *)

Section admitted.
Context `{Eng : Engine} `{C : !TTLCache string Z BAN_CACHE_SIZE (seconds LOCAL_CACHE_TTL_CAP_SECONDS)}
  `{P : !TTLCache string bool PATH_CACHE_SIZE PATH_CACHE_TTL}
  `{HC : !TTLCache string headers HEADERS_CACHE_SIZE HEADERS_CACHE_TTL}.

Context (mw : Middleware) (request : Request).

#[local] Abbreviation config := (mw_config mw).

(** Along an admission without tolerated errors, every check in scope was run and
    returned nothing, in a state with the view of the last one. *)
Lemma admits_each muted scoped cs w w' :
  admits mw request muted scoped cs w w' -> (forall e, tolerated config e = false) ->
  (forall c, c ∈ cs -> keeps same_view (check c mw request)) ->
  same_view w w' /\
  forall c, c ∈ cs -> in_scope scoped c = true ->
    exists wc wc', check c mw request wc = (Ok None, wc') /\ same_view wc w'.
Proof.
  induction 1 as [w|c cs w w' Hs H IH|c cs w w1 w' Hs Hc H IH|c cs w w1 e w' Hs Hc Ht Hrep H IH]; intros Hno Hv.
  - split; [reflexivity|]. by intros c Hc%elem_of_nil.
  - destruct IH as [Hww IH]; [done|intros; apply Hv; by right|]. split; [done|].
    intros c' [->|Hc']%elem_of_cons Hs'; [congruence|by apply IH].
  - destruct IH as [Hww IH]; [done|intros; apply Hv; by right|].
    assert (same_view w w1) as Hw1 by (pose proof (Hv c (list_elem_of_here _ _) w) as Hx; by rewrite Hc in Hx).
    assert (same_view w w') as Hall by (by etransitivity). split; [done|].
    intros c' [->|Hc']%elem_of_cons Hs'; [by exists w, w1|by apply IH].
  - by rewrite Hno in Ht.
Qed.

Lemma strict_untolerated e : fail_secure config = true -> redis_fail_open config = false -> tolerated config e = false.
Proof. unfold tolerated. intros -> ->. by rewrite andb_false_r. Qed.

Lemma build_checks_head : exists rest, _build_checks mw = mkCheck "route_config" true always RouteConfigCheck_check :: rest /\
  forall c, c ∈ rest <-> c ∈ DEFAULT_CHECK_CLASSES /\ check_name c <> "route_config" /\
                         applies_to c config (_collect_route_configs mw) = true.
Proof.
  unfold _build_checks. set (tl := List.tl DEFAULT_CHECK_CLASSES).
  exists (List.filter (fun c => applies_to c config (_collect_route_configs mw)) tl).
  split; [reflexivity|]. intros c.
  rewrite list_elem_of_In, List.filter_In, <- list_elem_of_In. subst tl. split.
  - intros [Hc Ha]. split; [by right|]. split; [|done]. unfold DEFAULT_CHECK_CLASSES in Hc. cbn [List.tl] in Hc.
    repeat (apply elem_of_cons in Hc as [->|Hc]; [done|]). by apply elem_of_nil in Hc.
  - intros (Hc & Hne & Ha). split; [|done]. unfold DEFAULT_CHECK_CLASSES in Hc.
    apply elem_of_cons in Hc as [->|Hc]; [done|exact Hc].
Qed.

(** Every check but the first found nothing to object to, where the route's rules
    are those of the end: it was run, or it would have done nothing. *)
Lemma every_check_passes muted scoped w w' c :
  fail_secure config = true -> redis_fail_open config = false ->
  admits mw request muted scoped (_build_checks mw) w w' -> route_known mw w' ->
  c ∈ DEFAULT_CHECK_CLASSES -> check_name c <> "route_config" -> in_scope scoped c = true ->
  exists wc wc', check c mw request wc = (Ok None, wc') /\
    st_route_config (w_state wc) = st_route_config (w_state w') /\
    st_client_ip (w_state wc) = st_client_ip (w_state w').
Proof.
  intros Hf Hr Ha Hk Hc Hne Hs. destruct build_checks_head as (rest & Hb & Hrest).
  destruct (applies_to c config (_collect_route_configs mw)) eqn:Happ.
  - assert (exists w1, admits mw request muted scoped rest w1 w') as [w1 Ha1].
    { rewrite Hb in Ha. inversion Ha; subst; eauto. }
    destruct (admits_each muted scoped rest w1 w' Ha1) as [_ Hall].
    + intros e. by apply strict_untolerated.
    + intros c' Hc'. apply Hrest in Hc' as (? & ? & _). by apply checks_keep_view.
    + destruct (Hall c) as (wc & wc' & Hrun & Hv1 & Hv2 & _); [by apply Hrest|done|]. by exists wc, wc'.
  - set (wc := forget_detection w').
    assert (st_route_config (w_state wc) = st_route_config (w_state w') /\
            st_client_ip (w_state wc) = st_client_ip (w_state w')) as [Hv1 Hv2] by (by destruct w' as [? [] ? ? ? ? ? ? ?]).
    destruct (inapplicable_idle mw request c wc Hc Happ) as (wc' & Hrun & _).
    + intros d rc Hd. rewrite Hv1. by apply Hk.
    + intros rc r. by destruct w' as [? [] ? ? ? ? ? ? ?].
    + by exists wc, wc'.
Qed.

Lemma admission_meets_rules src w pl w' pl' rc :
  passive_mode config = false -> fail_secure config = true -> redis_fail_open config = false ->
  rebuilds src -> pl_checks (current_pipeline src pl) = _build_checks mw ->
  st_exclusion_scoped (w_state w) = false ->
  execute mw src request (w, pl) = (Ok None, (w', pl')) ->
  st_route_config (w_state w') = Some rc -> route_known mw w' ->
  meets_route_rules mw request rc.
Proof.
  intros Hp Hf Hr Hb Hcs Hs Hex Hrc Hk. apply execute_run_inv in Hex as [-> Ha]; [|done]. rewrite Hcs, Hs in Ha.
  assert (forall i c, DEFAULT_CHECK_CLASSES !! S i = Some c -> exists wc wc',
    check c mw request wc = (Ok None, wc') /\ on_route rc wc) as Hpass.
  { intros i c Hi. destruct (every_check_passes _ false _ w' c Hf Hr Ha Hk) as (wc & wc' & Hrun & Hv & _).
    - by eapply list_elem_of_lookup_2.
    - unfold DEFAULT_CHECK_CLASSES in Hi. do 16 (destruct i as [|i]; [cbn [lookup list_lookup] in Hi; injection Hi as <-; done|]).
      by destruct i.
    - done.
    - exists wc, wc'. split; [done|]. unfold on_route. congruence. }
  destruct (Hpass 1%nat _ eq_refl) as (w1 & w1' & H1 & Hr1). destruct (Hpass 3%nat _ eq_refl) as (w2 & w2' & H2 & Hr2).
  destruct (Hpass 4%nat _ eq_refl) as (w3 & w3' & H3 & Hr3). destruct (Hpass 5%nat _ eq_refl) as (w4 & w4' & H4 & Hr4).
  destruct (Hpass 6%nat _ eq_refl) as (w5 & w5' & H5 & Hr5). destruct (Hpass 8%nat _ eq_refl) as (w6 & w6' & H6 & Hr6).
  cbn [check] in *. unfold RequiredHeadersCheck_check in H3. rewrite (run_on_route _ rc) in H3 by done.
  pose proof (size_content_passes mw request Hp rc w2 w2' Hr2 H2) as [Hsize Htype].
  pose proof (authentication_passes mw request Hp rc w4 w4' Hr4 H4) as [Hpresence Hauth].
  split; [exact (https_passes mw request Hp rc w1 w1' Hr1 H1)|exact Hsize|exact Htype
         |exact (required_headers_pass mw request Hp _ w3 w3' H3)|exact Hpresence|exact Hauth
         |exact (referrer_passes mw request Hp rc w5 w5' Hr5 H5)|exact (time_window_passes mw request Hp rc w6 w6' Hr6 H6)].
Qed.

(** C2: In active mode with errors not tolerated, a request that the default pipeline
    admits outside the excluded paths meets every rule of its route: HTTPS, declared
    size and content type, required headers, credentials, referrer and time window
    (the window at some reading of the clock during the processing, the credentials in
    some state of it). *)
Theorem admitted_requests_meet_route_rules src w pl w' pl' rc :
  passive_mode config = false -> fail_secure config = true -> redis_fail_open config = false ->
  rebuilds src -> pl_checks (current_pipeline src pl) = _build_checks mw ->
  st_exclusion_scoped (w_state w) = false ->
  execute mw src request (w, pl) = (Ok None, (w', pl')) ->
  st_route_config (w_state w') = Some rc -> route_known mw w' ->
  meets_route_rules mw request rc.
Proof. apply admission_meets_rules. Qed.
End admitted.

(** * Banned clients *)

(** What is asked of the application's callables: none turns the clock back. *)
Class EngineLaws `{Eng : Engine} : Prop := {
  el_on_block : forall h r p, keeps ticks_le (on_block_hook h r p);
  el_on_error : forall h st e, keeps ticks_le (on_error_hook h st e);
  el_modifier : forall f r, keeps ticks_le (custom_response_modifier_fn f r);
  el_validator : forall v r, keeps ticks_le (custom_validator_fn v r);
  el_verifier : forall v r c, keeps ticks_le (auth_verifier_fn v r c)
}.

Section banned.
Context `{Eng : Engine} `{L : !EngineLaws}
  `{C : !TTLCache string Z BAN_CACHE_SIZE (seconds LOCAL_CACHE_TTL_CAP_SECONDS)}
  `{P : !TTLCache string bool PATH_CACHE_SIZE PATH_CACHE_TTL}
  `{HC : !TTLCache string headers HEADERS_CACHE_SIZE HEADERS_CACHE_TTL}.

Context (mw : Middleware) (request : Request).

#[local] Abbreviation config := (mw_config mw).

(** The bans are not touched, and time goes on. *)
Definition bans_untouched (w w' : World) : Prop := w_ban w' = w_ban w /\ ticks_le (w_sys w) (w_sys w').

#[export] Instance bans_untouched_preorder : PreOrder bans_untouched.
Proof.
  split; [by split|]. intros w1 w2 w3 [H1 H2] [H3 H4]. split; [congruence|]. by etransitivity.
Qed.

Lemma on_sys_untouched {A} (m : M Sys A) : keeps ticks_le m -> keeps bans_untouched (on_sys m).
Proof.
  intros Hm w. unfold on_sys, zoom. specialize (Hm (w_sys w)). destruct (m (w_sys w)) as [r s]. by destruct w.
Qed.

Lemma on_headers_untouched {A} (m : M (Sys * SecurityHeadersManager) A) :
  keeps (fun a b => ticks_le (fst a) (fst b)) m -> keeps bans_untouched (on_headers m).
Proof.
  intros Hm w. unfold on_headers, zoom. specialize (Hm (w_sys w, w_headers w)).
  destruct (m (w_sys w, w_headers w)) as [r [s h]]. by destruct w.
Qed.

Lemma same_ticks_ticks_le {A} (m : M Sys A) : keeps same_ticks m -> keeps ticks_le m.
Proof. apply keeps_weaken, same_ticks_le. Qed.

Lemma banned_frame : frame request bans_untouched (fun _ m => keeps ticks_le m).
Proof using L.
  split.
  - exact _.
  - intros f _ w. by destruct w.
  - intros A m. apply on_sys_untouched.
  - intros n w. by destruct w.
  - intros w. unfold on_clouds, zoom, schedule_refresh, bind, cloud_get, gets.
    cbn [fst snd]. destruct (_refresh_in_flight _); by destruct w.
  - intros l msg. apply same_ticks_ticks_le, log_ticks.
  - intros s. destruct s. unfold ticks_le. simpl. lia.
  - intros e. apply same_ticks_ticks_le, agent_send_ticks.
  - intros c cfg ah. apply same_ticks_ticks_le, extract_client_ip_ticks.
  - intros. apply el_on_block.
  - intros. apply el_on_error.
  - intros. apply el_modifier.
  - intros. apply el_validator.
  - intros. apply el_verifier.
  - intros p c. apply on_headers_untouched, get_headers_ticks.
Qed.

Lemma set_state_untouched f : keeps bans_untouched (set_state f).
Proof. intros w. by destruct w. Qed.

Lemma route_config_untouched : keeps bans_untouched (RouteConfigCheck_check mw request).
Proof using L.
  unfold RouteConfigCheck_check, get_route_config, _handle_unresolved_route.
  repeat (cbv zeta; lazymatch goal with
    | |- keeps _ (set_state _) => apply set_state_untouched
    | |- keeps _ (find_decorator _) => apply (frame_find_decorator mw _ _ _ banned_frame)
    | |- keeps _ (state _) => apply (frame_read _ _ _ banned_frame)
    | |- keeps _ (log_suspicious _ _ _ _) => apply (frame_log_suspicious _ _ _ banned_frame)
    | |- keeps _ (send_event _ _ _ _ _ _) => apply (frame_send_event mw _ _ _ banned_frame)
    | |- keeps _ (deny _ _ _) => apply (frame_deny _ _ _ banned_frame)
    | |- keeps _ (on_sys _) => apply on_sys_untouched, same_ticks_ticks_le, extract_client_ip_ticks
    | |- _ => keeps_step
    end).
Qed.

Lemma handle_error_untouched muted c e : keeps bans_untouched (_handle_check_error mw muted c e).
Proof using L request.
  unfold _handle_check_error, unless_muted. keeps_steps;
    try (apply on_sys_untouched, same_ticks_ticks_le, log_ticks).
  apply (frame_create_error_response _ _ _ banned_frame).
Qed.

(** The checks before the address rules, and those after. *)
Definition before_ip_security : list SecurityCheck :=
  List.filter (fun c => applies_to c config (_collect_route_configs mw)) (take 11 DEFAULT_CHECK_CLASSES).

Definition after_ip_security : list SecurityCheck :=
  List.filter (fun c => applies_to c config (_collect_route_configs mw)) (drop 12 DEFAULT_CHECK_CLASSES).

Lemma build_checks_split :
  _build_checks mw = before_ip_security ++ mkCheck "ip_security" true always IpSecurityCheck_check :: after_ip_security.
Proof.
  unfold _build_checks. rewrite <- (take_drop 11 DEFAULT_CHECK_CLASSES) at 1. rewrite List.filter_app. reflexivity.
Qed.

Lemma before_untouched c : c ∈ before_ip_security -> keeps bans_untouched (check c mw request).
Proof using L.
  intros Hc. apply list_elem_of_In, List.filter_In in Hc as [Hc _]. apply list_elem_of_In in Hc.
  assert (c ∈ DEFAULT_CHECK_CLASSES) as Hd by (rewrite <- (take_drop 11 DEFAULT_CHECK_CLASSES); apply elem_of_app; by left).
  destruct (decide (check_name c ∈ reporting_names)) as [Hr|Hr].
  { by apply (frame_checks mw request _ _ banned_frame). }
  unfold DEFAULT_CHECK_CLASSES, reporting_names in *. cbn [take] in Hc.
  apply elem_of_cons in Hc as [->|Hc]; [exact route_config_untouched|].
  repeat (apply elem_of_cons in Hc as [->|Hc]; [exfalso; cbn [check_name] in Hr; rewrite ?elem_of_cons in Hr; by auto 20|]).
  by apply elem_of_nil in Hc.
Qed.

Lemma admits_untouched muted scoped cs w w' :
  admits mw request muted scoped cs w w' -> (forall c, c ∈ cs -> keeps bans_untouched (check c mw request)) ->
  bans_untouched w w'.
Proof using L.
  induction 1 as [w|c cs w w' Hs H IH|c cs w w1 w' Hs Hc H IH|c cs w w1 e w' Hs Hc Ht Hrep H IH]; intros Hk.
  - reflexivity.
  - apply IH. intros; apply Hk; by right.
  - pose proof (Hk c (list_elem_of_here _ _) w) as H1. rewrite Hc in H1. etransitivity; [exact H1|].
    apply IH. intros; apply Hk; by right.
  - pose proof (frame_attempt mw request _ _ banned_frame muted c (Hk c (list_elem_of_here _ _)) w) as H1. rewrite Hc in H1.
    etransitivity; [exact H1|]. etransitivity; [apply (handle_error_untouched muted c e w1)|]. apply IH. intros; apply Hk; by right.
Qed.

(** The response to a banned client. *)
Definition banned_response (hs : headers) : Response :=
  mkResponse 403 (default "IP address banned" (dget 403 (custom_error_responses config))) hs.

Lemma ip_security_banned w ip :
  passive_mode config = false -> acceptable config -> custom_response_modifier config = None ->
  request_shown config request -> st_client_ip (w_state w) = Some ip -> ip <> "" ->
  should_bypass_check "ip_ban" (st_route_config (w_state w)) = false ->
  fst (is_ip_banned ip (w_sys w, w_ban w)) = Ok true ->
  exists hs w', IpSecurityCheck_check mw request w = (Ok (Some (banned_response hs)), w').
Proof using Type.
  intros Hp Hh Hm Hshown Hip Hne Hby Hban. unfold IpSecurityCheck_check.
  unfold bind at 1, state at 1, gets at 1. unfold bind at 1, state at 1, gets at 1. rewrite Hip.
  destruct ip as [|ch ip]; [done|]. set (client := String ch ip) in *.
  enough (exists hs w', _check_banned_ip mw request client (st_route_config (w_state w)) w =
    (Ok (Some (banned_response hs)), w')) as (hs & w' & Hb) by (exists hs, w'; by apply or_else_some).
  unfold _check_banned_ip. cbv zeta. rewrite Hby. unfold bind at 1, on_bans at 1, zoom at 1.
  destruct (is_ip_banned client (w_sys w, w_ban w)) as [r p] eqn:Hq. cbn [fst] in Hban. rewrite Hban. cbn [negb].
  unfold log_suspicious. match goal with |- exists hs w', bind ?m ?k ?w = _ => edestruct (log_activity_run config request) as [w1 Hl]; [exact Hshown|];
    rewrite (bind_ok m k w tt w1 Hl) end.
  match goal with |- exists hs w', bind ?m ?k ?w = _ => edestruct send_event_run as [w2 Hs]; rewrite (bind_ok m k w tt w2 Hs) end.
  unfold deny, unless_passive. rewrite Hp.
  destruct (create_error_response_run config 403 "IP address banned" w2 Hh Hm) as (hs & w3 & Hr). exists hs, w3.
  by rewrite (bind_ok _ _ _ _ _ Hr).
Qed.

(** C1: In active mode, with no custom response modifier and with security headers
    that can be sent, a client stays out once ban_ip has accepted its single address:
    whatever bans and unbans of other addresses and queries follow, a request from any
    spelling of the address is answered with 403 by the default pipeline, excluded
    path or not, until the duration of the ban or one hour (the cap of the local
    entry, with Redis or without) has passed, whichever is less. Conditions: the
    checks before the address rules let the request through, its URL, path and headers
    can be shown, the cache of bans has not overflowed, the route does not bypass
    bans, clocks do not go back and the pipeline rebuilds into its default checks. *)
Theorem banned_clients_are_refused ip duration reason ops w0 b1 src w pl w1 client :
  (forall i j, (i <= j)%nat -> (clock i <= clock j)%Z) ->
  (forall i j, (i <= j)%nat -> (monotonic i <= monotonic j)%Z) ->
  passive_mode config = false -> acceptable config -> custom_response_modifier config = None -> request_shown config request ->
  ban_ip ip duration reason w0 = (Ok true, b1) -> has_char "/" (_canonicalize_ip ip) = false ->
  Forall (not_of (_canonicalize_ip ip)) ops -> (w_sys w, w_ban w) = run_ops ops b1 ->
  evictions_count (w_ban w) = evictions_count (snd b1) ->
  rebuilds src -> pl_checks (current_pipeline src pl) = _build_checks mw ->
  admits mw request (pl_muted (current_pipeline src pl)) (st_exclusion_scoped (w_state w))
    before_ip_security (started w) w1 ->
  st_client_ip (w_state w1) = Some client -> client <> "" -> _canonicalize_ip client = _canonicalize_ip ip ->
  should_bypass_check "ip_ban" (st_route_config (w_state w1)) = false ->
  (clock (ticks (w_sys w1)) <= clock (ticks (fst w0)) + seconds (Z.min duration LOCAL_CACHE_TTL_CAP_SECONDS))%Z ->
  (monotonic (S (ticks (w_sys w1))) < monotonic (ticks (fst w0)) + seconds LOCAL_CACHE_TTL_CAP_SECONDS)%Z ->
  exists hs w2, execute mw src request (w, pl) = (Ok (Some (banned_response hs)), (w2, current_pipeline src pl)).
Proof using L.
  intros Hc Hm Hp Hh Hmod Hshown Hban Hsl Hops Hw Hev Hb Hcs Ha Hip Hne Hcan Hby Htime Hu.
  destruct (ban_ip_establishes ip duration reason w0 b1 Hc Hm Hban Hsl) as (_ & exp & until & He & Hun & Hl).
  pose proof (run_ops_keeps (_canonicalize_ip ip) exp until (evictions_count (snd b1)) ops b1 Hc Hm Hops) as [_ Hk].
  specialize (Hk Hl). rewrite <- Hw in Hk.
  assert (bans_untouched w w1) as [Hwb Hwt].
  { transitivity (started w); [by destruct w as [[] ? ? ? ? ? ? ? ?]; split; [|unfold ticks_le; simpl; lia]|].
    eapply admits_untouched; [exact Ha|]. apply before_untouched. }
  assert (ban_keeps (_canonicalize_ip ip) exp until (evictions_count (snd b1)) (w_sys w, w_ban w) (w_sys w1, w_ban w1)) as [_ Hk'].
  { apply ban_keeps_intro; [done|done| |]; cbn [fst snd].
    - split; [exact Hwt|]. cbn [snd]. by rewrite Hwb.
    - by rewrite Hwb. }
  specialize (Hk' Hk).
  assert (fst (is_ip_banned client (w_sys w1, w_ban w1)) = Ok true) as Hq.
  { unfold local_duration in He. eapply (is_ip_banned_live (_canonicalize_ip ip) exp until); eauto; [|lia|lia].
    by rewrite Hwb. }
  destruct (ip_security_banned w1 client Hp Hh Hmod Hshown Hip Hne Hby Hq) as (hs & w2 & Hcheck). exists hs.
  rewrite execute_run by done. cbv zeta. rewrite Hcs, build_checks_split.
  rewrite (run_checks_app _ _ _ _ _ _ _ _ Ha), run_checks_cons. unfold in_scope. rewrite orb_true_r.
  edestruct (run_check_some mw request (pl_muted (current_pipeline src pl))
    (mkCheck "ip_security" true always IpSecurityCheck_check)) as [w3 Hr]; [exact Hcheck|right; apply Hshown|].
  rewrite (or_else_some _ _ _ _ _ Hr). by eexists.
Qed.
End banned.

(** * Witnesses *)

Section witness.

#[local] Instance env : Env := sample_env (ticking 1000) redis_up.
#[local] Instance engine : Engine := sample_engine (ticking 1000) redis_up.
#[local] Instance ban_cache : TTLCache string Z BAN_CACHE_SIZE (seconds LOCAL_CACHE_TTL_CAP_SECONDS) := sample_ban_cache.
#[local] Instance path_cache : TTLCache string bool PATH_CACHE_SIZE PATH_CACHE_TTL := sample_path_cache.
#[local] Existing Instance sample_headers_cache.

#[local] Instance engine_laws : EngineLaws.
Proof. split; intros; try done; intros s; reflexivity. Qed.

#[local] Abbreviation mw := (sample_middleware plain_config).

Definition vault_request : Request :=
  get_request "/vault" "198.51.100.7" [("authorization", "Bearer s3cret"); ("x-tenant", "acme"); ("content-length", "512")].

Definition vault_world : World := sample_world (ticking 1000) redis_up plain_config (Some "vault").

Definition sample_pipeline : Pipeline := build_default_pipeline mw 0 (Some 1%Z).

Lemma admitted_requests_meet_route_rules_witness : meets_route_rules mw vault_request vault_route.
Proof.
  pose (run := execute mw None vault_request (vault_world, sample_pipeline)).
  apply (admitted_requests_meet_route_rules mw vault_request None vault_world sample_pipeline
    (fst (snd run)) (snd (snd run)) vault_route); try reflexivity.
  intros d rc [= <-] Hrc. assert (st_route_config (w_state (fst (snd run))) = Some vault_route) as Hv
    by (vm_compute; reflexivity). rewrite Hv in Hrc. injection Hrc as <-. left.
Defined.

(** The client is banned, and comes back with another spelling of its address. *)
Definition banned_state : Sys * BanManager :=
  snd (ban_ip "198.51.100.7" 600 "test" (sample_sys (ticking 1000) redis_up, BanManager_new)).

Definition banned_world : World :=
  vault_world {{ w_sys := fst banned_state; w_ban := snd banned_state }}.

Definition spelled_request : Request := get_request "/vault" "::ffff:198.51.100.7"
  [("authorization", "Bearer s3cret"); ("x-tenant", "acme")].

Lemma banned_clients_are_refused_witness :
  exists hs w2, execute mw None spelled_request (banned_world, sample_pipeline) =
    (Ok (Some (mkResponse 403 "IP address banned" hs)), (w2, sample_pipeline)).
Proof.
  pose (pre := before_ip_security mw).
  pose (w1 := snd (run_checks mw spelled_request [] false pre (started banned_world))).
  apply (banned_clients_are_refused mw spelled_request "198.51.100.7" 600 "test" []
    (sample_sys (ticking 1000) redis_up, BanManager_new) banned_state None banned_world sample_pipeline w1
    "198.51.100.7"); try reflexivity.
  - intros i j. apply ticking_mono.
  - intros i j. apply ticking_mono.
  - by eexists.
  - apply request_shown_check. vm_compute. reflexivity.
  - constructor.
  - apply runs_admits. apply run_pair. vm_compute. reflexivity.
  - discriminate.
  - vm_compute. discriminate.
Defined.
End witness.
