(* ===== verification/Clearance.v ===== *)
(** What the default pipeline has established of the client of an admitted request:
    the counterpart of [Enforcement] for the rules that are not a route's own. *)
From S2P Require Import Prelude PyStr PyDict IpAddr IpAddrText Sys Sample Config Redaction Request IpExtraction TTL Redis IpBan.
From S2P Require Import RateLimit Cloud AccessControl Middleware Helpers RateLimiter SampleEngine Checks Pipeline.
From S2P Require Import CheckFacts Enforcement.
From S2P Require Import Json SecurityHeaders.

Section clearance.
Context `{Eng : Engine} `{C : !TTLCache string Z BAN_CACHE_SIZE (seconds LOCAL_CACHE_TTL_CAP_SECONDS)}
  `{P : !TTLCache string bool PATH_CACHE_SIZE PATH_CACHE_TTL}
  `{HC : !TTLCache string headers HEADERS_CACHE_SIZE HEADERS_CACHE_TTL}.

Context (mw : Middleware) (request : Request).

#[local] Abbreviation config := (mw_config mw).

(** The call of [is_ip_banned] that the address rules make, unless the route bypasses bans. *)
Definition ban_query (client_ip : string) (route_config : option RouteConfig) (w : World) : res bool * (Sys * BanManager) :=
  if should_bypass_check "ip_ban" route_config then (Ok false, (w_sys w, w_ban w))
  else is_ip_banned client_ip (w_sys w, w_ban w).

(** A client, on a route with these rules, that nothing refuses.  [w] is the state
    in which the address rules are reached. *)
Record cleared (client_ip : string) (route_config : option RouteConfig) (w : World) : Prop := {
  cl_emergency : emergency_mode config = true ->
    exists addr, ip_address client_ip = Some addr /\
                 _ip_in_list addr client_ip (Some (emergency_whitelist config)) = Ok true;
  cl_not_banned : fst (ban_query client_ip route_config w) = Ok false;
  cl_route : should_bypass_check "ip" route_config = false -> forall rc, route_config = Some rc ->
    exists verdict, check_route_ip_access client_ip rc (mw_geo mw) = Ok verdict /\ verdict <> Some false;
  cl_access : should_bypass_check "ip" route_config = false ->
    exists skip_countries r,
      _route_country_whitelist_matched client_ip route_config (mw_geo mw) = Ok skip_countries /\
      fst (check_ip_access client_ip config (mw_geo mw) (_route_overrides_ip_lists route_config) skip_countries
             (fst (snd (ban_query client_ip route_config w)), w_cloud w)) = Ok r /\
      allowed r = true
}.

Context (Hactive : passive_mode config = false).

#[local] Abbreviation loud := (returns (fun r : option Response => r <> None)).

Lemma state_run {A B} (f : RequestState -> A) (k : A -> W B) w : bind (state f) k w = k (f (w_state w)) w.
Proof. done. Qed.

(** A client address that is there. *)
Definition client_is (client_ip : string) (w : World) : Prop :=
  client_ip <> "" /\ st_client_ip (w_state w) = Some client_ip.

Lemma emergency_passes client_ip w w1 :
  client_is client_ip w -> EmergencyModeCheck_check mw request w = (Ok None, w1) -> emergency_mode config = true ->
  exists addr, ip_address client_ip = Some addr /\
               _ip_in_list addr client_ip (Some (emergency_whitelist config)) = Ok true.
Proof using Hactive.
  intros [Hne Hip] Hc He. unfold EmergencyModeCheck_check in Hc. cbv zeta in Hc. rewrite He in Hc. cbn [negb] in Hc.
  rewrite state_run, Hip in Hc. destruct client_ip as [|ch s]; [done|].
  rewrite (bind_ok _ _ _ (String ch s) w) in Hc by done. apply bind_ok_inv in Hc as (white & w2 & Hw & Hc).
  destruct white.
  - destruct (ip_address (String ch s)) as [addr|]; [|by injection Hw]. exists addr. split; [done|].
    unfold lift_res in Hw. by injection Hw.
  - exfalso. revert Hc. apply loud_some. apply returns_then. intros _. by apply then_deny_loud.
Qed.

Lemma banned_passes client_ip route_config w w1 :
  _check_banned_ip mw request client_ip route_config w = (Ok None, w1) ->
  fst (ban_query client_ip route_config w) = Ok false /\
  w_sys w1 = fst (snd (ban_query client_ip route_config w)) /\ w_cloud w1 = w_cloud w /\ w_state w1 = w_state w.
Proof using Hactive.
  intros Hc. unfold _check_banned_ip in Hc. cbv zeta in Hc. unfold ban_query.
  destruct (should_bypass_check "ip_ban" route_config); [by injection Hc as <-|].
  apply bind_ok_inv in Hc as (banned & w2 & Hq & Hc). destruct banned.
  - exfalso. revert Hc. apply loud_some. apply returns_then. intros _. by apply then_deny_loud.
  - injection Hc as <-. unfold on_bans, zoom in Hq. destruct (is_ip_banned client_ip _) as [r [sy bm]].
    injection Hq as -> <-. by destruct w.
Qed.

Lemma then_error_loud {A} (m : W A) code msg :
  loud (unless_passive config (m ;;; create_error_response config code msg)).
Proof using Hactive.
  unfold unless_passive. rewrite Hactive. apply returns_then. intros r. by apply returns_ret.
Qed.

Lemma route_access_passes client_ip rc w w1 :
  _check_route_ip_restrictions mw request client_ip rc w = (Ok None, w1) ->
  exists verdict, check_route_ip_access client_ip rc (mw_geo mw) = Ok verdict /\ verdict <> Some false.
Proof using Hactive.
  intros Hc. unfold _check_route_ip_restrictions in Hc. cbv zeta in Hc. apply bind_ok_inv in Hc as (v & w2 & Hv & Hc).
  unfold lift_res in Hv. injection Hv as Hv <-. exists v. split; [done|]. intros ->. revert Hc. apply loud_some.
  apply returns_then. intros _. apply returns_then. intros country. apply returns_then. intros [decorator violation].
  apply returns_then. intros _. apply then_error_loud.
Qed.

(** What [_resolve_global_ip_access] returned. *)
Lemma resolve_access_inv client_ip route_config w p w1 :
  _resolve_global_ip_access mw client_ip route_config w = (Ok p, w1) ->
  exists skip_countries,
    _route_country_whitelist_matched client_ip route_config (mw_geo mw) = Ok skip_countries /\
    fst (check_ip_access client_ip config (mw_geo mw) (_route_overrides_ip_lists route_config) skip_countries
           (w_sys w, w_cloud w)) = Ok (fst (fst p)).
Proof.
  unfold _resolve_global_ip_access. cbv zeta. intros Hc. apply bind_ok_inv in Hc as (skip & w2 & Hs & Hc).
  unfold lift_res in Hs. injection Hs as Hs <-. apply bind_ok_inv in Hc as (r & w3 & Hr & Hc).
  unfold on_clouds, zoom in Hr. apply bind_ok_inv in Hc as (ex & w4 & _ & Hc). injection Hc as <- _.
  exists skip. split; [done|]. destruct (check_ip_access _ _ _ _ _ _). by injection Hr as -> _.
Qed.

Lemma global_access_passes client_ip route_config escalate p w w1 :
  _check_global_ip_restrictions mw request client_ip route_config escalate (Some p) w = (Ok None, w1) ->
  allowed (fst (fst p)) = true.
Proof using Hactive.
  destruct p as [[r white] exempt]. unfold _check_global_ip_restrictions. cbv zeta. intros Hc.
  rewrite (bind_ok _ _ _ (r, white, exempt) w) in Hc by done. apply bind_ok_inv in Hc as ([] & w2 & _ & Hc).
  cbn [fst]. destruct (allowed r); [done|]. exfalso. revert Hc. apply loud_some.
  apply returns_then. intros _. apply returns_then. intros _. apply then_error_loud.
Qed.

Lemma global_access_resolved client_ip route_config escalate w w1 :
  _check_global_ip_restrictions mw request client_ip route_config escalate None w = (Ok None, w1) ->
  exists p w2, _resolve_global_ip_access mw client_ip route_config w = (Ok p, w2) /\ allowed (fst (fst p)) = true.
Proof using Hactive.
  unfold _check_global_ip_restrictions. cbv zeta. intros Hc. apply bind_ok_inv in Hc as (p & w2 & Hp & Hc).
  exists p, w2. split; [done|]. apply (global_access_passes client_ip route_config escalate p w2 w1).
  unfold _check_global_ip_restrictions. cbv zeta. by rewrite (bind_ok _ _ _ p w2).
Qed.

(** The address rules of a request outside the excluded paths. *)
Lemma ip_security_passes client_ip w w1 :
  client_is client_ip w -> st_exclusion_scoped (w_state w) = false ->
  IpSecurityCheck_check mw request w = (Ok None, w1) ->
  (emergency_mode config = true -> exists addr, ip_address client_ip = Some addr /\
     _ip_in_list addr client_ip (Some (emergency_whitelist config)) = Ok true) ->
  cleared client_ip (st_route_config (w_state w)) w.
Proof using Hactive.
  intros [Hne Hip] Hs Hc Hem. unfold IpSecurityCheck_check in Hc. rewrite !state_run, Hip in Hc.
  destruct client_ip as [|ch s]; [done|]. apply or_else_none_inv in Hc as (w2 & Hban & Hc).
  apply banned_passes in Hban as (Hb & Hsys & Hcloud & Hst). rewrite state_run, Hst, Hs in Hc.
  set (route_config := st_route_config (w_state w)) in *.
  enough (should_bypass_check "ip" route_config = false ->
    (forall rc, route_config = Some rc ->
      exists verdict, check_route_ip_access (String ch s) rc (mw_geo mw) = Ok verdict /\ verdict <> Some false) /\
    exists p w3, _resolve_global_ip_access mw (String ch s) route_config w2 = (Ok p, w3) /\ allowed (fst (fst p)) = true)
    as Hrest.
  { split; [done|done|by intros Hx; apply Hrest|]. intros Hx. destruct (Hrest Hx) as (_ & p & w3 & Hp & Ha).
    apply resolve_access_inv in Hp as (skip & Hskip & Hacc). exists skip, (fst (fst p)). rewrite <- Hsys, <- Hcloud. done. }
  intros Hx. rewrite Hx in Hc. destruct route_config as [rc|].
  - apply bind_ok_inv in Hc as (p & w3 & Hp & Hc). apply or_else_none_inv in Hc as (w4 & Hroute & Hglobal).
    split; [intros ? [= <-]; by eapply route_access_passes|]. exists p, w3. split; [done|].
    by eapply global_access_passes.
  - split; [done|]. by eapply global_access_resolved.
Qed.

(** ** The scope of the request *)

Definition same_scope (w w' : World) : Prop := st_exclusion_scoped (w_state w') = st_exclusion_scoped (w_state w).

#[local] Instance same_scope_preorder : PreOrder same_scope.
Proof. split; [done|]. unfold same_scope. intros w1 w2 w3. congruence. Qed.

Lemma same_view_scope (w w' : World) : same_view w w' -> same_scope w w'.
Proof. by intros (_ & _ & H). Qed.

Lemma route_config_scope : keeps same_scope (RouteConfigCheck_check mw request).
Proof.
  unfold RouteConfigCheck_check, get_route_config, _handle_unresolved_route.
  repeat (cbv zeta; lazymatch goal with
    | |- keeps _ (set_state _) => let w := fresh in intros w; by destruct w as [? [] ? ? ? ? ? ? ?]
    | |- keeps _ (find_decorator _) => apply (keeps_weaken _ _ _ same_view_scope), (frame_find_decorator mw _ _ _ (view_frame request))
    | |- keeps _ (state _) => let w := fresh in intros w; reflexivity
    | |- keeps _ (log_suspicious _ _ _ _) => apply (keeps_weaken _ _ _ same_view_scope), (frame_log_suspicious _ _ _ (view_frame request))
    | |- keeps _ (send_event _ _ _ _ _ _) => apply (keeps_weaken _ _ _ same_view_scope), (frame_send_event mw _ _ _ (view_frame request))
    | |- keeps _ (deny _ _ _) => apply (keeps_weaken _ _ _ same_view_scope), (frame_deny _ _ _ (view_frame request))
    | |- keeps _ (on_sys _) => apply (keeps_weaken _ _ _ same_view_scope), on_sys_view
    | |- _ => keeps_step
    end).
Qed.

Lemma checks_keep_scope c : c ∈ DEFAULT_CHECK_CLASSES -> keeps same_scope (check c mw request).
Proof.
  intros Hc. destruct (decide (check_name c = "route_config")) as [He|He].
  - unfold DEFAULT_CHECK_CLASSES in Hc.
    repeat (apply elem_of_cons in Hc as [->|Hc]; [cbn [check check_name] in *|]); [..|by apply elem_of_nil in Hc];
      try discriminate. apply route_config_scope.
  - apply (keeps_weaken _ _ _ same_view_scope). by apply checks_keep_view.
Qed.

(** ** Through the pipeline *)

Lemma admits_app_inv muted scoped l1 l2 w w' :
  admits mw request muted scoped (l1 ++ l2) w w' ->
  exists w1, admits mw request muted scoped l1 w w1 /\ admits mw request muted scoped l2 w1 w'.
Proof.
  revert w. induction l1 as [|c l1 IH]; intros w H; [exists w; split; [constructor|done]|].
  cbn [app] in H. inversion H; subst; match goal with Ha : admits _ _ _ _ (l1 ++ l2) _ _ |- _ =>
    destruct (IH _ Ha) as (w2 & Hl & Hr) end; exists w2; split; eauto using admits.
Qed.

Lemma before_default c : c ∈ before_ip_security mw -> c ∈ DEFAULT_CHECK_CLASSES.
Proof.
  intros Hc. apply list_elem_of_In, List.filter_In in Hc as [Hc _]. apply list_elem_of_In in Hc.
  rewrite <- (take_drop 11 DEFAULT_CHECK_CLASSES). apply elem_of_app. by left.
Qed.

Lemma after_default c : c ∈ after_ip_security mw -> c ∈ DEFAULT_CHECK_CLASSES /\ check_name c <> "route_config".
Proof.
  intros Hc. apply list_elem_of_In, List.filter_In in Hc as [Hc _]. apply list_elem_of_In in Hc. split.
  - rewrite <- (take_drop 12 DEFAULT_CHECK_CLASSES). apply elem_of_app. by right.
  - unfold DEFAULT_CHECK_CLASSES in Hc. cbn [drop] in Hc.
    repeat (apply elem_of_cons in Hc as [->|Hc]; [done|]). by apply elem_of_nil in Hc.
Qed.

Context (Hfail : fail_secure config = true) (Hredis : redis_fail_open config = false).

Lemma admits_scope muted scoped cs w w' :
  admits mw request muted scoped cs w w' -> (forall c, c ∈ cs -> c ∈ DEFAULT_CHECK_CLASSES) -> same_scope w w'.
Proof using Hfail Hredis.
  induction 1 as [w|c cs w w' Hs H IH|c cs w w1 w' Hs Hc H IH|c cs w w1 e w' Hs Hc Ht H IH]; intros Hd.
  - reflexivity.
  - apply IH. intros; apply Hd; by right.
  - transitivity w1; [|apply IH; intros; apply Hd; by right].
    pose proof (checks_keep_scope c (Hd c (list_elem_of_here _ _)) w) as Hx. by rewrite Hc in Hx.
  - by rewrite strict_untolerated in Ht.
Qed.

(** The emergency check ran, and let the client through. *)
Lemma emergency_admits muted w w1 client_ip :
  admits mw request muted false (before_ip_security mw) w w1 -> client_is client_ip w1 -> emergency_mode config = true ->
  exists addr, ip_address client_ip = Some addr /\
               _ip_in_list addr client_ip (Some (emergency_whitelist config)) = Ok true.
Proof using Hactive Hfail Hredis.
  intros Ha Hip He. set (c := mkCheck "emergency_mode" false
    (fun config _ => emergency_mode config || enable_dynamic_rules config) EmergencyModeCheck_check).
  assert (before_ip_security mw = mkCheck "route_config" true always RouteConfigCheck_check ::
    [c] ++ List.filter (fun c => applies_to c config (_collect_route_configs mw)) (drop 2 (take 11 DEFAULT_CHECK_CLASSES)))
    as Hsplit by (unfold before_ip_security, c; cbn; by rewrite He).
  pose proof before_default as Hd. rewrite Hsplit in Ha, Hd. apply (admits_app_inv _ _ [_]) in Ha as (w0 & _ & Ha).
  set (rest := [c] ++ _) in *. destruct (admits_each mw request muted false rest w0 w1 Ha) as [_ Hall].
  - intros e. by apply strict_untolerated.
  - intros c' Hc'. assert (c' ∈ DEFAULT_CHECK_CLASSES) as Hc by (apply Hd; by right). apply checks_keep_view; [done|].
    revert Hc'. unfold rest. rewrite elem_of_app, list_elem_of_singleton. intros [->|Hc']; [done|].
    apply list_elem_of_In, List.filter_In in Hc' as [Hc'%list_elem_of_In _].
    unfold DEFAULT_CHECK_CLASSES in Hc'. cbn [drop take] in Hc'.
    repeat (apply elem_of_cons in Hc' as [->|Hc']; [done|]). by apply elem_of_nil in Hc'.
  - destruct (Hall c (list_elem_of_here _ _) eq_refl) as (wc & wc' & Hrun & _ & Hv & _).
    apply (emergency_passes client_ip wc wc'); [|exact Hrun|done]. destruct Hip as [Hne Hip]. split; [done|congruence].
Qed.

(** C3: In active mode with errors not tolerated, a request that the default pipeline
    admits outside the excluded paths comes from a client that is on the emergency
    whitelist in an emergency and, except for what the bypassed checks of its route
    (ip, ip_ban) leave out, that the ban manager does not report as banned and that
    the address rules of the route and the global address, country and cloud rules
    allow, all asked in the state in which the address rules are reached. *)
Theorem admitted_clients_are_cleared src w pl w' pl' client_ip :
  rebuilds src -> pl_checks (current_pipeline src pl) = _build_checks mw ->
  st_exclusion_scoped (w_state w) = false ->
  execute mw src request (w, pl) = (Ok None, (w', pl')) ->
  st_client_ip (w_state w') = Some client_ip -> client_ip <> "" ->
  exists w1, admits mw request (pl_muted pl') false (before_ip_security mw) (started w) w1 /\
             cleared client_ip (st_route_config (w_state w')) w1.
Proof using Hactive Hfail Hredis.
  intros Hb Hcs Hs Hex Hip Hne. apply execute_run_inv in Hex as [-> Ha]; [|done]. rewrite Hcs, Hs, build_checks_split in Ha.
  apply admits_app_inv in Ha as (w1 & Hbefore & Ha). exists w1. split; [done|].
  assert (same_scope (started w) w1) as Hs1 by (eapply admits_scope; [done|by apply before_default]).
  destruct (admits_each mw request _ false _ w1 w' Ha) as [(Hv1 & Hv2 & _) Hall].
  - intros e. by apply strict_untolerated.
  - intros c [->|Hc]%elem_of_cons; [|by apply checks_keep_view; apply after_default].
    apply (checks_keep_view mw request (mkCheck "ip_security" true always IpSecurityCheck_check)); [|done].
    eapply (list_elem_of_lookup_2 _ 11). reflexivity.
  - assert (client_is client_ip w1) as Hclient by (split; [done|congruence]). rewrite Hv1.
    assert (exists w2, IpSecurityCheck_check mw request w1 = (Ok None, w2)) as [w2 Hrun].
    { inversion Ha; subst; [done|by eexists|by rewrite strict_untolerated in *]. }
    eapply ip_security_passes; [done| |exact Hrun|by intros; eapply emergency_admits].
    unfold same_scope in Hs1. rewrite Hs1. by destruct w as [[] ? ? ? ? ? ? ? ?].
Qed.
End clearance.

(** * Witness *)

Section witness.
#[local] Existing Instance Enforcement.env.
#[local] Existing Instance Enforcement.engine.
#[local] Existing Instance Enforcement.ban_cache.
#[local] Existing Instance Enforcement.path_cache.
#[local] Existing Instance sample_headers_cache.

#[local] Abbreviation mw := (sample_middleware plain_config).

Lemma admitted_clients_are_cleared_witness :
  exists w1, admits mw vault_request [] false (before_ip_security mw) (started vault_world) w1 /\
             cleared mw "198.51.100.7" (Some vault_route) w1.
Proof.
  pose (run := execute mw None vault_request (vault_world, sample_pipeline)).
  assert (exists w1, admits mw vault_request (pl_muted (snd (snd run))) false (before_ip_security mw) (started vault_world) w1 /\
             cleared mw "198.51.100.7" (st_route_config (w_state (fst (snd run)))) w1) as (w1 & Ha & Hc).
  { apply (admitted_clients_are_cleared mw vault_request eq_refl eq_refl eq_refl None vault_world sample_pipeline
      (fst (snd run)) (snd (snd run)) "198.51.100.7"); try reflexivity. discriminate. }
  exists w1. split; [exact Ha|].
  replace (Some vault_route) with (st_route_config (w_state (fst (snd run)))) by (vm_compute; reflexivity). exact Hc.
Defined.
End witness.
