(* ===== verification/Screening.v ===== *)
(** What the detection has established of an admitted request: when the engine's detection
    is the scan of [Scan.v], no piece of a request that the default pipeline admits is
    dangerous. *)
From S2P Require Import Prelude PyStr PyDict Json IpAddr IpAddrText Url Sys Sample Config Redaction RedactionFacts Request IpExtraction TTL Redis IpBan.
From S2P Require Import RateLimit Cloud AccessControl SecurityHeaders JsonPattern DetectionConfig BodyReader Scan ScanFacts ScanSpec.
From S2P Require Import Middleware Helpers RateLimiter SampleEngine Checks Pipeline CheckFacts Enforcement Clearance.
From S2P Require Import SampleScan Preprocessor Suspatterns SuspatternsDetect SusVerdict SampleDetection.

(** * What a hit says *)

Section hits.
Context `{RB : RequestBody} `{DT : !Detector} `{SS : !ScanServices}.

(** A hit is described in several words. *)
Definition spaced (f : finding) : Prop := detected f = true -> has_char " " (snd (fst f)) = true.
Definition spaced_hit (o : option finding) : Prop := match o with Some f => spaced f | None => True end.

Lemma titled_spaced title f : spaced (titled title f).
Proof. intros _. cbn [titled fst snd]. by rewrite !has_char_app, orb_true_r. Qed.

Lemma mongo_spaced key : spaced (_mongo_operator_key_hit key).
Proof. by intros _. Qed.

Lemma no_finding_spaced : spaced no_finding.
Proof. done. Qed.

Lemma first_some_spaced {S A} (l : list A) (f : A -> M S (option finding)) :
  (forall x, returns spaced_hit (f x)) -> returns spaced_hit (first_some l f).
Proof.
  intros Hf. induction l as [|x l IH]; [by apply returns_ret|]. cbn [first_some]. eapply returns_bind; [apply Hf|].
  intros [b|] Hb; [by apply returns_ret|exact IH].
Qed.

Lemma default_spaced {S} (m : M S (option finding)) : returns spaced_hit m -> returns spaced (let* hit := m in ret (default no_finding hit)).
Proof. intros Hm. eapply returns_bind; [exact Hm|]. intros [f|] Hf; by apply returns_ret. Qed.

#[local] Hint Resolve titled_spaced mongo_spaced no_finding_spaced : spaced.

Ltac spaced_steps := repeat (cbv zeta; first
  [ apply first_some_spaced; intros ?
  | lazymatch goal with
    | |- returns _ (bind (first_some _ _) _) => fail
    | |- returns _ (bind _ _) => apply returns_then; intros ?
    | |- returns _ (ret _) => apply returns_ret
    | |- returns _ (raise _) => apply returns_raise
    | |- returns _ (if ?b then _ else _) => destruct b
    | |- returns _ (match ?x with _ => _ end) => destruct x
    | |- spaced_hit (Some _) => cbn [spaced_hit]
    | |- spaced (if ?b then _ else _) => destruct b
    | |- spaced_hit (if ?b then _ else _) => destruct b
    end ]); cbn [spaced_hit]; auto with spaced.

Context (client_ip correlation_id : string).

Section with_check.
Context (check_value : probe -> M (Sys * Budget) (finding * option string)).

Lemma body_field_spaced value label cats l sb display context preview sp :
  returns spaced (_scan_body_field client_ip check_value value label cats l sb display context preview sp).
Proof. unfold _scan_body_field. spaced_steps. Qed.

Lemma json_key_spaced ex cats l ctx rk key : returns spaced_hit (_scan_json_dict_entry_key client_ip check_value ex cats l ctx rk key).
Proof. unfold _scan_json_dict_entry_key. spaced_steps. Qed.

Definition spaced_frame (r : finding + list Scan.frame) : Prop := match r with inl f => spaced f | inr _ => True end.

Lemma frame_spaced ex cats l sb ctx po rk sp d top :
  returns spaced_frame (scan_frame client_ip check_value ex cats l sb ctx po rk sp d top).
Proof.
  unfold scan_frame, _scan_json_entry_frame, _scan_json_container_frame, _scan_capped_json_subtree, scan_json_leaf.
  destruct top as [key item depth redact|current label depth redact].
  - eapply returns_bind; [apply json_key_spaced|]. intros [f|] Hf; [|by apply returns_ret]. destruct (detected f); by apply returns_ret.
  - destruct (is_container current); [destruct (_ <=? _)%Z|].
    + eapply (returns_bind spaced); [|intros f Hf; destruct (detected f); by apply returns_ret].
      apply returns_then. intros _. apply returns_then. intros cap. apply body_field_spaced.
    + by apply returns_ret.
    + eapply returns_bind; [apply body_field_spaced|]. intros f Hf. destruct (detected f); by apply returns_ret.
Qed.

Lemma stack_spaced ex cats l sb ctx po rk sp fuel d stack :
  returns spaced (scan_stack client_ip check_value ex cats l sb ctx po rk sp fuel d stack).
Proof.
  revert stack. induction fuel as [|fuel IH]; intros [|top stack]; cbn [scan_stack]; try by apply returns_ret; try apply returns_raise.
  - apply returns_raise.
  - eapply returns_bind; [apply frame_spaced|]. intros [f|more] Hf; [by apply returns_ret|apply IH].
Qed.
End with_check.

Lemma field_spaced cats l sb sp a b c d e : returns spaced_hit (scan_field client_ip correlation_id cats l sb sp a b c d e).
Proof.
  unfold scan_field. apply returns_then. intros hit. destruct (detected hit); [apply returns_ret, titled_spaced|].
  eapply returns_bind; [apply body_field_spaced|]. intros f Hf. destruct (detected f); by apply returns_ret.
Qed.

Lemma request_body_spaced ex cats l sb sp raw ct : returns spaced (_scan_request_body client_ip correlation_id ex cats l sb sp raw ct).
Proof.
  assert (forall raw sp sb red, returns spaced (_scan_blob_body client_ip correlation_id cats l raw sp sb red)) as Hblob.
  { intros. unfold _scan_blob_body. spaced_steps. }
  unfold _scan_request_body. cbv zeta. destruct (contains _ _); [|destruct (contains _ _)].
  - unfold _scan_form_body. apply default_spaced, first_some_spaced. intros [name value]. destruct (excluded_field _ _); [by apply returns_ret|].
    apply field_spaced.
  - unfold _scan_multipart_body. apply returns_then. intros n. destruct (_multipart_text_parts _ _ _); [|apply Hblob].
    apply default_spaced, first_some_spaced. intros [[k lb] v]. unfold _scan_multipart_part. destruct (excluded_field _ _); [by apply returns_ret|].
    apply field_spaced.
  - eapply (returns_bind spaced_hit); [|intros [f|] Hf; [by apply returns_ret|apply Hblob]].
    destruct (contains _ _); [|by apply returns_ret]. unfold _scan_json_content. destruct (json_loads raw) as [j|e];
      [|destruct (within_latin1 e); [by apply returns_ret|apply returns_raise]].
    destruct (is_container j); [|by apply returns_ret]. eapply (returns_bind spaced); [|intros f Hf; by apply returns_ret].
    unfold _scan_json_value. apply returns_then. intros d. apply stack_spaced.
Qed.

Lemma query_spaced eb sp sb sh cats l ex p : returns spaced_hit (scan_query_param client_ip correlation_id eb sp sb sh cats l ex p).
Proof. unfold scan_query_param. spaced_steps. Qed.

Lemma header_spaced ex cats l sh sb eb sp h : returns spaced_hit (scan_header client_ip correlation_id ex cats l sh sb eb sp h).
Proof.
  assert (forall k v cats l cp sb eb sp sh,
    returns spaced_hit (_scan_normal_header_component client_ip correlation_id k v cats l cp sb eb sp sh)) as Hnormal.
  { intros. unfold _scan_normal_header_component. spaced_steps. }
  assert (forall k v cats l sp sb eb sh,
    returns spaced_hit (_scan_excluded_header_component client_ip correlation_id k v cats l sp sb eb sh)) as Hexcluded.
  { intros. unfold _scan_excluded_header_component. eapply (returns_bind spaced_hit).
    - spaced_steps.
    - intros [f|] Hf; [by apply returns_ret|]. destruct (_excluded_header_effective_categories _ _ _) as [[|]|]; [by apply returns_ret|..]; apply Hnormal. }
  destruct h as [key value]. unfold scan_header. cbv zeta. destruct (in_list _ _); [|destruct (in_list _ _)]; [|apply Hexcluded|apply Hnormal].
  unfold _scan_sensitive_header. eapply (returns_bind spaced_hit); [destruct (in_list _ _); [apply Hexcluded|apply Hnormal]|].
  intros f Hf. apply returns_then. intros _. by apply returns_ret.
Qed.

(** A result that reports a threat. *)
Definition spaced_result (r : DetectionResult) : Prop := is_threat r = true -> has_char " " (trigger_info r) = true.

Lemma hit_spaced f : spaced f -> detected f = true -> spaced_result (hit_of f).
Proof.
  intros Hf Hd _. unfold hit_of, _build_detection_hit. destruct (fold_left _ _ _). by apply Hf.
Qed.

Lemma surface_spaced request ep eh cats l sh sp sb eb :
  returns (fun o => match o with Some r => spaced_result r | None => True end)
    (_scan_request_surface client_ip correlation_id request ep eh cats l sh sp sb eb).
Proof.
  unfold _scan_request_surface. eapply (returns_bind spaced).
  { unfold _scan_query_params. apply default_spaced, first_some_spaced. intros p. apply query_spaced. }
  intros f Hf. destruct (detected f) eqn:Hd; [apply returns_ret; by apply hit_spaced|]. cbv zeta. apply returns_then. intros path. apply returns_then. intros g.
  destruct (detected g); [apply returns_ret; apply hit_spaced; [apply titled_spaced|done]|].
  eapply (returns_bind spaced); [unfold _scan_headers; apply default_spaced, first_some_spaced; intros h; apply header_spaced|].
  intros k Hk. apply returns_ret. destruct (detected k) eqn:Hdk; [by apply hit_spaced|done].
Qed.

Lemma body_surface_spaced request config rc eb cats l sb sp :
  returns spaced_result (_scan_body_surface client_ip correlation_id request config rc eb cats l sb sp).
Proof.
  unfold _scan_body_surface. destruct (negb _); [by apply returns_ret|]. apply returns_then. intros [bytes|]; [|by apply returns_ret].
  cbv zeta. eapply returns_bind; [apply request_body_spaced|]. intros f Hf. apply returns_ret. destruct (detected f) eqn:Hd; [by apply hit_spaced|done].
Qed.

Lemma within_spaced request config rc : returns spaced_result (scan_within_budget client_ip correlation_id request config rc).
Proof.
  unfold scan_within_budget. cbv zeta. intros [s b] r. unfold _scan_value_budget. cbn [fst snd].
  set (m := bind _ _). set (b0 := mkBudget _ _ _ _ _ _ _ _ _). intros Hr.
  assert (returns spaced_result m) as Hm.
  { unfold m. eapply returns_bind; [apply surface_spaced|]. intros [hit|] Hhit; [by apply returns_ret|apply body_surface_spaced]. }
  apply (Hm (s, b0)). destruct (m (s, b0)) as [x [s1 b1]]. exact Hr.
Qed.
End hits.

(** * The scan as the engine's detection *)

Section scan_detection.
Context `{RB : RequestBody} `{DT : !Detector} `{SS : !ScanServices}.

(** In a request of its own: the context variables are those of a new context. *)
Definition scan_detection (request : Request) (cached_ip : option string) (config : SecurityConfig) (route_config : option RouteConfig)
  : M Sys DetectionResult := fun s =>
  let '(r, (s', _)) := detect_penetration_attempt request cached_ip (Some config) route_config (s, Budget_default) in (r, s').

Lemma detection_spaced request cached config rc s r :
  fst (scan_detection request cached config rc s) = Ok r -> is_threat r = true -> trigger_info r <> "disabled_by_decorator".
Proof.
  intros Hr Ht He. assert (returns spaced_result (detect_penetration_attempt request cached (Some config) rc)) as Hs.
  { unfold detect_penetration_attempt. apply returns_then. intros _. apply returns_then. intros ip. apply returns_then. intros hex.
    apply within_spaced. }
  unfold scan_detection in Hr. specialize (Hs (s, Budget_default) r). destruct (detect_penetration_attempt _ _ _ _ _) as [x [s1 b]].
  cbn [fst] in *. specialize (Hs Hr Ht). by rewrite He in Hs.
Qed.

Lemma detection_verdict `{OP : !Opinion} request cached config rc fuel body items s r :
  (forall s', fst (ensure_configured config s') = Ok tt) -> body_is request (Some config) None body ->
  request_items fuel request (Some config) rc body = Some items ->
  (values items <= _resolve_max_scan_values (Some config))%Z -> (chars items < _resolve_max_scan_chars (Some config))%Z ->
  fst (scan_detection request cached config rc s) = Ok r -> is_threat r = hit items.
Proof.
  intros Hconf Hbody Hitems Hv Hc Hr. unfold scan_detection in Hr.
  destruct (detect_verdict request cached (Some config) rc fuel body items s Budget_default Hconf Hbody Hitems Hv Hc) as (r' & [s' b'] & Hrun & Ht).
  rewrite Hrun in Hr. by injection Hr as <-.
Qed.
End scan_detection.

(** * Through the pipeline *)

Section screening.
Context `{Eng : Engine} `{C : !TTLCache string Z BAN_CACHE_SIZE (seconds LOCAL_CACHE_TTL_CAP_SECONDS)}
  `{P : !TTLCache string bool PATH_CACHE_SIZE PATH_CACHE_TTL}
  `{HC : !TTLCache string headers HEADERS_CACHE_SIZE HEADERS_CACHE_TTL}.

Context (mw : Middleware) (request : Request).

#[local] Abbreviation config := (mw_config mw).

(** What the detection says of the request under the rules of its route. *)
Context (rc0 : option RouteConfig) (bad : bool).
Context (Hdetection : forall ip s r, fst (run_detection request ip config rc0 s) = Ok r ->
  is_threat r = bad /\ (is_threat r = true -> trigger_info r <> "disabled_by_decorator")).

Definition detecting (rc : option RouteConfig) : bool :=
  fst (_get_effective_penetration_setting config rc) && negb (should_bypass_check "penetration" rc).

(** A remembered result is that of the detection. *)
Definition remembered (s : RequestState) : Prop := forall r,
  st_detection_cache s = Some (rc0, r) -> detecting rc0 = true ->
  is_threat r = bad /\ (is_threat r = true -> trigger_info r <> "disabled_by_decorator").

Lemma fresh_result w r : fst (detect_penetration_patterns request rc0 config w) = Ok r -> detecting rc0 = true ->
  is_threat r = bad /\ (is_threat r = true -> trigger_info r <> "disabled_by_decorator").
Proof using Hdetection.
  unfold detect_penetration_patterns, detecting. destruct (_get_effective_penetration_setting _ _) as [en sp]. cbn [fst].
  intros Hr He. rewrite He in Hr. unfold bind, state, gets, on_sys, zoom in Hr. pose proof (Hdetection (st_client_ip (w_state w)) (w_sys w)) as Hd.
  destruct (run_detection _ _ _ _ _) as [x s']. cbn [fst] in *. by apply Hd.
Qed.

Definition recalls (s s' : RequestState) : Prop := remembered s -> remembered s'.

#[local] Instance recalls_preorder : PreOrder recalls.
Proof using Type. split; [by intros s H|]. intros s1 s2 s3 H1 H2 H. by apply H2, H1. Qed.

Lemma same_cache_recalls s s' : st_detection_cache s' = st_detection_cache s -> recalls s s'.
Proof using Type. unfold recalls, remembered. by intros ->. Qed.

Lemma recalls_detection rc : keeps (of_states recalls) (get_cached_detection_result request rc config).
Proof using Hdetection.
  apply (detection_keeps _ recalls). intros w r s' Hr _ _ _ r' Hc Hd. destruct s'. cbn in Hc. injection Hc as -> ->.
  by eapply fresh_result.
Qed.

Lemma recalls_wide : wide mw request (of_states recalls).
Proof using Hdetection.
  apply (state_wide mw request recalls); [|exact recalls_detection]. intros f s Hf. apply same_cache_recalls, Hf.
Qed.

(** From the address rules on: the marks of the client stay, too. *)
Definition settled (s s' : RequestState) : Prop :=
  same_request s s' /\ st_is_whitelisted s' = st_is_whitelisted s /\ recalls s s'.

#[local] Instance settled_preorder : PreOrder settled.
Proof using Type.
  split; [intros s; split_and!; [reflexivity|done|reflexivity]|]. intros s1 s2 s3 (A1 & A2 & A3) (B1 & B2 & B3). split_and!; [by etransitivity|congruence|by etransitivity].
Qed.

Lemma settled_wide : wide mw request (of_states settled).
Proof using Hdetection.
  apply (state_wide mw request settled).
  - intros f s Hf. split_and!; [by apply identity_same|apply Hf|apply same_cache_recalls, Hf].
  - intros rc. apply (detection_keeps _ settled). intros w r s' Hr _ _. split_and!; [by destruct s'|by destruct s'|].
    intros _ r' Hc Hd. destruct s'. cbn in Hc. injection Hc as -> ->. by eapply fresh_result.
Qed.

(** Along an admission, every check in scope was run between two states that a relation
    the checks keep leads to and from. *)
Lemma admits_through R `{!PreOrder R} muted scoped cs w w' :
  admits mw request muted scoped cs w w' -> (forall e, tolerated config e = false) ->
  (forall c, c ∈ cs -> keeps R (check c mw request)) ->
  R w w' /\ forall c, c ∈ cs -> in_scope scoped c = true ->
    exists wc wc', check c mw request wc = (Ok None, wc') /\ R w wc /\ R wc' w'.
Proof using Type.
  induction 1 as [w|c cs w w' Hs H IH|c cs w w1 w' Hs Hc H IH|c cs w w1 e w' Hs Hc Ht H IH]; intros Hno Hk.
  - split; [reflexivity|]. by intros c Hc%elem_of_nil.
  - destruct IH as [Hww IH]; [done|intros; apply Hk; by right|]. split; [done|].
    intros c' [->|Hc']%elem_of_cons Hs'; [congruence|by apply IH].
  - destruct IH as [Hww IH]; [done|intros; apply Hk; by right|].
    assert (R w w1) as Hw1 by (pose proof (Hk c (list_elem_of_here _ _) w) as Hx; by rewrite Hc in Hx).
    split; [by etransitivity|]. intros c' [->|Hc']%elem_of_cons Hs'; [by exists w, w1|].
    destruct (IH c' Hc' Hs') as (wc & wc' & Hrun & H1 & H2). exists wc, wc'. split_and!; [done|by etransitivity|done].
  - by rewrite Hno in Ht.
Qed.

Lemma route_config_recalls : keeps (of_states recalls) (RouteConfigCheck_check mw request).
Proof using Hdetection.
  pose proof recalls_wide as Wd.
  unfold RouteConfigCheck_check, get_route_config, _handle_unresolved_route.
  repeat (cbv zeta; lazymatch goal with
    | |- keeps _ (set_state _) => apply set_state_keeps; intros s; apply same_cache_recalls; by destruct s
    | |- keeps _ (find_decorator _) => apply (frame_find_decorator mw _ _ _ (wd_frame _ _ _ Wd))
    | |- keeps _ (state _) => apply (frame_read _ _ _ (wd_frame _ _ _ Wd))
    | |- keeps _ (log_suspicious _ _ _ _) => apply (frame_log_suspicious _ _ _ (wd_frame _ _ _ Wd))
    | |- keeps _ (send_event _ _ _ _ _ _) => apply (frame_send_event mw _ _ _ (wd_frame _ _ _ Wd))
    | |- keeps _ (deny _ _ _) => apply (frame_deny _ _ _ (wd_frame _ _ _ Wd))
    | |- keeps _ (on_sys _) => apply sys_keeps; exact _
    | |- _ => keeps_step
    end).
Qed.

Context (Hactive : passive_mode config = false).

Lemma active_mode_loud ip trigger cats : returns (fun r : option Response => r <> None)
  (increment_suspicious_counts ip cats ;;; let* r := _handle_suspicious_active_mode mw request ip trigger cats in ret (Some r)).
Proof using Type. apply returns_then. intros _. apply returns_then. intros r. by apply returns_ret. Qed.

(** The check let the request through. *)
Lemma suspicious_passes client_ip w w1 :
  SuspiciousActivityCheck_check mw request w = (Ok None, w1) -> st_is_whitelisted (w_state w) = false ->
  client_is client_ip w -> st_route_config (w_state w) = rc0 -> detecting rc0 = true -> remembered (w_state w) -> bad = false.
Proof using Hdetection Hactive.
  intros Hc Hw [Hne Hip] Hrc Hd Hrem. unfold SuspiciousActivityCheck_check in Hc. cbv zeta in Hc.
  rewrite state_run, Hw, !state_run, Hip, Hrc in Hc. destruct client_ip as [|ch s]; [done|].
  apply bind_ok_inv in Hc as (result & w2 & Hget & Hc).
  assert (is_threat result = bad /\ (is_threat result = true -> trigger_info result <> "disabled_by_decorator")) as [Hr Ht].
  { unfold get_cached_detection_result in Hget. rewrite state_run in Hget.
    assert (forall v, (let* result := detect_penetration_patterns request rc0 config in
      set_state (fun s => s {{ st_detection_cache := Some (rc0, result) }}) ;;; ret result) v = (Ok result, w2) ->
      is_threat result = bad /\ (is_threat result = true -> trigger_info result <> "disabled_by_decorator")) as Hgo.
    { intros v Hv. apply bind_ok_inv in Hv as (r & w3 & Hdet & Hv). injection Hv as -> _.
      apply (fresh_result v); [by rewrite Hdet|done]. }
    destruct (st_detection_cache (w_state w)) as [[rc' r']|] eqn:Hcache; [|by apply (Hgo w)].
    destruct (decide (rc' = rc0)) as [->|]; [|by apply (Hgo w)]. injection Hget as <- _. by apply Hrem. }
  destruct bad; [|done]. exfalso. specialize (Ht Hr). apply String.eqb_neq in Ht. rewrite Ht, Hr, Hactive in Hc.
  revert Hc. apply loud_some. apply active_mode_loud.
Qed.

Context (Hfail : fail_secure config = true) (Hredis : redis_fail_open config = false).

Lemma suspicious_applies rc w : route_known mw w -> st_route_config (w_state w) = rc -> detecting rc = true ->
  mkCheck "suspicious_activity" false
    (fun config rcs => enable_penetration_detection config ||
       route_config_applies rcs rc_enable_suspicious_detection || enable_dynamic_rules config)
    SuspiciousActivityCheck_check ∈ after_ip_security mw.
Proof using Type.
  intros Hk Hrc Hd. apply list_elem_of_In, List.filter_In. split; [apply list_elem_of_In; cbn; by repeat constructor|].
  cbn [applies_to]. unfold detecting, _get_effective_penetration_setting in Hd. apply andb_true_iff in Hd as [Hd _].
  destruct rc as [rc|]; cbn [fst] in Hd; [|by rewrite Hd].
  destruct (route_config_applies (_collect_route_configs mw) rc_enable_suspicious_detection) eqn:Ha; [by rewrite orb_true_r|].
  by rewrite (route_applies_false mw _ w rc Hk Ha Hrc) in Hd.
Qed.

Lemma admitted_is_screened src w pl w' pl' client_ip :
  rebuilds src -> pl_checks (current_pipeline src pl) = _build_checks mw ->
  st_exclusion_scoped (w_state w) = false -> st_detection_cache (w_state w) = None ->
  execute mw src request (w, pl) = (Ok None, (w', pl')) ->
  st_client_ip (w_state w') = Some client_ip -> client_ip <> "" -> st_is_whitelisted (w_state w') = false ->
  route_known mw w' -> st_route_config (w_state w') = rc0 -> detecting rc0 = true -> bad = false.
Proof using Hdetection Hactive Hfail Hredis.
  intros Hb Hcs Hs Hfresh Hex Hip Hne Hw Hk Hrc Hd. apply execute_run_inv in Hex as [-> Ha]; [|done]. rewrite Hcs, Hs, build_checks_split in Ha.
  set (rest := after_ip_security mw) in *. apply admits_app_inv in Ha as (w1 & Hbefore & Ha). apply (admits_app_inv mw request _ _ [_]) in Ha as (w2 & Hip1 & Ha).
  assert (forall e, tolerated config e = false) as Hno by (intros e; by apply strict_untolerated).
  destruct (admits_through (of_states recalls) _ _ _ _ _ Hbefore Hno) as [R1 _].
  { intros c Hc%before_default. destruct (decide (check_name c = "route_config")) as [Hn|Hn].
    - unfold DEFAULT_CHECK_CLASSES in Hc.
      repeat (apply elem_of_cons in Hc as [->|Hc]; [cbn [check check_name] in *; try discriminate|]); [apply route_config_recalls|by apply elem_of_nil in Hc].
    - destruct (decide (check_name c = "ip_security")) as [Hi|Hi]; [|by apply (wide_checks mw request _ recalls_wide)].
      unfold DEFAULT_CHECK_CLASSES in Hc.
      repeat (apply elem_of_cons in Hc as [->|Hc]; [cbn [check check_name] in *; try discriminate|]); [|by apply elem_of_nil in Hc].
      apply (wide_ip_security mw request _ recalls_wide). intros white exempt. apply set_state_keeps. intros s. apply same_cache_recalls. by destruct s. }
  destruct (admits_through (of_states recalls) _ _ _ _ _ Hip1 Hno) as [R2 _].
  { intros c ->%list_elem_of_singleton. apply (wide_ip_security mw request _ recalls_wide). intros white exempt. apply set_state_keeps.
    intros s. apply same_cache_recalls. by destruct s. }
  destruct (admits_through (of_states settled) _ _ _ _ _ Ha Hno) as [_ Hall].
  { intros c Hc. pose proof (after_default mw c Hc) as [Hc' Hn]. apply (wide_checks mw request _ settled_wide); [done|done|].
    intros Hi. apply list_elem_of_In, List.filter_In in Hc as [Hc _]. apply list_elem_of_In in Hc. unfold DEFAULT_CHECK_CLASSES in Hc. cbn [drop] in Hc.
    repeat (apply elem_of_cons in Hc as [->|Hc]; [discriminate|]). by apply elem_of_nil in Hc. }
  destruct (Hall _ (suspicious_applies _ w' Hk Hrc Hd) eq_refl) as (wc & wc' & Hrun & S1 & S2). cbn [check] in Hrun.
  assert (of_states settled wc wc') as S3.
  { pose proof (wide_checks mw request _ settled_wide (mkCheck "suspicious_activity" false
      (fun config rcs => enable_penetration_detection config ||
         route_config_applies rcs rc_enable_suspicious_detection || enable_dynamic_rules config) SuspiciousActivityCheck_check)) as H.
    specialize (H ltac:(eapply (list_elem_of_lookup_2 _ 15); reflexivity) ltac:(discriminate) ltac:(discriminate) wc).
    cbn [check] in H. by rewrite Hrun in H. }
  assert (settled (w_state wc) (w_state w')) as ((V1 & V2 & V3) & V4 & _) by (etransitivity; [exact S3|exact S2]).
  eapply (suspicious_passes client_ip); [exact Hrun|congruence|split; [done|congruence]|congruence|done|].
  apply S1, R2, R1. intros r Hc. exfalso. destruct w as [? [] ? ? ? ? ? ? ?]. cbn in *. congruence.
Qed.
End screening.

(** ** With the scan of the engine *)

Section clean.
Context `{Eng : Engine} `{C : !TTLCache string Z BAN_CACHE_SIZE (seconds LOCAL_CACHE_TTL_CAP_SECONDS)}
  `{P : !TTLCache string bool PATH_CACHE_SIZE PATH_CACHE_TTL}
  `{HC : !TTLCache string headers HEADERS_CACHE_SIZE HEADERS_CACHE_TTL}.
Context `{RB : !RequestBody} `{DT : !Detector} `{SS : !ScanServices} `{OP : !Opinion}.

#[local] Open Scope Z_scope.

(** The engine's detection is the scan. *)
Context (Hscan : forall request ip config rc s, run_detection request ip config rc s = scan_detection request ip config rc s).

(** C4: nothing dangerous gets in.  In active mode, with no errors tolerated, when the
    default pipeline admits a request outside the excluded paths on a route with
    detection, from a client that is not whitelisted, then no piece of the request that
    the scan is to look at - parameter, header, path, field or JSON leaf that is not
    excluded - is dangerous, provided the budget is enough for them.  This holds whatever
    the other checks have asked the detection before, as what they remember of it is
    what it says. *)
Theorem admitted_requests_are_clean mw request src w pl w' pl' client_ip fuel body items :
  passive_mode (mw_config mw) = false -> fail_secure (mw_config mw) = true -> redis_fail_open (mw_config mw) = false ->
  rebuilds src -> pl_checks (current_pipeline src pl) = _build_checks mw ->
  st_exclusion_scoped (w_state w) = false -> st_detection_cache (w_state w) = None ->
  execute mw src request (w, pl) = (Ok None, (w', pl')) ->
  st_client_ip (w_state w') = Some client_ip -> client_ip <> "" -> st_is_whitelisted (w_state w') = false ->
  route_known mw w' -> detecting mw (st_route_config (w_state w')) = true ->
  (forall s, fst (ensure_configured (mw_config mw) s) = Ok tt) -> body_is request (Some (mw_config mw)) None body ->
  request_items fuel request (Some (mw_config mw)) (st_route_config (w_state w')) body = Some items ->
  values items <= _resolve_max_scan_values (Some (mw_config mw)) -> chars items < _resolve_max_scan_chars (Some (mw_config mw)) ->
  Forall (fun i => threatening i = false) items.
Proof using Hscan.
  intros Ha Hf Hr Hb Hcs Hs Hfresh Hex Hip Hne Hw Hk Hd Hconf Hbody Hitems Hv Hc.
  assert (hit items = false) as Hhit.
  { eapply (admitted_is_screened mw request (st_route_config (w_state w')) (hit items)); [|done..].
    intros ip s r Hrun. rewrite Hscan in Hrun. split; [by eapply detection_verdict|by eapply detection_spaced]. }
  apply Forall_forall. intros i Hi. destruct (threatening i) eqn:Ht; [|done].
  unfold hit in Hhit. assert (existsb threatening items = true) as He; [|congruence].
  apply existsb_exists. exists i. split; [by apply list_elem_of_In|done].
Qed.
End clean.

(** * Witness *)

Section witness.
#[local] Existing Instance scan_env.
#[local] Existing Instance sample_headers_cache.
#[local] Existing Instance sample_ban_cache.
#[local] Existing Instance sample_path_cache.
#[local] Instance screening_detector : Detector := sus_detector 32 sample_handler.
#[local] Instance screening_opinion : Opinion :=
  sus_opinion 32 sample_handler default_config sample_state (fun content context cats => sample_reportable _ content context cats)
    (fun content context cats t cap Ht => threats_can_be_shown _ content context cats t cap Ht).

(** The sample engine, with the scan by the sample handler as its detection. *)
#[local] Instance scanning_engine : Engine :=
  let e := sample_engine (ticking 1000) redis_up in
  {| on_block_hook := @on_block_hook _ e; on_error_hook := @on_error_hook _ e;
     custom_response_modifier_fn := @custom_response_modifier_fn _ e; custom_request_check_fn := @custom_request_check_fn _ e;
     custom_validator_fn := @custom_validator_fn _ e; auth_verifier_fn := @auth_verifier_fn _ e; run_detection := scan_detection;
     ua_pattern_matches := @ua_pattern_matches _ e; zone_hour_minute := @zone_hour_minute _ e; config_id := @config_id _ e;
     engine_texts := @engine_texts _ e |}.

(** The body is markup, which this configuration does not look for. *)
Definition sqli_only : SecurityConfig := plain_config {{ enabled_detection_categories := ["sqli"] }}.

Definition admission (config : SecurityConfig) : res (option Response) * (World * Pipeline) :=
  execute (sample_middleware config) None profile_post (sample_world (ticking 1000) redis_up config None, 
    build_default_pipeline (sample_middleware config) 0 (Some 1)).

(** The same request is refused when markup is looked for. *)
Example screening_refuses :
  match fst (admission plain_config) with Ok (Some r) => rs_status r = 400 | _ => False end.
Proof. vm_compute. reflexivity. Qed.

Lemma admitted_requests_are_clean_witness :
  exists items, request_items 5 profile_post (Some sqli_only) None (Some (quoted sample_body)) = Some items /\
                (length items = 12)%nat /\ Forall (fun i => threatening i = false) items.
Proof.
  pose (items := default [] (request_items 5 profile_post (Some sqli_only) None (Some (quoted sample_body)))).
  exists items. split; [vm_compute; reflexivity|]. split; [vm_compute; reflexivity|].
  assert (forall request ip config rc s, run_detection request ip config rc s = scan_detection request ip config rc s) as Hscan by reflexivity.
  apply (admitted_requests_are_clean Hscan (sample_middleware sqli_only) profile_post None
    (sample_world (ticking 1000) redis_up sqli_only None) (build_default_pipeline (sample_middleware sqli_only) 0 (Some 1))
    (fst (snd (admission sqli_only))) (snd (snd (admission sqli_only))) "198.51.100.7" 5 (Some (quoted sample_body))).
  all: cycle 7.
  - apply run_pair. vm_compute. reflexivity.
  - vm_compute. reflexivity.
  - discriminate.
  - vm_compute. reflexivity.
  - intros d rc _ Hrc. vm_compute in Hrc. discriminate Hrc.
  - vm_compute. reflexivity.
  - intros s. reflexivity.
  - intros ip s. vm_compute. reflexivity.
  - vm_compute. reflexivity.
  - vm_compute. discriminate.
  - vm_compute. reflexivity.
  - reflexivity.
  - reflexivity.
  - reflexivity.
  - done.
  - reflexivity.
  - reflexivity.
  - reflexivity.
Defined.
End witness.
