(* ===== verification/BehaviorFacts.v ===== *)
(** What behaviour rules promise: the counts of the tracker are those of a sliding
    window, its memory is bounded, requests for excluded paths are not sampled, and a
    client that breaks a banning rule is banned. *)
From S2P Require Import Prelude PyStr PyDict IpAddr Sys Sample Config Redaction Request IpExtraction TTL Redis IpBan RateLimit Cloud.
From S2P Require Import Json SecurityHeaders AccessControl JsonPattern Middleware Helpers RateLimiter SampleEngine Behavior.
From S2P Require Import Checks Pipeline CheckFacts Enforcement.

(** * Counting is a sliding window *)

(** A call: the endpoint, the client, and the time. *)
Abbreviation call := (string * string * Z)%type.

(** The times of the calls of a client on an endpoint. *)
Definition times (h : list call) (e c : string) : list Z :=
  map snd (List.filter (fun p => (fst (fst p) =? e)%string && (snd (fst p) =? c)%string) h).

(** The calls of a client on an endpoint since [cutoff]: the specification. *)
Definition calls_since (h : list call) (e c : string) (cutoff : Z) : nat := length (since cutoff (times h e c)).

(** What the store holds for them. *)
Definition stored (st : activity) (e c : string) : list Z := default [] (dget c (default [] (dget e st))).

Lemma since_since b cutoff l : (b <= cutoff)%Z -> since cutoff (since b l) = since cutoff l.
Proof.
  intros Hb. unfold since. induction l as [|x l IH]; [done|]. cbn [List.filter].
  destruct (Z.leb_spec b x); cbn [List.filter]; destruct (Z.leb_spec cutoff x); rewrite ?IH; done || lia.
Qed.

Lemma since_app cutoff l k : since cutoff (l ++ k) = since cutoff l ++ since cutoff k.
Proof. apply List.filter_app. Qed.

Lemma times_snoc h e c e' c' t :
  times (h ++ [(e', c', t)]) e c = times h e c ++ (if (e' =? e)%string && (c' =? c)%string then [t] else []).
Proof. unfold times. rewrite List.filter_app, map_app. cbn. by destruct (_ && _). Qed.

Section window.
Context (w : Z) (Hw : (0 <= w)%Z) (EK CK : list string)
  (HE : (length EK <= _MAX_TRACKED_ENDPOINTS)%nat) (HC : (length CK <= _MAX_TRACKED_CLIENTS_PER_ENDPOINT)%nat).

Definition bucket_ok (bucket : list (string * list Z)) : Prop := dict_wf bucket /\ dkeys bucket ⊆ CK.

(** The store is made of known endpoints and clients, and holds their calls but for
    some that have left every window that can still be asked for. *)
Definition window_inv (last : Z) (st : activity) (h : list call) : Prop :=
  dict_wf st /\ dkeys st ⊆ EK /\ (forall e bucket, dget e st = Some bucket -> bucket_ok bucket) /\
  forall e c, exists b, (b <= last - w)%Z /\ stored st e c = since b (times h e c).

Lemma bucket_default (st : activity) (e : string) : (forall e bucket, dget e st = Some bucket -> bucket_ok bucket) ->
  bucket_ok (default [] (dget e st)).
Proof.
  intros H. destruct (dget e st) as [bucket|] eqn:He; [by eapply H|]. split; [apply NoDup_nil_2|apply list_subseteq_nil].
Qed.

Lemma record_call_step e c last now (st : activity) h :
  window_inv last st h -> e ∈ EK -> c ∈ CK -> (last <= now)%Z ->
  exists st', record_call e c (now - w) now st = (Ok (S (calls_since h e c (now - w))), st') /\
    window_inv now st' (h ++ [(e, c, now)]).
Proof using Hw HE HC.
  intros (Hst & Hs & Hb & Hinv) He Hc Hnow. unfold record_call.
  rewrite (lru_pop_room EK) by done. set (bucket := default [] (dget e st)).
  destruct (bucket_default st e Hb) as [Hbw Hbs]. fold bucket in Hbw, Hbs.
  rewrite (lru_pop_room CK) by done. change (default [] (dget c bucket)) with (stored st e c).
  destruct (Hinv e c) as (b & Hbl & ->). rewrite since_since by lia.
  set (l := since (now - w) (times h e c) ++ [now]). eexists. split.
  { f_equal. f_equal. unfold l, calls_since. rewrite length_app. simpl. lia. }
  split; [by apply dset_wf, ddel_wf|]. split; [by apply dkeys_store_subset|]. split.
  - intros e' bucket'. destruct (decide (e' = e)) as [->|Hne].
    + rewrite dget_dset_eq. intros [= <-]. split; [by apply dset_wf, ddel_wf|by apply dkeys_store_subset].
    + rewrite dget_dset_ne, dget_ddel_ne by done. apply Hb.
  - intros e' c'. rewrite times_snoc. destruct (String.eqb_spec e e') as [<-|Hne]; cbn [andb].
    + unfold stored at 1. rewrite dget_dset_eq. cbn [from_option id]. destruct (String.eqb_spec c c') as [<-|Hnc].
      * rewrite dget_dset_eq. exists (now - w)%Z. split; [lia|]. rewrite since_app. unfold l. cbn [from_option id]. f_equal.
        unfold since. cbn [List.filter]. by rewrite (proj2 (Z.leb_le _ _)) by lia.
      * rewrite dget_dset_ne, dget_ddel_ne by done. rewrite app_nil_r.
        destruct (Hinv e c') as (b' & ? & Heq). exists b'. split; [lia|]. exact Heq.
    + rewrite app_nil_r. unfold stored. rewrite dget_dset_ne, dget_ddel_ne by done.
      destruct (Hinv e' c') as (b' & ? & Heq). exists b'. split; [lia|]. exact Heq.
Qed.
End window.

(** Tracking a sequence of calls under one rule, and what it must say: the [n]-th
    reading of the clock is the time of the call. *)
Section tracking.
Context `{Eng : Engine} `{P : !TTLCache string bool PATH_CACHE_SIZE PATH_CACHE_TTL} `{BS : !BehaviorServices}.

Fixpoint track_calls (rule : BehaviorRule) (calls : list (string * string)) : M (Sys * BehaviorTracker) (list bool) :=
  match calls with
  | [] => ret []
  | (e, c) :: calls' =>
      let* fired := track_endpoint_usage e c rule in
      let* rest := track_calls rule calls' in
      ret (fired :: rest)
  end.

Fixpoint fires (rule : BehaviorRule) (n : nat) (h : list call) (calls : list (string * string)) : list bool :=
  match calls with
  | [] => []
  | (e, c) :: calls' =>
      let now := clock n in
      (br_threshold rule <? Z.of_nat (S (calls_since h e c (now - seconds (br_window rule)))))%Z ::
      fires rule (S n) (h ++ [(e, c, now)]) calls'
  end.

Lemma track_calls_spec rule EK CK calls s t last h :
  (forall i j, (i <= j)%nat -> (clock i <= clock j)%Z) -> (0 <= br_window rule)%Z ->
  (length EK <= _MAX_TRACKED_ENDPOINTS)%nat -> (length CK <= _MAX_TRACKED_CLIENTS_PER_ENDPOINT)%nat ->
  Forall (fun p => fst p ∈ EK /\ snd p ∈ CK) calls -> bt_redis t = None ->
  window_inv (seconds (br_window rule)) EK CK last (usage_counts t) h -> (last <= clock (ticks s))%Z ->
  exists w', track_calls rule calls (s, t) = (Ok (fires rule (ticks s) h calls), w').
Proof.
  intros Hclock Hw HE HC. revert s t last h. induction calls as [|[e c] calls IH]; intros s t last h Hk Hr Hinv Hl.
  { by eexists. }
  apply Forall_cons in Hk as [[He Hc] Hk]. cbn [fst snd] in He, Hc.
  destruct (record_call_step (seconds (br_window rule)) ltac:(unfold seconds; lia) EK CK HE HC e c last
    (clock (ticks s)) _ h Hinv He Hc Hl) as (st' & Hrec & Hinv').
  set (s' := s {{ ticks ::= S }}). set (t' := t {{ usage_counts := st' }}).
  assert (track_endpoint_usage e c rule (s, t) =
    (Ok (br_threshold rule <? Z.of_nat (S (calls_since h e c (clock (ticks s) - seconds (br_window rule)))))%Z, (s', t'))) as Ht.
  { unfold track_endpoint_usage. unfold bind at 1, sys at 1, zoom at 1, time_time. cbn [fst snd].
    unfold bind at 1, t_get at 1, gets at 1. cbn [snd]. rewrite Hr. unfold on_usage, bind, zoom. cbn [snd]. by rewrite Hrec. }
  destruct (IH s' t' (clock (ticks s)) (h ++ [(e, c, clock (ticks s))]) Hk) as [w' Hw']; [by destruct t|by destruct t| |].
  { destruct s. apply Hclock. simpl. lia. }
  exists w'. cbn [track_calls]. rewrite (bind_ok _ _ _ _ _ Ht), (bind_ok _ _ _ _ _ Hw'). by destruct s.
Qed.

(** C38: In a tracker that serves one rule and starts empty, without Redis, with a
    clock that does not go back and over no more endpoints and clients than the
    tracker holds (10,000 each), a usage rule fires on a call exactly when the calls
    of its client on its endpoint within the window, this one included, are more than
    the threshold. Rules that share a tracker share its counts: see
    [rules_share_their_counts]. *)
Theorem usage_tracking_exact rule EK CK calls s config :
  (forall i j, (i <= j)%nat -> (clock i <= clock j)%Z) -> (0 <= br_window rule)%Z ->
  (length EK <= _MAX_TRACKED_ENDPOINTS)%nat -> (length CK <= _MAX_TRACKED_CLIENTS_PER_ENDPOINT)%nat ->
  Forall (fun p => fst p ∈ EK /\ snd p ∈ CK) calls ->
  fst (track_calls rule calls (s, BehaviorTracker_init config)) = Ok (fires rule (ticks s) [] calls).
Proof.
  intros Hclock Hw HE HC Hk.
  destruct (track_calls_spec rule EK CK calls s (BehaviorTracker_init config) (clock (ticks s)) []) as [w' ->]; try done.
  split; [apply NoDup_nil_2|]. split; [apply list_subseteq_nil|]. split; [done|].
  intros e c. exists (clock (ticks s) - seconds (br_window rule))%Z. split; [lia|done].
Qed.
End tracking.

(** * Memory is bounded *)

(** A property that a run may gain but not lose. *)
Definition stays {S} (Q : S -> Prop) (s s' : S) : Prop := Q s -> Q s'.

#[export] Instance stays_preorder {S} (Q : S -> Prop) : PreOrder (stays Q).
Proof. split; [intros s H; exact H|]. intros s1 s2 s3 H1 H2 H. by apply H2, H1. Qed.

Lemma keeps_stays_zoom {W S A} (Q : S -> Prop) (Q' : W -> Prop) view upd (m : M S A) :
  (forall w, Q' w -> Q (view w)) -> (forall w s, Q' w -> Q s -> Q' (upd s w)) ->
  keeps (stays Q) m -> keeps (stays Q') (zoom view upd m).
Proof.
  intros Hv Hu Hm w Hw. specialize (Hm (view w) (Hv w Hw)). unfold zoom. destruct (m (view w)) as [r s]. by apply Hu.
Qed.

(** A call on a part that the property does not look at. *)
Lemma keeps_stays_other {W S A} (Q' : W -> Prop) view upd (m : M S A) :
  (forall w s, Q' w -> Q' (upd s w)) -> keeps (stays Q') (zoom view upd m).
Proof. intros Hu w Hw. unfold zoom. destruct (m (view w)) as [r s]. by apply Hu. Qed.

Definition store_bounded (st : activity) : Prop :=
  dict_wf st /\ (length st <= _MAX_TRACKED_ENDPOINTS)%nat /\
  forall e bucket, dget e st = Some bucket ->
    dict_wf bucket /\ (length bucket <= _MAX_TRACKED_CLIENTS_PER_ENDPOINT)%nat.

Lemma lru_pop_some {K V} `{EqDecision K} (d : list (K * V)) key max_size v v' d' :
  _lru_pop_or_create d key max_size v = Ok (v', d') -> v' = v \/ dget key d = Some v'.
Proof.
  intros Hp. rewrite (lru_pop_value _ _ _ _ _ _ Hp). destruct (dget key d); auto.
Qed.

Lemma lru_pop_other_some {K V} `{EqDecision K} (d : list (K * V)) key max_size v v' d' k x :
  dict_wf d -> _lru_pop_or_create d key max_size v = Ok (v', d') -> dget k d' = Some x -> dget k d = Some x.
Proof.
  intros Hw. unfold _lru_pop_or_create. destruct (dget key d) eqn:Hg.
  - intros [= <- <-] Hk. destruct (decide (k = key)) as [->|Hne]; [by rewrite dget_ddel_eq in Hk|].
    by rewrite dget_ddel_ne in Hk.
  - case_match; [|by intros [= <- <-]]. destruct d as [|[k0 v0] d0]; [done|]. intros [= <- <-] Hk.
    cbn [dget]. destruct (decide (k = k0)) as [->|]; [|done].
    exfalso. inversion Hw as [|? ? Hn _]. apply Hn. apply list_elem_of_fmap. exists (k0, x). split; [done|].
    by apply dget_Some_elem.
Qed.

Lemma record_call_bounded e c ws now (st : activity) : store_bounded st ->
  exists n st', record_call e c ws now st = (Ok n, st') /\ store_bounded st'.
Proof.
  intros (Hw & Hl & Hb). unfold record_call.
  destruct (lru_pop_or_create_ok st e _MAX_TRACKED_ENDPOINTS []) as (bucket & st1 & Hp).
  { unfold _MAX_TRACKED_ENDPOINTS. lia. }
  destruct (lru_pop_store _ _ _ _ _ _ Hw Hl Hp) as (Hw1 & Hn1 & Hl1). rewrite Hp.
  assert (dict_wf bucket /\ (length bucket <= _MAX_TRACKED_CLIENTS_PER_ENDPOINT)%nat) as [Hbw Hbl].
  { destruct (lru_pop_some _ _ _ _ _ _ Hp) as [->|He]; [|by eapply Hb].
    split; [apply NoDup_nil_2|unfold _MAX_TRACKED_CLIENTS_PER_ENDPOINT; simpl; lia]. }
  destruct (lru_pop_or_create_ok bucket c _MAX_TRACKED_CLIENTS_PER_ENDPOINT []) as (l & bucket1 & Hp').
  { unfold _MAX_TRACKED_CLIENTS_PER_ENDPOINT. lia. }
  destruct (lru_pop_store _ _ _ _ _ _ Hbw Hbl Hp') as (Hbw1 & Hbn1 & Hbl1). rewrite Hp'.
  eexists _, _. split; [reflexivity|]. apply dget_None in Hn1 as Hnk, Hbn1 as Hbk. split_and!.
  - by apply dset_wf.
  - rewrite length_dset, decide_False by done. lia.
  - intros e' bucket'. destruct (decide (e' = e)) as [->|Hne].
    + rewrite dget_dset_eq. intros [= <-]. split; [by apply dset_wf|]. rewrite length_dset, decide_False by done. lia.
    + rewrite dget_dset_ne by done. intros He. eapply Hb, lru_pop_other_some; eauto.
Qed.

(** ** Invariants of the trackers and of the world *)

(** What counting, logging and sending events keep, and the actions too. *)
Section invariant.
Context `{Eng : Engine} `{C : !TTLCache string Z BAN_CACHE_SIZE (seconds LOCAL_CACHE_TTL_CAP_SECONDS)}
  `{P : !TTLCache string bool PATH_CACHE_SIZE PATH_CACHE_TTL}
  `{HC : !TTLCache string headers HEADERS_CACHE_SIZE HEADERS_CACHE_TTL} `{BS : !BehaviorServices}.

Context (I : BehaviorTracker -> Prop) (J : World -> Prop).
Context (I_usage : forall e c ws now t, I t -> I (t {{ usage_counts := snd (record_call e c ws now (usage_counts t)) }}))
  (I_returns : forall e c ws now t, I t -> I (t {{ return_patterns := snd (record_call e c ws now (return_patterns t)) }}))
  (I_cache : forall c t, I t -> I (t {{ _body_unavailable_log_cache := c }}))
  (J_sys : forall s w, J w -> J (w {{ w_sys := s }})).

(** The states of a tracker, of an action, and of the processor. *)
#[local] Abbreviation R := (stays (fun p : Sys * BehaviorTracker => I (snd p))).
#[local] Abbreviation RW := (stays (fun p : World * BehaviorTracker => J (fst p) /\ I (snd p))).
Definition trackers_ok (tk : Trackers) : Prop := I (tk_decorator tk) /\ forall t, tk_context tk = Some t -> I t.
Definition all_ok (p : World * Trackers) : Prop := J (fst p) /\ trackers_ok (snd p).
#[local] Abbreviation RT := (stays all_ok).

Context (action_ok : forall rule c e details, keeps RW (apply_action rule c e details)).

Lemma sys_stays {A} (m : M Sys A) : keeps R (sys m).
Proof using Type. by apply keeps_stays_other. Qed.

Lemma usage_stays e c ws now : keeps R (on_usage (record_call e c ws now)).
Proof using I_usage.
  intros [s t] Ht. unfold on_usage, zoom. specialize (I_usage e c ws now t Ht). cbn [fst snd] in *.
  by destruct (record_call e c ws now (usage_counts t)).
Qed.

Lemma returns_stays e c ws now : keeps R (on_returns (record_call e c ws now)).
Proof using I_returns.
  intros [s t] Ht. unfold on_returns, zoom. specialize (I_returns e c ws now t Ht). cbn [fst snd] in *.
  by destruct (record_call e c ws now (return_patterns t)).
Qed.

Lemma t_get_stays {A} (f : BehaviorTracker -> A) : keeps R (t_get f).
Proof using Type. by intros w Hw. Qed.

#[local] Hint Resolve sys_stays usage_stays returns_stays t_get_stays : stays.
#[local] Ltac stays_steps := keeps_steps; auto with stays.

Lemma track_usage_stays e c rule : keeps R (track_endpoint_usage e c rule).
Proof using I_usage. unfold track_endpoint_usage. stays_steps. Qed.

Lemma body_unavailable_stays pattern : keeps R (_log_body_unavailable pattern).
Proof using I_cache.
  unfold _log_body_unavailable. stays_steps; intros [s t] Hw.
  - cbn [snd]. destruct (ttl_get _ _ _). by apply I_cache.
  - by apply I_cache.
Qed.
#[local] Hint Resolve body_unavailable_stays : stays.

Lemma check_pattern_stays response pattern : keeps R (_check_response_pattern response pattern).
Proof using I_cache. unfold _check_response_pattern, _read_response_body_prefix. stays_steps. Qed.
#[local] Hint Resolve check_pattern_stays : stays.

Lemma track_return_stays e c response rule thr : keeps R (track_return_pattern e c response rule thr).
Proof using I_cache I_returns. unfold track_return_pattern. stays_steps. Qed.

Lemma on_sys_stays {A} (m : M Sys A) : keeps (stays J) (on_sys m).
Proof using J_sys. apply keeps_stays_other. auto. Qed.

Lemma b_world_stays {A} (m : M World A) : keeps (stays J) m -> keeps RW (b_world m).
Proof using Type. apply keeps_stays_zoom; [by intros p []|]. by intros p w [? ?] ?. Qed.

Lemma b_tracker_stays {A} (m : M (Sys * BehaviorTracker) A) : keeps R m -> keeps RW (b_tracker m).
Proof using J_sys. apply keeps_stays_zoom; [by intros p []|]. intros p q [? ?] ?. split; [by apply J_sys|done]. Qed.

Lemma with_tracker_stays {A} r (m : M (World * BehaviorTracker) A) : keeps RW m -> keeps RT (with_tracker r m).
Proof using Type.
  apply keeps_stays_zoom.
  - intros [w [ctx d]] [Hj [Hd Hc]]. split; [done|]. destruct r, ctx as [t|]; cbn in *; auto.
  - intros [w [ctx d]] [w' t] [_ [Hd Hc]] [Hj Ht]. split; [done|]. destruct r; split; cbn in *; try done.
    by intros ? [= <-].
Qed.

Lemma p_world_stays {A} (m : M World A) : keeps (stays J) m -> keeps RT (p_world m).
Proof using Type. apply keeps_stays_zoom; [by intros p []|]. by intros p w [? ?] ?. Qed.

Lemma lift_res_stays {A} (r : res A) : keeps (stays J) (lift_res r).
Proof using Type. by intros w Hw. Qed.

Lemma state_stays {A} (f : RequestState -> A) : keeps (stays J) (state f).
Proof using Type. by intros w Hw. Qed.

Lemma gets_stays {A} (f : World * Trackers -> A) : keeps RT (gets f).
Proof using Type. by intros w Hw. Qed.

#[local] Hint Resolve track_usage_stays track_return_stays b_tracker_stays with_tracker_stays p_world_stays
  on_sys_stays state_stays lift_res_stays gets_stays : stays.

Lemma send_event_stays bus t request a reason kw : keeps (stays J) (send_middleware_event bus t request a reason kw).
Proof using J_sys. unfold send_middleware_event, _event_texts, _lookup_country. stays_steps. Qed.

Lemma report_stays ctx request v reason metadata : keeps RT (report_violation ctx request v reason metadata).
Proof using J_sys.
  unfold report_violation, send_event, send_decorator_violation_event, send_decorator_event.
  apply p_world_stays. stays_steps; apply send_event_stays.
Qed.

Lemma behavior_tracker_stays ctx : keeps RT (_behavior_tracker ctx).
Proof using Type. unfold _behavior_tracker, find_decorator. stays_steps. apply p_world_stays. stays_steps. Qed.

Lemma endpoint_id_stays ctx request : keeps RT (get_endpoint_id ctx request).
Proof using Type. unfold get_endpoint_id. stays_steps. Qed.

Lemma correlated_stays ctx c : keeps RT (_collect_correlated_categories ctx c).
Proof using Type. unfold _collect_correlated_categories. stays_steps. apply p_world_stays. by intros w Hw. Qed.
#[local] Hint Resolve send_event_stays report_stays behavior_tracker_stays endpoint_id_stays correlated_stays : stays.

Lemma usage_rules_stay ctx request c route : keeps RT (process_usage_rules ctx request c route).
Proof using I_usage J_sys action_ok. unfold process_usage_rules, usage_rule. stays_steps. Qed.

Lemma return_rules_stay ctx request response c route : keeps RT (process_return_rules ctx request response c route).
Proof using I_cache I_returns J_sys action_ok. unfold process_return_rules, return_rule. stays_steps. Qed.

Lemma global_rules_stay ctx request response c rules :
  keeps RT (process_global_return_rules ctx request response c rules).
Proof using I_cache I_returns J_sys action_ok.
  unfold process_global_return_rules, _evaluate_global_return_rule, send_event. stays_steps.
Qed.
End invariant.

(** ** The bound *)

Section memory.
Context `{Eng : Engine} `{C : !TTLCache string Z BAN_CACHE_SIZE (seconds LOCAL_CACHE_TTL_CAP_SECONDS)}
  `{P : !TTLCache string bool PATH_CACHE_SIZE PATH_CACHE_TTL}
  `{HC : !TTLCache string headers HEADERS_CACHE_SIZE HEADERS_CACHE_TTL} `{BS : !BehaviorServices}.

Definition memory_bounded (t : BehaviorTracker) : Prop := store_bounded (usage_counts t) /\ store_bounded (return_patterns t).
Definition trackers_bounded : Trackers -> Prop := trackers_ok memory_bounded.

Lemma record_call_memory e c ws now (st : activity) : store_bounded st -> store_bounded (snd (record_call e c ws now st)).
Proof. intros Hst. by destruct (record_call_bounded e c ws now st Hst) as (n & st' & -> & ?). Qed.

Lemma usage_memory e c ws now t : memory_bounded t ->
  memory_bounded (t {{ usage_counts := snd (record_call e c ws now (usage_counts t)) }}).
Proof. intros [Hu Hr]. destruct t. split; [by apply record_call_memory|done]. Qed.

Lemma returns_memory e c ws now t : memory_bounded t ->
  memory_bounded (t {{ return_patterns := snd (record_call e c ws now (return_patterns t)) }}).
Proof. intros [Hu Hr]. destruct t. split; [done|by apply record_call_memory]. Qed.

Lemma cache_memory c t : memory_bounded t -> memory_bounded (t {{ _body_unavailable_log_cache := c }}).
Proof. by destruct t. Qed.

Lemma any_action_memory rule c e details :
  keeps (stays (fun p : World * BehaviorTracker => True /\ memory_bounded (snd p))) (apply_action rule c e details).
Proof.
  assert (forall A (m : M World A), keeps (stays (fun p : World * BehaviorTracker => True /\ memory_bounded (snd p))) (b_world m))
    as Hw by (intros A m; by apply keeps_stays_other).
  assert (forall A (f : BehaviorTracker -> A), keeps (stays (fun p : World * BehaviorTracker => True /\ memory_bounded (snd p))) (b_get f))
    as Hget by (by intros A f w H).
  unfold apply_action, _log_passive_mode_action, _execute_active_mode_action, _execute_ban_action, _send_behavior_event,
    log_at_suspicious_level, b_log. keeps_steps; auto.
Qed.

(** What the middleware asks of the processor; each request brings its own world. *)
Inductive behavior_op : Type :=
| UsageRules (w : World) (request : Request) (client_ip : string) (route : RouteConfig)
| ReturnRules (w : World) (request : Request) (response : Response) (client_ip : string) (route : RouteConfig)
| GlobalRules (w : World) (request : Request) (response : Response) (client_ip : string) (rules : list BehaviorRule).

Definition run_behavior_op (ctx : BehavioralContext) (op : behavior_op) (tk : Trackers) : Trackers :=
  snd (snd match op with
  | UsageRules w request c route => process_usage_rules ctx request c route (w, tk)
  | ReturnRules w request response c route => process_return_rules ctx request response c route (w, tk)
  | GlobalRules w request response c rules => process_global_return_rules ctx request response c rules (w, tk)
  end).

(** The memory of behaviour tracking is bounded.  Whatever requests, responses
    and rules come, of whatever clients, a tracker never holds more than its maximum
    of endpoints, nor more than its maximum of clients for one of them. *)
Theorem behavior_memory_bounded ctx ops config context :
  trackers_bounded (fold_left (fun tk op => run_behavior_op ctx op tk) ops
    (mkTrackers (option_map BehaviorTracker_init context) (BehaviorTracker_init config))).
Proof.
  assert (forall config, memory_bounded (BehaviorTracker_init config)) as Hi.
  { intros c. split; split_and!; try done; apply NoDup_nil_2 || (apply Nat.le_0_l). }
  assert (trackers_bounded (mkTrackers (option_map BehaviorTracker_init context) (BehaviorTracker_init config))) as Ht.
  { split; [apply Hi|]. intros t. destruct context; [|done]. intros [= <-]. apply Hi. }
  revert Ht. generalize (mkTrackers (option_map BehaviorTracker_init context) (BehaviorTracker_init config)).
  induction ops as [|op ops IH]; intros tk Ht; [done|]. apply IH. destruct op as [w rq c rt|w rq rs c rt|w rq rs c rl].
  - by apply (usage_rules_stay memory_bounded (fun _ => True) usage_memory ltac:(done) any_action_memory ctx rq c rt (w, tk)).
  - by apply (return_rules_stay memory_bounded (fun _ => True) returns_memory cache_memory ltac:(done) any_action_memory
      ctx rq rs c rt (w, tk)).
  - by apply (global_rules_stay memory_bounded (fun _ => True) returns_memory cache_memory ltac:(done) any_action_memory
      ctx rq rs c rl (w, tk)).
Qed.
End memory.

(** * What the rules leave alone *)

Section spared.
Context `{Eng : Engine} `{C : !TTLCache string Z BAN_CACHE_SIZE (seconds LOCAL_CACHE_TTL_CAP_SECONDS)}
  `{P : !TTLCache string bool PATH_CACHE_SIZE PATH_CACHE_TTL}
  `{HC : !TTLCache string headers HEADERS_CACHE_SIZE HEADERS_CACHE_TTL} `{BS : !BehaviorServices}.

Lemma behavior_tracker_scoped ctx (p : World * Trackers) :
  st_exclusion_scoped (w_state (fst p)) = true -> _behavior_tracker ctx p = (Ok None, p).
Proof. intros Hs. unfold _behavior_tracker, bind, p_world, zoom, state, gets. destruct p as [w tk]. cbn in *. by rewrite Hs. Qed.

(** A request for an excluded path is not sampled: no behaviour rule, of its
    route or global, looks at it, counts it or acts on it. *)
Theorem excluded_requests_are_not_sampled ctx request response client_ip route rules (p : World * Trackers) :
  st_exclusion_scoped (w_state (fst p)) = true ->
  process_usage_rules ctx request client_ip route p = (Ok tt, p) /\
  process_return_rules ctx request response client_ip route p = (Ok tt, p) /\
  process_global_return_rules ctx request response client_ip rules p = (Ok tt, p).
Proof.
  intros Hs. unfold process_usage_rules, process_return_rules, process_global_return_rules.
  by rewrite !(bind_ok _ _ _ _ _ (behavior_tracker_scoped ctx p Hs)).
Qed.

Definition tracker_passive (t : BehaviorTracker) : Prop := passive_mode (bt_config t) = true.

Lemma passive_action b0 rule c e details :
  keeps (stays (fun p : World * BehaviorTracker => w_ban (fst p) = b0 /\ tracker_passive (snd p))) (apply_action rule c e details).
Proof.
  set (Q := fun p : World * BehaviorTracker => _).
  assert (forall A (m : M Sys A), keeps (stays Q) (b_world (on_sys m))) as Hw.
  { intros A m. apply (keeps_stays_zoom (fun w => w_ban w = b0)); [by intros p []|by intros p w [? ?] ?|].
    by apply keeps_stays_other. }
  assert (forall A (f : BehaviorTracker -> A), keeps (stays Q) (b_get f)) as Hget by (by intros A f w H).
  intros [w t] H. assert (passive_mode (bt_config t) = true) as Hp by apply H.
  unfold apply_action. unfold bind at 1, b_get at 1, gets at 1. cbn [snd]. rewrite Hp.
  match goal with |- Q (snd (?m _)) => enough (keeps (stays Q) m) as Hk by (by apply Hk) end.
  unfold _log_passive_mode_action, _send_behavior_event, log_at_suspicious_level, b_log. keeps_steps; auto.
Qed.

(** In passive mode no behaviour rule bans anyone, however often it is broken. *)
Theorem passive_rules_never_ban ctx request response client_ip route rules w tk :
  trackers_ok tracker_passive tk ->
  w_ban (fst (snd (process_usage_rules ctx request client_ip route (w, tk)))) = w_ban w /\
  w_ban (fst (snd (process_return_rules ctx request response client_ip route (w, tk)))) = w_ban w /\
  w_ban (fst (snd (process_global_return_rules ctx request response client_ip rules (w, tk)))) = w_ban w.
Proof.
  intros Ht. set (J := fun w' => w_ban w' = w_ban w).
  assert (forall e c ws now t, tracker_passive t ->
    tracker_passive (t {{ usage_counts := snd (record_call e c ws now (usage_counts t)) }})) as Hu by (by intros ? ? ? ? []).
  assert (forall e c ws now t, tracker_passive t ->
    tracker_passive (t {{ return_patterns := snd (record_call e c ws now (return_patterns t)) }})) as Hr by (by intros ? ? ? ? []).
  assert (forall c t, tracker_passive t -> tracker_passive (t {{ _body_unavailable_log_cache := c }})) as Hc by (by intros ? []).
  assert (forall s w', J w' -> J (w' {{ w_sys := s }})) as Hj by (by intros s []).
  assert (all_ok tracker_passive J (w, tk)) as H0 by done. pose proof (passive_action (w_ban w)) as Ha.
  split_and!.
  - by apply (usage_rules_stay tracker_passive J Hu Hj Ha ctx request client_ip route (w, tk)).
  - by apply (return_rules_stay tracker_passive J Hr Hc Hj Ha ctx request response client_ip route (w, tk)).
  - by apply (global_rules_stay tracker_passive J Hr Hc Hj Ha ctx request response client_ip rules (w, tk)).
Qed.
End spared.

(** * Whoever breaks a banning rule is banned *)

Section banning.
Context `{Eng : Engine} `{L : !EngineLaws} `{C : !TTLCache string Z BAN_CACHE_SIZE (seconds LOCAL_CACHE_TTL_CAP_SECONDS)}
  `{P : !TTLCache string bool PATH_CACHE_SIZE PATH_CACHE_TTL}
  `{HC : !TTLCache string headers HEADERS_CACHE_SIZE HEADERS_CACHE_TTL} `{BS : !BehaviorServices}.

Context (Hclock : forall i j, (i <= j)%nat -> (clock i <= clock j)%Z)
        (Hmono : forall i j, (i <= j)%nat -> (monotonic i <= monotonic j)%Z).

(** The endpoint of a request: its route, or its method and path, as they are shown. *)
Definition endpoint_of (ctx : BehavioralContext) (w : World) (request : Request) : res string :=
  match st_route_id (w_state w), st_endpoint_id (w_state w) with
  | Some (String _ _ as id), _ | _, Some (String _ _ as id) => Ok id
  | _, _ =>
      match display_endpoint (mw_config (bc_mw ctx)) (rq_path request) with
      | Ok path => Ok (rq_method request +:+ ":" +:+ path)
      | Raise e => Raise e
      end
  end.

Lemma get_endpoint_id_run ctx request (p : World * Trackers) :
  get_endpoint_id ctx request p = (endpoint_of ctx (fst p) request, p).
Proof.
  destruct p as [w tk]. unfold get_endpoint_id, endpoint_of, bind, p_world, zoom, state, gets, lift_res. cbn.
  destruct (st_route_id (w_state w)) as [[|? ?]|]; cbn; [|done|];
    destruct (st_endpoint_id (w_state w)) as [[|? ?]|]; cbn; try done;
    by destruct (display_endpoint _ _).
Qed.

(** Counting a call in memory, whatever the store. *)
Lemma record_call_count e c ws now (st : activity) n st' :
  record_call e c ws now st = (Ok n, st') -> n = S (length (since ws (stored st e c))).
Proof.
  unfold record_call. destruct (_lru_pop_or_create st e _ _) as [[bucket st1]|] eqn:H1; [|done].
  destruct (_lru_pop_or_create bucket c _ _) as [[l bucket1]|] eqn:H2; [|done]. intros [= <- _].
  rewrite (lru_pop_value _ _ _ _ _ _ H2), (lru_pop_value _ _ _ _ _ _ H1), length_app. simpl. rewrite Nat.add_1_r.
  unfold stored, default. by destruct (dget e st).
Qed.

(** A rule that was broken: more calls in the window, this one included, than it
    allows. *)
Definition broken (rule : BehaviorRule) (t : BehaviorTracker) (e c : string) (now : Z) : Prop :=
  (br_threshold rule < Z.of_nat (S (length (since (now - seconds (br_window rule)) (stored (usage_counts t) e c)))))%Z.

Lemma track_broken e c rule s t : bt_redis t = None -> broken rule t e c (clock (ticks s)) ->
  forall fired q, track_endpoint_usage e c rule (s, t) = (Ok fired, q) ->
  fired = true /\ ticks_le s (fst q) /\ bt_config (snd q) = bt_config t.
Proof.
  intros Hr Hb fired q. unfold track_endpoint_usage. unfold bind at 1, sys at 1, zoom at 1, time_time. cbn [fst snd].
  unfold bind at 1, t_get at 1, gets at 1. cbn [snd]. rewrite Hr. unfold on_usage, bind, zoom. cbn [fst snd].
  destruct (record_call _ _ _ _ _) as [[n|] st'] eqn:Hrec; [|done]. apply record_call_count in Hrec as ->.
  intros [= <- <-]. split; [by apply Z.ltb_lt|]. split; [destruct s; unfold ticks_le; simpl; lia|by destruct t].
Qed.

Lemma b_log_untouched l msg (p q : World * BehaviorTracker) r :
  b_log l msg p = (r, q) -> r = Ok tt /\ w_ban (fst q) = w_ban (fst p) /\ same_ticks (w_sys (fst p)) (w_sys (fst q)).
Proof. destruct p as [[[]] t]. by intros [= <- <-]. Qed.

(** Carrying out a banning rule. *)
Lemma apply_ban_action rule c e details w t q :
  passive_mode (bt_config t) = false -> br_action rule = ActBan -> br_custom_action rule = None ->
  _self_dos_refusal_reason (bm_config (w_ban w)) (_canonicalize_ip c) = None ->
  has_char "/" (_canonicalize_ip c) = false ->
  apply_action rule c e details (w, t) = (Ok tt, q) ->
  banned_since (_canonicalize_ip c) (default 3600%Z (br_ban_duration rule)) (ticks (w_sys w)) (w_sys (fst q), w_ban (fst q)).
Proof using Hclock Hmono.
  intros Hp Ha Hc Href Hsl. unfold apply_action. unfold bind at 1, b_get at 1, gets at 1. cbn [snd]. rewrite Hp.
  intros (action & q1 & H1 & H2)%bind_ok_inv. unfold _execute_active_mode_action in H1.
  unfold bind at 1, b_get at 1, gets at 1 in H1. rewrite Hc, Ha in H1. unfold _execute_ban_action in H1.
  apply bind_ok_inv in H1 as (applied & q2 & Hban & H1). set (d := default 3600%Z (br_ban_duration rule)) in *.
  unfold b_world, on_bans, zoom in Hban. cbn [fst snd] in Hban.
  destruct (ban_ip c d "behavioral_violation" (w_sys w, w_ban w)) as [rb b1] eqn:Hb. injection Hban as -> <-.
  assert (applied = true) as ->.
  { revert Hb. unfold ban_ip, _assert_positive_duration. destruct (d <=? 0)%Z; [done|]. cbn [when]. rewrite bind_ret_l.
    erewrite bind_ok by reflexivity. cbv zeta. cbn [snd]. rewrite Href. intros (? & ? & _ & Hb)%bind_ok_inv.
    by apply bind_ok_inv in Hb as (? & ? & _ & [= <- _]). }
  pose proof (ban_ip_establishes c d _ _ _ Hclock Hmono Hb Hsl) as Hbs. cbn [fst] in Hbs.
  set (same := fun a b : World * BehaviorTracker => w_ban (fst b) = w_ban (fst a) /\ same_ticks (w_sys (fst a)) (w_sys (fst b))).
  assert (PreOrder same) as Hpre.
  { split; [by split|]. intros x y z [H3 H4] [H5 H6]. split; [congruence|by etransitivity]. }
  assert (forall A (m : M Sys A), keeps same_ticks m -> keeps same (b_world (on_sys m))) as Hsys.
  { intros A m Hm [w' t']. specialize (Hm (w_sys w')). unfold b_world, on_sys, zoom. cbn [fst].
    destruct (m (w_sys w')) as [r s]. by destruct w'. }
  assert (same ((w {{ w_sys := fst b1; w_ban := snd b1 }}), t) q) as [Hs1 Hs2].
  { transitivity q1.
    - cbn [negb] in H1. match type of H1 with ?m ?p = _ => assert (keeps same m) as Hk; [|specialize (Hk p); by rewrite H1 in Hk] end.
      assert (forall A (f : BehaviorTracker -> A), keeps same (b_get f)) as Hget by (by intros A f p).
      unfold log_at_suspicious_level, b_log. keeps_steps; auto with ticks.
    - match type of H2 with ?m ?p = _ => assert (keeps same m) as Hk; [|specialize (Hk p); by rewrite H2 in Hk] end.
      assert (forall A (f : BehaviorTracker -> A), keeps same (b_get f)) as Hget by (by intros A f p).
      unfold _send_behavior_event. keeps_steps; auto with ticks. }
  eapply banned_since_frame; [..|exact Hbs]; cbn [fst snd]; destruct w; [exact Hs1|]. symmetry. exact Hs2.
Qed.

Lemma report_violation_run ctx request v reason metadata (p : World * Trackers) :
  exists p', report_violation ctx request v reason metadata p = (Ok tt, p') /\ snd p' = snd p /\
    bans_untouched (fst p) (fst p').
Proof using L.
  destruct p as [w tk]. unfold report_violation, p_world, zoom. cbn [fst snd].
  match goal with |- context [let '(r, s) := ?x w in _] => set (m := x) end.
  assert (exists w', m w = (Ok tt, w') /\ bans_untouched w w') as (w' & Hm & Hu); [|by rewrite Hm; eexists].
  assert (forall bus t a r k, exists w', send_middleware_event bus t request a r k w = (Ok tt, w') /\ bans_untouched w w') as Hsend.
  { intros bus t a r k. pose proof (frame_send_middleware_event request _ _ (banned_frame request) bus t a r k w) as Hu.
    destruct (send_middleware_event bus t request a r k w) as [r' w'] eqn:Hs. exists w'. split; [|exact Hu]. f_equal.
    revert Hs. unfold send_middleware_event. destruct (negb _ || negb _); [by intros [= <- _]|].
    destruct (in_list t _); [by intros [= <- _]|]. unfold catch. by destruct (bind _ _ w) as [[[]|?] ?]; intros [= <- _]. }
  unfold m, send_decorator_violation_event, send_decorator_event, send_event.
  destruct (mw_decorator (bc_mw ctx)) as [d|]; [|apply Hsend]. destruct (negb (dec_agent d)); [|apply Hsend].
  exists w. split; [done|reflexivity].
Qed.

(** The tracker that a request meets. *)
Definition tracker_in_use (ctx : BehavioralContext) (p : World * Trackers) (t : BehaviorTracker) : Prop :=
  exists r, _behavior_tracker ctx p = (Ok (Some r), p) /\ read_tracker r (snd p) = t.

(** C37: In active mode without Redis, on a route with a single behaviour rule that is
    a usage rule with the action ban and no custom action, a client whose call breaks
    the rule, and that is neither loopback nor a trusted proxy, is banned when the
    processing of the request ends: every spelling of its address is reported as
    banned for the duration of the rule or one hour (the cap of the local entry),
    whichever is less, through bans and unbans of other addresses and queries, while
    the cache of bans evicts nothing; for an endpoint that can be shown and clocks
    that do not go back. *)
Theorem violators_are_banned ctx request c c' route rule e w tk t q ops :
  endpoint_of ctx w request = Ok e ->
  tracker_in_use ctx (w, tk) t -> bt_redis t = None -> passive_mode (bt_config t) = false ->
  rc_behavior_rules route = [rule] -> is_usage_rule rule = true ->
  br_action rule = ActBan -> br_custom_action rule = None ->
  broken rule t e c (clock (ticks (w_sys w))) ->
  _self_dos_refusal_reason (bm_config (w_ban w)) (_canonicalize_ip c) = None ->
  has_char "/" (_canonicalize_ip c) = false ->
  process_usage_rules ctx request c route (w, tk) = (Ok tt, q) ->
  let b := (w_sys (fst q), w_ban (fst q)) in
  let b' := run_ops ops b in
  Forall (not_of (_canonicalize_ip c)) ops -> evictions_count (snd b') = evictions_count (snd b) ->
  (clock (ticks (fst b')) <= clock (ticks (w_sys w)) +
     seconds (Z.min (default 3600 (br_ban_duration rule)) LOCAL_CACHE_TTL_CAP_SECONDS))%Z ->
  (monotonic (S (ticks (fst b'))) < monotonic (ticks (w_sys w)) + seconds LOCAL_CACHE_TTL_CAP_SECONDS)%Z ->
  _canonicalize_ip c' = _canonicalize_ip c ->
  fst (is_ip_banned c' b') = Ok true.
Proof using Hclock Hmono L.
  intros He0 (r & Htr & Hread) Hred Hp Hroute Hu Ha Hc Hbr Href Hsl. cbv zeta. unfold process_usage_rules.
  pose proof (get_endpoint_id_run ctx request (w, tk)) as Hrun. cbn [fst] in Hrun. rewrite He0 in Hrun.
  rewrite (bind_ok _ _ _ _ _ Htr), (bind_ok _ _ _ _ _ Hrun), Hroute. cbn [for_each fst].
  intros ([] & q' & Hrule & Hq)%bind_ok_inv. injection Hq as ->.
  unfold usage_rule in Hrule. rewrite Hu in Hrule. cbn [when] in Hrule.
  apply bind_ok_inv in Hrule as (fired & q1 & Htrack & Hrule).
  unfold with_tracker, b_tracker, zoom in Htrack. cbn [fst snd] in Htrack, Hread. rewrite Hread in Htrack.
  destruct (track_endpoint_usage e c rule (w_sys w, t)) as [fired' [s1 t1]] eqn:Ht. injection Htrack as -> <-.
  destruct (track_broken e c rule _ _ Hred Hbr _ _ Ht) as (-> & Hle1 & Hcfg). cbn [fst snd when] in *.
  apply bind_ok_inv in Hrule as ([] & q2 & Hrep & Hact).
  match type of Hrep with report_violation _ _ ?v ?m ?l ?p = _ =>
    destruct (report_violation_run ctx request v m l p) as (q2' & Hrep' & Htk & Hb2 & Hle2) end.
  rewrite Hrep' in Hrep. injection Hrep as <-. cbn [fst snd] in *.
  unfold with_tracker, zoom in Hact. rewrite Htk in Hact.
  assert (read_tracker r (write_tracker r t1 tk) = t1) as Hrw by (by destruct r, tk). rewrite Hrw in Hact.
  destruct (apply_action rule c e _ (fst q2', t1)) as [ra [w3 t3]] eqn:Hap. injection Hact as -> <-.
  assert (w_ban (fst q2') = w_ban w) as Hbw by (rewrite Hb2; by destruct w).
  apply apply_ban_action in Hap as (Hn & exp & until & He & Hun & Hl); [|by rewrite Hcfg|done|done|by rewrite Hbw|done].
  cbn [fst snd] in *. intros Hops Hev Htime Hmon Hcan.
  pose proof (run_ops_keeps (_canonicalize_ip c) exp until (evictions_count (w_ban w3)) ops (w_sys w3, w_ban w3) Hclock Hmono Hops) as [_ Hk].
  specialize (Hk Hl). destruct (run_ops ops (w_sys w3, w_ban w3)) as [s4 b4]. cbn [fst snd] in *.
  assert (ticks (w_sys w) <= ticks (w_sys (fst q2')))%nat as Hle.
  { unfold ticks_le in *. destruct w. cbn in *. lia. }
  apply Hclock in Hle as Hc1. apply Hmono in Hle as Hm1. unfold local_duration in He.
  eapply (is_ip_banned_live (_canonicalize_ip c) exp until (evictions_count (w_ban w3))); try done; lia.
Qed.
End banning.

(** * Witnesses *)

Section witness.
#[local] Instance env : Env := sample_env (ticking 1000) redis_up.
#[local] Instance engine : Engine := sample_engine (ticking 1000) redis_up.
#[local] Instance ban_cache : TTLCache string Z BAN_CACHE_SIZE (seconds LOCAL_CACHE_TTL_CAP_SECONDS) := sample_ban_cache.
#[local] Instance path_cache : TTLCache string bool PATH_CACHE_SIZE PATH_CACHE_TTL := sample_path_cache.
#[local] Existing Instance sample_headers_cache.

#[local] Instance engine_laws' : EngineLaws.
Proof. split; intros; try done; intros s; reflexivity. Qed.

(** Responses whose body can be read. *)
#[local] Instance sample_behavior : BehaviorServices := {|
  custom_action_fn := fun _ _ _ _ => ret tt;
  read_body_prefix := fun r => Some (fun n => ret (Some (stake (Z.to_nat n) (rs_body r))));
  re_search := fun pattern text => Ok (contains pattern text);
  behavior_scan := {| Scan.decode_surrogateescape := id; Scan.parse_multipart := fun _ _ => None; Scan.sensitive_unions := ([], [], []);
    Scan.show_score := string_of_Z; Scan.always_scan_match := fun _ => None; Scan.scan_texts := sample_texts |}
|}.

Lemma clock_mono i j : (i <= j)%nat -> (clock i <= clock j)%Z.
Proof. apply ticking_mono. Qed.

Definition usage_limit (kind : rule_kind) (n : Z) : BehaviorRule :=
  mkRule kind n 60 None ActBan None (Some 600%Z) false.

Definition quick_calls : list (string * string) :=
  [("GET:/a", "198.51.100.7"); ("GET:/a", "198.51.100.7"); ("GET:/a", "203.0.113.9"); ("GET:/a", "198.51.100.7")].

Lemma usage_tracking_exact_witness :
  fst (track_calls (usage_limit Usage 2) quick_calls (sample_sys (ticking 1000) redis_up, BehaviorTracker_init plain_config)) =
    Ok [false; false; false; true].
Proof.
  refine (eq_trans (usage_tracking_exact (usage_limit Usage 2) ["GET:/a"] ["198.51.100.7"; "203.0.113.9"] quick_calls _ _
    _ _ _ _ _) _).
  - intros i j. apply ticking_mono.
  - vm_compute. discriminate.
  - apply Nat.leb_le. vm_compute. reflexivity.
  - apply Nat.leb_le. vm_compute. reflexivity.
  - repeat constructor; set_solver.
  - vm_compute. reflexivity.
Defined.

(** The rules of a route share their counts: with a second rule on the endpoint, a
    limit of three calls is broken by the second one. *)
Definition two_rules (n : nat) : M (Sys * BehaviorTracker) (list bool) :=
  let call := "198.51.100.7" in
  (fix go n := match n with
   | O => ret []
   | S n => let* a := track_endpoint_usage "GET:/a" call (usage_limit Usage 3) in
            let* b := track_endpoint_usage "GET:/a" call (usage_limit Frequency 100) in
            let* l := go n in ret (a :: l)
   end) n.

Example rules_share_their_counts :
  let s := (sample_sys (ticking 1000) redis_up, BehaviorTracker_init plain_config) in
  fst (two_rules 3 s) = Ok [false; false; true] /\
  fst (track_calls (usage_limit Usage 3) (repeat ("GET:/a", "198.51.100.7") 4) s) = Ok [false; false; false; true].
Proof. vm_compute. split; reflexivity. Qed.

Definition behavior_mw (config : SecurityConfig) : Middleware := sample_middleware config.
Definition behavior_ctx (config : SecurityConfig) : BehavioralContext := mkBehavioral (behavior_mw config) true.

Definition behavior_world (config : SecurityConfig) : World := sample_world (ticking 1000) redis_up config (Some "vault").
Definition fresh_trackers (config : SecurityConfig) : Trackers := mkTrackers None (BehaviorTracker_init config).

Lemma excluded_requests_are_not_sampled_witness :
  let w := (behavior_world plain_config) {{ w_state ::= fun s => s {{ st_exclusion_scoped := true }} }} in
  process_usage_rules (behavior_ctx plain_config) vault_request "198.51.100.7"
    (vault_route {{ rc_behavior_rules := [usage_limit Usage 0] }}) (w, fresh_trackers plain_config) =
  (Ok tt, (w, fresh_trackers plain_config)).
Proof.
  apply (excluded_requests_are_not_sampled (behavior_ctx plain_config) vault_request (mkResponse 200 "" []) "198.51.100.7" _ []).
  reflexivity.
Defined.

Lemma passive_rules_never_ban_witness :
  w_ban (fst (snd (process_usage_rules (behavior_ctx passive_config) vault_request "198.51.100.7"
    (vault_route {{ rc_behavior_rules := [usage_limit Usage 0] }}) (behavior_world passive_config, fresh_trackers passive_config))))
  = BanManager_new.
Proof.
  apply (passive_rules_never_ban (behavior_ctx passive_config) vault_request (mkResponse 200 "" []) "198.51.100.7" _ []).
  split; [reflexivity|]. discriminate.
Defined.

(** A first request breaks a rule that allows none; its client comes back with
    another spelling of its address. *)
Definition strict_route : RouteConfig := vault_route {{ rc_behavior_rules := [usage_limit Usage 0] }}.
Definition after_violation : World * Trackers :=
  snd (process_usage_rules (behavior_ctx plain_config) vault_request "198.51.100.7" strict_route
    (behavior_world plain_config, fresh_trackers plain_config)).

Lemma violators_are_banned_witness :
  fst (is_ip_banned "::ffff:198.51.100.7"
    (run_ops [OpUnban "203.0.113.9"] (w_sys (fst after_violation), w_ban (fst after_violation)))) = Ok true.
Proof.
  apply (violators_are_banned clock_mono clock_mono
    (behavior_ctx plain_config) vault_request "198.51.100.7" "::ffff:198.51.100.7" strict_route (usage_limit Usage 0) "vault"
    (behavior_world plain_config) (fresh_trackers plain_config) (BehaviorTracker_init plain_config) after_violation
    [OpUnban "203.0.113.9"]); try reflexivity.
  - exists InDecorator. split; reflexivity.
  - repeat constructor. vm_compute. discriminate.
  - vm_compute. discriminate.
Defined.

(** A client without an address breaks the same rule: banning the identity
    [unknown] raises, and so does the processing of the request. *)
Example unknown_clients_make_the_rule_raise :
  fst (process_usage_rules (behavior_ctx plain_config) vault_request UNKNOWN_CLIENT_IDENTITY strict_route
    (behavior_world plain_config, fresh_trackers plain_config)) = Raise (ValueError "Invalid IP address unknown").
Proof. vm_compute. reflexivity. Qed.

(** Global rules on calls are never applied: nothing but the calls of a route's own
    rules is counted. *)
Example global_usage_rules_are_ignored :
  usage_counts (tk_decorator (snd (snd (process_global_return_rules (behavior_ctx plain_config) vault_request
    (mkResponse 200 "" []) "198.51.100.7" [usage_limit Usage 0] (behavior_world plain_config, fresh_trackers plain_config))))) = [].
Proof. vm_compute. reflexivity. Qed.

(** A response that a global rule looks for. *)
Example not_found_rule_counts_a_response :
  map fst (return_patterns (tk_decorator (snd (snd (process_global_return_rules (behavior_ctx plain_config) vault_request
    (mkResponse 404 "" []) "198.51.100.7" [mkRule ReturnPattern 5 60 (Some "status:404") ActBan None None false]
    (behavior_world plain_config, fresh_trackers plain_config)))))) = ["vault:status:404"].
Proof. vm_compute. reflexivity. Qed.
End witness.
