(* ===== verification/Dispatch.v ===== *)
(** A request from end to end: the bypass handler
    ([guard_core/core/bypass/handler.py]) and the order in which an adapter calls the
    parts of the engine ([dispatch] of [docs/adapters/middleware-integration.md]). *)
From S2P Require Import Prelude PyStr PyDict IpAddr IpAddrText Sys Sample Config Redaction Request IpExtraction PathMatching TTL.
From S2P Require Import Redis IpBan RateLimit Cloud Json SecurityHeaders AccessControl JsonPattern Middleware Helpers.
From S2P Require Import RateLimiter SampleEngine Checks Pipeline Behavior Validator Responses CheckFacts Enforcement.
From S2P Require Import Clearance BehaviorFacts.

Definition UNRESOLVABLE_CLIENT_ADDRESS_CHECK_NAME : string := "client_address_unresolved".

Section bypass.
Context `{Eng : Engine} `{C : !TTLCache string Z BAN_CACHE_SIZE (seconds LOCAL_CACHE_TTL_CAP_SECONDS)}
  `{P : !TTLCache string bool PATH_CACHE_SIZE PATH_CACHE_TTL}
  `{HC : !TTLCache string headers HEADERS_CACHE_SIZE HEADERS_CACHE_TTL}.

#[local] Abbreviation V := (M (World * RequestValidator)).

Definition _warn_no_client_address (rejected : bool) : W unit :=
  on_sys (warn_once "_no_client_address_warned"
    (log WARNING ("no client address on the connection; if the app is served over a Unix socket add " +:+
      "'unix' to trusted_proxies; " +:+
      (if rejected then "the request is rejected with 403 (fail_secure=True)"
       else "the pipeline runs with identity 'unknown' (fail_secure=False)") +:+
      ". This warning is logged once."))).

(** A request without a peer address. *)
Definition reject_unresolved (mw : Middleware) (request : Request) : W (option Response) :=
  let config := mw_config mw in
  let* cached_ip := state st_client_ip in
  let* client_ip := on_sys (extract_client_ip request cached_ip config false) in
  set_state (fun s => s {{ st_client_ip := Some client_ip }}) ;;;
  if negb (client_ip =? UNKNOWN_CLIENT_IDENTITY)%string then ret None
  else
    _warn_no_client_address (fail_secure config) ;;;
    if negb (fail_secure config) then ret None
    else
      let* response := create_error_response config 403 "Client address could not be determined" in
      fire_block_hook config (on_block config) request UNRESOLVABLE_CLIENT_ADDRESS_CHECK_NAME
        "Client address could not be determined" "" false (Some (rs_status response)) ;;;
      ret (Some response).

Definition handle_passthrough (mw : Middleware) (request : Request) : V (option Response) :=
  let* excluded := is_path_excluded mw request in
  if excluded : bool then
    v_world (set_state (fun s => s {{ st_exclusion_scoped := true }})) ;;;
    ret None
  else if negb (has_client_host request) then v_world (reject_unresolved mw request)
  else ret None.

(** [call_next] runs the application. *)
Definition handle_security_bypass (mw : Middleware) (request : Request) (call_next : W Response)
  (route_config : option RouteConfig) : W (option Response) :=
  match route_config with
  | None => ret None
  | Some rc =>
      if negb (should_bypass_check "all" route_config) then ret None
      else
        let* safe_path := lift_res (display_endpoint (mw_config mw) (rq_path request)) in
        send_event mw "security_bypass" request "all_checks_bypassed" "Route configured to bypass all security checks"
          [("bypassed_checks", show_list (rc_bypassed_checks rc)); ("endpoint", safe_path)] ;;;
        if negb (passive_mode (mw_config mw)) then
          let* response := call_next in
          let* response := apply_modifier (mw_config mw) response in
          ret (Some response)
        else ret None
  end.
End bypass.

(** * Dispatching *)

Section dispatch.
Context `{Eng : Engine} `{C : !TTLCache string Z BAN_CACHE_SIZE (seconds LOCAL_CACHE_TTL_CAP_SECONDS)}
  `{P : !TTLCache string bool PATH_CACHE_SIZE PATH_CACHE_TTL}
  `{HC : !TTLCache string headers HEADERS_CACHE_SIZE HEADERS_CACHE_TTL} `{BS : !BehaviorServices}.

(** The parts that keep state between requests. *)
Record App : Type := mkApp {
  ap_world : World;
  ap_validator : RequestValidator;
  ap_pipeline : Pipeline;
  ap_trackers : Trackers
}.

#[local] Abbreviation A := (M App).

Definition a_world {B} (m : W B) : A B := zoom ap_world (fun w a => a {{ ap_world := w }}) m.
Definition a_validator {B} (m : M (World * RequestValidator) B) : A B :=
  zoom (fun a => (ap_world a, ap_validator a)) (fun p a => a {{ ap_world := fst p; ap_validator := snd p }}) m.
Definition a_pipeline {B} (m : M (World * Pipeline) B) : A B :=
  zoom (fun a => (ap_world a, ap_pipeline a)) (fun p a => a {{ ap_world := fst p; ap_pipeline := snd p }}) m.
Definition a_trackers {B} (m : M (World * Trackers) B) : A B :=
  zoom (fun a => (ap_world a, ap_trackers a)) (fun p a => a {{ ap_world := fst p; ap_trackers := snd p }}) m.

(** The middleware of an adapter: what its parts share, what its pipeline is rebuilt
    from, and the contexts of its processors. *)
Record Adapter : Type := mkAdapter {
  ad_mw : Middleware;
  ad_source : option BuildSource;
  ad_behavioral : BehavioralContext;
  ad_response : ResponseContext
}.

Context (ad : Adapter).
#[local] Abbreviation mw := (ad_mw ad).

(** The client of a request and the rules of its route, or a response. *)
Definition enter (request : Request) : A (Response + (string * option RouteConfig)) :=
  let* passthrough := a_validator (handle_passthrough mw request) in
  match passthrough with
  | Some response => ret (inl response)
  | None =>
      let* cached_ip := a_world (state st_client_ip) in
      let* client_ip := a_world (on_sys (extract_client_ip request cached_ip (mw_config mw) (mw_agent mw))) in
      let* route_config := a_world (get_route_config mw) in
      ret (inr (client_ip, route_config))
  end.

(** After the pipeline has let the request through. *)
Definition forward (request : Request) (call_next : W Response) (client_ip : string) (route_config : option RouteConfig)
  : A Response :=
  match route_config with
  | Some rc =>
      when (nonempty (rc_behavior_rules rc) && truthy client_ip)
        (a_trackers (process_usage_rules (ad_behavioral ad) request client_ip rc))
  | None => ret tt
  end ;;;
  let* start_time := a_world (on_sys time_time) in
  let* response := a_world call_next in
  let* end_time := a_world (on_sys time_time) in
  a_trackers (process_response (ad_response ad) request response (end_time - start_time) route_config
    (Some (process_return_rules (ad_behavioral ad))) None).

Definition dispatch (request : Request) (call_next : W Response) : A Response :=
  let* entered := enter request in
  match entered with
  | inl response => ret response
  | inr (client_ip, route_config) =>
      let* bypass := a_world (handle_security_bypass mw request call_next route_config) in
      match bypass with
      | Some response => ret response
      | None =>
          let* blocking := a_pipeline (execute mw (ad_source ad) request) in
          match blocking with
          | Some response => ret response
          | None => forward request call_next client_ip route_config
          end
      end
  end.
End dispatch.

(** * Requests that are let past, marked or refused on entry *)

Section passthrough.
Context `{Eng : Engine} `{C : !TTLCache string Z BAN_CACHE_SIZE (seconds LOCAL_CACHE_TTL_CAP_SECONDS)}
  `{P : !TTLCache string bool PATH_CACHE_SIZE PATH_CACHE_TTL}
  `{HC : !TTLCache string headers HEADERS_CACHE_SIZE HEADERS_CACHE_TTL}.
Context (mw : Middleware).
#[local] Abbreviation config := (mw_config mw).

Definition unresolvable (client_ip : string) : bool := (client_ip =? UNKNOWN_CLIENT_IDENTITY)%string && fail_secure config.

(** Only the surroundings change. *)
Definition same_but_sys (w w' : World) : Prop := w' = w {{ w_sys := w_sys w' }}.

Lemma on_sys_run {B} (m : M Sys B) w r : fst (m (w_sys w)) = r ->
  exists w', on_sys m w = (r, w') /\ same_but_sys w w'.
Proof. intros <-. unfold on_sys, zoom, same_but_sys. destruct (m (w_sys w)) as [r s]. eexists. split; [done|]. by destruct w. Qed.

Lemma warn_no_client_address_run b w : exists w', _warn_no_client_address b w = (Ok tt, w') /\ same_but_sys w w'.
Proof.
  apply on_sys_run. unfold warn_once, bind, gets. by destruct (bool_decide _).
Qed.

Lemma reject_unresolved_run request w : acceptable config -> custom_response_modifier config = None ->
  request_shown config request ->
  st_client_ip (w_state w) = None -> rq_client_host request = None \/ rq_client_host request = Some "" ->
  exists answer w' client, reject_unresolved mw request w = (Ok answer, w') /\
    (unresolvable client = false -> w_state w' = (w_state w) {{ st_client_ip := Some client }}) /\ canonical client /\
    (in_list "unix" (trusted_proxies config) = false -> client = UNKNOWN_CLIENT_IDENTITY) /\
    if unresolvable client then exists hs, answer = Some (mkResponse 403 (default "Client address could not be determined"
      (dget 403 (custom_error_responses config))) hs) else answer = None.
Proof.
  intros Ha Hm Hshown Hip Hhost. destruct (extract_client_ip_canonical request config false (w_sys w)) as (client & Hc & Hcan).
  unfold reject_unresolved. unfold bind at 1, state at 1, gets at 1. rewrite Hip.
  destruct (on_sys_run _ w _ Hc) as (w1 & H1 & Hw1). rewrite (bind_ok _ _ _ _ _ H1). unfold bind at 1, set_state at 1, modify at 1.
  set (w2 := w1 {{ w_state ::= _ }}).
  assert (in_list "unix" (trusted_proxies config) = false -> client = UNKNOWN_CLIENT_IDENTITY) as Hu.
  { intros Hx. unfold extract_client_ip in Hc. rewrite Hx in Hc. by destruct Hhost as [Hn|Hn]; rewrite Hn in Hc; injection Hc. }
  assert (w_state w2 = (w_state w) {{ st_client_ip := Some client }}) as Hs2 by (subst w2; rewrite Hw1; by destruct w1).
  destruct (unresolvable client) eqn:Hun; unfold unresolvable in Hun;
    (destruct (client =? UNKNOWN_CLIENT_IDENTITY)%string eqn:Hk; cbn [negb andb] in *; [|try done]).
  - destruct (warn_no_client_address_run (fail_secure config) w2) as (w3 & H3 & Hw3). rewrite (bind_ok _ _ _ _ _ H3), Hun. cbn [negb].
    destruct (create_error_response_run config 403 "Client address could not be determined" w3 Ha Hm) as (hs & w4 & H4).
    rewrite (bind_ok _ _ _ _ _ H4). edestruct fire_block_hook_run as [w5 H5]; [by right; apply Hshown|]. rewrite (bind_ok _ _ _ _ _ H5).
    eexists _, w5, client. unfold unresolvable. rewrite Hk, Hun. cbn. split_and!; try done. by eexists.
  - destruct (warn_no_client_address_run (fail_secure config) w2) as (w3 & H3 & Hw3). rewrite (bind_ok _ _ _ _ _ H3), Hun. cbn [negb].
    exists None, w3, client. unfold unresolvable. rewrite Hk, Hun. split_and!; try done. intros _. rewrite Hw3, <- Hs2. by destruct w2.
  - exists None, w2, client. unfold unresolvable. by rewrite Hk.
Qed.

(** What happens on entry, of a request whose texts can be shown.  [handle_passthrough] returns.  A request for an
    excluded path is marked and goes on; a request with a peer address goes on as it
    came; for one without, the client is resolved, canonical, and is the identity
    [unknown] unless the app trusts its Unix socket - and then, when errors are not
    tolerated, in passive mode too, the request is refused with status 403. *)
Theorem passthrough_spec request w v : memo_ok v -> acceptable config -> custom_response_modifier config = None ->
  request_shown config request -> st_client_ip (w_state w) = None ->
  exists answer w' v', handle_passthrough mw request (w, v) = (Ok answer, (w', v')) /\ memo_ok v' /\
    if path_is_excluded (ustr_of (rq_path request)) (map ustr_of (exclude_paths config))
    then answer = None /\ w_state w' = (w_state w) {{ st_exclusion_scoped := true }}
    else if has_client_host request then answer = None /\ w_state w' = w_state w
    else exists client, canonical client /\
      (in_list "unix" (trusted_proxies config) = false -> client = UNKNOWN_CLIENT_IDENTITY) /\
      if unresolvable client
      then exists hs, answer = Some (mkResponse 403 (default "Client address could not be determined"
             (dget 403 (custom_error_responses config))) hs)
      else answer = None /\ w_state w' = (w_state w) {{ st_client_ip := Some client }}.
Proof.
  intros Hv Ha Hm Hshown Hip. unfold handle_passthrough.
  destruct (is_path_excluded_run mw request w v Hv (proj1 (proj2 Hshown))) as (w1 & v1 & H1 & Hv1 & Hrep). rewrite (bind_ok _ _ _ _ _ H1).
  pose proof (proj1 Hrep) as Hst. destruct (path_is_excluded _ _).
  - eexists None, _, v1. split; [reflexivity|]. split; [done|]. split; [done|]. cbn. rewrite <- Hst. by destruct w1.
  - destruct (has_client_host request) eqn:Hh; cbn [negb]; [by exists None, w1, v1|].
    rewrite <- Hst in Hip. destruct (reject_unresolved_run request w1 Ha Hm Hshown Hip) as (answer & w2 & client & H2 & Hs & Hcan & Hu & Hr).
    { revert Hh. unfold has_client_host. destruct (rq_client_host request) as [[|]|]; auto; discriminate. }
    exists answer, w2, v1. unfold v_world, zoom. cbn [fst snd]. rewrite H2. split; [done|]. split; [done|].
    exists client. split; [done|]. split; [done|]. destruct (unresolvable client); [done|]. by rewrite Hs, Hst.
Qed.
End passthrough.

(** * Who reaches the application *)

Section who.
Context `{Eng : Engine} `{C : !TTLCache string Z BAN_CACHE_SIZE (seconds LOCAL_CACHE_TTL_CAP_SECONDS)}
  `{P : !TTLCache string bool PATH_CACHE_SIZE PATH_CACHE_TTL}
  `{HC : !TTLCache string headers HEADERS_CACHE_SIZE HEADERS_CACHE_TTL} `{BS : !BehaviorServices}.
Context (ad : Adapter).
#[local] Abbreviation mw := (ad_mw ad).

(** The request has a client, and its route is resolved. *)
Definition entered (request : Request) (a : App) (client_ip : string) (route_config : option RouteConfig) (a1 : App) : Prop :=
  enter ad request a = (Ok (inr (client_ip, route_config)), a1).

(** The route of the request lets it past every check. *)
Definition bypasses_everything (route_config : option RouteConfig) : bool :=
  is_some route_config && should_bypass_check "all" route_config && negb (passive_mode (mw_config mw)).

(** The pipeline has nothing to say against the request. *)
Definition admitted (request : Request) (call_next : W Response) (route_config : option RouteConfig) (a1 : App) : Prop :=
  exists w p, handle_security_bypass mw request call_next route_config (ap_world a1) = (Ok None, w) /\
    execute mw (ad_source ad) request (w, ap_pipeline a1) = (Ok None, p).

(** Without the bypass the application is not called on the way to the pipeline. *)
Lemma bypass_calls_nothing request m m' rc w : bypasses_everything rc = false ->
  handle_security_bypass mw request m rc w = handle_security_bypass mw request m' rc w /\
  forall r, fst (handle_security_bypass mw request m rc w) <> Ok (Some r).
Proof.
  intros Hn. unfold handle_security_bypass. destruct rc as [rc|]; [|done].
  unfold bypasses_everything in Hn. destruct (should_bypass_check "all" (Some rc)); cbn [is_some negb andb] in *; [|done].
  rewrite Hn.
  split; [done|]. intros r. unfold bind, lift_res. destruct (display_endpoint _ _); [|done].
  destruct (send_event_run mw request "security_bypass" "all_checks_bypassed" "Route configured to bypass all security checks"
    [("bypassed_checks", show_list (rc_bypassed_checks rc)); ("endpoint", a)] w) as [w1 Hs]. by rewrite Hs.
Qed.

(** C5: the application is reached only through the pipeline.  Whenever the choice
    of the application makes any difference - to the response, to an exception or to
    the state afterwards - the request has entered, and either its route bypasses
    all checks in active mode, or every check of the pipeline let it through. *)
Theorem application_needs_admission request call_next call_next' a :
  dispatch ad request call_next a <> dispatch ad request call_next' a ->
  exists client_ip rc a1, entered request a client_ip rc a1 /\
    (bypasses_everything rc = true \/ admitted request call_next rc a1).
Proof.
  intros Hne. unfold dispatch in Hne.
  destruct (enter ad request a) as [[[r|[client_ip rc]]|e] a1] eqn:He; [by rewrite !(bind_ok _ _ _ _ _ He) in Hne| |].
  2: { unfold bind in Hne. by rewrite He in Hne. }
  exists client_ip, rc, a1. split; [done|]. rewrite !(bind_ok _ _ _ _ _ He) in Hne.
  destruct (bypasses_everything rc) eqn:Hb; [by left|]. right.
  destruct (bypass_calls_nothing request call_next call_next' rc (ap_world a1) Hb) as [Hsame Hnone].
  unfold bind, a_world, a_pipeline, zoom in Hne. rewrite <- Hsame in Hne. unfold admitted.
  destruct (handle_security_bypass mw request call_next rc (ap_world a1)) as [[[r|]|e] w] eqn:Hh; [by destruct (Hnone r)| |by destruct Hne].
  exists w. change (ap_world _, ap_pipeline _) with (w, ap_pipeline a1) in Hne.
  destruct (execute mw (ad_source ad) request (w, ap_pipeline a1)) as [[[r|]|e] p];
    [by destruct Hne|by exists p|by destruct Hne].
Qed.
End who.

(** * Witnesses *)

Section witness.
#[local] Existing Instances BehaviorFacts.env BehaviorFacts.engine BehaviorFacts.ban_cache BehaviorFacts.path_cache
  sample_headers_cache BehaviorFacts.sample_behavior.

Definition no_peer_request : Request := (get_request "/vault" "" []) {{ rq_client_host := None }}.

Lemma passthrough_spec_witness :
  exists hs w' v', handle_passthrough (sample_middleware plain_config) no_peer_request
    (behavior_world plain_config, RequestValidator_init) =
    (Ok (Some (mkResponse 403 "Client address could not be determined" hs)), (w', v')).
Proof.
  destruct (passthrough_spec (sample_middleware plain_config) no_peer_request (behavior_world plain_config) RequestValidator_init)
    as (answer & w' & v' & Hr & _ & client & _ & Hu & Hs).
  - apply memo_init.
  - by eexists.
  - reflexivity.
  - apply request_shown_check. vm_compute. reflexivity.
  - reflexivity.
  - rewrite (Hu eq_refl) in Hs. destruct Hs as [hs Hs]. exists hs, w', v'. rewrite Hs in Hr. exact Hr.
Defined.

Definition sample_adapter (config : SecurityConfig) : Adapter :=
  mkAdapter (sample_middleware config) None (behavior_ctx config)
    (mkResponseContext config (mkMetrics false config (mkFilter [] [])) false).

Definition sample_app (config : SecurityConfig) : App :=
  mkApp (behavior_world config) RequestValidator_init sample_pipeline (fresh_trackers config).

(** An application that answers with a status. *)
Definition answering (status : Z) : W Response := ret (mkResponse status "" []).

Lemma application_needs_admission_witness :
  exists client_ip rc a1, entered (sample_adapter plain_config) vault_request (sample_app plain_config) client_ip rc a1 /\
    (bypasses_everything (sample_adapter plain_config) rc = true \/
     admitted (sample_adapter plain_config) vault_request (answering 200) rc a1).
Proof.
  apply (application_needs_admission (sample_adapter plain_config) vault_request (answering 200) (answering 404)
    (sample_app plain_config)).
  intros He. apply (f_equal fst) in He. vm_compute in He. discriminate.
Defined.
End witness.
