(* ===== verification/DecoratorFacts.v ===== *)
(** What decorating functions promises: a route's rules change only through its own
    function, the pipeline notices every rule that matters to it, and presence-only
    authorization is never combined with authentication. *)
From S2P Require Import Prelude PyStr PyDict Sys Sample Config Url Redaction Request Cloud LiveConfig JsonPattern.
From S2P Require Import IpBan RateLimit TTL IpAddr Redis IpExtraction BodyReader DetectionConfig Scan Middleware Helpers Behavior.
From S2P Require Import AccessControl Json SecurityHeaders RateLimiter SampleEngine Checks Pipeline CheckFacts Enforcement BehaviorFacts SampleScan Decorators.

(** * Identifiers *)

Lemma dmem_elem {K V} `{EqDecision K} (k : K) (d : list (K * V)) : dmem k d = true <-> k ∈ dkeys d.
Proof.
  unfold dmem. destruct (dget k d) as [v|] eqn:Hd.
  - split; [|done]. intros _. destruct (decide (k ∈ dkeys d)) as [?|Hn]; [done|]. apply dget_None in Hn. congruence.
  - apply dget_None in Hd. split; [done|]. intros Hk. by destruct Hd.
Qed.

Lemma suffixed_inj base i j : (1 <= i)%Z -> (1 <= j)%Z -> suffixed base i = suffixed base j -> i = j.
Proof.
  assert (forall a b, base +:+ a = base +:+ b -> a = b) as Happ.
  { induction base as [|c base IH]; intros a b H; [exact H|]. injection H as H. by apply IH. }
  assert (forall a, base = base +:+ a -> a = "") as Hnil.
  { intros a H. symmetry. apply Happ. by rewrite app_nil_r_string. }
  unfold suffixed. destruct (Z.eqb_spec i 1) as [->|], (Z.eqb_spec j 1) as [->|]; intros _ _ H; try done.
  - by apply Hnil in H.
  - by symmetry in H; apply Hnil in H.
  - apply Happ in H. injection H as H. by apply string_of_Z_inj.
Qed.

(** The identifiers tried are all taken only if there are as many routes. *)
Lemma free_id_fresh fuel routes base suffix : (1 <= suffix)%Z ->
  dmem (free_id fuel routes base suffix) routes = true ->
  forall i, (suffix <= i <= suffix + Z.of_nat fuel)%Z -> suffixed base i ∈ dkeys routes.
Proof.
  revert suffix. induction fuel as [|fuel IH]; intros suffix Hs; cbn [free_id]; [|destruct (dmem (suffixed base suffix) routes) eqn:Hm].
  - intros Hm%dmem_elem i Hi. by replace i with suffix by lia.
  - intros Hf i Hi. destruct (decide (i = suffix)) as [->|]; [by apply dmem_elem|]. apply (IH (suffix + 1)%Z); [lia|done|lia].
  - congruence.
Qed.

Lemma free_id_free routes base : dmem (free_id (S (length routes)) routes base 1) routes = false.
Proof.
  apply not_true_iff_false. intros Hm.
  set (names := map (fun n => suffixed base (1 + Z.of_nat n)) (seq 0 (S (length routes)))).
  assert (NoDup names) as Hnd.
  { apply NoDup_fmap_2_strong; [|apply NoDup_seq]. intros i j _ _ H. apply suffixed_inj in H; lia. }
  assert (length names <= length (dkeys routes))%nat as Hl; [|unfold names, dkeys in Hl; rewrite !length_map, length_seq in Hl; lia].
  apply NoDup_incl_length; [by apply NoDup_ListNoDup|]. intros x Hx. apply list_elem_of_In.
  apply list_elem_of_In, list_elem_of_fmap in Hx as (n & -> & Hn). apply elem_of_seq in Hn.
  eapply free_id_fresh; [|exact Hm|]; lia.
Qed.

(** No function comes twice in a chain, and all but the last are known: as much fuel as
    there are functions, and one, is enough. *)
Lemma owner_chain_fuel n fs current chain : NoDup chain -> (is_Some current -> chain ⊆ dkeys fs) ->
  (S (length fs) <= n + length chain)%nat -> owner_chain (S n) fs current chain = owner_chain n fs current chain.
Proof.
  revert current chain. induction n as [|n IH]; intros [f|] chain Hnd Hin Hlen; try done.
  - exfalso. assert (length chain <= length (dkeys fs))%nat as Hl; [|unfold dkeys in Hl; rewrite length_map in Hl; lia].
    apply NoDup_incl_length; [by apply NoDup_ListNoDup|]. intros x Hx. apply list_elem_of_In, Hin; [by eexists|by apply list_elem_of_In].
  - cbn [owner_chain]. case_bool_decide as Hf; [done|]. change (owner_chain (S n) fs (dget f fs ≫= fn_wrapped) (chain ++ [f]) =
      owner_chain n fs (dget f fs ≫= fn_wrapped) (chain ++ [f])). apply IH.
    + apply NoDup_app. split; [done|]. split; [set_solver|apply NoDup_singleton].
    + intros [g Hg] x Hx. apply elem_of_app in Hx as [Hx|Hx]; [by apply Hin|]. apply list_elem_of_singleton in Hx as ->. change (f ∈ dkeys fs). apply dmem_elem. unfold dmem.
      by destruct (dget f fs).
    + rewrite length_app. cbn [length]. lia.
Qed.

Lemma chain_of_fuel fs func n : (S (S (length fs)) <= n)%nat -> owner_chain n fs (Some func) [] = chain_of fs func.
Proof.
  unfold chain_of. induction 1 as [|n Hn IH]; [done|]. rewrite owner_chain_fuel; [done|apply NoDup_nil_2|set_solver|cbn; lia].
Qed.

#[local] Abbreviation D := (M Decorating).
#[local] Abbreviation routes w := (sd_routes (dg_decorator w)).
#[local] Abbreviation owners w := (_route_id_owner (dg_decorator w)).
#[local] Abbreviation revision w := (route_config_revision (dg_decorator w)).
#[local] Abbreviation id_of w func := (_get_route_id (dg_functions w) (dg_decorator w) func).

Section facts.
Context `{SS : ScanServices} `{PS : !PatternSafety}.

(** The identifier of a function is one this decorator gave it, or a free one. *)
Lemma get_route_id_cases fs d func :
  (stamp_of fs func = Some (_get_route_id fs d func) /\ dmem (_get_route_id fs d func) (sd_routes d) = true /\
   owned_by d (_get_route_id fs d func) (chain_of fs func) = true) \/
  dmem (_get_route_id fs d func) (sd_routes d) = false.
Proof using Type.
  unfold _get_route_id. cbv zeta. destruct (stamp_of fs func) as [r|]; [|right; apply free_id_free].
  destruct (dmem r (sd_routes d)) eqn:Hm; cbn [andb]; [|right; apply free_id_free].
  destruct (owned_by d r _) eqn:Ho; [by left|right; apply free_id_free].
Qed.

(** * What the decorators have in common *)

(** What the pipeline is built from, and the modes of authentication. *)
Definition counted (rc : RouteConfig) : RouteConfig := rc {{ rc_bypassed_checks := [] }} {{ rc_behavior_rules := [] }}.
Definition auth_of (rc : RouteConfig) : option string * bool * option string :=
  (rc_auth_required rc, rc_api_key_required rc, rc_authorization_header_required rc).

Definition is_auth (d : decoration) : bool :=
  match d with RequireAuth _ _ | ApiKeyAuth _ _ | RequireAuthorizationHeader _ => true | _ => false end.

(** How a decoration may change a configuration. *)
Definition fits (d : decoration) (f : RouteConfig -> RouteConfig) : Prop :=
  is_auth d = false -> forall rc, auth_of (f rc) = auth_of rc.

Definition ignores_sys (R : Decorating -> Decorating -> Prop) : Prop := forall A (m : M Sys A), keeps R (d_sys m).

(** A decoration is some checks of its arguments and a body that writes to the
    configuration of its function only. *)
Record shape (d : decoration) (pre : D unit) (body : string -> D unit) : Prop := {
  sh_run : forall func w, decorate d func w = (pre ;;; decorator body func)%guard w;
  sh_pre : forall R, PreOrder R -> ignores_sys R -> keeps R pre;
  sh_body : forall R r, PreOrder R -> ignores_sys R -> (forall f, fits d f -> keeps R (write_attr r f)) ->
    (forall f, fits d f -> (forall rc, counted (f rc) = counted rc) -> keeps R (write_uncounted r f)) -> keeps R (body r)
}.

Lemma validate_scan_keeps R pattern : PreOrder R -> keeps R (_validate_return_pattern_body_scan pattern).
Proof using Type. intros ?. unfold _validate_return_pattern_body_scan, _validate_return_pattern_requires_scan, d_config. keeps_steps. Qed.

Lemma user_agents_keep R patterns : PreOrder R -> ignores_sys R -> keeps R (check_user_agent_patterns patterns).
Proof using Type.
  intros ? Hsys. induction patterns as [|p patterns IH]; cbn [check_user_agent_patterns]; unfold d_config; keeps_steps; auto.
Qed.

Lemma warn_keeps R message l : PreOrder R -> ignores_sys R -> keeps R (warn_ignored message l).
Proof using Type. intros ? Hsys. unfold warn_ignored. keeps_steps. apply Hsys. Qed.

Ltac plain_shape := eexists (ret tt), _; split; [reflexivity|intros; by apply keeps_ret|].
Ltac body_steps :=
  intros R r ? Hsys Hw Hu; unfold write_given, append_rules, exclusive, read_route; keeps_steps;
  first [by apply warn_keeps
        |apply Hw; by intros ? ?
        |apply Hu; [by intros ? ?|by intros rc]
        |by apply Hsys].

Lemma decorate_shape d : exists pre body, shape d pre body.
Proof using Type.
  destruct d; try (plain_shape; body_steps).
  all: try (eexists _, _; split; [reflexivity| |body_steps]; intros; keeps_steps; try done; first [by apply validate_scan_keeps|by apply user_agents_keep]).
Qed.

(** * A decoration writes to one route *)

(** What a body leaves alone. *)
Record within (r : string) (w w' : Decorating) : Prop := {
  wi_functions : dg_functions w' = dg_functions w;
  wi_owners : owners w' = owners w;
  wi_config : dec_config (sd_base (dg_decorator w')) = dec_config (sd_base (dg_decorator w));
  wi_others r' : r' <> r -> dget r' (routes w') = dget r' (routes w);
  wi_keys : dkeys (routes w') = dkeys (routes w)
}.

#[local] Instance within_preorder r : PreOrder (within r).
Proof using Type.
  split; [by split|]. intros w1 w2 w3 [] []. split; try congruence. intros r' Hr. rewrite wi_others1; auto.
Qed.

Lemma dkeys_alter r f l : dkeys (alter_route r f l) = dkeys l.
Proof using Type.
  unfold alter_route. destruct (dget r l) as [rc|] eqn:Hr; [|done]. rewrite dkeys_dset, decide_True; [done|].
  apply dmem_elem. unfold dmem. by rewrite Hr.
Qed.

Lemma dget_alter_ne r r' f l : r' <> r -> dget r' (alter_route r f l) = dget r' l.
Proof using Type. unfold alter_route. intros Hr. destruct (dget r l); [by rewrite dget_dset_ne|done]. Qed.

Lemma dget_alter r f l : dget r (alter_route r f l) = f <$> dget r l.
Proof using Type. unfold alter_route. destruct (dget r l) eqn:Hr; [by rewrite dget_dset_eq|done]. Qed.

Lemma d_sys_within r : ignores_sys (within r).
Proof using Type. intros A m w. unfold d_sys, zoom. destruct (m (dg_sys w)) as [a s]. by split; destruct w. Qed.

Lemma write_attr_within r f : keeps (within r) (write_attr r f).
Proof using Type.
  intros [s fs [[] ow rev]]. split; cbn; try done; [intros r' Hr; by apply dget_alter_ne|apply dkeys_alter].
Qed.

Lemma write_uncounted_within r f : keeps (within r) (write_uncounted r f).
Proof using Type.
  intros [s fs [[] ow rev]]. split; cbn; try done; [intros r' Hr; by apply dget_alter_ne|apply dkeys_alter].
Qed.

(** The functions but for their stamps. *)
Definition unstamped (fs : Functions) : list (Z * (string * option Z)) := map (fun p => (fst p, (fn_name (snd p), fn_wrapped (snd p)))) fs.

Lemma unstamped_stamp func r fs : unstamped
  (match dget func fs with Some f => dset func (f {{ _guard_route_id := Some r }}) fs | None => fs end) = unstamped fs.
Proof using Type.
  unfold unstamped. induction fs as [|[k f] fs IH]; [done|]. cbn [dget]. case_decide as Hk; cbn [dset]; [by rewrite decide_True by done; destruct f|].
  destruct (dget func fs) as [g|]; [|done]. rewrite decide_False by done. cbn [map]. by rewrite IH.
Qed.

(** Chains and names read nothing else. *)
Lemma wrapped_unstamped fs fs' f : unstamped fs = unstamped fs' -> dget f fs ≫= fn_wrapped = dget f fs' ≫= fn_wrapped.
Proof using Type.
  unfold unstamped. revert fs'. induction fs as [|[k g] fs IH]; intros [|[k' g'] fs']; try done.
  cbn [map fst snd]. intros [= -> _ Hw H]. cbn [dget]. case_decide; [exact Hw|by apply IH].
Qed.

Lemma chain_unstamped fs fs' func : unstamped fs = unstamped fs' -> chain_of fs func = chain_of fs' func.
Proof using Type.
  intros H. unfold chain_of. assert (length fs = length fs') as ->.
  { unfold unstamped in H. apply (f_equal length) in H. by rewrite !length_map in H. }
  generalize (S (S (length fs'))) as n. intros n. generalize (Some func) as c, (@nil Z) as l.
  induction n as [|n IH]; intros [c|] l; cbn [owner_chain]; try done. case_bool_decide; [done|].
  by rewrite (wrapped_unstamped fs fs'), IH.
Qed.

(** What a decoration of [func] leaves alone, whose identifier is [r]. *)
Record local (r : string) (func : Z) (w w' : Decorating) : Prop := {
  lo_unstamped : unstamped (dg_functions w') = unstamped (dg_functions w);
  lo_stamps g : g <> func -> stamp_of (dg_functions w') g = stamp_of (dg_functions w) g;
  lo_config : dec_config (sd_base (dg_decorator w')) = dec_config (sd_base (dg_decorator w));
  lo_others r' : r' <> r -> dget r' (routes w') = dget r' (routes w);
  lo_owners r' : r' ∈ dkeys (owners w) -> dget r' (owners w') = dget r' (owners w);
  lo_owned : dkeys (routes w) = dkeys (owners w) -> dkeys (routes w') = dkeys (owners w');
  lo_kept r' : r' ∈ dkeys (routes w) -> r' ∈ dkeys (routes w')
}.

#[local] Instance local_preorder r func : PreOrder (local r func).
Proof using Type.
  split; [by split|]. intros w1 w2 w3 [u1 s1 c1 o1 w12 d1 k1] [u2 s2 c2 o2 w23 d2 k2].
  split; [congruence| |congruence| | |auto|auto].
  - intros g Hg. by rewrite s2, s1.
  - intros r' Hr. by rewrite o2, o1.
  - intros r' Hr. rewrite w23, w12; [done|done|]. apply dmem_elem. unfold dmem. rewrite w12 by done. by apply dmem_elem in Hr.
Qed.

Lemma within_local r func w w' : within r w w' -> local r func w w'.
Proof using Type. intros [Hf Ho Hc Hr Hk]. split; rewrite ?Hf, ?Ho, ?Hk; auto. Qed.

Lemma stamp_local r func route_id : keeps (local r func) (stamp func route_id).
Proof using Type.
  intros [s fs d]. split; cbn; try done.
  - apply unstamped_stamp.
  - intros g Hg. unfold stamp_of. destruct (dget func fs); [by rewrite dget_dset_ne|done].
Qed.

Lemma ensure_run func w : let r := id_of w func in
  exists w', _ensure_route_config func w = (Ok r, w') /\ local r func w w'.
Proof using Type.
  cbv zeta. set (r := id_of w func). unfold _ensure_route_config.
  unfold bind at 1, d_route_id at 1, gets at 1. fold r. unfold bind at 1, gets at 1.
  set (fresh := when _ _). destruct (fresh w) as [rf w1] eqn:Hf.
  assert (rf = Ok tt /\ dg_functions w1 = dg_functions w /\ owners w1 = owners w /\
    dec_config (sd_base (dg_decorator w1)) = dec_config (sd_base (dg_decorator w)) /\
    (forall r', r' <> r -> dget r' (routes w1) = dget r' (routes w)) /\
    dkeys (routes w1) = if decide (r ∈ dkeys (routes w)) then dkeys (routes w) else dkeys (routes w) ++ [r]) as (-> & Hfs & How & Hc & Ho & Hk).
  { unfold fresh in Hf. destruct (dmem r (routes w)) eqn:Hm; cbn [negb when] in Hf.
    - injection Hf as <- <-. apply dmem_elem in Hm. by rewrite decide_True.
    - injection Hf as <- <-. destruct w as [s fs [[] ow rev]]. cbn in *. split_and!; try done.
      + intros r' Hr. by rewrite dget_dset_ne.
      + unfold dkeys. apply dkeys_dset. }
  rewrite (bind_ok _ _ _ _ _ Hf). unfold bind at 1, on_decorator at 1, modify at 1.
  set (w2 := w1 {{ dg_decorator ::= _ }}).
  assert (local r func w w2) as Hl2.
  { clear Hf fresh. subst w2. destruct w1 as [s1 fs1 [[] ow1 rev1]]. cbn in *. split; cbn; rewrite ?Hfs; auto.
    - intros r' Hr. rewrite <- How in Hr |- *. destruct (dmem r ow1) eqn:Hm; [done|]. apply dget_dset_ne. intros ->.
      apply dmem_elem in Hr. congruence.
    - intros Heq. rewrite Hk, Heq, <- How. destruct (dmem r ow1) eqn:Hm; [|symmetry; apply dkeys_dset].
      apply dmem_elem in Hm. by rewrite decide_True.
    - intros r' Hr. rewrite Hk. case_decide; [done|]. set_solver. }
  pose proof (stamp_local r func r w2) as Hl3. unfold bind at 1. destruct (stamp func r w2) as [rs w3] eqn:Hs.
  injection Hs as <- <-. eexists. split; [reflexivity|]. etransitivity; [exact Hl2|exact Hl3].
Qed.

(** The checks of the arguments. *)
Definition same_rules (w w' : Decorating) : Prop := dg_functions w' = dg_functions w /\ dg_decorator w' = dg_decorator w.

#[local] Instance same_rules_preorder : PreOrder same_rules.
Proof using Type. split; [by split|]. intros ? ? ? [] []. split; congruence. Qed.

Lemma d_sys_same_rules : ignores_sys same_rules.
Proof using Type. intros A m w. unfold d_sys, zoom. destruct (m (dg_sys w)). by destruct w. Qed.

Lemma decoration_local d func w : local (id_of w func) func w (snd (decorate d func w)).
Proof using Type.
  destruct (decorate_shape d) as (pre & body & [Hrun Hpre Hbody]). rewrite Hrun.
  pose proof (Hpre same_rules _ d_sys_same_rules w) as [Hf Hd]. unfold bind at 1. destruct (pre w) as [[[]|e] w0]; cbn [snd] in *.
  2: { split; intros; rewrite ?Hf, ?Hd; auto. }
  assert (local (id_of w func) func w w0) as H0 by (split; intros; rewrite ?Hf, ?Hd; auto).
  etransitivity; [exact H0|]. rewrite <- Hf, <- Hd. unfold decorator.
  destruct (ensure_run func w0) as (w1 & He & H1). rewrite (bind_ok _ _ _ _ _ He). set (r := id_of w0 func) in *.
  etransitivity; [exact H1|].
  match goal with |- local _ _ _ (snd (?m w1)) => enough (keeps (local r func) m) as Hk by apply Hk end.
  apply keeps_bind; [exact _| |intros _].
  - apply (keeps_weaken (within r)); [intros ? ?; by apply within_local|].
    apply Hbody; [exact _|apply d_sys_within| |]; intros; [apply write_attr_within|apply write_uncounted_within].
  - unfold _apply_route_config, d_route_id. keeps_steps. apply stamp_local.
Qed.

Lemma run_decorations_ind (R : Decorating -> Decorating -> Prop) `{!PreOrder R} l w :
  (forall d func w, (d, func) ∈ l -> R w (snd (decorate d func w))) -> R w (run_decorations l w).
Proof using Type.
  revert w. induction l as [|[d func] l IH]; intros w H; cbn [run_decorations]; [reflexivity|].
  etransitivity; [apply H; left|]. apply IH. intros d' g w' Hin. apply H. by right.
Qed.

(** The state of a decorator object before its first use. *)
Definition undecorated (config : SecurityConfig) (w : Decorating) : Prop := dg_decorator w = SecurityDecorator_init config.

(** Every route has an owner. *)
Lemma decorated_owned config l w : undecorated config w ->
  dkeys (routes (run_decorations l w)) = dkeys (owners (run_decorations l w)).
Proof using Type.
  intros Hw. pose (R := fun w w' : Decorating => dkeys (routes w) = dkeys (owners w) -> dkeys (routes w') = dkeys (owners w')).
  assert (PreOrder R) as HR by (split; [by intros ? H|by intros ? ? ? H1 H2 H; apply H2, H1]).
  apply (run_decorations_ind R l w); [|by rewrite Hw]. intros d func w' _ Hk. by apply (lo_owned _ _ _ _ (decoration_local d func w')).
Qed.

(** What the decorations of functions that do not lead to [owner] leave alone. *)
Record apart (r : string) (owner : Z) (funcs : list Z) (w w' : Decorating) : Prop := {
  ap_unstamped : unstamped (dg_functions w') = unstamped (dg_functions w);
  ap_stamps g : g ∉ funcs -> stamp_of (dg_functions w') g = stamp_of (dg_functions w) g;
  ap_owner : dget r (owners w') = dget r (owners w);
  ap_route : dget r (routes w') = dget r (routes w)
}.

Lemma decoration_apart d func r owner w : dget r (owners w) = Some owner -> r ∈ dkeys (routes w) ->
  owner ∉ chain_of (dg_functions w) func -> apart r owner [func] w (snd (decorate d func w)).
Proof using Type.
  intros Ho Hr Hch. destruct (decoration_local d func w) as [Hu Hs Hc Hothers Hown Hod Hk].
  assert (id_of w func <> r) as Hne.
  { intros He. destruct (get_route_id_cases (dg_functions w) (dg_decorator w) func) as [(_ & _ & Hob)|Hf].
    - unfold owned_by in Hob. rewrite He, Ho in Hob. by apply bool_decide_eq_true in Hob.
    - rewrite He in Hf. apply dmem_elem in Hr. congruence. }
  split; [done| | |by apply Hothers].
  - intros g Hg. apply Hs. intros ->. apply Hg. by left.
  - apply Hown. destruct (decide (r ∈ dkeys (owners w))) as [?|Hn]; [done|]. apply dget_None in Hn. congruence.
Qed.

Lemma decorations_apart l r owner w : dget r (owners w) = Some owner -> r ∈ dkeys (routes w) ->
  Forall (fun p => owner ∉ chain_of (dg_functions w) (snd p)) l -> apart r owner (map snd l) w (run_decorations l w).
Proof using Type.
  revert w. induction l as [|[d func] l IH]; intros w Ho Hr Hall; cbn [run_decorations map]; [by split|].
  apply Forall_cons in Hall as [Hch Hall]. destruct (decoration_apart d func r owner w Ho Hr Hch) as [Hu Hs Hown Hroute].
  destruct (IH (snd (decorate d func w))) as [Hu' Hs' Hown' Hroute'].
  - congruence.
  - apply dmem_elem. unfold dmem. rewrite Hroute. by apply dmem_elem in Hr.
  - eapply Forall_impl; [exact Hall|]. intros p Hp. by rewrite (chain_unstamped _ (dg_functions w)).
  - split; try congruence. intros g Hg. apply not_elem_of_cons in Hg as [Hg1 Hg2]. rewrite Hs' by done. apply Hs. set_solver.
Qed.

(** C7: the rules of a route stay with its function.  Every route that a decorator object
    has made belongs to a function, and whatever decorations follow of other functions -
    those of the same name and those that carry the same identifier included, those
    that wrap it excepted - the route keeps its rules, and the functions that had the
    route keep it. *)
Theorem decorations_stay_on_their_route config l0 w0 r rc :
  undecorated config w0 -> let w := run_decorations l0 w0 in get_route_config r (dg_decorator w) = Some rc ->
  exists owner, dget r (owners w) = Some owner /\
    forall l, Forall (fun p => owner ∉ chain_of (dg_functions w) (snd p)) l -> let w' := run_decorations l w in
    get_route_config r (dg_decorator w') = Some rc /\
    forall func, id_of w func = r -> func ∉ map snd l -> id_of w' func = r.
Proof using Type.
  intros Hw0 w Hrc. unfold get_route_config in *.
  assert (dmem r (routes w) = true) as Hr by (unfold dmem; by rewrite Hrc).
  destruct (dget r (owners w)) as [owner|] eqn:Ho.
  2: { apply dmem_elem in Hr. unfold w in Hr. rewrite (decorated_owned config l0 w0 Hw0) in Hr. apply dget_None in Ho. by destruct Ho. }
  exists owner. split; [done|]. intros l Hall. set (w' := run_decorations l w).
  destruct (decorations_apart l r owner w Ho) as [Hu Hs Hown Hroute]; [by apply dmem_elem|done|]. fold w' in Hu, Hs, Hown, Hroute.
  split; [by rewrite Hroute|]. intros func Hid Hf.
  destruct (get_route_id_cases (dg_functions w) (dg_decorator w) func) as [(Hst & _ & Hob)|Hfr]; [|congruence].
  rewrite Hid in Hst, Hob. unfold _get_route_id. cbv zeta. rewrite Hs, Hst by done.
  unfold dmem, owned_by in *. rewrite Ho in Hob. by rewrite Hroute, Hrc, Hown, Ho, (chain_unstamped _ (dg_functions w)), Hob.
Qed.

(** * The pipeline notices *)

(** The counter of changes, and what is built from the configurations. *)
Definition noticed (w w' : Decorating) : Prop :=
  (revision w <= revision w')%Z /\
  (revision w' = revision w -> map counted (map snd (routes w')) = map counted (map snd (routes w))).

#[export] Instance noticed_preorder : PreOrder noticed.
Proof using Type.
  split; [by split|]. intros w1 w2 w3 [Hle1 H1] [Hle2 H2]. split; [lia|]. intros H. rewrite H2, H1 by lia. done.
Qed.

Lemma counted_alter r f l : (forall rc, counted (f rc) = counted rc) ->
  map counted (map snd (alter_route r f l)) = map counted (map snd l).
Proof using Type.
  intros Hf. unfold alter_route. destruct (dget r l) as [rc|] eqn:Hr; [|done]. induction l as [|[k v] l IH]; [done|].
  cbn [dget dset] in *. case_decide; cbn [map snd]; [injection Hr as ->; by rewrite Hf|by rewrite IH].
Qed.

Lemma decoration_noticed d func : keeps noticed (decorate d func).
Proof using Type.
  destruct (decorate_shape d) as (pre & body & [Hrun Hpre Hbody]). intros w. rewrite Hrun. revert w.
  match goal with |- forall w, noticed w (snd (?m w)) => enough (keeps noticed m) by done end.
  assert (ignores_sys noticed) as Hsys.
  { intros A m [s fs d']. unfold d_sys, zoom. cbn. destruct (m s). by split. }
  apply keeps_bind; [exact _|by apply Hpre; [exact _|]|intros _]. unfold decorator. apply keeps_bind; [exact _| |intros r].
  - assert (forall func r, keeps noticed (stamp func r)) as Hst by (intros g r [s fs d']; by split).
    unfold _ensure_route_config, d_route_id. keeps_steps; auto.
    + intros [s fs [[] ow rev]]. split; cbn; [lia|]. intros H. lia.
    + intros [s fs d']. by split.
  - apply keeps_bind; [exact _| |intros _].
    + apply Hbody; [exact _|done| |].
      * intros f _ [s fs [[] ow rev]]. split; cbn; [lia|]. intros Heq. lia.
      * intros f _ Hf [s fs [[] ow rev]]. split; cbn; [lia|]. intros _. by apply counted_alter.
    + unfold _apply_route_config, d_route_id. keeps_steps. intros [s fs d']. by split.
Qed.

(** * Presence-only authorization *)

(** [require_authorization_header] only asks for a header: not on a route whose
    credentials are verified. *)
Definition modes_exclude (rc : RouteConfig) : Prop :=
  is_some (rc_authorization_header_required rc) && (is_some (rc_auth_required rc) || rc_api_key_required rc) = false.

Definition all_exclude (w : Decorating) : Prop := forall r rc, dget r (routes w) = Some rc -> modes_exclude rc.

Lemma modes_of_auth rc rc' : auth_of rc = auth_of rc' -> modes_exclude rc -> modes_exclude rc'.
Proof using Type. unfold auth_of, modes_exclude. by intros [= -> -> ->]. Qed.

Lemma exclude_alter r f l : (forall rc, auth_of (f rc) = auth_of rc) ->
  (forall r' rc, dget r' l = Some rc -> modes_exclude rc) -> forall r' rc, dget r' (alter_route r f l) = Some rc -> modes_exclude rc.
Proof using Type.
  intros Hf Hl r' rc. destruct (decide (r' = r)) as [->|Hr]; [|rewrite dget_alter_ne by done; apply Hl].
  rewrite dget_alter. destruct (dget r l) as [rc0|] eqn:H0; [|done]. intros [= <-].
  apply (modes_of_auth rc0); [by rewrite Hf|by eapply Hl].
Qed.

#[local] Abbreviation R := (stays all_exclude).

Lemma stamp_excludes func r : keeps R (stamp func r).
Proof using Type. by intros [s fs d] H. Qed.

Lemma ensure_excludes func : keeps R (_ensure_route_config func).
Proof using Type.
  unfold _ensure_route_config, d_route_id. keeps_steps; try apply stamp_excludes.
  - intros [s fs [[] ow rev]] H r rc. cbn in *. destruct (decide (r = a)) as [->|Hr]; [|rewrite dget_dset_ne by done; apply H].
    rewrite dget_dset_eq. by intros [= <-].
  - by intros [s fs [[] ow rev]] H.
Qed.

Lemma apply_excludes func : keeps R (_apply_route_config func).
Proof using Type. unfold _apply_route_config, d_route_id. keeps_steps. apply stamp_excludes. Qed.

Lemma d_sys_excludes : ignores_sys R.
Proof using Type. intros A m [s fs d] H. unfold d_sys, zoom. cbn. by destruct (m s). Qed.

Lemma plain_decoration_excludes d func : is_auth d = false -> keeps R (decorate d func).
Proof using Type.
  intros Hd. destruct (decorate_shape d) as (pre & body & [Hrun Hpre Hbody]). intros w. rewrite Hrun. revert w.
  match goal with |- forall w, R w (snd (?m w)) => enough (keeps R m) by done end.
  apply keeps_bind; [exact _|apply Hpre; [exact _|apply d_sys_excludes]|intros _]. unfold decorator.
  apply keeps_bind; [exact _|apply ensure_excludes|intros r]. apply keeps_bind; [exact _| |intros _; apply apply_excludes].
  apply Hbody; [exact _|apply d_sys_excludes|intros f Hf|intros f Hf _];
    intros [s fs [[] ow rev]] H; exact (exclude_alter r f _ (Hf Hd) H).
Qed.

(** While a configuration is written, the others are right. *)
Definition others_exclude (r : string) (w : Decorating) : Prop :=
  forall r' rc, r' <> r -> dget r' (routes w) = Some rc -> modes_exclude rc.

Lemma writing_step r f (k : D unit) w w2 : (write_attr r f ;;; k)%guard w = (Ok tt, w2) -> others_exclude r w ->
  exists w1, k w1 = (Ok tt, w2) /\ others_exclude r w1.
Proof using Type.
  intros ([] & w1 & H1 & Hk)%bind_ok_inv Ho. exists w1. split; [done|]. intros r' rc Hr Hg. apply (Ho r' rc Hr).
  pose proof (write_attr_within r f w) as Hw. rewrite H1 in Hw. by rewrite <- (wi_others _ _ _ Hw r' Hr).
Qed.

Lemma exclusive_ends r clash message w w2 : exclusive r clash message w = (Ok tt, w2) -> others_exclude r w ->
  (forall rc, clash rc = false -> modes_exclude rc) -> all_exclude w2.
Proof using Type.
  unfold exclusive, read_route, bind, gets. destruct (clash _) eqn:Hc; [done|]. intros [= <-] Ho Hx r' rc Hg.
  destruct (decide (r' = r)) as [->|Hr]; [|by apply (Ho r')]. apply Hx. unfold get_route_config in Hc. by rewrite Hg in Hc.
Qed.

Lemma auth_decoration_excludes d func w w2 : is_auth d = true -> decorate d func w = (Ok tt, w2) -> all_exclude w -> all_exclude w2.
Proof using Type.
  intros Hd Hrun Hw.
  assert (exists body, decorate d func = decorator body func /\
    forall r wa wb, body r wa = (Ok tt, wb) -> others_exclude r wa -> all_exclude wb) as (body & Hdec & Hbody).
  { destruct d; try done; (eexists; split; [reflexivity|]); intros r wa wb Hb Ho; cbn beta in Hb;
      repeat (apply writing_step in Hb as (? & Hb & ?); [|assumption]);
      (eapply exclusive_ends; [exact Hb|assumption|]); unfold modes_exclude; intros rc ->; try done.
    by destruct (is_some (rc_authorization_header_required rc)). }
  rewrite Hdec in Hrun. unfold decorator in Hrun. apply bind_ok_inv in Hrun as (r & w1 & H1 & Hrun).
  apply bind_ok_inv in Hrun as ([] & w3 & H3 & Hrun).
  pose proof (apply_excludes func w3) as Ha. rewrite Hrun in Ha. apply Ha, (Hbody _ _ _ H3). intros r' rc _ Hg.
  pose proof (ensure_excludes func w) as He. rewrite H1 in He. exact (He Hw r' rc Hg).
Qed.

(** C8: presence-only authorization is never combined with authentication: in an
    application whose decorations were all accepted, no route has both, in whichever
    order they are written and however often. *)
Theorem authorization_modes_exclude config w0 l : undecorated config w0 ->
  let run := for_each l (fun p => decorate (fst p) (snd p)) w0 in
  fst run = Ok tt -> forall r rc, get_route_config r (dg_decorator (snd run)) = Some rc -> modes_exclude rc.
Proof using Type.
  intros Hw0 run Hrun r rc Hg. enough (all_exclude (snd run)) as H by (by apply (H r)). clear Hg.
  assert (all_exclude w0) as H0 by (intros r' rc'; by rewrite Hw0). clear Hw0. subst run. revert w0 Hrun H0.
  induction l as [|[d func] l IH]; intros w0 Hrun H0; [done|]. cbn [for_each fst snd] in *.
  unfold bind in *. destruct (decorate d func w0) as [[[]|e] w1] eqn:Hd; cbn [fst] in *; [|done].
  apply IH; [exact Hrun|]. destruct (is_auth d) eqn:Ha; [by eapply auth_decoration_excludes|].
  pose proof (plain_decoration_excludes d func Ha w0) as Hk. rewrite Hd in Hk. by apply Hk.
Qed.
End facts.

(** * Rules that come late *)

Section late.
Context `{Eng : Engine} `{C : !TTLCache string Z BAN_CACHE_SIZE (seconds LOCAL_CACHE_TTL_CAP_SECONDS)}
  `{P : !TTLCache string bool PATH_CACHE_SIZE PATH_CACHE_TTL}
  `{HC : !TTLCache string headers HEADERS_CACHE_SIZE HEADERS_CACHE_TTL}.
Context `{SS : !ScanServices} `{PS : !PatternSafety}.

(** The middleware with the decorator object as it is now. *)
Definition decorated_by (mw : Middleware) (w : Decorating) : Middleware := mw {{ mw_decorator := Some (sd_base (dg_decorator w)) }}.

Lemma existsb_image {A B} (g : A -> B) p l l' : (forall x y, g x = g y -> p x = p y) -> map g l = map g l' -> existsb p l = existsb p l'.
Proof using Type.
  intros Hp. revert l'. induction l as [|x l IH]; intros [|y l']; try done. cbn [map existsb]. intros [= H Hl].
  by rewrite (Hp x y H), (IH l').
Qed.

Lemma existsb_counted p l l' : (forall rc, p (counted rc) = p rc) -> map counted l = map counted l' -> existsb p l = existsb p l'.
Proof using Type. intros Hp. apply existsb_image. intros x y H. by rewrite <- (Hp x), <- (Hp y), H. Qed.

(** Which checks apply is a matter of what is counted. *)
Lemma applies_counted c config l l' : c ∈ DEFAULT_CHECK_CLASSES -> map counted l = map counted l' ->
  applies_to c config (Some l) = applies_to c config (Some l').
Proof using Type.
  intros Hc Hl. apply list_elem_of_In in Hc. unfold DEFAULT_CHECK_CLASSES in Hc. cbn [List.In] in Hc.
  repeat (destruct Hc as [<-|Hc];
    [cbv beta delta [applies_to always on_routes RateLimitCheck_applies CloudCheck_applies route_config_applies] iota;
     repeat match goal with |- context [existsb ?p l] => rewrite (existsb_counted p l l' (fun rc => eq_refl) Hl) end; reflexivity|]).
  done.
Qed.

Lemma build_checks_counted mw w w' : map counted (map snd (routes w')) = map counted (map snd (routes w)) ->
  _build_checks (decorated_by mw w') = _build_checks (decorated_by mw w).
Proof using Type.
  intros Hl. unfold _build_checks. apply List.filter_ext_in. intros c Hc. apply list_elem_of_In in Hc.
  by apply applies_counted.
Qed.

(** The pipeline that an application builds before its last decorations. *)
Lemma late_checks mw l w0 w1 rev rev' : w1 = run_decorations l w0 ->
  pl_checks (current_pipeline (Some (default_source (decorated_by mw w1) rev' (Some (revision w1))))
    (build_default_pipeline (decorated_by mw w0) rev (Some (revision w0)))) = _build_checks (decorated_by mw w1).
Proof using Type.
  intros ->. set (w1 := run_decorations l w0). unfold current_pipeline. cbn [_rebuild_checks default_source].
  destruct (_is_stale _ _) eqn:Hs; [reflexivity|]. cbn [build_default_pipeline pipeline_of pl_checks].
  assert (noticed w0 w1) as [_ Hn] by (apply (run_decorations_ind noticed); intros; apply decoration_noticed).
  symmetry. apply build_checks_counted, Hn. unfold _is_stale in Hs. apply orb_false_iff in Hs as [_ Hs].
  apply negb_false_iff, bool_decide_eq_true in Hs. by injection Hs.
Qed.

(** C6: When an application has built its pipeline and then decorates functions, a
    request that the pipeline admits afterwards, in active mode with errors not
    tolerated and outside the excluded paths, meets the rules of its route as they are
    now (the time window at some reading of the clock during the processing): the
    counter of changes makes the pipeline rebuild for every change that matters to it.
    *)
Theorem late_rules_are_enforced mw0 l w0 w1 rev rev' request w w' pl' rc :
  w1 = run_decorations l w0 ->
  passive_mode (mw_config mw0) = false -> fail_secure (mw_config mw0) = true -> redis_fail_open (mw_config mw0) = false ->
  st_exclusion_scoped (w_state w) = false ->
  let mw := decorated_by mw0 w1 in
  execute mw (Some (default_source mw rev' (Some (revision w1)))) request
    (w, build_default_pipeline (decorated_by mw0 w0) rev (Some (revision w0))) = (Ok None, (w', pl')) ->
  st_route_config (w_state w') = Some rc -> route_known mw w' ->
  meets_route_rules mw request rc.
Proof using Type.
  intros Hw1 Hp Hf Hr Hs mw Hex Hrc Hk. eapply (admission_meets_rules mw); try exact Hex; try done.
  - by eexists.
  - by apply (late_checks mw0 l).
Qed.
End late.

(** * Witnesses *)

Section witness.
#[local] Instance env : Env := sample_env (ticking 1000) redis_up.
#[local] Instance engine : Engine := sample_engine (ticking 1000) redis_up.
#[local] Instance ban_cache : TTLCache string Z BAN_CACHE_SIZE (seconds LOCAL_CACHE_TTL_CAP_SECONDS) := sample_ban_cache.
#[local] Instance path_cache : TTLCache string bool PATH_CACHE_SIZE PATH_CACHE_TTL := sample_path_cache.
#[local] Existing Instance sample_headers_cache.
#[local] Instance decorator_services : ScanServices := scan_services.
#[local] Instance safe_patterns : PatternSafety := fun pattern _ => ret (negb (contains "+)+" pattern), "nested quantifiers").

(** Two functions of the same name, and one that wraps the first and has copied its
    attributes. *)
Definition views : Functions :=
  [(1%Z, mkFunction "app.vault" None None); (2%Z, mkFunction "app.vault" None None);
   (3%Z, mkFunction "app.vault" (Some "app.vault") (Some 1%Z))].

Definition fresh_app : Decorating := mkDecorating (sample_sys (ticking 1000) redis_up) views (SecurityDecorator_init plain_config).

Definition guarded : list (decoration * Z) :=
  [(RequireHttps, 1%Z); (RequireAuth "bearer" (Some "check_token"), 1%Z); (MaxRequestSize 1000, 3%Z)].

Example names_are_told_apart :
  let w := run_decorations (guarded ++ [(RequireHttps, 2%Z)]) fresh_app in
  map (fun func => id_of w func) [1; 2; 3]%Z = ["app.vault"; "app.vault#2"; "app.vault"] /\ dkeys (routes w) = ["app.vault"; "app.vault#2"].
Proof. vm_compute. split; reflexivity. Qed.

Definition guarded_rules : RouteConfig :=
  RouteConfig_init {{ rc_require_https := true; rc_auth_required := Some "bearer"; rc_auth_verifier := Some "check_token";
                      rc_max_request_size := Some 1000%Z }}.

Lemma decorations_stay_on_their_route_witness :
  get_route_config "app.vault" (dg_decorator (run_decorations [(Bypass ["all"], 2%Z)] (run_decorations guarded fresh_app))) =
  Some guarded_rules.
Proof.
  destruct (decorations_stay_on_their_route plain_config guarded fresh_app "app.vault" guarded_rules) as (owner & Ho & H);
    [reflexivity|reflexivity|].
  apply (H [(Bypass ["all"], 2%Z)]). assert (owner = 1%Z) as -> by (apply (inj Some); rewrite <- Ho; vm_compute; reflexivity).
  constructor; [|constructor].
  apply (bool_decide_unpack _). vm_compute. exact I.
Defined.

Lemma authorization_modes_exclude_witness :
  modes_exclude (RouteConfig_init {{ rc_authorization_header_required := Some "bearer" }}).
Proof.
  apply (authorization_modes_exclude plain_config fresh_app
    [(RequireAuth "bearer" (Some "check_token"), 1%Z); (RequireAuthorizationHeader "bearer", 2%Z)]) with (r := "app.vault#2"); reflexivity.
Defined.

(** The combination raises, in either order, after it has been written. *)
Example modes_clash :
  let both l := fst (for_each l (fun d => decorate d 1%Z) fresh_app) in
  is_shown (both [RequireAuth "bearer" None; RequireAuthorizationHeader "bearer"]) = false /\
  is_shown (both [RequireAuthorizationHeader "bearer"; ApiKeyAuth "X-API-Key" None]) = false.
Proof. vm_compute. split; reflexivity. Qed.

Definition late_app : Decorating := run_decorations guarded fresh_app.
Definition late_world : World := sample_world (ticking 1000) redis_up plain_config (Some "app.vault").

Lemma late_rules_are_enforced_witness :
  meets_route_rules (decorated_by (sample_middleware plain_config) late_app) vault_request guarded_rules.
Proof.
  pose (mw := decorated_by (sample_middleware plain_config) late_app).
  pose (run := execute mw (Some (default_source mw 0 (Some (revision late_app)))) vault_request
    (late_world, build_default_pipeline (decorated_by (sample_middleware plain_config) fresh_app) 0 (Some (revision fresh_app)))).
  apply (late_rules_are_enforced (sample_middleware plain_config) guarded fresh_app late_app 0 0 vault_request late_world
    (fst (snd run)) (snd (snd run))); try reflexivity.
  - intros d rc Hd Hrc. change (Some (sd_base (dg_decorator late_app)) = Some d) in Hd. apply (inj Some) in Hd as <-.
    assert (st_route_config (w_state (fst (snd run))) = Some guarded_rules) as Hv by (vm_compute; reflexivity).
    rewrite Hv in Hrc. apply (inj Some) in Hrc as <-.
    assert (map snd (_route_configs (sd_base (dg_decorator late_app))) = [guarded_rules]) as -> by (vm_compute; reflexivity). left.
Defined.
End witness.
