(* ===== verification/Honeypot.v ===== *)
(** Honeypots ([honeypot_detection] of [guard_core/decorators/advanced.py]): fields that
    no one sees; a form or JSON body that fills one of them is refused. *)
From S2P Require Import Prelude PyStr PyDict Json JsonPattern Sys Sample Config Url Redaction RedactionFacts Request DetectionConfig BodyReader Scan.
From S2P Require Import IpBan RateLimit TTL IpAddr IpAddrText Redis IpExtraction Cloud SecurityHeaders AccessControl Middleware SampleScan.

(** * [urllib.parse.parse_qs] *)

Section forms.
Context `{TS : TextServices}.

(** [parse_qsl], without blank values *)
Definition parse_pair (name_value : string) : option (string * string) :=
  match partition_char "=" name_value with
  | Some (name, String _ _ as value) => Some (unquote_plus name, unquote_plus value)
  | _ => None
  end.

Definition parse_filled (qs : string) : list (string * string) := omap parse_pair (split_on "&" qs).

(** The first values of [parse_qs] *)
Fixpoint first_values (pairs : list (string * string)) (seen : list (string * string)) : list (string * string) :=
  match pairs with
  | [] => seen
  | (name, value) :: pairs' => first_values pairs' (if dmem name seen then seen else dset name value seen)
  end.
End forms.

(** * The validator *)

Section honeypot.
Context `{RB : RequestBody} `{!Detector} `{SS : !ScanServices}.

(** [field in data and data\[field\]] *)
Definition json_field_filled (data : json) (field : string) : res bool :=
  match data with
  | JObj members => Ok (match dget field members with Some value => json_truth float_repr value | None => false end)
  | JArr items =>
      if existsb (fun item => json_eqb item (JStr field)) items
      then Raise (TypeError "list indices must be integers or slices, not str") else Ok false
  | JStr s => if contains field s then Raise (TypeError "string indices must be integers, not 'str'") else Ok false
  | _ => Raise (TypeError "argument of this type is not iterable")
  end.

Fixpoint json_trap_filled (data : json) (trap_fields : list string) : res bool :=
  match trap_fields with
  | [] => Ok false
  | field :: trap_fields' =>
      match json_field_filled data field with
      | Ok true => Ok true
      | Ok false => json_trap_filled data trap_fields'
      | Raise e => Raise e
      end
  end.

Definition _SimpleResponse (content : string) (status_code : Z) : Response := mkResponse status_code content [].

(** The surroundings, and the prefix of the body kept with the request *)
#[local] Abbreviation R := (M (Sys * option (Z * string))).

Definition _validate_form_data (trap_fields : list string) (raw_body : string) : Validation :=
  let flat := first_values (parse_filled (decode_surrogateescape raw_body)) [] in
  if existsb (fun field => match dget field flat with Some value => truthy value | None => false end) trap_fields
  then Blocking (_SimpleResponse "Forbidden" 403) else Falsy.

Definition is_type_error (e : exn) : bool := match e with TypeError _ => true | _ => false end.

Definition _validate_json_data (trap_fields : list string) (raw_body : string) : R Validation :=
  catch (fun e => is_json_decode_error e || is_type_error e || is_recursion_error e)
    (let* json_data := lift_res (json_loads (decode_surrogateescape raw_body)) in
     let* filled := lift_res (json_trap_filled json_data trap_fields) in
     ret (if filled : bool then Blocking (_SimpleResponse "Forbidden" 403) else Falsy))
    (fun exc => r_io (log DEBUG ("honeypot_detection: skipping unparsable JSON body: " +:+ exn_message exc)) ;;; ret Falsy).

Definition honeypot_validator (trap_fields : list string) (config : SecurityConfig) (request : Request) : R Validation :=
  if negb (in_list (rq_method request) ["POST"; "PUT"; "PATCH"]) then ret Falsy
  else
    let* raw_body := _read_capped_body request (Some config) "" in
    match raw_body with
    | None => ret Falsy
    | Some raw_body =>
        let content_type := header_or request "content-type" "" in
        if contains "application/x-www-form-urlencoded" content_type then ret (_validate_form_data trap_fields raw_body)
        else if contains "application/json" content_type then _validate_json_data trap_fields raw_body
        else ret Falsy
    end.
End honeypot.

(** * What it refuses *)

(** [urllib.parse.urlencode] *)
Definition urlencode (pairs : list (string * string)) : string :=
  join "&" (map (fun p => quote_plus (fst p) +:+ "=" +:+ quote_plus (snd p)) pairs).

Definition ascii_text (s : string) : bool := sforall is_ascii_char s.

Section encoding.
Context `{TS : TextServices}.

(** A character as it is sent, once plus signs are spaces again. *)
Definition sent (c : ascii) : string := smap (fun a => if Ascii.eqb a "+" then " "%char else a) (if Ascii.eqb c " " then "+" else quote_char c).

Definition decodes_to (c : ascii) (s : string) : bool :=
  match s with
  | String d "" => Ascii.eqb d c && negb (Ascii.eqb d "%")
  | String d (String a (String b "")) =>
      Ascii.eqb d "%" && match hex_value a, hex_value b with Some x, Some y => Ascii.eqb (chr (16 * x + y)) c | _, _ => false end
  | _ => false
  end.

Lemma sent_decodes c : is_ascii_char c = true -> decodes_to c (sent c) = true.
Proof using Type. destruct c as [[] [] [] [] [] [] [] []]; vm_compute; congruence. Qed.

Lemma decodes_to_spec c s t : decodes_to c s = true -> unquote_to_bytes (s +:+ t) = String c (unquote_to_bytes t).
Proof using Type.
  unfold decodes_to. destruct s as [|d [|a [|b [|? ?]]]]; try done.
  - intros [->%Ascii.eqb_eq Hp%negb_true_iff]%andb_prop. change (String c "" +:+ t) with (String c t). cbn [unquote_to_bytes]. by rewrite Hp.
  - intros [->%Ascii.eqb_eq H]%andb_prop. change (String "%" (String a (String b "")) +:+ t) with (String "%" (String a (String b t))).
    cbn [unquote_to_bytes]. rewrite Ascii.eqb_refl. destruct (hex_value a), (hex_value b); try done. by apply Ascii.eqb_eq in H as ->.
Qed.

Definition is_separator (c : ascii) : bool := Ascii.eqb c "&" || Ascii.eqb c "=".

Lemma quoted_chars c : is_ascii_char c = true ->
  sforall (fun a => is_ascii_char a && negb (is_separator a)) (if Ascii.eqb c " " then "+" else quote_char c) = true.
Proof using Type. destruct c as [[] [] [] [] [] [] [] []]; vm_compute; congruence. Qed.

Lemma quote_plus_chars s : ascii_text s = true -> sforall (fun a => is_ascii_char a && negb (is_separator a)) (quote_plus s) = true.
Proof using Type.
  induction s as [|c s IH]; [done|]. intros [Hc Hs]%andb_prop. cbn [quote_plus]. rewrite sforall_app, quoted_chars by done. by apply IH.
Qed.

Lemma smap_app f s t : smap f (s +:+ t) = smap f s +:+ smap f t.
Proof using Type. induction s as [|c s IH]; [done|]. change (String (f c) (smap f (s +:+ t)) = String (f c) (smap f s +:+ smap f t)). by rewrite IH. Qed.

Lemma sforall_weaken (p q : ascii -> bool) s : (forall c, p c = true -> q c = true) -> sforall p s = true -> sforall q s = true.
Proof using Type. intros H. induction s as [|c s IH]; [done|]. intros [Hc Hs]%andb_prop. cbn. by rewrite (H c Hc), IH. Qed.

Lemma smap_ascii s : ascii_text s = true -> ascii_text (replace_char "+" " " s) = true.
Proof using Type.
  unfold ascii_text, replace_char. induction s as [|c s IH]; [done|]. intros [Hc Hs]%andb_prop. cbn [smap sforall]. rewrite IH by done.
  by destruct (Ascii.eqb c "+"); rewrite ?Hc.
Qed.

(** Text in ASCII is one run. *)
Lemma ascii_runs_whole s : ascii_text s = true -> s <> "" -> ascii_runs s = [(true, s)].
Proof using Type.
  unfold ascii_text. induction s as [|c s IH]; [done|]. intros [Hc Hs]%andb_prop _. cbn [ascii_runs].
  destruct s as [|d s]; [by rewrite Hc|]. rewrite IH by done. by rewrite Hc.
Qed.

Lemma unquote_no_percent s : has_char "%" s = false -> unquote_to_bytes s = s.
Proof using Type.
  induction s as [|c s IH]; [done|]. cbn [has_char unquote_to_bytes]. intros [Hc Hs]%orb_false_iff. by rewrite Hc, IH.
Qed.

(** What is sent comes back. *)
Lemma unquote_quoted s : ascii_text s = true -> unquote_plus (quote_plus s) = s.
Proof using Type.
  intros Hs. set (q := replace_char "+" " " (quote_plus s)).
  assert (unquote_to_bytes q = s) as Hq.
  { unfold q, replace_char. clear q. induction s as [|c s IH]; [done|]. apply andb_prop in Hs as [Hc Hs]. cbn [quote_plus].
    rewrite smap_app. fold (sent c). rewrite (decodes_to_spec c) by by apply sent_decodes. by rewrite IH. }
  assert (ascii_text q = true) as Ha.
  { apply smap_ascii. eapply sforall_weaken, quote_plus_chars; [|done]. by intros c [? _]%andb_prop. }
  unfold unquote_plus, unquote, unquote_with. fold q. destruct (has_char "%" q) eqn:Hp; [|by rewrite unquote_no_percent in Hq].
  rewrite ascii_runs_whole; [|done|by intros Hn; rewrite Hn in Hp]. cbn [map fst snd String.concat]. by rewrite Hq, decode_ascii.
Qed.

Lemma no_separator c s : is_separator c = true -> ascii_text s = true -> has_char c (quote_plus s) = false.
Proof using Type.
  intros Hc Hs%quote_plus_chars. eapply sforall_no_char; [exact Hs|]. cbv beta. rewrite Hc. by rewrite andb_false_r.
Qed.

Lemma partition_app c s t : has_char c s = false -> partition_char c (s +:+ String c t) = Some (s, t).
Proof using Type.
  induction s as [|a s IH].
  { intros _. change (partition_char c (String c t) = Some ("", t)). cbn [partition_char]. by rewrite Ascii.eqb_refl. }
  cbn [has_char]. intros [Ha Hs]%orb_false_iff.
  change (partition_char c (String a (s +:+ String c t)) = Some (String a s, t)). cbn [partition_char]. by rewrite Ha, IH.
Qed.

(** The pairs that are not blank come back. *)
Lemma parse_urlencode pairs : forallb (fun p => ascii_text (fst p) && ascii_text (snd p)) pairs = true ->
  parse_filled (urlencode pairs) = List.filter (fun p => truthy (snd p)) pairs.
Proof using Type.
  intros Hp. unfold parse_filled, urlencode. destruct pairs as [|p0 pairs0]; [done|]. set (pairs := p0 :: pairs0) in *.
  rewrite split_on_join; [|done|].
  2: { apply Forall_map, Forall_forall. intros [n v] Hin. rewrite forallb_forall in Hp.
       apply list_elem_of_In, Hp, andb_prop in Hin as [Hn Hv]. cbn [fst snd]. rewrite has_char_app. apply orb_false_iff. split; [by apply no_separator|].
       cbn. by apply no_separator. }
  clearbody pairs. clear p0 pairs0. induction pairs as [|[n v] pairs IH]; [done|]. apply andb_prop in Hp as [[Hn Hv]%andb_prop Hp].
  cbn [map omap list_omap List.filter fst snd]. unfold parse_pair at 1.
  change ("=" +:+ quote_plus v) with (String "=" (quote_plus v)). rewrite partition_app by by apply no_separator.
  rewrite <- (unquote_quoted v Hv) at 3. destruct (quote_plus v) as [|c w] eqn:Hq.
  - rewrite <- (unquote_quoted v Hv), Hq. cbn. by apply IH.
  - rewrite <- Hq, !unquote_quoted by done. destruct v as [|d v]; [done|]. cbn [truthy]. f_equal. by apply IH.
Qed.
End encoding.

Lemma dget_first l seen f : dget f (first_values l seen) = match dget f seen with Some v => Some v | None => dget f l end.
Proof.
  revert seen. induction l as [|[n v] l IH]; intros seen; cbn [first_values dget]; [by destruct (dget f seen)|].
  rewrite IH. unfold dmem. destruct (dget n seen) as [w|] eqn:Hn.
  - destruct (dget f seen) as [u|] eqn:Hf; [done|]. case_decide; [congruence|done].
  - case_decide as Hd; [subst; by rewrite dget_dset_eq, Hn|]. by rewrite dget_dset_ne.
Qed.

Lemma filled_by f pairs :
  match dget f (List.filter (fun p => truthy (snd p)) pairs) with Some value => truthy value | None => false end =
  existsb (fun p => (fst p =? f)%string && truthy (snd p)) pairs.
Proof.
  induction pairs as [|[n v] pairs IH]; [done|]. cbn [List.filter existsb fst snd]. destruct (truthy v) eqn:Hv.
  - cbn [dget]. rewrite andb_true_r. case_decide as Hd; [subst; by rewrite String.eqb_refl, Hv|].
    rewrite (proj2 (String.eqb_neq n f)) by congruence. exact IH.
  - by rewrite andb_false_r.
Qed.

Section spec.
Context `{RB : RequestBody} `{!Detector} `{SS : !ScanServices}.
(** Text in ASCII is decoded to itself. *)
Context (decode_ascii_text : forall s, ascii_text s = true -> decode_surrogateescape s = s).

Lemma join_ascii sep l : ascii_text sep = true -> forallb ascii_text l = true -> ascii_text (join sep l) = true.
Proof using Type.
  intros Hs. induction l as [|x [|y l] IH]; [done|by intros [? _]%andb_prop|]. intros [Hx Hl]%andb_prop.
  change (ascii_text (x +:+ sep +:+ join sep (y :: l)) = true). unfold ascii_text in *. rewrite !sforall_app, Hx, Hs. by apply IH.
Qed.

Lemma urlencode_ascii pairs : forallb (fun p => ascii_text (fst p) && ascii_text (snd p)) pairs = true -> ascii_text (urlencode pairs) = true.
Proof using Type.
  intros Hp. apply join_ascii; [done|]. rewrite forallb_forall in Hp. apply forallb_forall. intros x [[n v] [<- [Hn Hv]%Hp%andb_prop]]%in_map_iff.
  assert (forall s, ascii_text s = true -> ascii_text (quote_plus s) = true) as Hq.
  { intros s Hs. eapply sforall_weaken, quote_plus_chars; [|done]. by intros c [? _]%andb_prop. }
  unfold ascii_text in *. cbn [fst snd] in *. by rewrite !sforall_app, !Hq.
Qed.

(** C9: A form of ASCII names and values, encoded as browsers encode it, sent with
    POST, PUT or PATCH under a content type that says it is urlencoded and read whole
    by the capped body reader (so not longer than detection_max_body_inspect_bytes
    lets it read), is answered with 403 exactly when one of the trap fields is in it
    with a value that is not empty, wherever it stands in it and however often it
    occurs. *)
Theorem filled_forms_are_refused trap_fields pairs config request p p' :
  in_list (rq_method request) ["POST"; "PUT"; "PATCH"] = true ->
  contains "application/x-www-form-urlencoded" (header_or request "content-type" "") = true ->
  forallb (fun p => ascii_text (fst p) && ascii_text (snd p)) pairs = true ->
  _read_capped_body request (Some config) "" p = (Ok (Some (urlencode pairs)), p') ->
  honeypot_validator trap_fields config request p =
    (Ok (if existsb (fun f => existsb (fun pair => (fst pair =? f)%string && truthy (snd pair)) pairs) trap_fields
         then Blocking (mkResponse 403 "Forbidden" []) else Falsy), p').
Proof using decode_ascii_text.
  intros Hm Hc Hp Hread. unfold honeypot_validator. rewrite Hm. cbn [negb]. rewrite (bind_ok _ _ _ _ _ Hread), Hc.
  unfold ret, _validate_form_data. rewrite decode_ascii_text by by apply urlencode_ascii. rewrite parse_urlencode by done.
  f_equal. f_equal. assert (forall l, existsb (fun field => match dget field (first_values (List.filter (fun p => truthy (snd p)) pairs) [])
    with Some value => truthy value | None => false end) l =
    existsb (fun f => existsb (fun pair => (fst pair =? f)%string && truthy (snd pair)) pairs) l) as ->; [|done].
  intros l. induction l as [|f l IH]; [done|]. cbn [existsb]. by rewrite IH, dget_first, <- filled_by.
Qed.
End spec.

(** * Witnesses *)

Section witness.
#[local] Instance env : Env := sample_env (ticking 1000) redis_up.

(** A server whose requests all have the same body. *)
#[local] Instance body_of (body : string) : RequestBody := {|
  request_body := fun _ => ret (Some body); read_request_prefix := fun _ => Some (fun n => ret (Some (stake (Z.to_nat n) body)))
|}.

Definition post (content_type : string) : Request :=
  {| rq_path := "/signup"; rq_scheme := "https"; rq_method := "POST"; rq_client_host := Some "198.51.100.7";
     rq_headers := [("Content-Type", content_type)]; rq_query_params := []; rq_https_url := "https://app.example/signup";
     rq_url_full := "https://app.example/signup" |}.

Definition tried (body content_type : string) : res Validation :=
  fst (honeypot_validator (RB := body_of body) ["website"] default_config (post content_type) (sample_sys (ticking 1000) redis_up, None)).

Definition signup : list (string * string) := [("name", "Ann & Bob"); ("website", ""); ("website", "http://spam.example/?a=b")].

Lemma filled_forms_are_refused_witness :
  fst (honeypot_validator (RB := body_of (urlencode signup)) ["website"] default_config (post "application/x-www-form-urlencoded")
    (sample_sys (ticking 1000) redis_up, None)) = Ok (Blocking (mkResponse 403 "Forbidden" [])).
Proof.
  rewrite (filled_forms_are_refused (RB := body_of (urlencode signup)) (SS := scan_services) (fun s _ => eq_refl) ["website"] signup default_config
    (post "application/x-www-form-urlencoded") (sample_sys (ticking 1000) redis_up, None)
    (snd (_read_capped_body (RB := body_of (urlencode signup)) (post "application/x-www-form-urlencoded") (Some default_config) ""
      (sample_sys (ticking 1000) redis_up, None)))); try reflexivity.
Defined.

(** JSON is looked at too; but a body that names its type in capitals is not, a list
    that holds the field makes the validator give up, and an integer of too many digits
    leaves it. *)
Example json_honeypots :
  let refused := Ok (Blocking (mkResponse 403 "Forbidden" [])) in
  let json := "{" +:+ dump_string "website" +:+ ":1}" in
  tried json "application/json" = refused /\ tried json "Application/JSON" = Ok Falsy /\
  tried ("[" +:+ dump_string "website" +:+ "]") "application/json" = Ok Falsy /\
  tried (String.concat "" (repeat "9" 4301)) "application/json" = Raise TooManyDigits.
Proof. vm_compute. repeat split; reflexivity. Qed.
End witness.
