(* ===== verification/Telemetry.v ===== *)
(** The fan-out of events and metrics to several handlers, and what is added to them on
    the way ([guard_core/core/events/composite_handler.py], [enricher.py]).

    The handlers - the agent, OpenTelemetry, Logfire - are known by names and are a
    parameter: any of their operations may raise, and what they do is their own. *)
From S2P Require Import Prelude PyStr PyDict IpAddr Sys Sample Config Redaction Request IpExtraction TTL Redis IpBan RateLimit Cloud.
From S2P Require Import Json SecurityHeaders AccessControl LiveConfig DynamicRules Middleware Helpers Behavior Responses.

Class TelemetryHandlers `{E : Env} : Type := {
  handler_send_event : string -> agent_event -> M Sys unit;
  handler_send_metric : string -> agent_metric -> M Sys unit;
  handler_initialize_redis : string -> M Sys unit;
  handler_start : string -> M Sys unit;
  handler_stop : string -> M Sys unit;
  handler_flush_buffer : string -> M Sys unit;
  handler_get_dynamic_rules : string -> M Sys (option DynamicRules);
  handler_health_check : string -> M Sys bool
}.

(** * Enrichment *)

(** The fields of the configuration that it reads. *)
Record TelemetryConfig : Type := mkTelemetryConfig {
  agent_project_id : option string;
  otel_service_name : string;
  otel_resource_attributes : list (string * string)
}.

Definition _THREAT_SCORE_MAP : list (string * Z) := [
  ("penetration_attempt", 90); ("ip_banned", 70); ("emergency_mode_activated", 60); ("ip_blocked", 50);
  ("behavioral_violation", 50); ("cloud_blocked", 50); ("country_blocked", 50); ("decorator_violation", 50);
  ("authentication_failed", 50); ("emergency_mode_block", 50); ("dynamic_rule_violation", 50); ("pattern_detected", 50);
  ("suspicious_request", 50); ("dynamic_rule_applied", 40); ("csp_violation", 40); ("content_filtered", 40);
  ("custom_request_check", 40); ("decoding_error", 40); ("redis_error", 40); ("ip_ban_failed", 40);
  ("detection_engine_callback_error", 40); ("pattern_anomaly_timeout", 40); ("pattern_anomaly_slow_execution", 40);
  ("pattern_anomaly_statistical_anomaly", 40); ("access_denied", 30); ("user_agent_blocked", 30); ("security_bypass", 30);
  ("rate_limited", 20); ("geo_lookup_failed", 20); ("redis_connection", 20); ("route_unresolved", 20); ("ip_unbanned", 10);
  ("https_enforced", 10); ("dynamic_rule_updated", 10); ("path_excluded", 10); ("pattern_added", 10); ("pattern_removed", 10);
  ("rate_limit_script_reloaded", 10); ("security_headers_applied", 10)
]%Z.

Definition _DEFAULT_THREAT_SCORE : Z := 20.
Definition _BEHAVIOR_CORRELATION_WINDOW_SECONDS : Z := 300.

Definition score_for (event_type : string) : Z := default _DEFAULT_THREAT_SCORE (dget event_type _THREAT_SCORE_MAP).

Section enricher.
Context `{E : Env} `{P : !TTLCache string bool PATH_CACHE_SIZE PATH_CACHE_TTL}.

(** [EnrichmentContext]; the handlers as they are when an event is enriched. *)
Record EnrichmentContext : Type := mkEnrichment {
  ec_config : TelemetryConfig;
  ec_rules : option DynamicRuleManager;
  ec_tracker : option BehaviorTracker
}.

(** What an event carries besides: [metadata], and the [tags] of a metric. *)
Abbreviation bag := (list (string * string)).

Definition _apply_identity (ctx : EnrichmentContext) (b : bag) : bag :=
  let cfg := ec_config ctx in
  let b := match agent_project_id cfg with Some (String _ _ as id) => dset "guard.project_id" id b | _ => b end in
  let b := dset "guard.service.name" (otel_service_name cfg) b in
  match dget "deployment.environment" (otel_resource_attributes cfg) with
  | Some (String _ _ as env) => dset "guard.deployment.environment" env b
  | _ => b
  end.

Definition _apply_threat_score (e : agent_event) (b : bag) : bag :=
  if truthy (ev_type e) then dset "guard.threat_score" (string_of_Z (score_for (ev_type e))) b else b.

Definition _apply_rule_correlation (ctx : EnrichmentContext) (e : agent_event) (b : bag) : bag :=
  match ec_rules ctx with
  | Some rule_handler =>
      match match_event rule_handler e with
      | Some (rule_id, rule_version) => dset "guard.rule.version" (string_of_Z rule_version) (dset "guard.rule.id" rule_id b)
      | None => b
      end
  | None => b
  end.

Definition _apply_behavior_correlation (ctx : EnrichmentContext) (e : agent_event) (b : bag) : M Sys bag :=
  match ec_tracker ctx with
  | Some tracker =>
      if negb (truthy (ev_ip e)) then ret b
      else
        let window_seconds := _BEHAVIOR_CORRELATION_WINDOW_SECONDS in
        let* count := zoom (fun s => (s, tracker)) (fun p _ => fst p) (get_recent_event_count (ev_ip e) window_seconds) in
        let b := dset "guard.behavior.recent_event_count" (string_of_Z (Z.of_nat count)) b in
        let* now := time_time in
        let bucket := (now / seconds window_seconds)%Z in
        let raw := ev_ip e +:+ "|" +:+ otel_service_name (ec_config ctx) +:+ "|" +:+ string_of_Z bucket in
        ret (dset "guard.behavior.correlation_key" (stake 16 (sha256_hex raw)) b)
  | None => ret b
  end.

(** The event as it is sent on; nothing here raises. *)
Definition enrich_event (ctx : EnrichmentContext) (e : agent_event) : M Sys agent_event :=
  let b := _apply_rule_correlation ctx e (_apply_threat_score e (_apply_identity ctx (ev_meta e))) in
  let* b := _apply_behavior_correlation ctx e b in
  ret (e {{ ev_meta := b }}).

Definition enrich_metric (ctx : EnrichmentContext) (m : agent_metric) : agent_metric := m {{ met_tags ::= _apply_identity ctx }}.
End enricher.

(** * The composite handler *)

Section composite.
Context `{TH : TelemetryHandlers} `{P : !TTLCache string bool PATH_CACHE_SIZE PATH_CACHE_TTL}.

Record CompositeAgentHandler : Type := mkComposite {
  _handlers : list string;
  _event_filter : EventFilter;
  _enricher : option EnrichmentContext;
  _started : bool;
  _failed_handlers : list string
}.

Definition CompositeAgentHandler_init (handlers : list string) (event_filter : option EventFilter)
  (enricher : option EnrichmentContext) : CompositeAgentHandler :=
  mkComposite handlers (default (mkFilter [] []) event_filter) enricher false [].

Definition degraded (c : CompositeAgentHandler) : bool := _started c && nonempty (_failed_handlers c).

(** [try: await handler.<operation>(...)], [except Exception: logger.exception(...)] *)
Definition attempted (failure : string) (m : M Sys unit) : M Sys unit := catch any_exn m (fun _ => log ERROR failure).

Definition composite_send_event (c : CompositeAgentHandler) (e : agent_event) : M Sys unit :=
  if truthy (ev_type e) && negb (is_event_allowed (_event_filter c) (ev_type e)) then ret tt
  else
    let* e := match _enricher c with Some ctx => enrich_event ctx e | None => ret e end in
    for_each (_handlers c) (fun handler => attempted "handler.send_event failed" (handler_send_event handler e)).

Definition composite_send_metric (c : CompositeAgentHandler) (m : agent_metric) : M Sys unit :=
  if truthy (met_type m) && negb (is_metric_allowed (_event_filter c) (met_type m)) then ret tt
  else
    let m := match _enricher c with Some ctx => enrich_metric ctx m | None => m end in
    for_each (_handlers c) (fun handler => attempted "handler.send_metric failed" (handler_send_metric handler m)).

Definition composite_initialize_redis (c : CompositeAgentHandler) : M Sys unit :=
  for_each (_handlers c) (fun handler => attempted "handler.initialize_redis failed" (handler_initialize_redis handler)).

Definition composite_stop (c : CompositeAgentHandler) : M Sys unit :=
  for_each (_handlers c) (fun handler => attempted "handler.stop failed" (handler_stop handler)).

Definition composite_flush_buffer (c : CompositeAgentHandler) : M Sys unit :=
  for_each (_handlers c) (fun handler => attempted "handler.flush_buffer failed" (handler_flush_buffer handler)).

#[local] Abbreviation K := (M (Sys * CompositeAgentHandler)).

Definition start_handler (handler : string) : K unit :=
  catch any_exn (sys (handler_start handler)) (fun e =>
    modify (fun w => (fst w, (snd w) {{ _failed_handlers ::= fun l => l ++ [handler] }})) ;;;
    sys (log ERROR ("Handler " +:+ handler +:+ " failed to start: " +:+ exn_message e))).

Definition composite_start : K unit :=
  modify (fun w => (fst w, (snd w) {{ _failed_handlers := [] }})) ;;;
  let* handlers := gets (fun w => _handlers (snd w)) in
  for_each handlers start_handler ;;;
  modify (fun w => (fst w, (snd w) {{ _started := true }})).

Fixpoint first_rules (handlers : list string) : M Sys (option DynamicRules) :=
  match handlers with
  | [] => ret None
  | handler :: handlers' =>
      let* result := catch any_exn (handler_get_dynamic_rules handler) (fun _ =>
        log ERROR "handler.get_dynamic_rules failed" ;;; ret None) in
      match result with Some rules => ret (Some rules) | None => first_rules handlers' end
  end.

Definition composite_get_dynamic_rules (c : CompositeAgentHandler) : M Sys (option DynamicRules) := first_rules (_handlers c).

Fixpoint health_results (handlers : list string) : M Sys (list bool) :=
  match handlers with
  | [] => ret []
  | handler :: handlers' =>
      let* result := catch any_exn (handler_health_check handler) (fun _ =>
        log ERROR "handler.health_check failed" ;;; ret false) in
      let* results := health_results handlers' in
      ret (result :: results)
  end.

Definition composite_health_check (c : CompositeAgentHandler) : M Sys bool :=
  let* results := health_results (_handlers c) in
  ret (forallb id results).
End composite.

(** * What reaches the handlers *)

Section facts.
Context `{TH : TelemetryHandlers} `{P : !TTLCache string bool PATH_CACHE_SIZE PATH_CACHE_TTL}.

(** Keys of the enrichment. *)
Definition enrichment_key (k : string) : bool := startswith k "guard.".

Lemma dget_enriched k k' v (b : list (string * string)) : enrichment_key k = false -> enrichment_key k' = true ->
  dget k (dset k' v b) = dget k b.
Proof using Type. intros Hk Hk'. apply dget_dset_ne. intros ->. congruence. Qed.

Lemma identity_keeps ctx b k : enrichment_key k = false -> dget k (_apply_identity ctx b) = dget k b.
Proof using Type.
  intros Hk. unfold _apply_identity. cbv zeta. destruct (agent_project_id _) as [[|]|], (dget _ (otel_resource_attributes _)) as [[|]|];
    by rewrite !dget_enriched.
Qed.

Lemma score_keeps e b k : enrichment_key k = false -> dget k (_apply_threat_score e b) = dget k b.
Proof using Type. intros Hk. unfold _apply_threat_score. destruct (truthy _); [by rewrite dget_enriched|done]. Qed.

Lemma rules_keep ctx e b k : enrichment_key k = false -> dget k (_apply_rule_correlation ctx e b) = dget k b.
Proof using Type.
  intros Hk. unfold _apply_rule_correlation. destruct (ec_rules ctx) as [m|]; [|done]. destruct (match_event m e) as [[]|]; [|done].
  by rewrite !dget_enriched.
Qed.

(** An event is only added to. *)
Definition enriched (e e' : agent_event) : Prop :=
  e' {{ ev_meta := ev_meta e }} = e /\ forall k, enrichment_key k = false -> dget k (ev_meta e') = dget k (ev_meta e).

(** What is delivered: [item h e] for each event that a handler is given, none by
    writing to the log or reading the clock. *)
Context {A : Type} (delivered : Sys -> list A) (item : string -> agent_event -> A)
  (Hsend : forall h e s, delivered (snd (handler_send_event h e s)) = delivered s ++ [item h e])
  (Hlog : forall l m s, delivered (snd (log l m s)) = delivered s) (Htime : forall s, delivered (snd (time_time s)) = delivered s).

Lemma behavior_enriches ctx e b s : exists b' s', _apply_behavior_correlation ctx e b s = (Ok b', s') /\
  delivered s' = delivered s /\ forall k, enrichment_key k = false -> dget k b' = dget k b.
Proof using Htime.
  unfold _apply_behavior_correlation. destruct (ec_tracker ctx) as [t|]; [|by eexists b, s].
  destruct (truthy (ev_ip e)) eqn:Hip; cbn [negb]; [|by eexists b, s]. unfold get_recent_event_count. rewrite Hip. cbn [negb].
  assert (forall s0, exists now s1, time_time s0 = (Ok now, s1) /\ delivered s1 = delivered s0) as Hclock.
  { intros s0. pose proof (Htime s0) as Ht. unfold time_time in *. by eexists _, _. }
  destruct (Hclock s) as (now & s1 & H1 & Hd1). destruct (Hclock s1) as (now' & s2 & H2 & Hd2).
  unfold bind, zoom, sys, t_get, gets. cbn [fst snd]. unfold zoom. cbn [fst snd]. rewrite H1. cbn [fst snd]. rewrite H2.
  eexists _, s2. split; [reflexivity|]. split; [congruence|]. intros k Hk. by rewrite !dget_enriched.
Qed.

Lemma enrich_event_run ctx e s : exists e' s', enrich_event ctx e s = (Ok e', s') /\ delivered s' = delivered s /\ enriched e e'.
Proof using Htime.
  unfold enrich_event. cbv zeta. edestruct behavior_enriches as (b & s' & Hb & Hd & Hk). rewrite (bind_ok _ _ _ _ _ Hb).
  eexists _, s'. split; [reflexivity|]. split; [exact Hd|]. split; [by destruct e|]. intros k Hkey. cbn.
  by rewrite Hk, rules_keep, score_keeps, identity_keeps.
Qed.

Lemma fan_out e hs s : exists s', for_each hs (fun h => attempted "handler.send_event failed" (handler_send_event h e)) s = (Ok tt, s') /\
  delivered s' = delivered s ++ map (fun h => item h e) hs.
Proof using Hsend Hlog.
  revert s. induction hs as [|h hs IH]; intros s; [eexists s; by rewrite app_nil_r|]. cbn [for_each map].
  assert (exists s1, attempted "handler.send_event failed" (handler_send_event h e) s = (Ok tt, s1) /\ delivered s1 = delivered s ++ [item h e])
    as (s1 & H1 & Hd1).
  { unfold attempted, catch. specialize (Hsend h e s). destruct (handler_send_event h e s) as [[[]|x] s1]; cbn [snd] in *; [by eexists|].
    exists (snd (log ERROR "handler.send_event failed" s1)). split; [reflexivity|]. by rewrite Hlog. }
  destruct (IH s1) as (s' & Hs' & Hd'). exists s'. rewrite (bind_ok _ _ _ _ _ H1), Hs', Hd', Hd1. by rewrite <- app_assoc.
Qed.

(** No handler is left out.  Whatever the handlers raise, sending an event returns; an
    event that is not muted is delivered to every handler exactly once, in order, the
    same to all of them: as it was given but for the keys of the enrichment. *)
Theorem every_handler_gets_every_event c e s :
  exists s', composite_send_event c e s = (Ok tt, s') /\
    if truthy (ev_type e) && negb (is_event_allowed (_event_filter c) (ev_type e)) then delivered s' = delivered s
    else exists e', enriched e e' /\ delivered s' = delivered s ++ map (fun h => item h e') (_handlers c).
Proof using Hsend Hlog Htime.
  unfold composite_send_event. destruct (_ && _); [by eexists|].
  assert (exists e' s1, (match _enricher c with Some ctx => enrich_event ctx e | None => ret e end) s = (Ok e', s1) /\
    delivered s1 = delivered s /\ enriched e e') as (e' & s1 & H1 & Hd1 & He).
  { destruct (_enricher c); [apply enrich_event_run|]. eexists e, s. split; [done|]. split; [done|]. by split; [destruct e|]. }
  rewrite (bind_ok _ _ _ _ _ H1). destruct (fan_out e' (_handlers c) s1) as (s' & Hs' & Hd'). exists s'. split; [done|].
  exists e'. split; [done|]. congruence.
Qed.
End facts.

(** * Starting and health *)

Section status.
Context `{TH : TelemetryHandlers} `{P : !TTLCache string bool PATH_CACHE_SIZE PATH_CACHE_TTL}.

(** A composite that has been started is degraded exactly when one of its handlers
    failed to start, and names those that did; starting again forgets the earlier
    failures. *)
Theorem degraded_spec (fails : string -> bool) c s :
  (forall h s, is_shown (fst (handler_start h s)) = negb (fails h)) ->
  exists s' c', composite_start (s, c) = (Ok tt, (s', c')) /\ _failed_handlers c' = List.filter fails (_handlers c) /\
    degraded c' = existsb fails (_handlers c).
Proof.
  intros Hf. unfold composite_start. unfold bind at 1, modify at 1, bind at 1, gets at 1. cbn [fst snd].
  set (c0 := c {{ _failed_handlers := [] }}). assert (_handlers c0 = _handlers c) as -> by (by destruct c).
  assert (forall hs s c1, exists s' c', for_each hs start_handler (s, c1) = (Ok tt, (s', c')) /\
    _failed_handlers c' = _failed_handlers c1 ++ List.filter fails hs) as Hloop.
  { induction hs as [|h hs IH]; intros s0 c1; [eexists s0, c1; by rewrite app_nil_r|]. cbn [for_each List.filter].
    assert (exists s1 c2, start_handler h (s0, c1) = (Ok tt, (s1, c2)) /\
      _failed_handlers c2 = _failed_handlers c1 ++ if fails h then [h] else []) as (s1 & c2 & H1 & Hc2).
    { unfold start_handler, catch, sys, zoom. cbn [fst snd]. specialize (Hf h s0). destruct (handler_start h s0) as [[[]|x] s1]; cbn in Hf;
        destruct (fails h); try done; cbn; eexists _, _; (split; [reflexivity|]); [by rewrite app_nil_r|by destruct c1]. }
    destruct (IH s1 c2) as (s' & c' & Hs' & Hc'). exists s', c'. rewrite (bind_ok _ _ _ _ _ H1), Hs'. split; [done|].
    rewrite Hc', Hc2, <- app_assoc. by destruct (fails h). }
  destruct (Hloop (_handlers c) s c0) as (s' & c' & Hs' & Hc'). rewrite (bind_ok _ _ _ _ _ Hs'). eexists s', _. split; [reflexivity|].
  assert (_failed_handlers c0 = []) as H0 by (by destruct c). rewrite H0 in Hc'. cbn [app] in Hc'.
  unfold degraded. cbn [fst snd]. split; [by destruct c'|]. assert (forall l, nonempty (List.filter fails l) = existsb fails l) as Hn.
  { induction l as [|h l IH]; [done|]. cbn. by destruct (fails h). }
  rewrite <- Hn, <- Hc'. by destruct c'.
Qed.
End status.

(** * Examples *)

Section examples.
#[local] Instance env : Env := sample_env (ticking 1000) redis_up.
#[local] Instance path_cache : TTLCache string bool PATH_CACHE_SIZE PATH_CACHE_TTL := assoc_ttl _ _.

(** Handlers that note what they are given; one of them always raises. *)
Definition noted (handler : string) (e : agent_event) : agent_event := e {{ ev_handler := handler }}.
Definition raises (handler : string) : bool := (handler =? "OtelHandler")%string.
Definition unless_raising {B} (handler : string) (b : B) : M Sys B :=
  if raises handler then raise (OtherError "RuntimeError" "exporter is gone") else ret b.

#[local] Instance noting : TelemetryHandlers := {|
  handler_send_event := fun handler e =>
    modify (fun s => s {{ agent_log ::= fun l => l ++ [noted handler e] }}) ;;; unless_raising handler tt;
  handler_send_metric := fun handler _ => unless_raising handler tt;
  handler_initialize_redis := fun handler => unless_raising handler tt;
  handler_start := fun handler => unless_raising handler tt;
  handler_stop := fun handler => unless_raising handler tt;
  handler_flush_buffer := fun handler => unless_raising handler tt;
  handler_get_dynamic_rules := fun handler => unless_raising handler None;
  handler_health_check := fun handler => unless_raising handler true
|}.

Definition three_handlers : CompositeAgentHandler :=
  CompositeAgentHandler_init ["OtelHandler"; "Agent"; "LogfireHandler"] (Some (mkFilter ["path_excluded"] []))
    (Some (mkEnrichment (mkTelemetryConfig None "shop" []) None None)).

Definition sample_ban_event : agent_event := AgentEvent "ip_banned" "198.51.100.7" "banned" "test" "ban" None [("duration", "60")].

Lemma every_handler_gets_every_event_witness :
  exists s' e', composite_send_event three_handlers sample_ban_event (sample_sys (ticking 1000) redis_up) = (Ok tt, s') /\
    enriched sample_ban_event e' /\ agent_log s' = map (fun h => noted h e') ["OtelHandler"; "Agent"; "LogfireHandler"].
Proof.
  destruct (every_handler_gets_every_event (P := path_cache) (agent_log (E := env)) noted) with (c := three_handlers) (e := sample_ban_event)
    (s := sample_sys (ticking 1000) redis_up) as (s' & Hs' & e' & He & Hd).
  - intros h e s. cbn. unfold unless_raising, bind, modify. destruct (raises h); by destruct s.
  - by intros l m [].
  - by intros [].
  - exists s', e'. done.
Defined.

Lemma degraded_spec_witness :
  exists s' c', composite_start (sample_sys (ticking 1000) redis_up, three_handlers) = (Ok tt, (s', c')) /\
    _failed_handlers c' = ["OtelHandler"] /\ degraded c' = true.
Proof.
  apply (degraded_spec raises three_handlers (sample_sys (ticking 1000) redis_up)).
  intros h s. cbn. unfold unless_raising. by destruct (raises h).
Defined.

(** Muted events reach no one; the events keep what they carried. *)
Example muted_events :
  let sent e := map ev_meta (agent_log (snd (composite_send_event three_handlers e (sample_sys (ticking 1000) redis_up)))) in
  sent (sample_ban_event {{ ev_type := "path_excluded" }}) = [] /\
  sent sample_ban_event = repeat [("duration", "60"); ("guard.service.name", "shop"); ("guard.threat_score", "70")] 3.
Proof. vm_compute. split; reflexivity. Qed.
End examples.
